(* ===== verification/_CoqProject ===== *)
-Q . S2P
Prelude.v
Types.v
Codec.v
Packet.v
FinPlan.v
FinPlanProgram.v
SystemProgram.v
Transactions.v
Entry.v
Block.v
Processor.v
ProcessorLaws.v
Replay.v
ProcessorRuns.v
Ledger.v
BlockThread.v
Window.v
WindowService.v
TransactionStage.v
VoteStage.v
WriteStage.v
Broadcast.v
Serving.v
Replicate.v
Requests.v
SigVerify.v
Faucet.v
Erasure.v
Fullnode.v
Rpc.v
Wallet.v
PeerChoice.v
Replicator.v
Client.v
