(* ===== verification/Prelude.v ===== *)
(** * Hypercube: a model of the node and its correctness

    Hypercube is a proof-of-history ledger node written in Rust.  A leader
    collects signed transactions, executes them, records what it accepted in a
    hash chain of entries, writes the entries to its ledger and broadcasts them
    as blobs; validators put the blobs in order, replay the entries and vote.
    Nodes find each other by gossip, ask each other for blobs they miss, and
    take turns as leader.  Clients send transactions and queries to a node.
    This library models that code as Rocq functions and proves what makes it
    correct.

    ** How the code is modelled

    A function of the source is a function here, with the source's name where
    Rocq allows it.  Mutable state is passed and returned.  [result] is
    [Result]; [outcome] says whether a call returned or panicked (index out of
    range, [unwrap] of an error, failed [assert!], trapped overflow).  Machine
    integers are [Z] with their width written out; [Profile] selects a build
    that traps overflow or one that wraps, and a theorem without a hypothesis on
    it holds for both.  Hash maps are [gmap]s; a function whose result depends on
    the order a hash map is walked in takes that order as an argument.  Objects
    behind an [Arc] are shared where that matters: the processors of a node live
    in a store and its services hold references into it.  The clock, random
    draws and what channels and sockets deliver are arguments.  A thread is the
    sequence of the turns of its loop.  Log output, metrics and counters are
    left out.

    Code outside the repository is a parameter with its documented behaviour as
    the laws of a class: [Bincode]/[BincodeOk] (bincode), [Sha256], [Ed25519],
    [ByteOrder] (byteorder), [Pkcs8], [Libloading] (native programs), [Games]
    (the tic-tac-toe programs the crate names and does not contain),
    [Jerasure]/[JerasureOk] (the erasure code), [Base58]/[Base58Ok] (bs58),
    [WeightedChoice]/[WeightedChoiceOk] (the draw of the rand crate), [DateText]
    and [JsonText] (chrono and serde_json text), [Outside] and [RpcServed] (HTTP
    and the JSON-RPC server that calls the methods of a node).  Each property
    that uses one is run on a concrete instance by its witness.  Floating-point
    numbers are the IEEE binary64 numbers of the Standard Library's [SpecFloat].

    ** Files

    - [Prelude]: outcomes, machine integers, bytes, tactics, shared lemmas.
    - [Types], [Codec]: keys, hashes, accounts, transactions
      ([common/src], [transaction.rs], [payment_plan.rs]); encodings as classes,
      and concrete codecs for the witnesses.
    - [Packet]: blobs and packet metadata ([packet.rs]).
    - [FinPlan], [FinPlanProgram]: payment plans and the contract program
      ([fin_plan.rs], [fin_plan_instruction.rs], [fin_plan_program.rs]).
    - [SystemProgram]: the system, storage and native programs
      ([builtin_pgm.rs], [storage_program.rs], [dynamic_program.rs], [programs/]).
    - [Transactions]: signing, builders and the packet check ([transaction.rs],
      [builtin_transaction.rs], [fin_plan_transaction.rs], [sigverify.rs],
      [hash.rs], [signature.rs]).
    - [Entry], [Block]: the hash chain, entries, packing, blobs, the mint
      ([pod.rs], [entry.rs], [ledger.rs], [mint.rs]).
    - [Processor]: the transaction processor and the leader's recorder
      ([transaction_processor.rs], [pod_recorder.rs]); [ProcessorLaws],
      [Replay], [ProcessorRuns] hold its theorems and runs.
    - [Ledger]: the ledger on disk, its verification and recovery ([ledger.rs]).
    - [BlockThread]: the gossip table and its messages ([blockthread.rs]).
    - [Window], [WindowService]: blobs put in order, repair and retransmission
      ([window.rs], [window_service.rs]).
    - [TransactionStage], [VoteStage], [WriteStage], [Broadcast]: the stages of
      a leader ([transaction_processoring_stage.rs], [vote_stage.rs],
      [write_stage.rs], [broadcast_stage.rs], sending in [blockthread.rs]).
    - [Serving]: the listener that answers gossip and repair requests
      ([blockthread.rs], [ledger.rs]).
    - [Replicate]: the stages of a validator and the entry stream
      ([replicate_stage.rs], [store_ledger_stage.rs], [entry_writer.rs]).
    - [SigVerify]: the signature stage ([sigverify.rs], [sigverify_stage.rs],
      [streamer.rs]).
    - [Requests]: queries and the client that sends them ([request.rs],
      [request_processor.rs], [request_stage.rs], [thin_client.rs]).
    - [Faucet]: the token faucet and its cap ([faucet.rs]).
    - [Erasure]: coding and recovery of blocks of the window ([erasure.rs]).
    - [Fullnode]: a node, its services and its change of role ([fullnode.rs],
      [tx_creator.rs], [tx_signer.rs], [rpu.rs], the joins of the stages).
    - [Rpc], [Wallet]: the JSON-RPC methods and the wallet that calls them
      ([rpc.rs], [qtc.rs]).
    - [PeerChoice]: whom a node gossips with ([choose_gossip_peer_strategy.rs]).
    - [Replicator]: a node that only keeps a stretch of the ledger
      ([replicator.rs]).
    - [Client]: transfers, polling and the search for the leader
      ([thin_client.rs]).

    The witnesses of a file are in a [Module] at its end.

    ** What is shown

    - Tokens: programs keep totals, a batch destroys exactly the fees it was
      charged, balances stay positive, rejected transactions change nothing, no
      transaction is accepted twice.
    - Contracts: the in-place reduction of a plan refines its declarative
      meaning; a contract pays once, to the key its plan names.
    - History: a chain commits to everything in it; what the leader records is
      what verification accepts; replay verifies all it processes.
    - Replication: a validator that replays what a leader recorded has the
      leader's state, and so has a node that restarts from its ledger.
    - Nodes: from a ledger a node starts in step with it; through any slots as
      leader or validator it stays in step, so two nodes with one ledger have
      one state; a leader that steps down is in step with what it had written.
    - Storage: the ledger reads back as written, and recovery after a torn
      write keeps exactly the complete entries; the write stage appends what it
      is sent up to a change of leader.
    - Network: what a leader broadcasts is what a validator receives; blobs
      received in any order and with repeats are delivered as the leader's
      entries in order; a missing blob is asked for, answered and fills its
      gap, or is restored by erasure coding; each blob is retransmitted once to
      each peer; gossip never skips an update; the table's lookups never panic;
      a node asks one of its peers as long as their weights fit a [u32]; a
      replicator stores exactly the entries it was to store.
    - Signatures and votes: only signed transactions are executed; an id that is
      voted on has the votes of two thirds of the nodes.
    - Clients: queries are answered with the state of the processor; a payment
      made with the wallet reaches the node's transaction port signed, and its
      printed signature confirms it; a payment on a date moves the tokens into a
      contract that pays them when the date is witnessed; a client finds the
      leader by gossip; the faucet stays within its cap.
    - Defects: theorems that state where the code does not do what it means to
      (a negative move, an erased account, a packer that never ends, a header
      that underflows, a message that stops a node's gossip, a JSON-RPC service
      left with an old processor, ...).

    ** Bounds and fuel

    Loops whose end is not structural take fuel and return [None] without it:
    [fit_search] (three times the number of transactions plus four), [pack]
    (more than the number of transactions), [consume] (one more than
    [WINDOW_SIZE]), [stage_transactions] (one more than the number of
    transactions), [rotation_loop] (one more than the number of entries),
    [coding_loop] (one more than the number of blobs), the entry reader (one
    more than the number of bytes).  The theorems show this fuel is enough, or,
    for the packer on an oversized transaction, that no fuel is.  A loop that
    waits ([await_balance], [await_airdrop], the client's queries, polls and
    search) runs on the list of turns it takes or on the bound the source gives
    it.

    ** Not modelled

    Sockets, threads, HTTP servers and the command-line programs; the CUDA
    signature check; metrics and logging; [client.rs], the fetch stages and
    [ncp.rs], which open sockets and start threads whose turns are modelled;
    files of keys and of node configurations.  Concurrency between the threads of
    a node is modelled as sequences of whole turns: a turn of the tick thread
    may fall between executing a batch and recording it, as in the source. *)

From Stdlib Require Import ZArith Lia.
From Stdlib Require Strings.Byte.
From stdpp Require Export base gmap list strings sorting fin_maps.

#[global] Set Default Goal Selector "!".

Declare Scope hc_scope.
Delimit Scope hc_scope with hc.
Open Scope hc_scope.
Open Scope Z_scope.

(** ** Results, panics

    [result] is Rust's [Result<A, E>].  [outcome] is what running a piece of
    code can give: a value, or a panic (index out of range, [unwrap] of an
    error, failed [assert!], arithmetic overflow in a checked build). *)

Inductive result (A E : Type) : Type :=
  | Ok (a : A)
  | Err (e : E).
Arguments Ok {A E} a.
Arguments Err {A E} e.

Inductive outcome (A : Type) : Type :=
  | Ret (a : A)
  | Panic.
Arguments Ret {A} a.
Arguments Panic {A}.

#[export] Instance outcome_ret : MRet outcome := fun A a => Ret a.
#[export] Instance outcome_bind : MBind outcome := fun A B f m =>
  match m with Ret a => f a | Panic => Panic end.
#[export] Instance outcome_fmap : FMap outcome := fun A B f m =>
  match m with Ret a => Ret (f a) | Panic => Panic end.

(** Rust's [e?] in a function that may also panic. *)
Definition try_bind {A B E} (m : outcome (result A E)) (k : A -> outcome (result B E)) :
    outcome (result B E) :=
  match m with
  | Ret (Ok x) => k x
  | Ret (Err e) => Ret (Err e)
  | Panic => Panic
  end.
Notation "x '<-?' m ; k" := (try_bind m (fun x => k))
  (at level 20, m at level 100, k at level 200, only parsing) : hc_scope.

#[export] Instance result_eq_dec `{EqDecision A, EqDecision E} : EqDecision (result A E).
Proof. solve_decision. Defined.
#[export] Instance outcome_eq_dec `{EqDecision A} : EqDecision (outcome A).
Proof. solve_decision. Defined.

Definition is_ok {A E} (r : result A E) : bool :=
  match r with Ok _ => true | Err _ => false end.
Definition is_err {A E} (r : result A E) : bool := negb (is_ok r).

(** [Result::ok]. *)
Definition ok {A E} (r : result A E) : option A :=
  match r with Ok a => Some a | Err _ => None end.

(** [Option::unwrap] / [expect]. *)
Definition unwrap {A} (o : option A) : outcome A :=
  match o with Some a => Ret a | None => Panic end.

(** [Result::unwrap] / [expect]. *)
Definition unwrap_result {A E} (r : result A E) : outcome A :=
  match r with Ok a => Ret a | Err _ => Panic end.

(** [assert!(b)]. *)
Definition rassert (b : bool) : outcome unit := if b then Ret tt else Panic.

(** Indexing a slice, and storing through an index: both panic out of range. *)
Definition index {A} (l : list A) (i : nat) : outcome A := unwrap (l !! i).
Definition update {A} (l : list A) (i : nat) (f : A -> A) : outcome (list A) :=
  match l !! i with Some x => Ret (<[i := f x]> l) | None => Panic end.

(** [&l[lo..hi]]. *)
Definition slice {A} (l : list A) (lo hi : nat) : outcome (list A) :=
  if ((lo <=? hi) && (hi <=? length l))%nat then Ret (take (hi - lo) (drop lo l)) else Panic.

(** Writing [data] through [&mut l[lo..hi]] with [io::Write]: the slice bounds
    are checked, then the bytes that fit are stored. *)
Definition write_slice {A} (l : list A) (lo hi : nat) (data : list A) : outcome (list A) :=
  if ((lo <=? hi) && (hi <=? length l))%nat then
    let d := take (hi - lo) data in
    Ret (take lo l ++ d ++ drop (lo + length d) l)
  else Panic.

(** [for x in l { s = f(s, x)?panic }]. *)
Fixpoint ofold {A S} (f : S -> A -> outcome S) (s : S) (l : list A) : outcome S :=
  match l with
  | [] => Ret s
  | x :: l' => s' ← f s x; ofold f s' l'
  end.

(** ** Machine integers

    A build of the crate either traps arithmetic overflow (the debug profile)
    or wraps (the release profile).  [overflow_checks] selects the profile; a
    theorem without a hypothesis on it holds for both. *)

Class Profile := overflow_checks : bool.

Definition i64_min : Z := - 2 ^ 63.
Definition i64_max : Z := 2 ^ 63 - 1.
Definition u64_max : Z := 2 ^ 64 - 1.
Definition in_i64 (z : Z) : bool := (i64_min <=? z) && (z <=? i64_max).
Definition in_u64 (z : Z) : bool := (0 <=? z) && (z <=? u64_max).
Definition in_u32 (z : Z) : bool := (0 <=? z) && (z <? 2 ^ 32).
Definition in_u16 (z : Z) : bool := (0 <=? z) && (z <? 2 ^ 16).
Definition wrap_i64 (z : Z) : Z := (z + 2 ^ 63) mod 2 ^ 64 - 2 ^ 63.
Definition wrap_u64 (z : Z) : Z := z mod 2 ^ 64.

Section Arith.
Context `{Profile}.

Definition arith (inr : Z -> bool) (wr : Z -> Z) (z : Z) : outcome Z :=
  if inr z then Ret z else if overflow_checks then Panic else Ret (wr z).

Definition i64_add (a b : Z) : outcome Z := arith in_i64 wrap_i64 (a + b).
Definition i64_sub (a b : Z) : outcome Z := arith in_i64 wrap_i64 (a - b).
Definition u64_add (a b : Z) : outcome Z := arith in_u64 wrap_u64 (a + b).
Definition u64_sub (a b : Z) : outcome Z := arith in_u64 wrap_u64 (a - b).
Definition u64_mul (a b : Z) : outcome Z := arith in_u64 wrap_u64 (a * b).

(** [a % b] panics on a zero divisor in every build. *)
Definition u64_rem (a b : Z) : outcome Z := if b =? 0 then Panic else Ret (a mod b).

(** [iter.sum::<i64>()]. *)
Definition i64_sum (l : list Z) : outcome Z := ofold i64_add 0 l.
End Arith.

Definition Zsum (l : list Z) : Z := foldr Z.add 0 l.

(** ** Bytes *)

Abbreviation byte := Byte.byte.
Abbreviation bytes := (list Byte.byte).

#[export] Instance byte_eq_dec : EqDecision byte := Byte.byte_eq_dec.
#[export] Program Instance byte_countable : Countable byte :=
  inj_countable Byte.to_N Byte.of_N _.
Next Obligation. intros b. apply Byte.of_to_N. Qed.

Definition byte_to_Z (b : byte) : Z := Z.of_N (Byte.to_N b).
Definition byte_of_Z (z : Z) : byte :=
  match Byte.of_N (Z.to_N (z mod 256)) with Some b => b | None => Byte.x00 end.

(** Little-endian encodings of width [n] bytes. *)
Fixpoint le_bytes (n : nat) (z : Z) : bytes :=
  match n with
  | O => []
  | S n' => byte_of_Z z :: le_bytes n' (z / 256)
  end.
Fixpoint le_val (bs : bytes) : Z :=
  match bs with
  | [] => 0
  | b :: bs' => byte_to_Z b + 256 * le_val bs'
  end.

(** ** Automation *)

Create HintDb hc.

Ltac destruct_match :=
  match goal with
  | |- context [match ?x with _ => _ end] =>
      lazymatch x with context [match _ with _ => _ end] => fail | _ => destruct x eqn:? end
  end.

Ltac destruct_match_in H :=
  match type of H with
  | context [match ?x with _ => _ end] =>
      lazymatch x with context [match _ with _ => _ end] => fail | _ => destruct x eqn:? end
  end.

(** Closes or simplifies hypotheses on results and outcomes. *)
Ltac inv_ret :=
  repeat match goal with
  | H : Ret _ = Ret _ |- _ => injection H as H; try subst
  | H : Panic = Ret _ |- _ => discriminate H
  | H : Ret _ = Panic |- _ => discriminate H
  | H : Ok _ = Ok _ |- _ => injection H as H; try subst
  | H : Err _ = Err _ |- _ => injection H as H; try subst
  | H : Ok _ = Err _ |- _ => discriminate H
  | H : Err _ = Ok _ |- _ => discriminate H
  end.

(** Results of type [unit] carry no information. *)
Ltac destruct_unit := repeat match goal with u : unit |- _ => destruct u end.

(** Boolean tests to propositions. *)
Ltac bool_prop :=
  repeat match goal with
  | H : _ && _ = true |- _ => apply andb_true_iff in H; destruct H
  | H : _ || _ = false |- _ => apply orb_false_iff in H; destruct H
  | H : negb _ = true |- _ => apply negb_true_iff in H
  | H : negb _ = false |- _ => apply negb_false_iff in H
  | H : bool_decide _ = true |- _ => apply bool_decide_eq_true in H
  | H : bool_decide _ = false |- _ => apply bool_decide_eq_false in H
  | H : (_ <=? _) = true |- _ => apply Z.leb_le in H
  | H : (_ <=? _) = false |- _ => apply Z.leb_gt in H
  | H : (_ <? _) = true |- _ => apply Z.ltb_lt in H
  | H : (_ <? _) = false |- _ => apply Z.ltb_ge in H
  | H : (_ =? _) = true |- _ => apply Z.eqb_eq in H
  | H : (_ =? _) = false |- _ => apply Z.eqb_neq in H
  end.

(** ** Lemmas: outcomes *)

Lemma bind_Ret {A B} (a : A) (f : A -> outcome B) : (Ret a ≫= f) = f a.
Proof. done. Qed.

Lemma bind_Ret_inv {A B} (m : outcome A) (f : A -> outcome B) b :
  (m ≫= f) = Ret b -> exists a, m = Ret a /\ f a = Ret b.
Proof. destruct m; [eauto|discriminate]. Qed.

Lemma index_Ret {A} (l : list A) i x : index l i = Ret x <-> l !! i = Some x.
Proof. unfold index, unwrap. destruct (l !! i); split; congruence. Qed.

(** Runs a successful call [H : m = Ret _] to its end, one goal per branch:
    binds are split, matches destructed, array reads turned into lookups. *)
Ltac run H :=
  repeat (
    simplify_eq/=; inv_ret; simplify_eq/=;
    lazymatch type of H with
    | (_ ≫= _) = Ret _ =>
        let x := fresh "x" in let E := fresh "Hrun" in
        apply bind_Ret_inv in H as (x & E & H);
        try rewrite index_Ret in E; try run E
    | (match ?x with _ => _ end) = Ret _ => destruct x eqn:?
    end); simplify_eq/=; inv_ret; simplify_eq/=.

Lemma index_Panic {A} (l : list A) i : index l i = Panic <-> (length l <= i)%nat.
Proof.
  unfold index, unwrap. rewrite <- lookup_ge_None.
  destruct (l !! i); split; congruence.
Qed.

Lemma update_Ret {A} (l l' : list A) i f :
  update l i f = Ret l' <-> exists x, l !! i = Some x /\ l' = <[i := f x]> l.
Proof.
  unfold update. destruct (l !! i) as [x|] eqn:E; split.
  - intros [= <-]. eauto.
  - intros (y & [= <-] & ->). done.
  - discriminate.
  - intros (y & [=] & _).
Qed.

Lemma update_length {A} (l l' : list A) i f : update l i f = Ret l' -> length l' = length l.
Proof. rewrite update_Ret. intros (x & _ & ->). apply length_insert. Qed.

Lemma slice_Ret {A} (l : list A) lo hi :
  (lo <= hi <= length l)%nat -> slice l lo hi = Ret (take (hi - lo) (drop lo l)).
Proof.
  intros. unfold slice. rewrite (proj2 (Nat.leb_le lo hi)), (proj2 (Nat.leb_le hi _)) by lia.
  done.
Qed.

Lemma slice_length {A} (l s : list A) lo hi : slice l lo hi = Ret s -> length s = (hi - lo)%nat.
Proof.
  unfold slice. destruct ((lo <=? hi) && (hi <=? length l))%nat eqn:E; [|discriminate].
  intros [= <-]. apply andb_true_iff in E as [?%Nat.leb_le ?%Nat.leb_le].
  rewrite length_take, length_drop. lia.
Qed.

Lemma slice_middle {A} (l a b c : list A) lo hi :
  l = a ++ b ++ c -> lo = length a -> hi = (length a + length b)%nat -> slice l lo hi = Ret b.
Proof.
  intros -> -> ->. rewrite slice_Ret by (rewrite !length_app; lia).
  by rewrite drop_app_length, take_app_length' by lia.
Qed.

Lemma write_slice_Ret {A} (l data : list A) lo hi :
  (lo <= hi <= length l)%nat -> length data = (hi - lo)%nat ->
  write_slice l lo hi data = Ret (take lo l ++ data ++ drop hi l).
Proof.
  intros ? Hd. unfold write_slice.
  rewrite (proj2 (Nat.leb_le lo hi)), (proj2 (Nat.leb_le hi _)) by lia. simpl.
  rewrite (take_ge data) by lia. do 4 f_equal. lia.
Qed.

Lemma write_slice_length {A} (l l' data : list A) lo hi :
  write_slice l lo hi data = Ret l' -> length l' = length l.
Proof.
  unfold write_slice. destruct (lo <=? hi)%nat eqn:E1; [|discriminate].
  destruct (hi <=? length l)%nat eqn:E2; [|discriminate]. intros [= <-].
  apply Nat.leb_le in E1, E2.
  rewrite !length_app, length_drop, !length_take. lia.
Qed.

Lemma ofold_app {A S} (f : S -> A -> outcome S) s l1 l2 :
  ofold f s (l1 ++ l2) = (s' ← ofold f s l1; ofold f s' l2).
Proof.
  revert s. induction l1 as [|x l1 IH]; intros s; [done|].
  simpl. destruct (f s x); [apply IH|done].
Qed.

(** Invariant rule for [ofold]. *)
Lemma ofold_invariant {A S} (P : S -> Prop) (f : S -> A -> outcome S) s l s' :
  (forall s x s', x ∈ l -> P s -> f s x = Ret s' -> P s') ->
  P s -> ofold f s l = Ret s' -> P s'.
Proof.
  revert s. induction l as [|x l IH]; simpl; intros s Hstep HP Hf.
  { by injection Hf as <-. }
  apply bind_Ret_inv in Hf as (s1 & H1 & H2).
  eapply IH; [|eapply Hstep; [|exact HP|exact H1]|exact H2].
  - intros s2 y s3 Hy. apply Hstep. by apply list_elem_of_further.
  - apply list_elem_of_here.
Qed.

(** ** Lemmas: machine arithmetic *)

Lemma wrap_i64_in z : in_i64 (wrap_i64 z) = true.
Proof.
  unfold in_i64, wrap_i64, i64_min, i64_max.
  pose proof (Z.mod_pos_bound (z + 2 ^ 63) (2 ^ 64) ltac:(lia)). lia.
Qed.

Lemma wrap_u64_in z : in_u64 (wrap_u64 z) = true.
Proof.
  unfold in_u64, wrap_u64, u64_max.
  pose proof (Z.mod_pos_bound z (2 ^ 64) ltac:(lia)). lia.
Qed.

Lemma wrap_i64_mod z : wrap_i64 z mod 2 ^ 64 = z mod 2 ^ 64.
Proof.
  unfold wrap_i64. rewrite Zminus_mod, Z.mod_mod, <- Zminus_mod by lia.
  f_equal. lia.
Qed.

Lemma wrap_u64_mod z : wrap_u64 z mod 2 ^ 64 = z mod 2 ^ 64.
Proof. apply Z.mod_mod. lia. Qed.

Lemma in_i64_iff z : in_i64 z = true <-> i64_min <= z <= i64_max.
Proof. unfold in_i64. rewrite andb_true_iff, !Z.leb_le. done. Qed.

Lemma in_u64_iff z : in_u64 z = true <-> 0 <= z <= u64_max.
Proof. unfold in_u64. rewrite andb_true_iff, !Z.leb_le. done. Qed.

Section ArithLemmas.
Context `{Profile}.

Lemma i64_add_exact a b : in_i64 (a + b) = true -> i64_add a b = Ret (a + b).
Proof. unfold i64_add, arith. by intros ->. Qed.
Lemma i64_sub_exact a b : in_i64 (a - b) = true -> i64_sub a b = Ret (a - b).
Proof. unfold i64_sub, arith. by intros ->. Qed.
Lemma u64_add_exact a b : in_u64 (a + b) = true -> u64_add a b = Ret (a + b).
Proof. unfold u64_add, arith. by intros ->. Qed.
Lemma u64_sub_exact a b : in_u64 (a - b) = true -> u64_sub a b = Ret (a - b).
Proof. unfold u64_sub, arith. by intros ->. Qed.

(** A value of width 64 that agrees with the exact result modulo 2^64, and
    is the exact result when the build traps overflow. *)
Lemma arith_i64_Ret z c : arith in_i64 wrap_i64 z = Ret c ->
  in_i64 c = true /\ c mod 2 ^ 64 = z mod 2 ^ 64 /\ (overflow_checks = true -> c = z).
Proof.
  unfold arith. destruct (in_i64 z) eqn:Hz.
  { by intros [= <-]. }
  destruct overflow_checks eqn:Hc; [discriminate|]. intros [= <-].
  split; [apply wrap_i64_in|]. split; [apply wrap_i64_mod|done].
Qed.

Lemma i64_add_Ret a b c : i64_add a b = Ret c ->
  in_i64 c = true /\ c mod 2 ^ 64 = (a + b) mod 2 ^ 64 /\ (overflow_checks = true -> c = a + b).
Proof. apply arith_i64_Ret. Qed.

Lemma i64_sub_Ret a b c : i64_sub a b = Ret c ->
  in_i64 c = true /\ c mod 2 ^ 64 = (a - b) mod 2 ^ 64 /\ (overflow_checks = true -> c = a - b).
Proof. apply arith_i64_Ret. Qed.

Lemma ofold_i64_add_Ret l a c : ofold i64_add a l = Ret c ->
  c mod 2 ^ 64 = (a + Zsum l) mod 2 ^ 64 /\ (overflow_checks = true -> c = a + Zsum l).
Proof.
  revert a. induction l as [|x l IH]; simpl; intros a Hf.
  { injection Hf as <-. split; [f_equal|intros _]; lia. }
  apply bind_Ret_inv in Hf as (b & Hb & Hf).
  apply i64_add_Ret in Hb as (_ & Hm & He). apply IH in Hf as [Hm' He'].
  split.
  - rewrite Hm', Zplus_mod, Hm, <- Zplus_mod. f_equal. lia.
  - intros Hc. rewrite (He' Hc), (He Hc). lia.
Qed.

Lemma i64_sum_Ret l c : i64_sum l = Ret c ->
  c mod 2 ^ 64 = Zsum l mod 2 ^ 64 /\ (overflow_checks = true -> c = Zsum l).
Proof. apply ofold_i64_add_Ret. Qed.
End ArithLemmas.

(** ** Lemmas: lists and sums *)

Lemma Zsum_cons x l : Zsum (x :: l) = x + Zsum l.
Proof. done. Qed.

Lemma Zsum_app l1 l2 : Zsum (l1 ++ l2) = Zsum l1 + Zsum l2.
Proof. induction l1; simpl; lia. Qed.

Lemma Zsum_insert l i x y : l !! i = Some x -> Zsum (<[i := y]> l) = Zsum l - x + y.
Proof.
  revert i. induction l as [|z l IH]; intros [|i] Hl; simplify_eq/=; [lia|].
  rewrite (IH i Hl). lia.
Qed.

Lemma Zsum_permutation l1 l2 : l1 ≡ₚ l2 -> Zsum l1 = Zsum l2.
Proof. induction 1; simpl; lia. Qed.

Lemma Zsum_nonneg l : Forall (fun x => 0 <= x) l -> 0 <= Zsum l.
Proof. induction 1; simpl; lia. Qed.

(** ** Lemmas: bytes *)

Lemma byte_of_Z_to_Z z : byte_to_Z (byte_of_Z z) = z mod 256.
Proof.
  unfold byte_of_Z, byte_to_Z.
  pose proof (Z.mod_pos_bound z 256 ltac:(lia)) as Hb.
  destruct (Byte.of_N (Z.to_N (z mod 256))) as [b|] eqn:E.
  - apply Byte.to_of_N in E. rewrite E. lia.
  - apply Byte.of_N_None_iff in E. lia.
Qed.

Lemma byte_of_Z_byte_to_Z b : byte_of_Z (byte_to_Z b) = b.
Proof.
  unfold byte_of_Z, byte_to_Z. pose proof (Byte.to_N_bounded b).
  by rewrite Z.mod_small, N2Z.id, Byte.of_to_N by lia.
Qed.

Lemma byte_to_Z_bound b : 0 <= byte_to_Z b < 256.
Proof. unfold byte_to_Z. pose proof (Byte.to_N_bounded b). lia. Qed.

Lemma length_le_bytes n z : length (le_bytes n z) = n.
Proof. revert z. induction n; intros; simpl; auto. Qed.

Lemma le_val_le_bytes n z : 0 <= z < 256 ^ Z.of_nat n -> le_val (le_bytes n z) = z.
Proof.
  revert z. induction n as [|n IH]; intros z Hz.
  { simpl in *. lia. }
  rewrite Nat2Z.inj_succ, Z.pow_succ_r in Hz by lia. cbn [le_bytes le_val].
  rewrite byte_of_Z_to_Z, IH.
  - pose proof (Z.div_mod z 256 ltac:(lia)). lia.
  - split; [apply Z.div_pos; lia|apply Z.div_lt_upper_bound; lia].
Qed.

Lemma le_val_bound bs : 0 <= le_val bs < 256 ^ Z.of_nat (length bs).
Proof.
  induction bs as [|b bs IH]; [simpl; lia|].
  cbn [le_val length]. rewrite Nat2Z.inj_succ, Z.pow_succ_r by lia.
  pose proof (byte_to_Z_bound b). lia.
Qed.

#[export] Hint Resolve update_length length_le_bytes : hc.
