(* ===== verification/Types.v ===== *)
(** * Data shared by every component

    Public keys, hashes and signatures (byte arrays), accounts, transactions,
    payments and witnesses, and the interface the program assumes of the
    [bincode] crate.  Sources: [common/src/pubkey.rs], [common/src/account.rs],
    [src/hash.rs], [src/signature.rs], [src/transaction.rs],
    [src/payment_plan.rs], [src/fin_plan_instruction.rs]. *)

From S2P Require Import Prelude.

(** ** Byte-array newtypes *)

Record Pubkey := mk_pubkey { pubkey_bytes : bytes }.
Record Hash := mk_hash { hash_bytes : bytes }.
Record Signature := mk_signature { signature_bytes : bytes }.

#[export] Instance Pubkey_eq_dec : EqDecision Pubkey.
Proof. solve_decision. Defined.
#[export] Instance Hash_eq_dec : EqDecision Hash.
Proof. solve_decision. Defined.
#[export] Instance Signature_eq_dec : EqDecision Signature.
Proof. solve_decision. Defined.

#[export] Program Instance Pubkey_countable : Countable Pubkey :=
  inj_countable' pubkey_bytes mk_pubkey _.
Next Obligation. by intros []. Qed.
#[export] Program Instance Hash_countable : Countable Hash :=
  inj_countable' hash_bytes mk_hash _.
Next Obligation. by intros []. Qed.
#[export] Program Instance Signature_countable : Countable Signature :=
  inj_countable' signature_bytes mk_signature _.
Next Obligation. by intros []. Qed.

(** [Pubkey::new] / [Hash::new]: [GenericArray::clone_from_slice] panics
    unless the slice has exactly 32 bytes. *)
Definition Pubkey_new (b : bytes) : outcome Pubkey :=
  if bool_decide (length b = 32%nat) then Ret (mk_pubkey b) else Panic.
Definition Hash_new (b : bytes) : outcome Hash :=
  if bool_decide (length b = 32%nat) then Ret (mk_hash b) else Panic.

Definition Pubkey_default : Pubkey := mk_pubkey (replicate 32 Byte.x00).
Definition Hash_default : Hash := mk_hash (replicate 32 Byte.x00).
Definition Signature_default : Signature := mk_signature (replicate 64 Byte.x00).

(** ** Accounts *)

Record Account := mk_account {
  tokens : Z;            (* i64 *)
  userdata : bytes;
  program_id : Pubkey }.

#[export] Instance Account_eq_dec : EqDecision Account.
Proof. solve_decision. Defined.

Definition Account_default : Account := mk_account 0 [] Pubkey_default.

Definition Account_new (t : Z) (space : nat) (pid : Pubkey) : Account :=
  mk_account t (replicate space Byte.x00) pid.

(** Field assignments. *)
Definition set_tokens (t : Z) (a : Account) : Account :=
  mk_account t (userdata a) (program_id a).
Definition set_userdata (u : bytes) (a : Account) : Account :=
  mk_account (tokens a) u (program_id a).
Definition set_program_id (p : Pubkey) (a : Account) : Account :=
  mk_account (tokens a) (userdata a) p.

(** ** Transactions *)

Record Transaction := mk_tx {
  tx_signature : Signature;
  tx_keys : list Pubkey;
  tx_program_id : Pubkey;
  tx_last_id : Hash;
  tx_fee : Z;            (* i64 *)
  tx_userdata : bytes }.

#[export] Instance Transaction_eq_dec : EqDecision Transaction.
Proof. solve_decision. Defined.

(** [Transaction::from]. *)
Definition tx_from (tx : Transaction) : outcome Pubkey := index (tx_keys tx) 0.

(** ** Payments and witnesses *)

(** [DateTime<Utc>] as nanoseconds since the epoch; only its order is used. *)
Definition DateTime := Z.

Inductive Witness :=
  | WTimestamp (dt : DateTime)
  | WSignature.

Record Payment := mk_payment { pay_tokens : Z; pay_to : Pubkey }.

#[export] Instance Witness_eq_dec : EqDecision Witness.
Proof. unfold DateTime in *. solve_decision. Defined.
#[export] Instance Payment_eq_dec : EqDecision Payment.
Proof. solve_decision. Defined.

Record Vote := mk_vote { vote_version : Z; vote_contact_info_version : Z }.
#[export] Instance Vote_eq_dec : EqDecision Vote.
Proof. solve_decision. Defined.

(** ** Well-formed values: the ranges the Rust types enforce *)

Class Wf (A : Type) := wf : A -> Prop.

#[export] Instance Pubkey_wf : Wf Pubkey := fun p => length (pubkey_bytes p) = 32%nat.
#[export] Instance Hash_wf : Wf Hash := fun h => length (hash_bytes h) = 32%nat.
#[export] Instance Signature_wf : Wf Signature := fun s => length (signature_bytes s) = 64%nat.
#[export] Instance Payment_wf : Wf Payment := fun p =>
  in_i64 (pay_tokens p) = true /\ wf (pay_to p).
#[export] Instance Vote_wf : Wf Vote := fun v =>
  in_u64 (vote_version v) = true /\ in_u64 (vote_contact_info_version v) = true.
#[export] Instance Account_wf : Wf Account := fun a =>
  in_i64 (tokens a) = true /\ wf (program_id a).

(** A vector's length fits a [usize]. *)
Definition vec_wf {A} (l : list A) : Prop := in_u64 (Z.of_nat (length l)) = true.

#[export] Instance Transaction_wf : Wf Transaction := fun tx =>
  wf (tx_signature tx) /\ Forall wf (tx_keys tx) /\ vec_wf (tx_keys tx) /\
  wf (tx_program_id tx) /\ wf (tx_last_id tx) /\ in_i64 (tx_fee tx) = true /\
  vec_wf (tx_userdata tx).

(** ** The serialisation interface

    [bincode] and the [serde]-derived code are third party; the program calls
    [serialize], [deserialize] and [serialized_size] on its own types.
    [BincodeOk] states what the program relies on: decoding inverts encoding,
    and what decodes is a value of the type. *)

Class Bincode (A : Type) := {
  serialize : A -> bytes;
  deserialize : bytes -> option A }.

Definition serialized_size `{Bincode A} (a : A) : Z := Z.of_nat (length (serialize a)).

Class BincodeOk (A : Type) `{Wf A} `{Bincode A} : Prop := {
  deserialize_serialize : forall a : A, wf a -> deserialize (serialize a) = Some a;
  deserialize_wf : forall bs (a : A), deserialize bs = Some a -> wf a }.

(** [bincode::deserialize] ignores what follows the value. *)
Class BincodeTrailing (A : Type) `{Wf A} `{Bincode A} : Prop :=
  deserialize_trailing : forall (a : A) rest, wf a -> deserialize (serialize a ++ rest) = Some a.

(** A [u64] as a value of its own type, with the width bincode gives it. *)
Record U64 := mk_u64 { u64_val : Z }.
#[export] Instance U64_wf : Wf U64 := fun n => in_u64 (u64_val n) = true.

Class BincodeU64Ok `{Bincode U64} : Prop := {
  u64_ok :: BincodeOk U64;
  u64_size : forall n : U64, wf n -> length (serialize n) = 8%nat;
  u64_total : forall bs, length bs = 8%nat -> is_Some (deserialize (A := U64) bs) }.

Lemma serialize_inj `{BincodeOk A} (a b : A) :
  wf a -> wf b -> serialize a = serialize b -> a = b.
Proof.
  intros Ha Hb Heq. apply (inj Some).
  by rewrite <- (deserialize_serialize a Ha), Heq, (deserialize_serialize b Hb).
Qed.

Lemma Pubkey_default_wf : wf Pubkey_default.
Proof. done. Qed.
Lemma Hash_default_wf : wf Hash_default.
Proof. done. Qed.
#[export] Hint Resolve Pubkey_default_wf Hash_default_wf : hc.

(** ** Sums of balances *)

Definition total_tokens (l : list Account) : Z := Zsum (tokens <$> l).

Lemma total_tokens_insert l i a b :
  l !! i = Some a -> total_tokens (<[i := b]> l) = total_tokens l - tokens a + tokens b.
Proof.
  intros Hl. unfold total_tokens. rewrite list_fmap_insert.
  apply Zsum_insert. by rewrite list_lookup_fmap, Hl.
Qed.

Lemma total_tokens_update l l' i f a :
  l !! i = Some a -> update l i f = Ret l' ->
  total_tokens l' = total_tokens l - tokens a + tokens (f a).
Proof.
  intros Hl (x & Hx & ->)%update_Ret. simplify_eq. by apply total_tokens_insert.
Qed.

(** Equality of token amounts as the build sees it: exact when overflow traps,
    modulo 2^64 otherwise. *)
Definition tokens_eq `{Profile} (a b : Z) : Prop :=
  a mod 2 ^ 64 = b mod 2 ^ 64 /\ (overflow_checks = true -> a = b).

Section TokensEq.
Context `{Profile}.

#[export] Instance tokens_eq_equiv : Equivalence tokens_eq.
Proof.
  unfold tokens_eq. split; red; intuition; congruence.
Qed.

#[export] Instance tokens_eq_add : Proper (tokens_eq ==> tokens_eq ==> tokens_eq) Z.add.
Proof.
  intros a a' [H1 H2] b b' [H3 H4]. split.
  - by rewrite Zplus_mod, H1, H3, <- Zplus_mod.
  - intros Hc. rewrite (H2 Hc), (H4 Hc). done.
Qed.

#[export] Instance tokens_eq_sub : Proper (tokens_eq ==> tokens_eq ==> tokens_eq) Z.sub.
Proof.
  intros a a' [H1 H2] b b' [H3 H4]. split.
  - by rewrite Zminus_mod, H1, H3, <- Zminus_mod.
  - intros Hc. rewrite (H2 Hc), (H4 Hc). done.
Qed.

Lemma i64_add_tokens_eq a b c : i64_add a b = Ret c -> tokens_eq c (a + b).
Proof. intros (_ & ? & ?)%i64_add_Ret. done. Qed.
Lemma i64_sub_tokens_eq a b c : i64_sub a b = Ret c -> tokens_eq c (a - b).
Proof. intros (_ & ? & ?)%i64_sub_Ret. done. Qed.
Lemma i64_sum_tokens_eq l c : i64_sum l = Ret c -> tokens_eq c (Zsum l).
Proof. apply i64_sum_Ret. Qed.

Lemma tokens_eq_exact a b : overflow_checks = true -> tokens_eq a b -> a = b.
Proof. intros Hc [_ He]. auto. Qed.

Lemma tokens_eq_of_eq a b : a = b -> tokens_eq a b.
Proof. by intros ->. Qed.

(** Storing a sum or a difference in an account shifts the total by it. *)
Lemma total_tokens_credit l l' i a t n :
  l !! i = Some a -> i64_add (tokens a) n = Ret t -> update l i (set_tokens t) = Ret l' ->
  tokens_eq (total_tokens l') (total_tokens l + n).
Proof.
  intros Hl Ht%i64_add_tokens_eq Hu. rewrite (total_tokens_update _ _ _ _ _ Hl Hu). simpl.
  rewrite Ht. apply tokens_eq_of_eq. lia.
Qed.

Lemma total_tokens_debit l l' i a t n :
  l !! i = Some a -> i64_sub (tokens a) n = Ret t -> update l i (set_tokens t) = Ret l' ->
  tokens_eq (total_tokens l') (total_tokens l - n).
Proof.
  intros Hl Ht%i64_sub_tokens_eq Hu. rewrite (total_tokens_update _ _ _ _ _ Hl Hu). simpl.
  rewrite Ht. apply tokens_eq_of_eq. lia.
Qed.
End TokensEq.
