(* ===== verification/Codec.v ===== *)
(** * A reference codec

    [bincode] is third party, so the components are verified against the
    interface [Bincode]/[BincodeOk] of [Types].  This file shows the interface
    can be met: combinators for the layout bincode documents (little-endian
    fixed-width integers, 64-bit lengths, 32-bit enum tags, 8-bit option tags),
    each with its laws.  The instances built from them are what the concrete
    witnesses run; no theorem about the program depends on them. *)

From S2P Require Import Prelude.
From S2P Require Import Types.

(** A printer and a prefix parser, for the values in [cwf]. *)
Record codec (A : Type) := Codec {
  enc : A -> bytes;
  dec : bytes -> option (A * bytes);
  cwf : A -> Prop;
  dec_enc : forall a rest, cwf a -> dec (enc a ++ rest) = Some (a, rest);
  dec_cwf : forall bs a rest, dec bs = Some (a, rest) -> cwf a;
  dec_ext : forall bs a rest more, dec bs = Some (a, rest) -> dec (bs ++ more) = Some (a, rest ++ more) }.
Arguments Codec {A}.
Arguments enc {A}. Arguments dec {A}. Arguments cwf {A}.
Arguments dec_enc {A}. Arguments dec_cwf {A}. Arguments dec_ext {A}.

Definition codec_bincode {A} (c : codec A) : Bincode A := {|
  serialize := enc c;
  deserialize bs := fst <$> dec c bs |}.

Lemma codec_bincode_ok {A} (c : codec A) `{Wf A} :
  (forall a, wf a <-> cwf c a) -> @BincodeOk A _ (codec_bincode c).
Proof.
  intros Hwf. split; simpl.
  - intros a Ha%Hwf. rewrite <- (app_nil_r (enc c a)), dec_enc; done.
  - intros bs a Hd. destruct (dec c bs) as [[a' rest]|] eqn:E; simplify_eq/=.
    apply Hwf. by eapply dec_cwf.
Qed.

Lemma codec_trailing {A} (c : codec A) `{Wf A} :
  (forall a, wf a <-> cwf c a) -> @BincodeTrailing A _ (codec_bincode c).
Proof.
  intros Hwf a rest Ha%Hwf. change (fst <$> dec c (enc c a ++ rest) = Some a). by rewrite dec_enc.
Qed.

(** Fixed-width unsigned integers. *)
Program Definition c_uint (n : nat) : codec Z := {|
  enc := le_bytes n;
  dec bs := if (n <=? length bs)%nat then Some (le_val (take n bs), drop n bs) else None;
  cwf z := 0 <= z < 256 ^ Z.of_nat n |}.
Next Obligation.
  intros n z rest Hz. simpl. rewrite length_app, length_le_bytes.
  rewrite (proj2 (Nat.leb_le _ _)) by lia.
  rewrite take_app_length', drop_app_length' by (by rewrite length_le_bytes).
  by rewrite le_val_le_bytes.
Qed.
Next Obligation.
  intros n bs a rest. simpl. destruct (n <=? length bs)%nat eqn:E; [|discriminate].
  intros [= <- _]. apply Nat.leb_le in E. pose proof (le_val_bound (take n bs)) as Hb.
  by rewrite length_take, Nat.min_l in Hb by lia.
Qed.
Next Obligation.
  intros n bs a rest more. simpl. rewrite length_app. intros Hd.
  destruct (Nat.leb_spec n (length bs)); simplify_eq.
  rewrite (proj2 (Nat.leb_le _ _)), take_app_le, drop_app_le by lia. done.
Qed.

(** Transport along a partial inverse. *)
Program Definition c_map {A B} (cB : codec B) (f : A -> B) (g : B -> option A) (w : A -> Prop)
    (Hfg : forall a, w a -> g (f a) = Some a)
    (Hf : forall a, w a -> cwf cB (f a))
    (Hg : forall b a, cwf cB b -> g b = Some a -> w a) : codec A := {|
  enc a := enc cB (f a);
  dec bs := '(b, rest) ← dec cB bs; a ← g b; Some (a, rest);
  cwf := w |}.
Next Obligation. intros. simpl. rewrite dec_enc by auto. simpl. by rewrite Hfg. Qed.
Next Obligation.
  intros. simpl in *. destruct (dec cB bs) as [[b r]|] eqn:Ed; simplify_eq/=.
  destruct (g b) eqn:E; simplify_eq/=. eapply Hg; [by eapply dec_cwf|done].
Qed.
Next Obligation.
  intros. simpl in *. destruct (dec cB bs) as [[b r]|] eqn:Ed; simplify_eq/=.
  rewrite (dec_ext _ _ _ _ more Ed). simpl. by destruct (g b); simplify_eq/=.
Qed.

(** An isomorphism, with the well-formedness read through it. *)
Definition c_iso {A B} (cB : codec B) (f : A -> B) (g : B -> A)
    (Hgf : forall a, g (f a) = a) (Hfg : forall b, f (g b) = b) : codec A.
Proof.
  refine (c_map cB f (fun b => Some (g b)) (fun a => cwf cB (f a)) _ _ _).
  - intros a _. by rewrite Hgf.
  - done.
  - intros b a Hb [= <-]. by rewrite Hfg.
Defined.

(** Two's complement [i64]. *)
Definition c_i64 : codec Z.
Proof.
  refine (c_map (c_uint 8) (fun z => z mod 2 ^ 64)
    (fun u => Some (if u <? 2 ^ 63 then u else u - 2 ^ 64)) (fun z => in_i64 z = true) _ _ _).
  - intros z Hz. rewrite in_i64_iff in Hz. unfold i64_min, i64_max in Hz. f_equal.
    destruct (Z.ltb_spec (z mod 2 ^ 64) (2 ^ 63)) as [Hlt|Hge].
    + destruct (decide (0 <= z)); [apply Z.mod_small; lia|].
      rewrite <- (Z.mod_add z 1), Z.mod_small in Hlt by lia. lia.
    + destruct (decide (0 <= z)); [rewrite Z.mod_small in Hge by lia; lia|].
      rewrite <- (Z.mod_add z 1), Z.mod_small by lia. lia.
  - intros z _. simpl. apply Z.mod_pos_bound. lia.
  - intros u z Hu [= <-]. simpl in Hu. apply in_i64_iff. unfold i64_min, i64_max.
    destruct (Z.ltb_spec u (2 ^ 63)); lia.
Defined.

(** Fixed-size byte arrays. *)
Program Definition c_array (n : nat) : codec bytes := {|
  enc bs := bs;
  dec bs := if (n <=? length bs)%nat then Some (take n bs, drop n bs) else None;
  cwf bs := length bs = n |}.
Next Obligation.
  intros n a rest <-. simpl. rewrite length_app, (proj2 (Nat.leb_le _ _)) by lia.
  by rewrite take_app_length, drop_app_length.
Qed.
Next Obligation.
  intros n bs a rest. simpl. destruct (n <=? length bs)%nat eqn:E; [|discriminate].
  intros [= <- _]. apply Nat.leb_le in E. rewrite length_take. lia.
Qed.
Next Obligation.
  intros n bs a rest more. simpl. rewrite length_app. intros Hd.
  destruct (Nat.leb_spec n (length bs)); simplify_eq.
  rewrite (proj2 (Nat.leb_le _ _)), take_app_le, drop_app_le by lia. done.
Qed.

Program Definition c_unit : codec unit := {|
  enc _ := []; dec bs := Some (tt, bs); cwf _ := True |}.
Next Obligation. by intros []. Qed.
Next Obligation. done. Qed.
Next Obligation. naive_solver. Qed.

Program Definition c_pair {A B} (ca : codec A) (cb : codec B) : codec (A * B) := {|
  enc p := enc ca p.1 ++ enc cb p.2;
  dec bs := '(a, r) ← dec ca bs; '(b, r') ← dec cb r; Some ((a, b), r');
  cwf p := cwf ca p.1 /\ cwf cb p.2 |}.
Next Obligation.
  intros A B ca cb [a b] rest [Ha Hb]. simpl in *.
  rewrite <- app_assoc, dec_enc by done. simpl. by rewrite dec_enc.
Qed.
Next Obligation.
  intros A B ca cb bs [a b] rest Hd. simpl in *.
  destruct (dec ca bs) as [[a' r]|] eqn:E1; simplify_eq/=.
  destruct (dec cb r) as [[b' r']|] eqn:E2; simplify_eq/=.
  split; by eapply dec_cwf.
Qed.
Next Obligation.
  intros A B ca cb bs p rest more Hd. simpl in *.
  destruct (dec ca bs) as [[a' r]|] eqn:E1; simplify_eq/=. rewrite (dec_ext _ _ _ _ more E1). simpl.
  destruct (dec cb r) as [[b' r']|] eqn:E2; simplify_eq/=. by rewrite (dec_ext _ _ _ _ more E2).
Qed.

(** [n] values in a row. *)
Fixpoint dec_n {A} (c : codec A) (n : nat) (bs : bytes) : option (list A * bytes) :=
  match n with
  | O => Some ([], bs)
  | S n' => '(a, r) ← dec c bs; '(l, r') ← dec_n c n' r; Some (a :: l, r')
  end.

Lemma dec_n_enc {A} (c : codec A) l rest : Forall (cwf c) l ->
  dec_n c (length l) (concat (enc c <$> l) ++ rest) = Some (l, rest).
Proof.
  induction 1 as [|a l Ha Hl IH]; [done|].
  cbn. rewrite <- app_assoc, dec_enc by done. simpl. by rewrite IH.
Qed.

Lemma dec_n_cwf {A} (c : codec A) n bs l rest : dec_n c n bs = Some (l, rest) ->
  Forall (cwf c) l /\ length l = n.
Proof.
  revert bs l rest. induction n as [|n IH]; intros bs l rest Hd; simplify_eq/=; [done|].
  destruct (dec c bs) as [[a r]|] eqn:E1; simplify_eq/=.
  destruct (dec_n c n r) as [[l' r']|] eqn:E2; simplify_eq/=.
  apply IH in E2 as [? <-]. split; [|done]. constructor; [by eapply dec_cwf|done].
Qed.

Lemma dec_n_ext {A} (c : codec A) n bs l rest more : dec_n c n bs = Some (l, rest) ->
  dec_n c n (bs ++ more) = Some (l, rest ++ more).
Proof.
  revert bs l rest. induction n as [|n IH]; intros bs l rest Hd; simplify_eq/=; [done|].
  destruct (dec c bs) as [[a r]|] eqn:E1; simplify_eq/=. rewrite (dec_ext _ _ _ _ more E1). simpl.
  destruct (dec_n c n r) as [[l' r']|] eqn:E2; simplify_eq/=. by rewrite (IH _ _ _ E2).
Qed.

(** [Vec<T>]: a 64-bit length, then the elements, none of them empty. *)
Definition nonempty_enc {A} (c : codec A) : Prop :=
  forall a, cwf c a -> (1 <= length (enc c a))%nat.

Lemma length_concat_enc {A} (c : codec A) l :
  nonempty_enc c -> Forall (cwf c) l -> (length l <= length (concat (enc c <$> l)))%nat.
Proof.
  intros Hne. induction 1 as [|a l Ha Hl IH]; [done|].
  cbn. rewrite length_app. specialize (Hne a Ha). lia.
Qed.

Lemma vec_wf_range {A} (l : list A) : vec_wf l <-> 0 <= Z.of_nat (length l) < 256 ^ Z.of_nat 8.
Proof. unfold vec_wf. rewrite in_u64_iff. unfold u64_max. lia. Qed.

Program Definition c_vec {A} (c : codec A) (Hne : nonempty_enc c) : codec (list A) := {|
  enc l := enc (c_uint 8) (Z.of_nat (length l)) ++ concat (enc c <$> l);
  dec bs := '(n, r) ← dec (c_uint 8) bs;
            if n <=? Z.of_nat (length r) then dec_n c (Z.to_nat n) r else None;
  cwf l := Forall (cwf c) l /\ vec_wf l |}.
Next Obligation.
  intros A c Hne l rest [Hl Hv]. cbn [enc]. rewrite <- app_assoc, dec_enc by (by apply vec_wf_range).
  cbn. pose proof (length_concat_enc c l Hne Hl).
  rewrite (proj2 (Z.leb_le _ _)) by (rewrite length_app; lia).
  by rewrite Nat2Z.id, dec_n_enc.
Qed.
Next Obligation.
  intros A c Hne bs l rest Hd.
  cbn [dec c_uint] in Hd. destruct (8 <=? length bs)%nat eqn:E; [|discriminate].
  cbn in Hd. destruct (_ <=? Z.of_nat _) eqn:E2; [|discriminate].
  apply dec_n_cwf in Hd as [? Hlen]. split; [done|]. apply vec_wf_range.
  apply Nat.leb_le in E. pose proof (le_val_bound (take 8 bs)) as Hb.
  rewrite length_take, Nat.min_l in Hb by lia. rewrite Hlen. lia.
Qed.
Next Obligation.
  intros A c Hne bs l rest more Hd. cbn beta in *.
  destruct (dec (c_uint 8) bs) as [[n r]|] eqn:E; [|discriminate].
  rewrite (dec_ext _ _ _ _ more E). cbn [mbind option_bind] in *.
  destruct (n <=? Z.of_nat (length r)) eqn:El; simplify_eq/=.
  rewrite (proj2 (Z.leb_le _ _)) by (bool_prop; rewrite length_app; lia). by apply dec_n_ext.
Qed.

Definition c_byte : codec byte.
Proof.
  refine (c_map (c_uint 1) byte_to_Z (fun z => Some (byte_of_Z z)) (fun _ => True) _ _ _); [|..|done].
  - intros b _. f_equal. unfold byte_of_Z, byte_to_Z.
    pose proof (Byte.to_N_bounded b). rewrite Z.mod_small by lia.
    by rewrite N2Z.id, Byte.of_to_N.
  - intros b _. apply byte_to_Z_bound.
Defined.

Lemma c_byte_nonempty : nonempty_enc c_byte.
Proof. intros b _. simpl. lia. Qed.

Definition c_bytes : codec bytes := c_vec c_byte c_byte_nonempty.

(** One-byte booleans and option tags: only 0 and 1 decode. *)
Definition c_bool : codec bool.
Proof.
  refine (c_map (c_uint 1) (fun b : bool => if b then 1 else 0)
    (fun z => if z =? 0 then Some false else if z =? 1 then Some true else None)
    (fun _ => True) _ _ _); [by intros []|intros []; simpl; lia|done].
Defined.

Program Definition c_option {A} (c : codec A) : codec (option A) := {|
  enc o := match o with None => enc c_bool false | Some a => enc c_bool true ++ enc c a end;
  dec bs := '(b, r) ← dec c_bool bs;
            if (b : bool) then '(a, r') ← dec c r; Some (Some a, r') else Some (None, r);
  cwf o := match o with None => True | Some a => cwf c a end |}.
Next Obligation.
  intros A c [a|] rest Ha; cbn [enc].
  - rewrite <- app_assoc, dec_enc by done. simpl. by rewrite dec_enc.
  - by rewrite dec_enc.
Qed.
Next Obligation.
  intros A c bs o rest Hd. cbn [dec] in Hd. destruct (dec c_bool bs) as [[[] r]|]; simplify_eq/=.
  - destruct (dec c r) as [[a r']|] eqn:E; simplify_eq/=. by eapply dec_cwf.
  - done.
Qed.
Next Obligation.
  intros A c bs o rest more Hd. cbn [dec] in *.
  destruct (dec c_bool bs) as [[b r]|] eqn:E; [|discriminate].
  rewrite (dec_ext _ _ _ _ more E). cbn [mbind option_bind] in *.
  destruct b; simplify_eq/=; [|done].
  destruct (dec c r) as [[a r']|] eqn:E2; simplify_eq/=. by rewrite (dec_ext _ _ _ _ more E2).
Qed.

(** Enums: a 32-bit tag, then the payload of the variant it names. *)
Record variants (A : Type) := Variants {
  vcount : nat;
  venc : A -> nat * bytes;
  vdec : nat -> bytes -> option (A * bytes);
  vwf : A -> Prop;
  vtag : forall a, vwf a -> ((venc a).1 < vcount)%nat;
  vdec_enc : forall a rest, vwf a -> vdec (venc a).1 ((venc a).2 ++ rest) = Some (a, rest);
  vdec_wf : forall n bs a rest, vdec n bs = Some (a, rest) -> vwf a;
  vdec_ext : forall n bs a rest more, vdec n bs = Some (a, rest) -> vdec n (bs ++ more) = Some (a, rest ++ more) }.
Arguments Variants {A}.
Arguments vcount {A}. Arguments venc {A}. Arguments vdec {A}. Arguments vwf {A}.

Program Definition v_last {A} (c : codec A) : variants A := {|
  vcount := 1;
  venc a := (O, enc c a);
  vdec n bs := match n with O => dec c bs | S _ => None end;
  vwf := cwf c |}.
Next Obligation. simpl. lia. Qed.
Next Obligation. intros. simpl. by apply dec_enc. Qed.
Next Obligation. intros A c [|n] bs a rest; [apply dec_cwf|discriminate]. Qed.
Next Obligation. intros A c [|n] bs a rest more; [apply dec_ext|discriminate]. Qed.

Program Definition v_or {A B} (c : codec A) (v : variants B) : variants (A + B) := {|
  vcount := S (vcount v);
  venc x := match x with inl a => (O, enc c a) | inr b => (S (venc v b).1, (venc v b).2) end;
  vdec n bs := match n with
    | O => '(a, r) ← dec c bs; Some (inl a, r)
    | S n' => '(b, r) ← vdec v n' bs; Some (inr b, r)
    end;
  vwf x := match x with inl a => cwf c a | inr b => vwf v b end |}.
Next Obligation. intros A B c v [a|b] Hw; simpl; [lia|]. apply vtag in Hw. lia. Qed.
Next Obligation.
  intros A B c v [a|b] rest Hw; simpl; [by rewrite dec_enc|by rewrite vdec_enc].
Qed.
Next Obligation.
  intros A B c v [|n] bs x rest Hd; simpl in Hd.
  - destruct (dec c bs) as [[a r]|] eqn:E; simplify_eq/=. by eapply dec_cwf.
  - destruct (vdec v n bs) as [[b r]|] eqn:E; simplify_eq/=. by eapply vdec_wf.
Qed.
Next Obligation.
  intros A B c v [|n] bs x rest more Hd; simpl in *.
  - destruct (dec c bs) as [[a r]|] eqn:E; simplify_eq/=. by rewrite (dec_ext _ _ _ _ more E).
  - destruct (vdec v n bs) as [[b r]|] eqn:E; simplify_eq/=. by rewrite (vdec_ext _ v _ _ _ _ more E).
Qed.

Program Definition c_enum {A} (v : variants A) (Hv : Z.of_nat (vcount v) < 2 ^ 32) : codec A := {|
  enc a := enc (c_uint 4) (Z.of_nat (venc v a).1) ++ (venc v a).2;
  dec bs := '(t, r) ← dec (c_uint 4) bs;
            if t <? Z.of_nat (vcount v) then vdec v (Z.to_nat t) r else None;
  cwf := vwf v |}.
Next Obligation.
  intros A v Hv a rest Hw. cbn [enc]. pose proof (vtag _ v a Hw).
  rewrite <- app_assoc, dec_enc by (simpl; lia). cbn.
  rewrite (proj2 (Z.ltb_lt _ _)) by lia. rewrite Nat2Z.id. by apply vdec_enc.
Qed.
Next Obligation.
  intros A v Hv bs a rest Hd. cbn [dec c_uint] in Hd.
  destruct (4 <=? length bs)%nat; [|discriminate]. cbn in Hd. destruct (_ <? _); [|discriminate].
  by eapply vdec_wf.
Qed.
Next Obligation.
  intros A v Hv bs a rest more Hd. cbn beta in *.
  destruct (dec (c_uint 4) bs) as [[t r]|] eqn:E; [|discriminate].
  rewrite (dec_ext _ _ _ _ more E). cbn [mbind option_bind] in *.
  destruct (t <? Z.of_nat (vcount v)); [|discriminate]. by apply vdec_ext.
Qed.

(** ** Instances for the shared types *)

Definition c_u64 : codec U64 := c_iso (c_uint 8) u64_val mk_u64
  ltac:(by intros []) ltac:(done).
Definition c_pubkey : codec Pubkey := c_iso (c_array 32) pubkey_bytes mk_pubkey
  ltac:(by intros []) ltac:(done).
Definition c_hash : codec Hash := c_iso (c_array 32) hash_bytes mk_hash
  ltac:(by intros []) ltac:(done).
Definition c_signature : codec Signature := c_iso (c_array 64) signature_bytes mk_signature
  ltac:(by intros []) ltac:(done).
Definition c_payment : codec Payment := c_iso (c_pair c_i64 c_pubkey)
  (fun p => (pay_tokens p, pay_to p)) (fun p => mk_payment p.1 p.2)
  ltac:(by intros []) ltac:(by intros []).
Definition c_vote : codec Vote := c_iso (c_pair (c_uint 8) (c_uint 8))
  (fun v => (vote_version v, vote_contact_info_version v)) (fun p => mk_vote p.1 p.2)
  ltac:(by intros []) ltac:(by intros []).

Lemma c_pubkey_nonempty : nonempty_enc c_pubkey.
Proof. intros [b] Hb. simpl in *. lia. Qed.

Definition c_transaction : codec Transaction := c_iso
  (c_pair c_signature (c_pair (c_vec c_pubkey c_pubkey_nonempty)
    (c_pair c_pubkey (c_pair c_hash (c_pair c_i64 c_bytes)))))
  (fun t => (tx_signature t, (tx_keys t, (tx_program_id t, (tx_last_id t, (tx_fee t, tx_userdata t))))))
  (fun '(s, (k, (p, (l, (f, u))))) => mk_tx s k p l f u)
  ltac:(by intros []) ltac:(by intros (?&?&?&?&?&?)).

Definition u64_bincode : Bincode U64 := codec_bincode c_u64.

Lemma u64_range z : in_u64 z = true <-> 0 <= z < 256 ^ Z.of_nat 8.
Proof. rewrite in_u64_iff. unfold u64_max. lia. Qed.

Lemma u64_bincode_ok : @BincodeU64Ok u64_bincode.
Proof.
  split.
  - apply codec_bincode_ok. intros [z]. apply u64_range.
  - intros n _. apply length_le_bytes.
  - intros bs Hl. unfold deserialize, u64_bincode. simpl. rewrite Hl. simpl. eauto.
Qed.
