(* ===== verification/Packet.v ===== *)
(** * Packets and blobs

    [src/packet.rs]: network metadata, the 65408-byte blob and the header
    fields kept at fixed offsets in its data (index, sender id, flags, size). *)

From S2P Require Import Prelude.
From S2P Require Import Types.
From S2P Require Import Codec.

(** ** Addresses and metadata *)

Inductive SocketAddr :=
  | V4 (octets : list byte) (port : Z)
  | V6 (segments : list Z) (port : Z).

#[export] Instance SocketAddr_eq_dec : EqDecision SocketAddr.
Proof. solve_decision. Defined.

Definition addr_port (a : SocketAddr) : Z := match a with V4 _ p | V6 _ p => p end.

#[export] Instance SocketAddr_wf : Wf SocketAddr := fun a =>
  match a with
  | V4 o p => length o = 4%nat /\ in_u16 p = true
  | V6 s p => length s = 8%nat /\ Forall (fun x => in_u16 x = true) s /\ in_u16 p = true
  end.

Record Meta := mk_meta {
  m_size : Z;
  m_num_retransmits : Z;
  m_addr : list Z;        (* [u16; 8] *)
  m_port : Z;
  m_v6 : bool }.

Definition Meta_default : Meta := mk_meta 0 0 (replicate 8 0) 0 false.

(** [Meta::addr]: the low byte of the first four words for an IPv4 address. *)
Definition Meta_get_addr (m : Meta) : outcome SocketAddr :=
  if m_v6 m then Ret (V6 (m_addr m) (m_port m))
  else
    a0 ← index (m_addr m) 0; a1 ← index (m_addr m) 1;
    a2 ← index (m_addr m) 2; a3 ← index (m_addr m) 3;
    Ret (V4 [byte_of_Z a0; byte_of_Z a1; byte_of_Z a2; byte_of_Z a3] (m_port m)).

Definition Meta_set_addr (m : Meta) (a : SocketAddr) : Meta :=
  match a with
  | V4 ip port =>
      mk_meta (m_size m) (m_num_retransmits m)
        ((byte_to_Z <$> take 4 ip) ++ [0; 0; 0; 0]) port false
  | V6 segments port => mk_meta (m_size m) (m_num_retransmits m) segments port true
  end.

Definition set_meta_size (n : Z) (m : Meta) : Meta :=
  mk_meta n (m_num_retransmits m) (m_addr m) (m_port m) (m_v6 m).
Definition set_num_retransmits (n : Z) (m : Meta) : Meta :=
  mk_meta (m_size m) n (m_addr m) (m_port m) (m_v6 m).

(** ** Sizes and offsets *)

Definition BLOB_SIZE : nat := N.to_nat 65408.
Definition PACKET_DATA_SIZE : nat := 512.
Definition BLOB_INDEX_END : nat := 8.
Definition BLOB_ID_END : nat := BLOB_INDEX_END + 32.
Definition BLOB_FLAGS_END : nat := BLOB_ID_END + 4.
Definition BLOB_SIZE_END : nat := BLOB_FLAGS_END + 8.

(** The [align!] macro. *)
Definition align (x a : Z) : Z := Z.land (x + (a - 1)) (Z.lnot (a - 1)).

Definition BLOB_FLAG_IS_CODING : Z := 1.
Definition BLOB_HEADER_SIZE : Z := align (Z.of_nat BLOB_SIZE_END) 64.
Definition BLOB_DATA_SIZE : Z := Z.of_nat BLOB_SIZE - BLOB_HEADER_SIZE * 2.

(** ** Blobs *)

Record Blob := mk_blob { b_data : bytes; b_meta : Meta }.

Definition Blob_default : Blob := mk_blob (replicate BLOB_SIZE Byte.x00) Meta_default.

Definition set_data (d : bytes) (b : Blob) : Blob := mk_blob d (b_meta b).
Definition set_meta (m : Meta) (b : Blob) : Blob := mk_blob (b_data b) m.

(** The array type fixes the length of the data. *)
#[export] Instance Blob_wf : Wf Blob := fun b => length (b_data b) = BLOB_SIZE.

Inductive BlobError := BadState | DeserializeError.

(** The [byteorder] crate's little-endian readers and writers. *)
Class ByteOrder := {
  write_u64 : Z -> bytes; read_u64 : bytes -> Z;
  write_u32 : Z -> bytes; read_u32 : bytes -> Z }.

Class ByteOrderOk `{ByteOrder} : Prop := {
  write_u64_length : forall z, length (write_u64 z) = 8%nat;
  write_u32_length : forall z, length (write_u32 z) = 4%nat;
  read_write_u64 : forall z, in_u64 z = true -> read_u64 (write_u64 z) = z;
  read_write_u32 : forall z, in_u32 z = true -> read_u32 (write_u32 z) = z;
  read_u64_range : forall b, length b = 8%nat -> in_u64 (read_u64 b) = true;
  read_u32_range : forall b, length b = 4%nat -> in_u32 (read_u32 b) = true }.

Section BlobOps.
Context `{Profile} `{ByteOrder} `{Bincode Pubkey}.

(** [self.data[lo..hi].clone_from_slice(&wtr)]: panics on a length mismatch. *)
Definition put (lo hi : nat) (wtr : bytes) (b : Blob) : outcome Blob :=
  _ ← rassert (bool_decide (length wtr = (hi - lo)%nat));
  d ← write_slice (b_data b) lo hi wtr;
  Ret (set_data d b).

Definition get_index (b : Blob) : outcome Z :=
  s ← slice (b_data b) 0 BLOB_INDEX_END; Ret (read_u64 s).
Definition set_index (b : Blob) (ix : Z) : outcome Blob := put 0 BLOB_INDEX_END (write_u64 ix) b.

Definition get_id (b : Blob) : outcome (result Pubkey BlobError) :=
  s ← slice (b_data b) BLOB_INDEX_END BLOB_ID_END;
  Ret (match deserialize (A := Pubkey) s with Some id => Ok id | None => Err DeserializeError end).
Definition set_id (b : Blob) (id : Pubkey) : outcome Blob :=
  put BLOB_INDEX_END BLOB_ID_END (serialize id) b.

Definition get_flags (b : Blob) : outcome Z :=
  s ← slice (b_data b) BLOB_ID_END BLOB_FLAGS_END; Ret (read_u32 s).
Definition set_flags (b : Blob) (ix : Z) : outcome Blob :=
  put BLOB_ID_END BLOB_FLAGS_END (write_u32 ix) b.

Definition is_coding (b : Blob) : outcome bool :=
  f ← get_flags b; Ret (negb (Z.land f BLOB_FLAG_IS_CODING =? 0)).
Definition set_coding (b : Blob) : outcome Blob :=
  flags ← get_flags b; set_flags b (Z.lor flags BLOB_FLAG_IS_CODING).

Definition get_data_size (b : Blob) : outcome Z :=
  s ← slice (b_data b) BLOB_FLAGS_END BLOB_SIZE_END; Ret (read_u64 s).
Definition set_data_size (b : Blob) (ix : Z) : outcome Blob :=
  put BLOB_FLAGS_END BLOB_SIZE_END (write_u64 ix) b.

(** [Blob::data]: what follows the header. *)
Definition blob_data (b : Blob) : outcome bytes :=
  slice (b_data b) (Z.to_nat BLOB_HEADER_SIZE) (length (b_data b)).

Definition get_size (b : Blob) : outcome (result Z BlobError) :=
  size ← get_data_size b;
  if m_size (b_meta b) =? size then
    n ← u64_sub size BLOB_HEADER_SIZE; Ret (Ok n)
  else Ret (Err BadState).

Definition set_size (b : Blob) (size : Z) : outcome Blob :=
  new_size ← u64_add size BLOB_HEADER_SIZE;
  set_data_size (set_meta (set_meta_size new_size (b_meta b)) b) new_size.

(** [to_blob]: a serialised message as a blob of its own, without a header. *)
Definition to_blob {T} `{Bincode T} (resp : T) (rsp_addr : SocketAddr) : outcome Blob :=
  let v := serialize resp in
  let len := length v in
  _ ← rassert (len <=? BLOB_SIZE)%nat;
  d ← write_slice (b_data Blob_default) 0 len v;
  Ret (mk_blob d (Meta_set_addr (set_meta_size (Z.of_nat len) Meta_default) rsp_addr)).

(** [to_blobs]. *)
Fixpoint to_blobs {T} `{Bincode T} (rsps : list (T * SocketAddr)) : outcome (list Blob) :=
  match rsps with
  | [] => Ret []
  | (resp, rsp_addr) :: rest =>
      b ← to_blob resp rsp_addr; bs ← to_blobs rest; Ret (b :: bs)
  end.
End BlobOps.

(** ** Lemmas *)

Lemma BLOB_HEADER_SIZE_eq : BLOB_HEADER_SIZE = 64.
Proof. reflexivity. Qed.
Lemma BLOB_DATA_SIZE_eq : BLOB_DATA_SIZE = 65280.
Proof. reflexivity. Qed.
Lemma BLOB_SIZE_ge : (64 <= BLOB_SIZE)%nat.
Proof. unfold BLOB_SIZE. lia. Qed.

Lemma put_Ret lo hi w b :
  (lo <= hi <= length (b_data b))%nat -> length w = (hi - lo)%nat ->
  put lo hi w b = Ret (set_data (take lo (b_data b) ++ w ++ drop hi (b_data b)) b).
Proof.
  intros Hr Hw. unfold put. rewrite bool_decide_true by done. simpl.
  by rewrite write_slice_Ret.
Qed.

(** Reading a field after writing one: the same field, or a disjoint one. *)
Lemma slice_put_same (d w : bytes) lo hi :
  (lo <= hi <= length d)%nat -> length w = (hi - lo)%nat ->
  slice (take lo d ++ w ++ drop hi d) lo hi = Ret w.
Proof.
  intros Hr Hw. apply (slice_middle _ (take lo d) w (drop hi d)); [done|rewrite length_take; lia..].
Qed.

Lemma slice_put_other (d w : bytes) lo hi lo' hi' :
  (lo <= hi <= length d)%nat -> length w = (hi - lo)%nat ->
  (lo' <= hi' <= length d)%nat -> (hi' <= lo \/ hi <= lo')%nat ->
  slice (take lo d ++ w ++ drop hi d) lo' hi' = slice d lo' hi'.
Proof.
  intros Hr Hw Hr' Hdisj.
  rewrite !slice_Ret by (rewrite ?length_app, ?length_take, ?length_drop; lia).
  f_equal. apply list_eq. intros i.
  destruct (decide (i < hi' - lo')%nat) as [Hi|Hi].
  - rewrite !lookup_take_lt, !lookup_drop by lia.
    destruct Hdisj as [Hd|Hd].
    + rewrite lookup_app_l, lookup_take_lt by (rewrite ?length_take; lia). done.
    + rewrite lookup_app_r, lookup_app_r, lookup_drop by (rewrite ?length_take; lia).
      f_equal. rewrite length_take. lia.
  - rewrite !lookup_take_ge by lia. done.
Qed.

Lemma length_put (d w : bytes) lo hi : (lo <= hi <= length d)%nat -> length w = (hi - lo)%nat ->
  length (take lo d ++ w ++ drop hi d) = length d.
Proof. intros. rewrite !length_app, length_take, length_drop. lia. Qed.

Lemma BLOB_SIZE_Z : Z.of_nat BLOB_SIZE = 65408.
Proof. unfold BLOB_SIZE. by rewrite N_nat_Z. Qed.
#[global] Opaque BLOB_SIZE.

(** The regions of a blob's data. *)
Inductive field := FIndex | FId | FFlags | FSize | FPayload.
#[export] Instance field_eq_dec : EqDecision field.
Proof. solve_decision. Defined.

Definition field_lo (f : field) : nat :=
  match f with FIndex => 0 | FId => 8 | FFlags => 40 | FSize => 44 | FPayload => 64 end.
Definition field_hi (f : field) : nat :=
  match f with FIndex => 8 | FId => 40 | FFlags => 44 | FSize => 52 | FPayload => BLOB_SIZE end.

(** The bytes of a region. *)
Definition field_of (f : field) (b : Blob) : outcome bytes := slice (b_data b) (field_lo f) (field_hi f).

Lemma field_bounds f b : wf b -> (field_lo f <= field_hi f <= length (b_data b))%nat.
Proof.
  unfold wf, Blob_wf. intros ->. pose proof BLOB_SIZE_ge. destruct f; simpl; lia.
Qed.

Lemma put_field f w b : wf b -> length w = (field_hi f - field_lo f)%nat ->
  exists b', put (field_lo f) (field_hi f) w b = Ret b' /\ wf b' /\ b_meta b' = b_meta b /\
    forall g, field_of g b' = if decide (f = g) then Ret w else field_of g b.
Proof.
  intros Hb Hw. pose proof (field_bounds f b Hb) as Hf.
  rewrite put_Ret by done. eexists. split; [done|].
  split; [unfold wf, Blob_wf in *; simpl; rewrite length_put by done; done|]. split; [done|].
  intros g. unfold field_of. simpl. pose proof (field_bounds g b Hb) as Hg. case_decide as Heq.
  - subst g. by apply slice_put_same.
  - apply slice_put_other; [done..|].
    destruct f, g; simpl in *; try lia; done.
Qed.

(** A blob whose metadata alone changes keeps its fields. *)
Lemma field_of_set_meta f m b : field_of f (set_meta m b) = field_of f b.
Proof. done. Qed.

(** What the wire format of a key is relied on for: it fills the id field. *)
Class PubkeyWire `{Bincode Pubkey} : Prop := {
  pubkey_ok :: BincodeOk Pubkey;
  pubkey_size : forall k : Pubkey, wf k -> length (serialize k) = 32%nat }.

Section BlobHeader.
Context `{Profile} `{ByteOrder} `{!ByteOrderOk} `{Bincode Pubkey} `{!PubkeyWire}.

(** The header a blob shows to a reader, and its payload. *)
Record header := mk_header { h_index : Z; h_id : Pubkey; h_flags : Z; h_size : Z }.

Definition shows (b : Blob) (h : header) : Prop :=
  get_index b = Ret (h_index h) /\ get_id b = Ret (Ok (h_id h)) /\
  get_flags b = Ret (h_flags h) /\ get_size b = Ret (Ok (h_size h)).

(** [set_size], [set_index], [set_id], [set_flags] in the order
    [Entry::to_blob] calls them. *)
Definition write_header (b : Blob) (h : header) : outcome Blob :=
  b1 ← set_size b (h_size h); b2 ← set_index b1 (h_index h);
  b3 ← set_id b2 (h_id h); set_flags b3 (h_flags h).

Lemma set_index_spec b ix : wf b -> exists b', set_index b ix = Ret b' /\ wf b' /\
  b_meta b' = b_meta b /\
  forall g, field_of g b' = if decide (FIndex = g) then Ret (write_u64 ix) else field_of g b.
Proof. intros Hb. apply (put_field FIndex); [done|apply write_u64_length]. Qed.

Lemma set_id_spec b id : wf b -> wf id -> exists b', set_id b id = Ret b' /\ wf b' /\
  b_meta b' = b_meta b /\
  forall g, field_of g b' = if decide (FId = g) then Ret (serialize id) else field_of g b.
Proof. intros Hb Hid. apply (put_field FId); [done|by apply pubkey_size]. Qed.

Lemma set_flags_spec b fl : wf b -> exists b', set_flags b fl = Ret b' /\ wf b' /\
  b_meta b' = b_meta b /\
  forall g, field_of g b' = if decide (FFlags = g) then Ret (write_u32 fl) else field_of g b.
Proof. intros Hb. apply (put_field FFlags); [done|apply write_u32_length]. Qed.

Lemma set_size_spec b n : wf b -> in_u64 (n + 64) = true -> exists b', set_size b n = Ret b' /\ wf b' /\
  b_meta b' = set_meta_size (n + 64) (b_meta b) /\
  forall g, field_of g b' = if decide (FSize = g) then Ret (write_u64 (n + 64)) else field_of g b.
Proof.
  intros Hb Hn. unfold set_size. rewrite BLOB_HEADER_SIZE_eq, u64_add_exact by done. simpl.
  apply (put_field FSize _ (set_meta _ b)); [done|apply write_u64_length].
Qed.

Lemma blob_data_field b : wf b -> blob_data b = field_of FPayload b.
Proof. unfold wf, Blob_wf, blob_data, field_of. intros ->. done. Qed.

(** A blob whose header regions hold the encodings of [h] shows [h]. *)
Lemma shows_fields b h : in_u64 (h_index h) = true -> wf (h_id h) -> in_u32 (h_flags h) = true ->
  0 <= h_size h -> in_u64 (h_size h + 64) = true -> m_size (b_meta b) = h_size h + 64 ->
  field_of FIndex b = Ret (write_u64 (h_index h)) -> field_of FId b = Ret (serialize (h_id h)) ->
  field_of FFlags b = Ret (write_u32 (h_flags h)) -> field_of FSize b = Ret (write_u64 (h_size h + 64)) ->
  shows b h.
Proof.
  intros Hix Hid Hfl Hn0 Hn Hm Fix Fid Ffl Fsz.
  unfold shows, get_index, get_id, get_flags, get_size, get_data_size.
  change (slice (b_data b) 0 BLOB_INDEX_END) with (field_of FIndex b).
  change (slice (b_data b) BLOB_INDEX_END BLOB_ID_END) with (field_of FId b).
  change (slice (b_data b) BLOB_ID_END BLOB_FLAGS_END) with (field_of FFlags b).
  change (slice (b_data b) BLOB_FLAGS_END BLOB_SIZE_END) with (field_of FSize b).
  rewrite Fix, Fid, Ffl, Fsz. simpl.
  rewrite !read_write_u64, read_write_u32, deserialize_serialize by done.
  rewrite Hm. simpl. rewrite Z.eqb_refl, BLOB_HEADER_SIZE_eq.
  rewrite u64_sub_exact; simpl.
  - do 3 (split; [done|]). do 2 f_equal. lia.
  - rewrite in_u64_iff in *. lia.
Qed.

(** Writing the header fields of a blob and reading them back gives the
    values written, none of them disturbs another, and the payload is left as
    it was. *)
Theorem blob_header_roundtrip : forall b h, wf b ->
  in_u64 (h_index h) = true -> wf (h_id h) -> in_u32 (h_flags h) = true ->
  0 <= h_size h -> in_u64 (h_size h + 64) = true ->
  exists b', write_header b h = Ret b' /\ wf b' /\ shows b' h /\ blob_data b' = blob_data b.
Proof.
  intros b [ix id fl n] Hb Hix Hid Hfl Hn0 Hn. simpl in *. unfold write_header. simpl.
  destruct (set_size_spec b n Hb Hn) as (b1 & -> & Hb1 & Hm1 & Hf1).
  destruct (set_index_spec b1 ix Hb1) as (b2 & E2 & Hb2 & Hm2 & Hf2).
  destruct (set_id_spec b2 id Hb2 Hid) as (b3 & E3 & Hb3 & Hm3 & Hf3).
  destruct (set_flags_spec b3 fl Hb3) as (b4 & E4 & Hb4 & Hm4 & Hf4).
  simpl. rewrite E2. simpl. rewrite E3. simpl. rewrite E4.
  exists b4. split; [done|]. split; [done|].
  assert (Hf : forall g, field_of g b4 = match g with
    | FIndex => Ret (write_u64 ix) | FId => Ret (serialize id) | FFlags => Ret (write_u32 fl)
    | FSize => Ret (write_u64 (n + 64)) | FPayload => field_of FPayload b end).
  { intros g. rewrite Hf4, Hf3, Hf2, Hf1. by destruct g. }
  split; [|rewrite !blob_data_field, Hf by done; done].
  apply shows_fields; rewrite ?Hf; simpl; try done. by rewrite Hm4, Hm3, Hm2, Hm1.
Qed.

(** A blob that arrives shorter than its header, and says so, is a crash:
    reading its size underflows, and a build that wraps then slices the
    payload out of range. *)
Theorem short_blob_panics : forall b n, wf b -> 0 <= n < 64 ->
  m_size (b_meta b) = n -> get_data_size b = Ret n ->
  match get_size b with
  | Panic => True
  | Ret (Ok msg_size) => exists d, blob_data b = Ret d /\ slice d 0 (Z.to_nat msg_size) = Panic
  | Ret (Err _) => False
  end.
Proof.
  intros b n Hb Hn Hm Hs. unfold get_size. rewrite Hs, Hm. simpl.
  rewrite Z.eqb_refl, BLOB_HEADER_SIZE_eq. unfold u64_sub, arith.
  assert (in_u64 (n - 64) = false) as -> by (apply andb_false_intro1, Z.leb_gt; lia).
  destruct overflow_checks; simpl; [done|].
  rewrite blob_data_field by done. pose proof (field_bounds FPayload b Hb) as Hf.
  unfold field_of. rewrite slice_Ret by done. eexists. split; [done|].
  unfold slice. rewrite andb_false_intro2; [done|]. apply Nat.leb_gt.
  rewrite length_take, length_drop. unfold wf, Blob_wf in Hb. rewrite Hb. simpl.
  pose proof BLOB_SIZE_Z. unfold wrap_u64.
  rewrite <- (Z.mod_add _ 1), Z.mod_small by lia. lia.
Qed.
End BlobHeader.

Section Metadata.
(** The address stored in a packet's metadata reads back as the address
    that was set, IPv4 and IPv6 alike. *)
Theorem meta_addr_roundtrip : forall m a, wf a -> Meta_get_addr (Meta_set_addr m a) = Ret a.
Proof.
  intros m [ip port|segs port] Hwf; [|done].
  destruct Hwf as [Hl _]. do 4 (destruct ip as [|? ip]; [discriminate|]).
  destruct ip; [|discriminate]. unfold Meta_get_addr. simpl.
  by rewrite !byte_of_Z_byte_to_Z.
Qed.
End Metadata.

(** ** The window size

    [window::WINDOW_SIZE], the number of recent blobs or entries a node keeps. *)

Definition WINDOW_SIZE : nat := Z.to_nat (2 * 1024).
Lemma WINDOW_SIZE_pos : (2 < WINDOW_SIZE)%nat.
Proof. unfold WINDOW_SIZE. lia. Qed.
Lemma WINDOW_SIZE_Z : Z.of_nat WINDOW_SIZE = 2048.
Proof. unfold WINDOW_SIZE. lia. Qed.
#[global] Opaque WINDOW_SIZE.

(** ** Reference instances and witnesses *)

Module PacketWitness.
#[local] Instance le : ByteOrder := {|
  write_u64 := le_bytes 8; read_u64 := le_val; write_u32 := le_bytes 4; read_u32 := le_val |}.

#[local] Instance le_ok : ByteOrderOk.
Proof.
  split; intros; cbn [write_u64 write_u32 read_u64 read_u32 le].
  - apply length_le_bytes.
  - apply length_le_bytes.
  - apply le_val_le_bytes. by apply u64_range.
  - apply le_val_le_bytes. unfold in_u32 in *. bool_prop. simpl. lia.
  - apply u64_range. pose proof (le_val_bound b) as Hb. by rewrite H in Hb.
  - pose proof (le_val_bound b) as Hb. rewrite H in Hb. unfold in_u32. simpl in *. lia.
Qed.

#[local] Instance pk : Bincode Pubkey := codec_bincode c_pubkey.
#[local] Instance pk_ok : PubkeyWire.
Proof. split; [by apply codec_bincode_ok|done]. Qed.
#[local] Instance wrapping : Profile := false.

Lemma default_blob_wf : wf Blob_default.
Proof. apply length_replicate. Qed.

Lemma blob_header_roundtrip_witness : exists b',
  write_header Blob_default (mk_header 17 Pubkey_default 1 100) = Ret b' /\ wf b' /\
  shows b' (mk_header 17 Pubkey_default 1 100) /\ blob_data b' = blob_data Blob_default.
Proof. apply blob_header_roundtrip; (apply default_blob_wf || vm_compute; done). Defined.

(** A 60-byte datagram whose size field says 60. *)
Definition short_blob : Blob :=
  mk_blob (replicate 44 Byte.x00 ++ le_bytes 8 60 ++ replicate (BLOB_SIZE - 52) Byte.x00)
          (set_meta_size 60 Meta_default).

Lemma short_blob_wf : wf short_blob.
Proof.
  unfold wf, Blob_wf, short_blob. simpl. rewrite length_replicate.
  pose proof BLOB_SIZE_ge. lia.
Qed.

Lemma short_blob_witness : match get_size short_blob with
  | Panic => True
  | Ret (Ok msg_size) => exists d, blob_data short_blob = Ret d /\ slice d 0 (Z.to_nat msg_size) = Panic
  | Ret (Err _) => False
  end.
Proof.
  apply (short_blob_panics short_blob 60); [apply short_blob_wf|lia|reflexivity|vm_compute; reflexivity].
Defined.

Lemma meta_addr_witness :
  Meta_get_addr (Meta_set_addr Meta_default (V4 [Byte.x7f; Byte.x00; Byte.x00; Byte.x01] 8000)) =
  Ret (V4 [Byte.x7f; Byte.x00; Byte.x00; Byte.x01] 8000).
Proof. apply meta_addr_roundtrip. done. Defined.
End PacketWitness.
