(* ===== verification/FinPlan.v ===== *)
(** * The payment-plan language

    [src/fin_plan.rs]: conditions, plans, and the reduction of a plan by
    witnesses; [src/fin_plan_instruction.rs]: the instructions of the fin_plan
    program.  The specification [settlement] says which payment a plan makes
    after a whole sequence of witnesses; the reduction refines it. *)

From S2P Require Import Prelude.
From S2P Require Import Types.

(** ** Conditions and plans *)

Inductive Condition :=
  | CTimestamp (dt : DateTime) (from : Pubkey)
  | CSignature (from : Pubkey).

Definition is_satisfied (c : Condition) (w : Witness) (from : Pubkey) : bool :=
  match c, w with
  | CSignature pubkey, WSignature => bool_decide (pubkey = from)
  | CTimestamp dt pubkey, WTimestamp last_time =>
      bool_decide (pubkey = from) && (dt <=? last_time)
  | _, _ => false
  end.

Inductive FinPlan :=
  | Pay (p : Payment)
  | After (c : Condition) (p : Payment)
  | Or (a b : Condition * Payment)
  | And (c0 c1 : Condition) (p : Payment).

#[export] Instance Condition_eq_dec : EqDecision Condition.
Proof. unfold DateTime in *. solve_decision. Defined.
#[export] Instance FinPlan_eq_dec : EqDecision FinPlan.
Proof. solve_decision. Defined.

Definition new_payment (t : Z) (to : Pubkey) : FinPlan := Pay (mk_payment t to).

Definition new_authorized_payment (from : Pubkey) (t : Z) (to : Pubkey) : FinPlan :=
  After (CSignature from) (mk_payment t to).

Definition new_2_2_multisig_payment (from0 from1 : Pubkey) (t : Z) (to : Pubkey) : FinPlan :=
  And (CSignature from0) (CSignature from1) (mk_payment t to).

Definition new_future_payment (dt : DateTime) (from : Pubkey) (t : Z) (to : Pubkey) : FinPlan :=
  After (CTimestamp dt from) (mk_payment t to).

Definition new_cancelable_future_payment (dt : DateTime) (from : Pubkey) (t : Z) (to : Pubkey)
    : FinPlan :=
  Or (CTimestamp dt from, mk_payment t to) (CSignature from, mk_payment t from).

Definition final_payment (plan : FinPlan) : option Payment :=
  match plan with Pay payment => Some payment | _ => None end.

(** [FinPlan::verify]: the plan spends exactly [spendable_tokens]. *)
Definition plan_verify (plan : FinPlan) (spendable_tokens : Z) : bool :=
  match plan with
  | Pay payment | After _ payment | And _ _ payment => pay_tokens payment =? spendable_tokens
  | Or a b => (pay_tokens a.2 =? spendable_tokens) && (pay_tokens b.2 =? spendable_tokens)
  end.

Definition apply_witness (plan : FinPlan) (w : Witness) (from : Pubkey) : FinPlan :=
  let new_fin_plan :=
    match plan with
    | After cond payment => if is_satisfied cond w from then Some (Pay payment) else None
    | Or (c1, p1) (c2, p2) =>
        if is_satisfied c1 w from then Some (Pay p1)
        else if is_satisfied c2 w from then Some (Pay p2)
        else None
    | And cond0 cond1 payment =>
        if is_satisfied cond0 w from then Some (After cond1 payment)
        else if is_satisfied cond1 w from then Some (After cond0 payment)
        else None
    | Pay _ => None
    end in
  match new_fin_plan with Some p => p | None => plan end.

(** ** Instructions *)

Record Contract := mk_contract { contract_tokens : Z; contract_fin_plan : FinPlan }.

Inductive Instruction :=
  | NewContract (c : Contract)
  | ApplyTimestamp (dt : DateTime)
  | ApplySignature
  | NewVote (v : Vote).

#[export] Instance Contract_eq_dec : EqDecision Contract.
Proof. solve_decision. Defined.
#[export] Instance Instruction_eq_dec : EqDecision Instruction.
Proof. unfold DateTime in *. solve_decision. Defined.

(** ** Well-formedness *)

#[export] Instance Condition_wf : Wf Condition := fun c =>
  match c with
  | CTimestamp dt p => in_i64 dt = true /\ wf p
  | CSignature p => wf p
  end.
#[export] Instance FinPlan_wf : Wf FinPlan := fun plan =>
  match plan with
  | Pay p => wf p
  | After c p => wf c /\ wf p
  | Or a b => (wf a.1 /\ wf a.2) /\ (wf b.1 /\ wf b.2)
  | And c0 c1 p => wf c0 /\ wf c1 /\ wf p
  end.
#[export] Instance Contract_wf : Wf Contract := fun c =>
  in_i64 (contract_tokens c) = true /\ wf (contract_fin_plan c).
#[export] Instance Instruction_wf : Wf Instruction := fun i =>
  match i with
  | NewContract c => wf c
  | ApplyTimestamp dt => in_i64 dt = true
  | ApplySignature => True
  | NewVote v => wf v
  end.

(** ** Specification: the payment a sequence of witnesses settles *)

Definition witnessed := (Witness * Pubkey)%type.

Definition sat (c : Condition) (w : witnessed) : bool := is_satisfied c w.1 w.2.

(** Reducing a plan by each witness in turn. *)
Definition apply_witnesses (plan : FinPlan) (ws : list witnessed) : FinPlan :=
  fold_left (fun pl w => apply_witness pl w.1 w.2) ws plan.

(** The suffix that follows the first witness accepted by [f], with it. *)
Fixpoint find_suffix (f : witnessed -> bool) (ws : list witnessed)
    : option (witnessed * list witnessed) :=
  match ws with
  | [] => None
  | w :: ws' => if f w then Some (w, ws') else find_suffix f ws'
  end.

(** Read off the plan and the witnesses, without reducing: an [Or] is decided
    by the first witness either branch accepts, the first branch winning; an
    [And] needs the condition left over by the first accepted witness to be
    met strictly later. *)
Definition settlement (plan : FinPlan) (ws : list witnessed) : option Payment :=
  match plan with
  | Pay p => Some p
  | After c p => if existsb (sat c) ws then Some p else None
  | Or (c1, p1) (c2, p2) =>
      match find_suffix (fun w => sat c1 w || sat c2 w) ws with
      | Some (w, _) => Some (if sat c1 w then p1 else p2)
      | None => None
      end
  | And c0 c1 p =>
      match find_suffix (fun w => sat c0 w || sat c1 w) ws with
      | Some (w, rest) =>
          if existsb (sat (if sat c0 w then c1 else c0)) rest then Some p else None
      | None => None
      end
  end.

(** Witnesses a plan still waits for. *)
Definition pending_witnesses (plan : FinPlan) : nat :=
  match plan with Pay _ => 0 | After _ _ | Or _ _ => 1 | And _ _ _ => 2 end.

(** Payments a plan may make. *)
Definition plan_payments (plan : FinPlan) : list Payment :=
  match plan with
  | Pay p | After _ p | And _ _ p => [p]
  | Or a b => [a.2; b.2]
  end.

(** ** Lemmas *)

Lemma apply_witness_Pay p w from : apply_witness (Pay p) w from = Pay p.
Proof. done. Qed.

Lemma apply_witnesses_Pay p ws : apply_witnesses (Pay p) ws = Pay p.
Proof. induction ws as [|w ws IH]; [done|apply IH]. Qed.

Lemma apply_witnesses_cons plan w ws :
  apply_witnesses plan (w :: ws) = apply_witnesses (apply_witness plan w.1 w.2) ws.
Proof. done. Qed.

Lemma apply_witness_decreases plan w from :
  apply_witness plan w from = plan \/
  (pending_witnesses (apply_witness plan w from) < pending_witnesses plan)%nat.
Proof.
  destruct plan as [p|c p|[c1 p1] [c2 p2]|c0 c1 p]; unfold apply_witness; simpl;
    repeat destruct_match; simplify_eq/=; (left; done) || (right; lia).
Qed.

Lemma apply_witness_payments plan w from p :
  p ∈ plan_payments (apply_witness plan w from) -> p ∈ plan_payments plan.
Proof.
  rewrite !list_elem_of_In.
  destruct plan as [q|c q|[c1 p1] [c2 p2]|c0 c1 q]; unfold apply_witness; simpl;
    repeat destruct_match; simplify_eq/=; tauto.
Qed.

Lemma plan_verify_payments plan n :
  plan_verify plan n = true <-> Forall (fun p => pay_tokens p = n) (plan_payments plan).
Proof.
  destruct plan as [q|c q|[c1 p1] [c2 p2]|c0 c1 q]; simpl;
    rewrite ?andb_true_iff, ?Z.eqb_eq, ?Forall_cons, ?Forall_nil; tauto.
Qed.

Lemma apply_witness_wf plan w from : wf plan -> wf (apply_witness plan w from).
Proof.
  destruct plan as [q|c q|[c1 p1] [c2 p2]|c0 c1 q]; unfold apply_witness; simpl;
    repeat destruct_match; simplify_eq/=; unfold wf, FinPlan_wf; simpl; tauto.
Qed.

(** Exposes one reduction step against the specification. *)
Ltac step_witness :=
  rewrite apply_witnesses_cons; unfold settlement, apply_witness in *; simpl in *;
  unfold sat in *; simpl in *.

Lemma After_settlement c p ws :
  final_payment (apply_witnesses (After c p) ws) = settlement (After c p) ws.
Proof.
  induction ws as [|[w f] ws IH]; [done|].
  step_witness.
  destruct (is_satisfied c w f); simpl; [by rewrite apply_witnesses_Pay|exact IH].
Qed.

Lemma Or_settlement a b ws :
  final_payment (apply_witnesses (Or a b) ws) = settlement (Or a b) ws.
Proof.
  destruct a as [c1 p1], b as [c2 p2].
  induction ws as [|[w f] ws IH]; [done|]. step_witness.
  destruct (is_satisfied c1 w f) eqn:E1; simpl; rewrite ?E1; [by rewrite apply_witnesses_Pay|].
  destruct (is_satisfied c2 w f) eqn:E2; simpl; rewrite ?E1; [by rewrite apply_witnesses_Pay|].
  exact IH.
Qed.

Lemma And_settlement c0 c1 p ws :
  final_payment (apply_witnesses (And c0 c1 p) ws) = settlement (And c0 c1 p) ws.
Proof.
  induction ws as [|[w f] ws IH]; [done|]. step_witness.
  destruct (is_satisfied c0 w f) eqn:E1; simpl; rewrite ?E1; [apply After_settlement|].
  destruct (is_satisfied c1 w f) eqn:E2; simpl; rewrite ?E1; [apply After_settlement|].
  exact IH.
Qed.

Lemma apply_witnesses_payments plan ws p :
  p ∈ plan_payments (apply_witnesses plan ws) -> p ∈ plan_payments plan.
Proof.
  revert plan. induction ws as [|w ws IH]; intros plan; [done|].
  rewrite apply_witnesses_cons. intros Hp. eapply apply_witness_payments, IH, Hp.
Qed.

Lemma final_payment_Some plan p : final_payment plan = Some p -> p ∈ plan_payments plan.
Proof. destruct plan; simpl; intros; simplify_eq. set_solver. Qed.

Lemma sat_signature k w : sat (CSignature k) w = true <-> w = (WSignature, k).
Proof.
  destruct w as [[dt|] f]; unfold sat; simpl; [split; [discriminate|congruence]|].
  rewrite bool_decide_eq_true. split; [by intros ->|congruence].
Qed.

Lemma existsb_sat_signature k ws :
  existsb (sat (CSignature k)) ws = true <-> (WSignature, k) ∈ ws.
Proof.
  rewrite existsb_exists, list_elem_of_In. split.
  - by intros (w & Hw & ->%sat_signature).
  - intros Hin. eexists. split; [exact Hin|by apply sat_signature].
Qed.

Lemma is_Some_if {A} (b : bool) (x : A) : is_Some (if b then Some x else None) <-> b = true.
Proof. destruct b; split; done || by intros [? [=]]. Qed.

Lemma multisig_settlement f0 f1 t to ws : f0 <> f1 ->
  is_Some (settlement (new_2_2_multisig_payment f0 f1 t to) ws) <->
  (WSignature, f0) ∈ ws /\ (WSignature, f1) ∈ ws.
Proof.
  intros Hne. induction ws as [|w ws IH]; cbn -[sat] in *.
  { split; [intros [? [=]]|]. by intros [?%not_elem_of_nil _]. }
  rewrite !elem_of_cons.
  destruct (sat (CSignature f0) w) eqn:E0; cbn -[sat]; rewrite ?E0;
    [|destruct (sat (CSignature f1) w) eqn:E1; cbn -[sat]; rewrite ?E0].
  - rewrite is_Some_if, existsb_sat_signature. apply sat_signature in E0. intuition congruence.
  - rewrite is_Some_if, existsb_sat_signature. apply sat_signature in E1. intuition congruence.
  - rewrite IH.
    assert (w <> (WSignature, f0)) by (rewrite <- sat_signature, E0; done).
    assert (w <> (WSignature, f1)) by (rewrite <- sat_signature, E1; done).
    intuition congruence.
Qed.

#[export] Hint Resolve apply_witness_wf : hc.

(** ** Properties *)

(** C16: reducing a plan by a sequence of witnesses ends in a final payment
    exactly when, and for exactly the payment that, the declarative reading of
    the plan assigns to that sequence: the in-place reduction refines
    [settlement]. *)
Theorem apply_witnesses_settlement : forall plan ws,
  final_payment (apply_witnesses plan ws) = settlement plan ws.
Proof.
  intros [p|c p|a b|c0 c1 p] ws.
  - by rewrite apply_witnesses_Pay.
  - apply After_settlement.
  - apply Or_settlement.
  - apply And_settlement.
Qed.

(** A two-of-two payment between distinct keys is made if and only if both
    keys have signed, in either order, whatever other witnesses arrive. *)
Theorem multisig_pays_iff_both_sign : forall f0 f1 t to ws, f0 <> f1 ->
  is_Some (final_payment (apply_witnesses (new_2_2_multisig_payment f0 f1 t to) ws)) <->
  (WSignature, f0) ∈ ws /\ (WSignature, f1) ∈ ws.
Proof. intros. unfold new_2_2_multisig_payment. rewrite And_settlement. by apply multisig_settlement. Qed.

(** Whatever witnesses are applied to a plan that verifies for [n] tokens,
    the payment it ends with is one the plan names and is worth exactly [n]. *)
Theorem settled_payment_sound : forall plan n ws p,
  plan_verify plan n = true -> final_payment (apply_witnesses plan ws) = Some p ->
  p ∈ plan_payments plan /\ pay_tokens p = n.
Proof.
  intros plan n ws p Hv Hp%final_payment_Some%apply_witnesses_payments.
  split; [done|]. apply plan_verify_payments in Hv. by rewrite Forall_forall in Hv; apply Hv.
Qed.

(** ** Witnesses *)

Definition key (n : nat) : Pubkey := mk_pubkey (byte_of_Z (Z.of_nat n) :: replicate 31 Byte.x07).

Lemma multisig_witness : key 1 <> key 2 /\
  (is_Some (final_payment (apply_witnesses (new_2_2_multisig_payment (key 1) (key 2) 42 (key 3))
     [(WSignature, key 2); (WTimestamp 5, key 1); (WSignature, key 1)])) <->
   (WSignature, key 1) ∈ [(WSignature, key 2); (WTimestamp 5, key 1); (WSignature, key 1)] /\
   (WSignature, key 2) ∈ [(WSignature, key 2); (WTimestamp 5, key 1); (WSignature, key 1)]).
Proof. split; [discriminate|]. apply multisig_pays_iff_both_sign. discriminate. Defined.

Lemma settled_payment_witness :
  mk_payment 42 (key 1) ∈ plan_payments (new_cancelable_future_payment 10 (key 1) 42 (key 2)) /\
  pay_tokens (mk_payment 42 (key 1)) = 42.
Proof.
  apply (settled_payment_sound _ 42 [(WTimestamp 9, key 1); (WSignature, key 1); (WTimestamp 11, key 1)]);
    reflexivity.
Defined.
