(* ===== verification/FinPlanProgram.v ===== *)
(** * The fin_plan program

    [src/fin_plan_program.rs]: the on-chain program that holds a payment plan
    in the userdata of a contract account, moves tokens into it when the
    contract is created and out of it when its plan settles. *)

From S2P Require Import Prelude.
From S2P Require Import Types.
From S2P Require Import Codec.
From S2P Require Import FinPlan.

Inductive FinPlanError :=
  | InsufficientFunds (k : Pubkey)
  | ContractAlreadyExists (k : Pubkey)
  | ContractNotPending (k : Pubkey)
  | SourceIsPendingContract (k : Pubkey)
  | UninitializedContract (k : Pubkey)
  | NegativeTokens
  | DestinationMissing (k : Pubkey)
  | FailedWitness
  | UserdataTooSmall
  | UserdataDeserializeFailure.

#[export] Instance FinPlanError_eq_dec : EqDecision FinPlanError.
Proof. solve_decision. Defined.

Record FinPlanState := mk_state {
  initialized : bool;
  pending_fin_plan : option FinPlan }.

#[export] Instance FinPlanState_eq_dec : EqDecision FinPlanState.
Proof. solve_decision. Defined.

Definition FinPlanState_default : FinPlanState := mk_state false None.

#[export] Instance FinPlanState_wf : Wf FinPlanState := fun s =>
  match pending_fin_plan s with Some plan => wf plan | None => True end.

Definition BUDGET_PROGRAM_ID : bytes := Byte.x01 :: replicate 31 Byte.x00.

Definition FinPlan_id : Pubkey := mk_pubkey BUDGET_PROGRAM_ID.
Definition FinPlan_check_id (pid : Pubkey) : bool :=
  bool_decide (pubkey_bytes pid = BUDGET_PROGRAM_ID).

Definition is_pending (s : FinPlanState) : bool := bool_decide (pending_fin_plan s <> None).

(** A step that mutates accounts gives the accounts as it leaves them and its
    result; a panic leaves nothing. *)
Section Program.
Context `{Profile} `{Bincode Instruction} `{Bincode FinPlanState} `{Bincode U64}.

(** [FinPlanState::apply_signature] and [apply_timestamp] differ in the
    witness only; both give the state, the accounts and the result. *)
Definition apply_final (s : FinPlanState) (keys : list Pubkey) (accounts : list Account)
    (w : Witness) : outcome (FinPlanState * list Account * result unit FinPlanError) :=
  '(s1, final) ← match pending_fin_plan s with
    | Some plan =>
        from ← index keys 0;
        let plan' := apply_witness plan w from in
        Ret (mk_state (initialized s) (Some plan'), final_payment plan')
    | None => Ret (s, None)
    end;
  match final with
  | Some payment =>
      missing ← (if (length keys <? 2)%nat then Ret true
                 else k2 ← index keys 2; Ret (bool_decide (pay_to payment <> k2)));
      if (missing : bool) then Ret (s1, accounts, Err (DestinationMissing (pay_to payment)))
      else
        let s2 := mk_state (initialized s1) None in
        a1 ← index accounts 1;
        t1 ← i64_sub (tokens a1) (pay_tokens payment);
        accs1 ← update accounts 1 (set_tokens t1);
        a2 ← index accs1 2;
        t2 ← i64_add (tokens a2) (pay_tokens payment);
        accs2 ← update accs1 2 (set_tokens t2);
        Ret (s2, accs2, Ok tt)
  | None => Ret (s1, accounts, Ok tt)
  end.

Definition apply_signature (s : FinPlanState) (keys : list Pubkey) (accounts : list Account) :=
  apply_final s keys accounts WSignature.

Definition apply_timestamp (s : FinPlanState) (keys : list Pubkey) (accounts : list Account)
    (dt : DateTime) :=
  apply_final s keys accounts (WTimestamp dt).

Definition apply_debits_to_fin_plan_state (tx : Transaction) (accounts : list Account)
    (instruction : Instruction) : outcome (list Account * result unit FinPlanError) :=
  a0 ← index accounts 0;
  if negb (bool_decide (userdata a0 = [])) then
    k0 ← index (tx_keys tx) 0; Ret (accounts, Err (SourceIsPendingContract k0))
  else match instruction with
  | NewContract contract =>
      if contract_tokens contract <? 0 then Ret (accounts, Err NegativeTokens)
      else if tokens a0 <? contract_tokens contract then
        k0 ← index (tx_keys tx) 0; Ret (accounts, Err (InsufficientFunds k0))
      else
        t0 ← i64_sub (tokens a0) (contract_tokens contract);
        accs ← update accounts 0 (set_tokens t0);
        Ret (accs, Ok tt)
  | _ => Ret (accounts, Ok tt)
  end.

(** [FinPlanState::serialize] into an account's userdata. *)
Definition state_serialize (s : FinPlanState) (out : bytes) : outcome (bytes * result unit FinPlanError) :=
  let body := serialize s in
  let len := length body in
  if (length out <? len)%nat then Ret (out, Err UserdataTooSmall)
  else
    out1 ← write_slice out 0 8 (serialize (mk_u64 (Z.of_nat len)));
    out2 ← write_slice out1 8 (8 + len) body;
    Ret (out2, Ok tt).

(** [FinPlanState::deserialize]; the error is always [SizeLimit] or
    bincode's own, and every caller drops it. *)
Definition state_deserialize (input : bytes) : outcome (option FinPlanState) :=
  if (length input <? 8)%nat then Ret None
  else
    prefix ← slice input 0 8;
    len ← unwrap (deserialize (A := U64) prefix);
    if u64_val len <? 2 then Ret None
    else
      stop ← u64_add 8 (u64_val len);
      if Z.of_nat (length input) <? stop then Ret None
      else body ← slice input 8 (Z.to_nat stop); Ret (deserialize body).

(** [state.serialize(&mut accounts[1].userdata)]. *)
Definition store_state (s : FinPlanState) (accounts : list Account) : outcome (list Account * result unit FinPlanError) :=
  a1 ← index accounts 1;
  '(u, r) ← state_serialize s (userdata a1);
  accs ← update accounts 1 (set_userdata u);
  Ret (accs, r).

Definition apply_credits_to_fin_plan_state (tx : Transaction) (accounts : list Account)
    (instruction : Instruction) : outcome (list Account * result unit FinPlanError) :=
  let apply_pending (w : Witness) :=
    a1 ← index accounts 1;
    existing ← state_deserialize (userdata a1);
    match existing with
    | Some state =>
        if negb (is_pending state) then
          k1 ← index (tx_keys tx) 1; Ret (accounts, Err (ContractNotPending k1))
        else if negb (initialized state) then
          k1 ← index (tx_keys tx) 1; Ret (accounts, Err (UninitializedContract k1))
        else
          '(state', accs, r) ← apply_final state (tx_keys tx) accounts w;
          match r with
          | Err e => Ret (accs, Err e)
          | Ok _ => store_state state' accs
          end
    | None => k1 ← index (tx_keys tx) 1; Ret (accounts, Err (UninitializedContract k1))
    end in
  match instruction with
  | NewContract contract =>
      let fin_plan := contract_fin_plan contract in
      match final_payment fin_plan with
      | Some payment =>
          a1 ← index accounts 1;
          t1 ← i64_add (tokens a1) (pay_tokens payment);
          accs ← update accounts 1 (set_tokens t1);
          Ret (accs, Ok tt)
      | None =>
          a1 ← index accounts 1;
          existing ← state_deserialize (userdata a1);
          if bool_decide (initialized <$> existing = Some true) then
            k1 ← index (tx_keys tx) 1; Ret (accounts, Err (ContractAlreadyExists k1))
          else
            t1 ← i64_add (tokens a1) (contract_tokens contract);
            accs ← update accounts 1 (set_tokens t1);
            store_state (mk_state true (Some fin_plan)) accs
      end
  | ApplyTimestamp dt => apply_pending (WTimestamp dt)
  | ApplySignature => apply_pending WSignature
  | NewVote _ => Ret (accounts, Ok tt)
  end.

(** [FinPlanState::process_transaction]. *)
Definition finplan_process (tx : Transaction) (accounts : list Account) : outcome (list Account * result unit FinPlanError) :=
  match deserialize (A := Instruction) (tx_userdata tx) with
  | Some instruction =>
      '(accs, r) ← apply_debits_to_fin_plan_state tx accounts instruction;
      match r with
      | Ok _ => apply_credits_to_fin_plan_state tx accs instruction
      | Err e => Ret (accs, Err e)
      end
  | None => Ret (accounts, Err UserdataDeserializeFailure)
  end.

(** [FinPlanState::get_balance] decodes the userdata with bincode's own
    [deserialize], not with [FinPlanState::deserialize]. *)
Definition finplan_get_balance (a : Account) : Z :=
  match deserialize (A := FinPlanState) (userdata a) with
  | Some state => if is_pending state then 0 else tokens a
  | None => tokens a
  end.
End Program.

(** ** Lemmas *)

(** The tokens an instruction creates or destroys on its own: a contract that
    pays at once credits its payment but debits its contract amount. *)
Definition imbalance (i : Instruction) : Z :=
  match i with
  | NewContract c =>
      match final_payment (contract_fin_plan c) with
      | Some p => pay_tokens p - contract_tokens c
      | None => 0
      end
  | _ => 0
  end.

(** The witness an instruction carries. *)
Definition witness_of (i : Instruction) : option Witness :=
  match i with
  | ApplyTimestamp dt => Some (WTimestamp dt)
  | ApplySignature => Some WSignature
  | _ => None
  end.


Section Balance.
Context `{Profile} `{Bincode Instruction} `{Bincode FinPlanState} `{Bincode U64}.

Lemma store_state_balance s accs accs' r :
  store_state s accs = Ret (accs', r) ->
  total_tokens accs' = total_tokens accs /\ length accs' = length accs.
Proof.
  unfold store_state. intros Hs. run Hs.
  split; [|eauto with hc]. erewrite total_tokens_update by eauto. simpl. lia.
Qed.

(** Every step of the program keeps the number of accounts. *)
Lemma finplan_process_length tx accs accs' r :
  finplan_process tx accs = Ret (accs', r) -> length accs' = length accs.
Proof.
  unfold finplan_process, apply_debits_to_fin_plan_state, apply_credits_to_fin_plan_state, apply_final.
  intros Hs.
  run Hs; repeat match goal with
    | Hu : update _ _ _ = Ret _ |- _ => apply update_length in Hu
    | Hm : store_state _ _ = Ret _ |- _ => apply store_state_balance in Hm as [_ Hm]
    end; congruence.
Qed.

Lemma apply_final_balance s keys accs w s' accs' r :
  apply_final s keys accs w = Ret (s', accs', r) ->
  tokens_eq (total_tokens accs') (total_tokens accs).
Proof.
  unfold apply_final. intros Hs. run Hs; try done.
  rewrite (total_tokens_credit _ _ _ _ _ _ Hrun4 Hrun5 Hrun6).
  rewrite (total_tokens_debit _ _ _ _ _ _ Hrun Hrun2 Hrun3).
  apply tokens_eq_of_eq. lia.
Qed.

Lemma debits_balance tx accs i accs' r :
  apply_debits_to_fin_plan_state tx accs i = Ret (accs', r) ->
  match r, i with
  | Ok _, NewContract c => tokens_eq (total_tokens accs') (total_tokens accs - contract_tokens c)
  | _, _ => accs' = accs
  end.
Proof.
  unfold apply_debits_to_fin_plan_state. intros Hs. run Hs; try done.
  by apply (total_tokens_debit _ _ _ _ _ _ Hrun Hrun0 Hrun1).
Qed.

Lemma credits_balance tx accs i accs' :
  apply_credits_to_fin_plan_state tx accs i = Ret (accs', Ok tt) ->
  tokens_eq (total_tokens accs')
    (total_tokens accs + match i with
       | NewContract c =>
           match final_payment (contract_fin_plan c) with
           | Some p => pay_tokens p
           | None => contract_tokens c
           end
       | _ => 0
       end).
Proof.
  unfold apply_credits_to_fin_plan_state. intros Hs. destruct i; run Hs; rewrite ?Z.add_0_r.
  - by apply (total_tokens_credit _ _ _ _ _ _ Hrun Hrun0 Hrun1).
  - apply store_state_balance in Hs as [-> _].
    by apply (total_tokens_credit _ _ _ _ _ _ Hrun Hrun1 Hrun2).
  - apply store_state_balance in Hs as [-> _]. by apply apply_final_balance in Hrun1.
  - apply store_state_balance in Hs as [-> _]. by apply apply_final_balance in Hrun1.
  - done.
Qed.
End Balance.

Section Storage.
Context `{Profile} `{Bincode Instruction} `{Bincode FinPlanState} `{!BincodeOk FinPlanState} `{BincodeU64Ok}.

(** The bytes of a stored state: an 8-byte length, the encoded state, and
    whatever the buffer held past it. *)
Definition stored (s : FinPlanState) (out : bytes) : bytes :=
  serialize (mk_u64 (serialized_size s)) ++ serialize s ++ drop (8 + length (serialize s)) out.

Lemma state_serialize_fits s out :
  (8 + length (serialize s) <= length out)%nat -> vec_wf out ->
  state_serialize s out = Ret (stored s out, Ok tt).
Proof.
  intros Hfit Hvec. unfold state_serialize. cbv zeta.
  assert (Hl : length (serialize (mk_u64 (serialized_size s))) = 8%nat).
  { apply u64_size. revert Hvec. unfold vec_wf, wf, U64_wf. rewrite !in_u64_iff.
    unfold serialized_size. simpl. lia. }
  rewrite (proj2 (Nat.ltb_ge _ _)) by lia.
  fold (serialized_size s). rewrite write_slice_Ret by (rewrite ?Hl; lia).
  rewrite bind_Ret.
  rewrite write_slice_Ret by (rewrite ?length_app, ?length_drop, ?Hl, ?take_0; simpl; lia).
  rewrite bind_Ret. unfold stored. rewrite take_0, app_nil_l.
  rewrite (take_app_length' _ _ 8), drop_app_ge, drop_drop, Hl by lia.
  do 5 f_equal. lia.
Qed.

Lemma state_deserialize_stored s out :
  wf s -> 2 <= serialized_size s -> in_u64 (8 + serialized_size s) = true ->
  state_deserialize (stored s out) = Ret (Some s).
Proof.
  intros Hs Hmin Hu. unfold state_deserialize, stored.
  set (pre := serialize (mk_u64 (serialized_size s))).
  assert (Hw : wf (mk_u64 (serialized_size s))).
  { unfold wf, U64_wf. rewrite in_u64_iff in *. simpl. lia. }
  assert (Hl : length pre = 8%nat) by by apply u64_size.
  rewrite (proj2 (Nat.ltb_ge _ _)) by (rewrite length_app; lia).
  rewrite slice_Ret by (rewrite length_app; lia). simpl.
  rewrite drop_0, take_app_length' by lia. unfold pre.
  rewrite deserialize_serialize by done. simpl.
  rewrite (proj2 (Z.ltb_ge _ _)) by lia.
  rewrite u64_add_exact by done. simpl.
  assert (Hlen : Z.to_nat (8 + serialized_size s) = (8 + length (serialize s))%nat)
    by (unfold serialized_size; lia).
  rewrite (proj2 (Z.ltb_ge _ _)) by (rewrite !length_app; fold pre; unfold serialized_size; lia).
  rewrite Hlen, slice_Ret by (rewrite !length_app; fold pre; lia). simpl. fold pre.
  rewrite drop_app_length' by lia.
  rewrite take_app_length' by lia.
  by rewrite deserialize_serialize.
Qed.

(** A buffer the state fits in, but not together with its length prefix. *)
Lemma state_serialize_short s out :
  (length (serialize s) <= length out < 8 + length (serialize s))%nat ->
  state_serialize s out = Panic.
Proof.
  intros Hlen. unfold state_serialize. rewrite (proj2 (Nat.ltb_ge _ _)) by lia.
  destruct (write_slice out 0 8 _) as [out1|] eqn:Hw; [|done].
  rewrite bind_Ret. apply write_slice_length in Hw. unfold write_slice.
  by rewrite (proj2 (Nat.leb_gt (8 + length (serialize s)) (length out1))), andb_false_r by lia.
Qed.
End Storage.

Section Payout.
Context `{Profile} `{Bincode Instruction} `{Bincode FinPlanState} `{!BincodeOk FinPlanState} `{BincodeU64Ok}.

Lemma state_serialize_Ok s out out' :
  vec_wf out -> state_serialize s out = Ret (out', Ok tt) ->
  (8 + length (serialize s) <= length out)%nat /\ out' = stored s out.
Proof.
  intros Hvec Hs.
  destruct (decide (length out < length (serialize s))%nat) as [Hlt|Hge].
  { unfold state_serialize in Hs. by rewrite (proj2 (Nat.ltb_lt _ _) Hlt) in Hs. }
  destruct (decide (length out < 8 + length (serialize s))%nat) as [Hlt|Hge'].
  { by rewrite state_serialize_short in Hs by lia. }
  rewrite state_serialize_fits in Hs by (lia || done). simplify_eq. split; [lia|done].
Qed.

Lemma store_state_Ok s accs accs' a1 :
  accs !! 1%nat = Some a1 -> vec_wf (userdata a1) -> store_state s accs = Ret (accs', Ok tt) ->
  (8 + length (serialize s) <= length (userdata a1))%nat /\
  accs' = <[1%nat := set_userdata (stored s (userdata a1)) a1]> accs.
Proof.
  unfold store_state. intros Ha Hvec Hs. run Hs.
  apply state_serialize_Ok in Hrun as [? ->]; [|done].
  apply update_Ret in Hrun0 as (? & ? & ->). by simplify_eq.
Qed.

Lemma apply_final_settles b plan keys accs w k0 p s' accs' :
  keys !! 0%nat = Some k0 -> final_payment (apply_witness plan w k0) = Some p ->
  apply_final (mk_state b (Some plan)) keys accs w = Ret (s', accs', Ok tt) ->
  s' = mk_state b None /\ keys !! 2%nat = Some (pay_to p) /\
  exists a1 a2 t1 t2,
    accs !! 1%nat = Some a1 /\ accs !! 2%nat = Some a2 /\
    i64_sub (tokens a1) (pay_tokens p) = Ret t1 /\ i64_add (tokens a2) (pay_tokens p) = Ret t2 /\
    accs' = <[2%nat := set_tokens t2 a2]> (<[1%nat := set_tokens t1 a1]> accs).
Proof.
  unfold apply_final. intros Hk Hp Hs. run Hs.
  apply update_Ret in Hrun2 as (? & ? & ->), Hrun5 as (? & ? & ->).
  bool_prop. simplify_eq. rewrite list_lookup_insert_ne in Hrun3 by done.
  destruct (decide (pay_to p = x0)) as [->|]; [eauto 15|done].
Qed.

(** The path of a witness through the program when it succeeds. *)
Lemma witness_run tx accs accs' i w a1 s :
  deserialize (tx_userdata tx) = Some i -> witness_of i = Some w ->
  accs !! 1%nat = Some a1 -> state_deserialize (userdata a1) = Ret (Some s) ->
  finplan_process tx accs = Ret (accs', Ok tt) ->
  is_pending s = true /\ initialized s = true /\
  exists s' accs1, apply_final s (tx_keys tx) accs w = Ret (s', accs1, Ok tt) /\
    store_state s' accs1 = Ret (accs', Ok tt).
Proof.
  intros Hi Hw Ha Hd Hp. unfold finplan_process in Hp. rewrite Hi in Hp.
  apply bind_Ret_inv in Hp as ([accs0 r] & Hdeb & Hp). destruct r as [[]|]; [|by run Hp].
  apply debits_balance in Hdeb. destruct i; simplify_eq/=.
  all: run Hp; bool_prop; destruct_unit; rewrite Hd in Hrun; simplify_eq;
    do 2 (split; [done|]); by eexists _, _.
Qed.

Lemma witness_not_pending tx accs i w a0 a1 k1 :
  deserialize (tx_userdata tx) = Some i -> witness_of i = Some w ->
  accs !! 0%nat = Some a0 -> userdata a0 = [] -> accs !! 1%nat = Some a1 ->
  tx_keys tx !! 1%nat = Some k1 ->
  state_deserialize (userdata a1) = Ret (Some (mk_state true None)) ->
  finplan_process tx accs = Ret (accs, Err (ContractNotPending k1)).
Proof.
  intros Hi Hw Ha0 Hu Ha1 Hk Hd. unfold finplan_process. rewrite Hi.
  unfold apply_debits_to_fin_plan_state, apply_credits_to_fin_plan_state, index.
  rewrite Ha0. simpl. rewrite Hu. simpl.
  destruct i; simplify_eq/=; by rewrite Ha1; simpl; rewrite Hd; simpl; rewrite Hk.
Qed.

(** Storing a contract state in an account's userdata and loading it back
    gives the same state and keeps the account's size, whenever the buffer has
    room for the length prefix and the encoding. *)
Theorem state_roundtrip : forall s out,
  wf s -> 2 <= serialized_size s -> vec_wf out ->
  (8 + length (serialize s) <= length out)%nat ->
  exists out', state_serialize s out = Ret (out', Ok tt) /\
    length out' = length out /\ state_deserialize out' = Ret (Some s).
Proof.
  intros s out Hs Hmin Hvec Hfit. exists (stored s out).
  split; [by apply state_serialize_fits|].
  split.
  - pose proof (state_serialize_fits s out Hfit Hvec) as Hser.
    unfold state_serialize in Hser. rewrite (proj2 (Nat.ltb_ge _ _)) in Hser by lia.
    run Hser. apply write_slice_length in Hrun, Hrun0. congruence.
  - apply state_deserialize_stored; [done..|]. unfold vec_wf, serialized_size in *.
    rewrite in_u64_iff in *. lia.
Qed.

(** C37: whatever the build profile, a successful fin_plan transaction changes
    the total of its accounts by exactly the imbalance of its instruction,
    which is nothing but for a contract that pays at once, and exactly (not
    only modulo 2^64) when overflow traps. *)
Theorem finplan_process_balance : forall tx accs accs' i,
  deserialize (tx_userdata tx) = Some i ->
  finplan_process tx accs = Ret (accs', Ok tt) ->
  tokens_eq (total_tokens accs') (total_tokens accs + imbalance i).
Proof.
  intros tx accs accs' i Hi Hp. unfold finplan_process in Hp. rewrite Hi in Hp.
  apply bind_Ret_inv in Hp as ([accs0 r] & Hdeb & Hp). destruct r as [[]|]; [|by run Hp].
  apply debits_balance in Hdeb. apply credits_balance in Hp. rewrite Hp.
  destruct i as [c| | |]; simplify_eq/=; try done.
  rewrite Hdeb. apply tokens_eq_of_eq. destruct (final_payment _); lia.
Qed.

(** C17: a contract pays out once.  When a witness settles the plan held in the
    contract account, the payment goes to the account of the key the plan
    names, out of the contract account, and the state left in the userdata is
    settled: any later witness for that contract is refused with
    [ContractNotPending] and moves nothing. *)
Theorem settled_contract_pays_once : forall tx accs accs' i w a1 plan k0 p,
  deserialize (tx_userdata tx) = Some i -> witness_of i = Some w ->
  accs !! 1%nat = Some a1 -> vec_wf (userdata a1) ->
  state_deserialize (userdata a1) = Ret (Some (mk_state true (Some plan))) ->
  tx_keys tx !! 0%nat = Some k0 -> final_payment (apply_witness plan w k0) = Some p ->
  2 <= serialized_size (mk_state true None) ->
  finplan_process tx accs = Ret (accs', Ok tt) ->
  tx_keys tx !! 2%nat = Some (pay_to p) /\
  exists a1' a2 a2', accs' !! 1%nat = Some a1' /\ accs !! 2%nat = Some a2 /\ accs' !! 2%nat = Some a2' /\
    tokens_eq (tokens a1') (tokens a1 - pay_tokens p) /\
    tokens_eq (tokens a2') (tokens a2 + pay_tokens p) /\
    forall tx2 accs2 i2 w2 b0 b1 k1,
      deserialize (tx_userdata tx2) = Some i2 -> witness_of i2 = Some w2 ->
      accs2 !! 0%nat = Some b0 -> userdata b0 = [] ->
      accs2 !! 1%nat = Some b1 -> userdata b1 = userdata a1' -> tx_keys tx2 !! 1%nat = Some k1 ->
      finplan_process tx2 accs2 = Ret (accs2, Err (ContractNotPending k1)).
Proof.
  intros tx accs accs' i w a1 plan k0 p Hi Hw Ha1 Hvec Hd Hk0 Hp Hmin Hrun.
  destruct (witness_run _ _ _ _ _ _ _ Hi Hw Ha1 Hd Hrun) as (_ & _ & s' & accs1 & Hf & Hst).
  destruct (apply_final_settles _ _ _ _ _ _ _ _ _ Hk0 Hp Hf)
    as (-> & Hk2 & b1 & a2 & t1 & t2 & Hb1 & Ha2 & Ht1 & Ht2 & ->). simplify_eq.
  split; [done|].
  pose proof (lookup_lt_Some _ _ _ Ha1). pose proof (lookup_lt_Some _ _ _ Ha2).
  eapply store_state_Ok in Hst as [Hfit ->];
    [|rewrite list_lookup_insert_ne, list_lookup_insert_eq by (done || lia); done|done].
  do 3 eexists. split; [apply list_lookup_insert_eq; rewrite !length_insert; lia|].
  split; [done|].
  split; [rewrite list_lookup_insert_ne, list_lookup_insert_eq by (rewrite ?length_insert; done || lia); done|].
  split; [by apply i64_sub_tokens_eq|]. split; [by apply i64_add_tokens_eq|].
  intros tx2 accs2 i2 w2 c0 c1 k1 ? ? ? ? ? Hu ?.
  eapply witness_not_pending; [done..|].
  rewrite Hu. simpl. apply state_deserialize_stored; [done..|].
  unfold vec_wf, serialized_size in *. rewrite in_u64_iff in *. simpl in *. lia.
Qed.

(** What storing a state does, by the room in the buffer.  A buffer
    smaller than the encoding is refused with [UserdataTooSmall] and left as it
    was; but the check forgets the 8-byte length prefix, so a buffer that could
    hold the encoding and not the prefix as well makes the program panic. *)
Theorem state_serialize_by_size : forall s out, vec_wf out ->
  state_serialize s out =
    (if decide (length out < length (serialize s))%nat then Ret (out, Err UserdataTooSmall)
     else if decide (length out < 8 + length (serialize s))%nat then Panic
     else Ret (stored s out, Ok tt)).
Proof.
  intros s out Hvec. case_decide; [|case_decide].
  - unfold state_serialize. by rewrite (proj2 (Nat.ltb_lt _ _)).
  - apply state_serialize_short. lia.
  - apply state_serialize_fits; [lia|done].
Qed.

(** A witness that settles a contract panics when the transaction names
    only two keys: the guard tests [keys.len() < 2] and then reads [keys[2]]. *)
Theorem two_key_payout_panics : forall tx accs i w a0 a1 plan k0 k1 p,
  deserialize (tx_userdata tx) = Some i -> witness_of i = Some w ->
  accs !! 0%nat = Some a0 -> userdata a0 = [] -> accs !! 1%nat = Some a1 ->
  state_deserialize (userdata a1) = Ret (Some (mk_state true (Some plan))) ->
  tx_keys tx = [k0; k1] -> final_payment (apply_witness plan w k0) = Some p ->
  finplan_process tx accs = Panic.
Proof.
  intros tx accs i w a0 a1 plan k0 k1 p Hi Hw Ha0 Hu Ha1 Hd Hk Hp.
  unfold finplan_process. rewrite Hi.
  unfold apply_debits_to_fin_plan_state, apply_credits_to_fin_plan_state, apply_final, index.
  rewrite Ha0. simpl. rewrite Hu. simpl.
  destruct i; simplify_eq/=; rewrite Ha1; simpl; rewrite Hd; simpl; rewrite Hk; simpl;
    by rewrite Hp.
Qed.
End Payout.

(** ** The reference codec for the program's types *)

Module FinPlanCodec.
Definition c_condition : codec Condition := c_iso
  (c_enum (v_or (c_pair c_i64 c_pubkey) (v_last c_pubkey)) ltac:(simpl; lia))
  (fun c => match c with CTimestamp d k => inl (d, k) | CSignature k => inr k end)
  (fun s => match s with inl (d, k) => CTimestamp d k | inr k => CSignature k end)
  ltac:(by intros []) ltac:(by intros [[]|]).

Definition c_branch : codec (Condition * Payment) := c_pair c_condition c_payment.

Definition c_fin_plan : codec FinPlan := c_iso
  (c_enum (v_or c_payment (v_or c_branch (v_or (c_pair c_branch c_branch)
    (v_last (c_pair c_condition (c_pair c_condition c_payment)))))) ltac:(simpl; lia))
  (fun p => match p with
     | Pay q => inl q
     | After c q => inr (inl (c, q))
     | Or a b => inr (inr (inl (a, b)))
     | And c0 c1 q => inr (inr (inr (c0, (c1, q))))
     end)
  (fun s => match s with
     | inl q => Pay q
     | inr (inl (c, q)) => After c q
     | inr (inr (inl (a, b))) => Or a b
     | inr (inr (inr (c0, (c1, q)))) => And c0 c1 q
     end)
  ltac:(by intros []) ltac:(by intros [|[[]|[[]|[?[]]]]]).

Definition c_contract : codec Contract := c_iso (c_pair c_i64 c_fin_plan)
  (fun c => (contract_tokens c, contract_fin_plan c)) (fun p => mk_contract p.1 p.2)
  ltac:(by intros []) ltac:(by intros []).

Definition c_instruction : codec Instruction := c_iso
  (c_enum (v_or c_contract (v_or c_i64 (v_or c_unit (v_last c_vote)))) ltac:(simpl; lia))
  (fun i => match i with
     | NewContract c => inl c
     | ApplyTimestamp d => inr (inl d)
     | ApplySignature => inr (inr (inl tt))
     | NewVote v => inr (inr (inr v))
     end)
  (fun s => match s with
     | inl c => NewContract c
     | inr (inl d) => ApplyTimestamp d
     | inr (inr (inl _)) => ApplySignature
     | inr (inr (inr v)) => NewVote v
     end)
  ltac:(by intros []) ltac:(by intros [|[|[[]|]]]).

Definition c_state : codec FinPlanState := c_iso (c_pair c_bool (c_option c_fin_plan))
  (fun s => (initialized s, pending_fin_plan s)) (fun p => mk_state p.1 p.2)
  ltac:(by intros []) ltac:(by intros []).

Definition state_bincode : Bincode FinPlanState := codec_bincode c_state.
Definition instruction_bincode : Bincode Instruction := codec_bincode c_instruction.

Lemma c_fin_plan_wf plan : wf plan <-> cwf c_fin_plan plan.
Proof.
  destruct plan as [[]|[] []|[[] []] [[] []]|[] [] []];
    cbv [wf FinPlan_wf Condition_wf Payment_wf Pubkey_wf]; simpl; tauto.
Qed.

Lemma state_bincode_ok : @BincodeOk FinPlanState _ state_bincode.
Proof.
  apply codec_bincode_ok. intros [b [plan|]]; unfold wf; simpl; [|tauto].
  pose proof (c_fin_plan_wf plan). simpl in *. tauto.
Qed.
End FinPlanCodec.

(** ** Witnesses *)

Module FinPlanWitness.
Import FinPlanCodec.
#[local] Existing Instance state_bincode.
#[local] Existing Instance instruction_bincode.
#[local] Existing Instance u64_bincode.
#[local] Existing Instance state_bincode_ok.
#[local] Existing Instance u64_bincode_ok.
#[local] Instance checked : Profile := true.

Definition plan : FinPlan := new_future_payment 10 (key 1) 42 (key 3).
Definition pending : FinPlanState := mk_state true (Some plan).

(** A contract account of 512 bytes that holds [pending]. *)
Definition contract_account : Account :=
  mk_account 42 (stored pending (replicate 512 Byte.x00)) FinPlan_id.
Definition accounts : list Account :=
  [Account_new 5 0 FinPlan_id; contract_account; Account_new 1 0 FinPlan_id].
Definition timestamp_tx (dt : DateTime) (keys : list Pubkey) : Transaction :=
  mk_tx Signature_default keys FinPlan_id Hash_default 0 (serialize (ApplyTimestamp dt)).
Definition three_keys : list Pubkey := [key 1; key 2; key 3].

(** The accounts left by the payment. *)
Definition paid : list Account :=
  match finplan_process (timestamp_tx 11 three_keys) accounts with
  | Ret (l, _) => l
  | Panic => []
  end.

Lemma state_roundtrip_witness :
  exists out', state_serialize pending (replicate 512 Byte.x00) = Ret (out', Ok tt) /\
    length out' = length (replicate 512 Byte.x00) /\ state_deserialize out' = Ret (Some pending).
Proof. apply state_roundtrip; vm_compute; try done; repeat constructor. Defined.

Lemma finplan_process_balance_witness :
  tokens_eq (total_tokens paid) (total_tokens accounts + imbalance (ApplyTimestamp 11)).
Proof.
  apply (finplan_process_balance (timestamp_tx 11 three_keys)); vm_compute; reflexivity.
Defined.

Lemma settled_contract_witness : tx_keys (timestamp_tx 11 three_keys) !! 2%nat = Some (key 3).
Proof.
  apply (settled_contract_pays_once (timestamp_tx 11 three_keys) accounts paid (ApplyTimestamp 11)
    (WTimestamp 11) contract_account plan (key 1) (mk_payment 42 (key 3)));
    vm_compute; try reflexivity; discriminate.
Defined.

Lemma state_serialize_by_size_witness :
  state_serialize pending (replicate 90 Byte.x00) = Panic.
Proof.
  rewrite (state_serialize_by_size pending (replicate 90 Byte.x00)); vm_compute; reflexivity.
Defined.

Lemma two_key_payout_witness :
  finplan_process (timestamp_tx 11 [key 1; key 2]) accounts = Panic.
Proof.
  apply (two_key_payout_panics _ _ (ApplyTimestamp 11) (WTimestamp 11)
    (Account_new 5 0 FinPlan_id) contract_account plan (key 1) (key 2) (mk_payment 42 (key 3)));
    vm_compute; reflexivity.
Defined.

Lemma get_balance_counts_pending_tokens :
  is_pending pending = true /\ finplan_get_balance contract_account = tokens contract_account.
Proof. vm_compute. done. Qed.
End FinPlanWitness.
