(* ===== verification/SystemProgram.v ===== *)
(** * The built-in system program, loadable programs, the storage program

    [src/builtin_pgm.rs] (create, assign, move, load), [src/storage_program.rs],
    [src/dynamic_program.rs] (programs loaded from shared libraries) and the
    sample loadable programs under [programs/]. *)

From S2P Require Import Prelude.
From S2P Require Import Types.
From S2P Require Import Codec.

(** ** Loadable programs

    [libloading] opens a shared library and looks up a symbol in it; both are
    outside the repository, as is the native code of a library.  An entry point
    receives the keyed accounts and the userdata and leaves the accounts. *)

Definition Entrypoint : Type := list (Pubkey * Account) -> bytes -> outcome (list Account).

Class Libloading := {
  Library : Type;
  library_open : string -> option Library;
  library_get : Library -> string -> option Entrypoint }.

Definition ENTRYPOINT : string := "process".

Inductive DynamicProgram `{Libloading} : Type :=
  | Native (name : string) (library : Library)
  | Bpf (bpf_userdata : bytes).

(** The accounts slice keeps its length: an entry point can only write through
    the references it was given. *)
Definition write_back (accounts written : list Account) : list Account :=
  imap (fun i a => default a (written !! i)) accounts.

Section Dynamic.
Context `{Libloading}.

(** [DynamicProgram::new]: a library that does not open panics. *)
Definition DynamicProgram_new (name : string) : outcome DynamicProgram :=
  lib ← unwrap (library_open name); Ret (Native name lib).

(** [DynamicProgram::call]. *)
Definition DynamicProgram_call (dp : DynamicProgram) (infos : list (Pubkey * Account))
    (data : bytes) : outcome (list Account) :=
  match dp with
  | Native _ library =>
      match library_get library ENTRYPOINT with
      | Some entrypoint => written ← entrypoint infos data; Ret (write_back infos.*2 written)
      | None => Panic
      end
  | Bpf _ => Ret infos.*2
  end.
End Dynamic.

(** [programs/token_transfer/src/lib.rs] and [programs/dummy/src/lib.rs]. *)
Record I64 := mk_i64 { i64_val : Z }.
#[export] Instance I64_wf : Wf I64 := fun n => in_i64 (i64_val n) = true.

Definition token_transfer_process `{Profile} `{Bincode I64} : Entrypoint := fun infos data =>
  n ← unwrap (deserialize (A := I64) data);
  a0 ← index infos.*2 0;
  if i64_val n <=? tokens a0 then
    t0 ← i64_sub (tokens a0) (i64_val n);
    accs1 ← update infos.*2 0 (set_tokens t0);
    a1 ← index accs1 1;
    t1 ← i64_add (tokens a1) (i64_val n);
    update accs1 1 (set_tokens t1)
  else Ret infos.*2.

Definition dummy_process : Entrypoint := fun infos _ => Ret infos.*2.

(** ** The system program *)

Inductive SystemInstruction :=
  | CreateAccount (tokens : Z) (space : Z) (pid : Pubkey)
  | Assign (pid : Pubkey)
  | Move (tokens : Z)
  | Load (pid : Pubkey) (name : string).

#[export] Instance SystemInstruction_eq_dec : EqDecision SystemInstruction.
Proof. solve_decision. Defined.

#[export] Instance SystemInstruction_wf : Wf SystemInstruction := fun i =>
  match i with
  | CreateAccount t s p => in_i64 t = true /\ in_u64 s = true /\ wf p
  | Assign p => wf p
  | Move t => in_i64 t = true
  | Load p n => wf p /\ in_u64 (Z.of_nat (String.length n)) = true
  end.

Definition SYSTEM_PROGRAM_ID : bytes := replicate 32 Byte.x00.
Definition System_id : Pubkey := mk_pubkey SYSTEM_PROGRAM_ID.
Definition System_check_id (pid : Pubkey) : bool :=
  bool_decide (pubkey_bytes pid = SYSTEM_PROGRAM_ID).

Definition system_get_balance (a : Account) : Z := tokens a.

(** [vec![0; n]] panics when the capacity exceeds [isize::MAX]. *)
Definition zeroed (n : Z) : outcome bytes :=
  if n <=? i64_max then Ret (replicate (Z.to_nat n) Byte.x00) else Panic.

Section System.
Context `{Profile} `{Libloading} `{Bincode SystemInstruction}.

(** [accounts[0].tokens -= tokens; accounts[1].tokens += tokens]. *)
Definition move_tokens (n : Z) (accounts : list Account) : outcome (list Account) :=
  a0 ← index accounts 0;
  t0 ← i64_sub (tokens a0) n;
  accs0 ← update accounts 0 (set_tokens t0);
  a1 ← index accs0 1;
  t1 ← i64_add (tokens a1) n;
  update accs0 1 (set_tokens t1).

(** [SystemProgram::process_transaction]. *)
Definition system_process (tx : Transaction) (accounts : list Account)
    (loaded_programs : gmap Pubkey DynamicProgram)
    : outcome (list Account * gmap Pubkey DynamicProgram) :=
  match deserialize (tx_userdata tx) with
  | Some (CreateAccount n space pid) =>
      a0 ← index accounts 0;
      if negb (System_check_id (program_id a0)) then Ret (accounts, loaded_programs)
      else
        taken ← (if 0 <? space then
                   a1 ← index accounts 1;
                   Ret (negb (bool_decide (userdata a1 = [])) ||
                        negb (System_check_id (program_id a1)))
                 else Ret false);
        if (taken : bool) then Ret (accounts, loaded_programs)
        else
          accs1 ← move_tokens n accounts;
          accs2 ← update accs1 1 (set_program_id pid);
          data ← zeroed space;
          accs3 ← update accs2 1 (set_userdata data);
          Ret (accs3, loaded_programs)
  | Some (Assign pid) =>
      a0 ← index accounts 0;
      if negb (System_check_id (program_id a0)) then Ret (accounts, loaded_programs)
      else
        accs ← update accounts 0 (set_program_id pid);
        Ret (accs, loaded_programs)
  | Some (Move n) =>
      accs ← move_tokens n accounts;
      Ret (accs, loaded_programs)
  | Some (Load pid name) =>
      dp ← DynamicProgram_new name;
      Ret (accounts, <[pid := dp]> loaded_programs)
  | None => Ret (accounts, loaded_programs)
  end.
End System.

(** ** The storage program *)

Inductive StorageInstruction :=
  | SubmitMiningProof (sha_state : bytes).

Inductive StorageError := InvalidUserData.

#[export] Instance StorageInstruction_wf : Wf StorageInstruction := fun i =>
  match i with SubmitMiningProof s => length s = 32%nat end.

Definition STORAGE_PROGRAM_ID : bytes := replicate 32 Byte.x01.
Definition Storage_check_id (pid : Pubkey) : bool :=
  bool_decide (pubkey_bytes pid = STORAGE_PROGRAM_ID).

Definition storage_process `{Bincode StorageInstruction} (tx : Transaction)
    (accounts : list Account) : result unit StorageError :=
  match deserialize (tx_userdata tx) with
  | Some (SubmitMiningProof _) => Ok tt
  | None => Err InvalidUserData
  end.

(** ** Lemmas *)

Lemma length_write_back accs written : length (write_back accs written) = length accs.
Proof. unfold write_back. apply length_imap. Qed.

Lemma System_check_id_eq pid : System_check_id pid = true <-> pid = System_id.
Proof.
  unfold System_check_id, System_id. rewrite bool_decide_eq_true.
  destruct pid; simpl; split; congruence.
Qed.

Section SystemLemmas.
Context `{Profile} `{Libloading} `{Bincode SystemInstruction}.

Lemma move_tokens_Ret n accs accs' : move_tokens n accs = Ret accs' ->
  exists a0 a1 t0 t1,
    accs !! 0%nat = Some a0 /\ accs !! 1%nat = Some a1 /\
    i64_sub (tokens a0) n = Ret t0 /\ i64_add (tokens a1) n = Ret t1 /\
    accs' = <[1%nat := set_tokens t1 a1]> (<[0%nat := set_tokens t0 a0]> accs).
Proof.
  unfold move_tokens. intros Hm. run Hm.
  apply update_Ret in Hrun1 as (? & ? & ->), Hm as (? & ? & ->). simplify_eq.
  rewrite list_lookup_insert_ne in * by done. simplify_eq. eauto 10.
Qed.

Lemma move_tokens_length n accs accs' : move_tokens n accs = Ret accs' ->
  length accs' = length accs.
Proof. intros (? & ? & ? & ? & _ & _ & _ & _ & ->)%move_tokens_Ret. by rewrite !length_insert. Qed.

Lemma system_process_length tx accs lp accs' lp' :
  system_process tx accs lp = Ret (accs', lp') -> length accs' = length accs.
Proof.
  unfold system_process. intros Hs.
  run Hs; repeat match goal with
    | Hu : update _ _ _ = Ret _ |- _ => apply update_length in Hu
    | Hm : move_tokens _ _ = Ret _ |- _ => apply move_tokens_length in Hm
    end; congruence.
Qed.
End SystemLemmas.

Section SystemBalance.
Context `{Profile} `{Libloading} `{Bincode SystemInstruction}.

Definition nonneg (l : list Account) : Prop := Forall (fun a => 0 <= tokens a) l.

Lemma nonneg_lookup l i a : nonneg l -> l !! i = Some a -> 0 <= tokens a.
Proof. intros Hl. by apply (Forall_lookup_1 _ _ _ _ Hl). Qed.

(** Accounts that hold the same tokens, position by position. *)
Definition same_tokens (l l' : list Account) : Prop := tokens <$> l = tokens <$> l'.

Lemma same_tokens_update l l' i f :
  (forall a, tokens (f a) = tokens a) -> update l i f = Ret l' -> same_tokens l' l.
Proof.
  intros Hf (a & Ha & ->)%update_Ret. unfold same_tokens.
  rewrite list_fmap_insert, Hf. apply list_insert_id. by rewrite list_lookup_fmap, Ha.
Qed.

Lemma same_tokens_total l l' : same_tokens l l' -> total_tokens l = total_tokens l'.
Proof. unfold same_tokens, total_tokens. by intros ->. Qed.

Lemma same_tokens_nonneg l l' : same_tokens l' l -> nonneg l' -> nonneg l.
Proof.
  unfold same_tokens, nonneg. intros Hs Hl.
  apply (Forall_fmap tokens (fun t => 0 <= t)). rewrite <- Hs. by apply Forall_fmap.
Qed.

(** The system program moves tokens with [move_tokens] and nothing else. *)
Lemma system_process_moves tx accs lp accs' lp' :
  system_process tx accs lp = Ret (accs', lp') ->
  same_tokens accs' accs \/
  exists n accs1, move_tokens n accs = Ret accs1 /\ same_tokens accs' accs1.
Proof.
  assert (Hup : forall l l' i f, (forall a, tokens (f a) = tokens a) -> update l i f = Ret l' ->
    same_tokens l' l) by exact same_tokens_update.
  unfold system_process. intros Hs. run Hs; try by left.
  - right. do 2 eexists. split; [done|]. apply Hup in Hrun2, Hrun4; [|done..]. by etrans.
  - right. do 2 eexists. split; [done|]. apply Hup in Hrun1, Hrun3; [|done..]. by etrans.
  - left. by apply Hup in Hrun0.
  - right. by do 2 eexists.
Qed.

Lemma move_tokens_balance n accs accs' :
  move_tokens n accs = Ret accs' -> tokens_eq (total_tokens accs') (total_tokens accs).
Proof.
  intros (a0 & a1 & t0 & t1 & Ha0 & Ha1 & Ht0 & Ht1 & ->)%move_tokens_Ret.
  erewrite total_tokens_insert by (rewrite list_lookup_insert_ne by done; exact Ha1).
  rewrite (total_tokens_insert _ _ _ _ Ha0). simpl.
  rewrite (i64_sub_tokens_eq _ _ _ Ht0), (i64_add_tokens_eq _ _ _ Ht1).
  apply tokens_eq_of_eq. lia.
Qed.

(** Two numbers below 2^64 that agree modulo 2^64 are equal. *)
Lemma mod_eq_exact a b : 0 <= a < 2 ^ 64 -> 0 <= b < 2 ^ 64 -> a mod 2 ^ 64 = b mod 2 ^ 64 -> a = b.
Proof. intros. rewrite !Z.mod_small in * by lia. done. Qed.

Lemma move_tokens_exact n accs accs' :
  move_tokens n accs = Ret accs' -> nonneg accs' ->
  Forall (fun a => 0 <= tokens a <= i64_max) accs ->
  total_tokens accs' = total_tokens accs.
Proof.
  intros (a0 & a1 & t0 & t1 & Ha0 & Ha1 & Ht0 & Ht1 & ->)%move_tokens_Ret Hnn Hb.
  erewrite total_tokens_insert by (rewrite list_lookup_insert_ne by done; exact Ha1).
  rewrite (total_tokens_insert _ _ _ _ Ha0). simpl.
  assert (Hl0 := lookup_lt_Some _ _ _ Ha0). assert (Hl1 := lookup_lt_Some _ _ _ Ha1).
  assert (Hn1 : 0 <= t1).
  { apply (nonneg_lookup _ 1%nat (set_tokens t1 a1) Hnn).
    apply list_lookup_insert_eq. by rewrite length_insert. }
  assert (Hn0 : 0 <= t0).
  { apply (nonneg_lookup _ 0%nat (set_tokens t0 a0) Hnn).
    rewrite list_lookup_insert_ne by done. by apply list_lookup_insert_eq. }
  pose proof (Forall_lookup_1 _ _ _ _ Hb Ha0) as Hb0. pose proof (Forall_lookup_1 _ _ _ _ Hb Ha1) as Hb1.
  apply i64_sub_Ret in Ht0 as (Hr0 & Hm0 & _). apply i64_add_Ret in Ht1 as (Hr1 & Hm1 & _).
  rewrite in_i64_iff in *. unfold i64_max in *. simpl in Hb0, Hb1.
  enough (t0 + t1 = tokens a0 + tokens a1) by lia.
  apply mod_eq_exact; [lia..|].
  rewrite Zplus_mod, Hm0, Hm1, <- Zplus_mod. f_equal. lia.
Qed.

(** The system program neither creates nor destroys tokens, in either
    build profile (modulo 2^64 where the build wraps). *)
Theorem system_process_conserves : forall tx accs lp accs' lp',
  system_process tx accs lp = Ret (accs', lp') ->
  tokens_eq (total_tokens accs') (total_tokens accs).
Proof.
  intros tx accs lp accs' lp' [Hs|(n & accs1 & Hm & Hs)]%system_process_moves;
    rewrite (same_tokens_total _ _ Hs); [done|]. by eapply move_tokens_balance.
Qed.

(** Even in a build that wraps, no system transaction whose accounts all
    end non-negative can have wrapped: the totals are equal as integers, not
    only modulo 2^64. *)
Theorem system_process_conserves_exactly : forall tx accs lp accs' lp',
  system_process tx accs lp = Ret (accs', lp') ->
  Forall (fun a => 0 <= tokens a <= i64_max) accs -> nonneg accs' ->
  total_tokens accs' = total_tokens accs.
Proof.
  intros tx accs lp accs' lp' [Hs|(n & accs1 & Hm & Hs)]%system_process_moves Hb Hnn;
    rewrite (same_tokens_total _ _ Hs); [done|].
  apply (move_tokens_exact n); [done| |done]. by eapply same_tokens_nonneg.
Qed.
End SystemBalance.

(** ** The reference codec and witnesses *)

Module SystemCodec.
Definition c_i64_record : codec I64 := c_iso c_i64 i64_val mk_i64 ltac:(by intros []) ltac:(done).

Definition c_string : codec string := c_iso (c_vec c_byte c_byte_nonempty)
  String.list_byte_of_string String.string_of_list_byte
  String.string_of_list_byte_of_string String.list_byte_of_string_of_list_byte.

Definition c_system : codec SystemInstruction := c_iso
  (c_enum (v_or (c_pair c_i64 (c_pair (c_uint 8) c_pubkey)) (v_or c_pubkey (v_or c_i64
    (v_last (c_pair c_pubkey c_string))))) ltac:(simpl; lia))
  (fun i => match i with
     | CreateAccount t s p => inl (t, (s, p))
     | Assign p => inr (inl p)
     | Move t => inr (inr (inl t))
     | Load p n => inr (inr (inr (p, n)))
     end)
  (fun x => match x with
     | inl (t, (s, p)) => CreateAccount t s p
     | inr (inl p) => Assign p
     | inr (inr (inl t)) => Move t
     | inr (inr (inr (p, n))) => Load p n
     end)
  ltac:(by intros []) ltac:(by intros [(?&?&?)|[|[|[]]]]).

Definition c_storage : codec StorageInstruction := c_iso (c_enum (v_last (c_array 32)) ltac:(simpl; lia))
  (fun '(SubmitMiningProof s) => s) SubmitMiningProof ltac:(by intros []) ltac:(done).

Definition system_bincode : Bincode SystemInstruction := codec_bincode c_system.
Definition storage_bincode : Bincode StorageInstruction := codec_bincode c_storage.
Definition i64_bincode : Bincode I64 := codec_bincode c_i64_record.

(** No shared library can be opened. *)
Definition no_libraries : Libloading := {|
  Library := False; library_open _ := None; library_get l _ := match l with end |}.
End SystemCodec.

Module SystemWitness.
Import SystemCodec.
#[local] Existing Instance system_bincode.
#[local] Existing Instance no_libraries.
#[local] Instance wrapping : Profile := false.

Definition sys_tx (i : SystemInstruction) : Transaction :=
  mk_tx Signature_default [] System_id Hash_default 0 (serialize i).
Definition two : list Account := [Account_new 10 0 System_id; Account_new 3 0 System_id].
Definition two' : list Account := [Account_new 6 0 System_id; mk_account 7 [Byte.x00; Byte.x00] System_id].

Lemma system_process_conserves_witness : tokens_eq (total_tokens two') (total_tokens two).
Proof.
  apply (system_process_conserves (sys_tx (CreateAccount 4 2 System_id)) two ∅ two' ∅).
  vm_compute. reflexivity.
Defined.

Lemma system_process_conserves_exactly_witness : total_tokens two' = total_tokens two.
Proof.
  apply (system_process_conserves_exactly (sys_tx (CreateAccount 4 2 System_id)) two ∅ two' ∅).
  - vm_compute. reflexivity.
  - repeat constructor; vm_compute; discriminate.
  - repeat constructor; vm_compute; discriminate.
Defined.
End SystemWitness.
