(* ===== verification/Transactions.v ===== *)
(** * Hashing, signing and building transactions

    [src/hash.rs], [src/signature.rs], [src/transaction.rs],
    [src/builtin_transaction.rs], [src/fin_plan_transaction.rs] and the CPU path
    of [src/sigverify.rs]. *)

From S2P Require Import Prelude.
From S2P Require Import Types.
From S2P Require Import Codec.
From S2P Require Import FinPlan.
From S2P Require Import FinPlanProgram.
From S2P Require Import SystemProgram.

(** ** Hashing

    The [sha2] crate: a digest accumulates its input and hashes all of it. *)

Class Sha256 := {
  sha256 : bytes -> bytes;
  sha256_length : forall b, length (sha256 b) = 32%nat }.

Record Hasher := mk_hasher { hasher_input : bytes }.
Definition Hasher_default : Hasher := mk_hasher [].

Definition Hasher_hash (h : Hasher) (val : bytes) : Hasher := mk_hasher (hasher_input h ++ val).
Definition Hasher_hashv (h : Hasher) (vals : list bytes) : Hasher := fold_left Hasher_hash vals h.
Definition Hasher_result `{Sha256} (h : Hasher) : Hash := mk_hash (sha256 (hasher_input h)).

Definition hashv `{Sha256} (vals : list bytes) : Hash :=
  Hasher_result (Hasher_hashv Hasher_default vals).
Definition hash `{Sha256} (val : bytes) : Hash := hashv [val].
Definition extend_and_hash `{Sha256} (id : Hash) (val : bytes) : Hash := hash (hash_bytes id ++ val).

(** [Transaction::hash]. *)
Definition transactions_hash `{Sha256} (txs : list Transaction) : Hash :=
  Hasher_result (fold_left (fun h tx => Hasher_hash h (signature_bytes (tx_signature tx)))
                           txs Hasher_default).

(** ** Signing: the [ring] crate's Ed25519 *)

Class Ed25519 := {
  Keypair : Type;
  public_key_bytes : Keypair -> bytes;
  keypair_sign : Keypair -> bytes -> bytes;
  ed25519_verify : bytes -> bytes -> bytes -> bool  (* public key, message, signature *) }.

Class Ed25519Ok `{Ed25519} : Prop := {
  public_key_length : forall k, length (public_key_bytes k) = 32%nat;
  signature_length : forall k m, length (keypair_sign k m) = 64%nat;
  verify_sign : forall k m, ed25519_verify (public_key_bytes k) m (keypair_sign k m) = true }.

Definition keypair_pubkey `{Ed25519} (k : Keypair) : Pubkey := mk_pubkey (public_key_bytes k).

(** [Signature::new] panics unless the slice has 64 bytes. *)
Definition Signature_new (b : bytes) : outcome Signature :=
  if bool_decide (length b = 64%nat) then Ret (mk_signature b) else Panic.

Definition Signature_verify `{Ed25519} (s : Signature) (pubkey_bytes message_bytes : bytes) : bool :=
  ed25519_verify pubkey_bytes message_bytes (signature_bytes s).

Section Build.
Context `{Ed25519} `{Bincode (list Pubkey)} `{Bincode Pubkey} `{Bincode Hash} `{Bincode I64}
  `{Bincode bytes}.

Definition get_sign_data (tx : Transaction) : bytes :=
  serialize (tx_keys tx) ++ serialize (tx_program_id tx) ++ serialize (tx_last_id tx) ++
  serialize (mk_i64 (tx_fee tx)) ++ serialize (tx_userdata tx).

Definition sign (tx : Transaction) (keypair : Keypair) : outcome Transaction :=
  signature ← Signature_new (keypair_sign keypair (get_sign_data tx));
  Ret (mk_tx signature (tx_keys tx) (tx_program_id tx) (tx_last_id tx) (tx_fee tx) (tx_userdata tx)).

Definition Transaction_new (from_keypair : Keypair) (transaction_keys : list Pubkey)
    (pid : Pubkey) (data : bytes) (last_id : Hash) (fee : Z) : outcome Transaction :=
  let keys := keypair_pubkey from_keypair :: transaction_keys in
  sign (mk_tx Signature_default keys pid last_id fee data) from_keypair.

Definition verify_signature (tx : Transaction) : outcome bool :=
  from ← tx_from tx;
  Ret (Signature_verify (tx_signature tx) (pubkey_bytes from) (get_sign_data tx)).

(** ** System transactions *)

Context `{Bincode SystemInstruction}.

Definition system_create (from_keypair : Keypair) (to : Pubkey) (last_id : Hash) (t space : Z)
    (pid : Pubkey) (fee : Z) : outcome Transaction :=
  Transaction_new from_keypair [to] System_id (serialize (CreateAccount t space pid)) last_id fee.

Definition system_assign (from_keypair : Keypair) (last_id : Hash) (pid : Pubkey) (fee : Z)
    : outcome Transaction :=
  Transaction_new from_keypair [] System_id (serialize (Assign pid)) last_id fee.

Definition system_new (from_keypair : Keypair) (to : Pubkey) (t : Z) (last_id : Hash)
    : outcome Transaction :=
  system_create from_keypair to last_id t 0 Pubkey_default 0.

Definition system_move (from_keypair : Keypair) (to : Pubkey) (t : Z) (last_id : Hash) (fee : Z)
    : outcome Transaction :=
  Transaction_new from_keypair [to] System_id (serialize (Move t)) last_id fee.

Definition system_load (from_keypair : Keypair) (last_id : Hash) (fee : Z) (pid : Pubkey)
    (name : string) : outcome Transaction :=
  Transaction_new from_keypair [] System_id (serialize (Load pid name)) last_id fee.

(** ** Fin_plan transactions *)

Context `{Profile} `{Bincode Instruction}.

Definition fin_plan_new_taxed (from_keypair : Keypair) (to : Pubkey) (t fee : Z) (last_id : Hash)
    : outcome Transaction :=
  rest ← i64_sub t fee;
  let instruction := NewContract (mk_contract t (Pay (mk_payment rest to))) in
  Transaction_new from_keypair [to] FinPlan_id (serialize instruction) last_id fee.

Definition fin_plan_new (from_keypair : Keypair) (to : Pubkey) (t : Z) (last_id : Hash)
    : outcome Transaction :=
  fin_plan_new_taxed from_keypair to t 0 last_id.

Definition fin_plan_new_timestamp (from_keypair : Keypair) (contract to : Pubkey) (dt : DateTime)
    (last_id : Hash) : outcome Transaction :=
  Transaction_new from_keypair [contract; to] FinPlan_id (serialize (ApplyTimestamp dt)) last_id 0.

Definition fin_plan_new_signature (from_keypair : Keypair) (contract to : Pubkey) (last_id : Hash)
    : outcome Transaction :=
  Transaction_new from_keypair [contract; to] FinPlan_id (serialize ApplySignature) last_id 0.

Definition fin_plan_new_vote (from_keypair : Keypair) (vote : Vote) (last_id : Hash) (fee : Z)
    : outcome Transaction :=
  Transaction_new from_keypair [] FinPlan_id (serialize (NewVote vote)) last_id fee.

Definition fin_plan_new_on_date (from_keypair : Keypair) (to contract : Pubkey) (dt : DateTime)
    (dt_pubkey : Pubkey) (cancelable : option Pubkey) (t : Z) (last_id : Hash)
    : outcome Transaction :=
  let fin_plan := match cancelable with
    | Some from => Or (CTimestamp dt dt_pubkey, mk_payment t to) (CSignature from, mk_payment t from)
    | None => After (CTimestamp dt dt_pubkey) (mk_payment t to)
    end in
  Transaction_new from_keypair [contract] FinPlan_id
    (serialize (NewContract (mk_contract t fin_plan))) last_id 0.

Definition fin_plan_new_when_signed (from_keypair : Keypair) (to contract witness : Pubkey)
    (cancelable : option Pubkey) (t : Z) (last_id : Hash) : outcome Transaction :=
  let fin_plan := match cancelable with
    | Some from => Or (CSignature witness, mk_payment t to) (CSignature from, mk_payment t from)
    | None => After (CSignature witness) (mk_payment t to)
    end in
  Transaction_new from_keypair [contract] FinPlan_id
    (serialize (NewContract (mk_contract t fin_plan))) last_id 0.
End Build.

Section Inspect.
Context `{Profile} `{Bincode Instruction}.

(** [Transaction::instruction]. *)
Definition tx_instruction (tx : Transaction) : option Instruction := deserialize (tx_userdata tx).

(** [Transaction::vote]. *)
Definition tx_vote (tx : Transaction) : outcome (option (Pubkey * Vote * Hash)) :=
  match tx_instruction tx with
  | Some (NewVote vote) => from ← tx_from tx; Ret (Some (from, vote, tx_last_id tx))
  | _ => Ret None
  end.

(** [Transaction::verify_plan]. *)
Definition verify_plan (tx : Transaction) : outcome bool :=
  match tx_instruction tx with
  | Some (NewContract contract) =>
      if (0 <=? tx_fee tx) && (tx_fee tx <=? contract_tokens contract) then
        rest ← i64_sub (contract_tokens contract) (tx_fee tx);
        Ret (plan_verify (contract_fin_plan contract) rest)
      else Ret false
  | _ => Ret true
  end.
End Inspect.

(** ** Verifying the signature of a packet in place *)

Definition SIGNED_DATA_OFFSET : nat := 64.
Definition SIG_OFFSET : nat := 0.
Definition PUB_KEY_OFFSET : nat := 72.
Definition TX_OFFSET : nat := 0.

(** [verify_packet], on the packet's buffer and its [meta.size]. *)
Definition verify_packet `{Ed25519} (data : bytes) (size : nat) : outcome Z :=
  let msg_start := (TX_OFFSET + SIGNED_DATA_OFFSET)%nat in
  let sig_start := (TX_OFFSET + SIG_OFFSET)%nat in
  let sig_end := (sig_start + 64)%nat in
  let pubkey_start := (TX_OFFSET + PUB_KEY_OFFSET)%nat in
  let pubkey_end := (pubkey_start + 32)%nat in
  if (size <=? msg_start)%nat then Ret 0
  else
    pk ← slice data pubkey_start pubkey_end;
    msg ← slice data msg_start size;
    sg ← slice data sig_start sig_end;
    Ret (if ed25519_verify pk msg sg then 1 else 0).

(** ** Lemmas *)

Lemma Hasher_hashv_input h vals : hasher_input (Hasher_hashv h vals) = hasher_input h ++ concat vals.
Proof.
  revert h. induction vals as [|v vals IH]; intros h; simpl; [by rewrite app_nil_r|].
  unfold Hasher_hashv in *. simpl. rewrite IH. simpl. by rewrite app_assoc.
Qed.

Lemma hashv_concat `{Sha256} vals : hashv vals = mk_hash (sha256 (concat vals)).
Proof. unfold hashv, Hasher_result. by rewrite Hasher_hashv_input. Qed.

Lemma hashv_wf `{Sha256} vals : wf (hashv vals).
Proof. rewrite hashv_concat. apply sha256_length. Qed.

Lemma transactions_hash_concat `{Sha256} txs :
  transactions_hash txs = mk_hash (sha256 (concat (signature_bytes ∘ tx_signature <$> txs))).
Proof.
  unfold transactions_hash, Hasher_result. do 2 f_equal.
  change (concat _) with (hasher_input Hasher_default ++ concat (signature_bytes ∘ tx_signature <$> txs)).
  generalize Hasher_default. induction txs as [|tx txs IH]; intros h; simpl; [by rewrite app_nil_r|].
  rewrite IH. simpl. by rewrite app_assoc.
Qed.

Lemma transactions_hash_wf `{Sha256} txs : wf (transactions_hash txs).
Proof. rewrite transactions_hash_concat. apply sha256_length. Qed.

#[export] Hint Resolve hashv_wf transactions_hash_wf : hc.

Section BuildLemmas.
Context `{Ed25519} `{!Ed25519Ok} `{Bincode (list Pubkey)} `{Bincode Pubkey} `{Bincode Hash}
  `{Bincode I64} `{Bincode bytes}.

Lemma Transaction_new_Ret k keys pid data lid fee : exists sg,
  Transaction_new k keys pid data lid fee =
    Ret (mk_tx (mk_signature sg) (keypair_pubkey k :: keys) pid lid fee data) /\
  length sg = 64%nat /\
  ed25519_verify (public_key_bytes k)
    (get_sign_data (mk_tx Signature_default (keypair_pubkey k :: keys) pid lid fee data)) sg = true.
Proof.
  eexists. unfold Transaction_new, sign, Signature_new.
  rewrite bool_decide_true by apply signature_length. simpl.
  split; [done|]. split; [apply signature_length|apply verify_sign].
Qed.

(** A transaction built with a key pair carries the fields it was given,
    is charged to that key pair, and its signature verifies. *)
Theorem Transaction_new_verifies : forall k keys pid data lid fee, exists tx,
  Transaction_new k keys pid data lid fee = Ret tx /\ verify_signature tx = Ret true /\
  tx_from tx = Ret (keypair_pubkey k) /\ tx_keys tx = keypair_pubkey k :: keys /\
  tx_program_id tx = pid /\ tx_last_id tx = lid /\ tx_fee tx = fee /\ tx_userdata tx = data.
Proof.
  intros k keys pid data lid fee.
  destruct (Transaction_new_Ret k keys pid data lid fee) as (sg & Hnew & _ & Hv).
  eexists. split; [exact Hnew|]. split; [|done].
  unfold verify_signature, Signature_verify. simpl. f_equal. exact Hv.
Qed.
End BuildLemmas.

(** What the offsets of [src/sigverify.rs] assume of bincode: a struct is the
    concatenation of its fields, a byte array is itself, a vector starts with
    eight bytes of length. *)
Class TxLayout `{Bincode Transaction} `{Bincode (list Pubkey)} `{Bincode Pubkey} `{Bincode Hash}
    `{Bincode I64} `{Bincode bytes} : Prop := {
  tx_layout : forall tx : Transaction, wf tx ->
    serialize tx = signature_bytes (tx_signature tx) ++ get_sign_data tx;
  keys_layout : forall keys : list Pubkey, Forall wf keys -> vec_wf keys ->
    exists len8, length len8 = 8%nat /\ serialize keys = len8 ++ concat (pubkey_bytes <$> keys) }.

Section Packet.
Context `{Ed25519} `{TxLayout}.

Lemma serialize_split tx k keys : wf tx -> tx_keys tx = k :: keys -> exists len8 rest,
  length len8 = 8%nat /\ length (signature_bytes (tx_signature tx)) = 64%nat /\
  length (pubkey_bytes k) = 32%nat /\
  get_sign_data tx = len8 ++ pubkey_bytes k ++ rest /\
  serialize tx = signature_bytes (tx_signature tx) ++ len8 ++ pubkey_bytes k ++ rest.
Proof.
  intros Hwf Hk. pose proof Hwf as (Hsig & Hkeys & Hvec & _).
  destruct (keys_layout (tx_keys tx) Hkeys Hvec) as (len8 & Hl & Hser).
  exists len8, (concat (pubkey_bytes <$> keys) ++ serialize (tx_program_id tx) ++
    serialize (tx_last_id tx) ++ serialize (mk_i64 (tx_fee tx)) ++ serialize (tx_userdata tx)).
  rewrite Hk in Hkeys. apply Forall_cons in Hkeys as [Hk1 _].
  assert (Hsd : get_sign_data tx = len8 ++ pubkey_bytes k ++ concat (pubkey_bytes <$> keys) ++
    serialize (tx_program_id tx) ++ serialize (tx_last_id tx) ++
    serialize (mk_i64 (tx_fee tx)) ++ serialize (tx_userdata tx)).
  { unfold get_sign_data. rewrite Hser, Hk. cbn. by rewrite <- !app_assoc. }
  do 3 (split; [done|]). split; [done|]. rewrite tx_layout by done. by rewrite Hsd.
Qed.

(** The packet check signs for all the packet's bytes, also those after the
    transaction. *)
Lemma verify_packet_bytes tx k keys extra pad : wf tx -> tx_keys tx = k :: keys ->
  verify_packet (serialize tx ++ extra ++ pad) (length (serialize tx ++ extra)) =
    Ret (if Signature_verify (tx_signature tx) (pubkey_bytes k) (get_sign_data tx ++ extra) then 1 else 0).
Proof.
  intros Hwf Hk.
  destruct (serialize_split tx k keys Hwf Hk) as (len8 & rest & H8 & H64 & H32 & Hsd & Hser).
  unfold Signature_verify. set (sg := signature_bytes (tx_signature tx)) in *.
  assert (Hlen : length (serialize tx) = (104 + length rest)%nat)
    by (rewrite Hser, !length_app; lia).
  unfold verify_packet, TX_OFFSET, SIGNED_DATA_OFFSET, SIG_OFFSET, PUB_KEY_OFFSET.
  rewrite (proj2 (Nat.leb_gt _ _)) by (rewrite length_app; lia).
  rewrite (slice_middle _ (sg ++ len8) (pubkey_bytes k) (rest ++ extra ++ pad) (0 + 72)), bind_Ret
    by (rewrite ?Hser, ?length_app, <- ?app_assoc; done || lia).
  rewrite (slice_middle _ sg (get_sign_data tx ++ extra) pad (0 + 64)), bind_Ret
    by (rewrite ?length_app, ?Hlen, ?Hser, ?Hsd, ?length_app, <- ?app_assoc; done || lia).
  by rewrite (slice_middle _ [] sg (len8 ++ pubkey_bytes k ++ rest ++ extra ++ pad))
    by (rewrite ?Hser, <- ?app_assoc; done || lia).
Qed.

(** Checking the signature of a serialised transaction in place, at the
    fixed offsets the verifier uses, gives the same verdict as decoding the
    transaction and calling [verify_signature], whatever follows it in the
    packet buffer. *)
Theorem verify_packet_agrees : forall tx k keys pad, wf tx -> tx_keys tx = k :: keys ->
  verify_packet (serialize tx ++ pad) (length (serialize tx)) =
    (b ← verify_signature tx; Ret (if (b : bool) then 1 else 0)).
Proof.
  intros tx k keys pad Hwf Hk. pose proof (verify_packet_bytes tx k keys [] pad Hwf Hk) as Hv.
  rewrite !app_nil_r, app_nil_l in Hv. rewrite Hv. unfold verify_signature, tx_from. by rewrite Hk.
Qed.
End Packet.

Section Plans.
Context `{Ed25519} `{!Ed25519Ok} `{Bincode (list Pubkey)} `{Bincode Pubkey} `{Bincode Hash}
  `{Bincode I64} `{Bincode bytes} `{Profile} `{Bincode Instruction} `{!BincodeOk Instruction}.

Lemma verify_plan_contract tx c : tx_userdata tx = serialize (NewContract c) -> wf c ->
  0 <= tx_fee tx ->
  verify_plan tx = Ret ((tx_fee tx <=? contract_tokens c) &&
                        plan_verify (contract_fin_plan c) (contract_tokens c - tx_fee tx)).
Proof.
  intros Hu Hwf Hfee. unfold verify_plan, tx_instruction.
  rewrite Hu, deserialize_serialize by done.
  rewrite (proj2 (Z.leb_le 0 _)) by done. simpl. destruct (tx_fee tx <=? _) eqn:E; [|done].
  apply Z.leb_le in E. destruct Hwf as [Ht _]. rewrite in_i64_iff in Ht.
  rewrite i64_sub_exact; [done|]. rewrite in_i64_iff. unfold i64_min, i64_max in *. lia.
Qed.

Lemma built_contract_verifies k keys c lid fee :
  wf c -> 0 <= fee <= contract_tokens c ->
  plan_verify (contract_fin_plan c) (contract_tokens c - fee) = true ->
  exists tx, Transaction_new k keys FinPlan_id (serialize (NewContract c)) lid fee = Ret tx /\
    verify_plan tx = Ret true.
Proof.
  intros Hwf Hfee Hv.
  destruct (Transaction_new_Ret k keys FinPlan_id (serialize (NewContract c)) lid fee) as (sg & -> & _).
  eexists. split; [done|]. rewrite (verify_plan_contract _ c) by (done || simpl; lia). simpl.
  rewrite Hv, andb_true_r. f_equal. lia.
Qed.

(** Every contract transaction the library builds passes its own plan
    check: an immediate payment with a fee between zero and the amount, a
    payment on a date and a payment on a signature, cancelable or not. *)
Theorem built_plans_verify : forall k to contract dt dk cancel t fee lid,
  wf to -> wf dk -> in_i64 dt = true -> in_i64 t = true -> 0 <= fee <= t ->
  match cancel with Some c => wf c | None => True end ->
  (exists tx, fin_plan_new_taxed k to t fee lid = Ret tx /\ verify_plan tx = Ret true) /\
  (exists tx, fin_plan_new_on_date k to contract dt dk cancel t lid = Ret tx /\
              verify_plan tx = Ret true) /\
  (exists tx, fin_plan_new_when_signed k to contract dk cancel t lid = Ret tx /\
              verify_plan tx = Ret true).
Proof.
  intros k to contract dt dk cancel t fee lid Hto Hdk Hdt Ht Hfee Hc.
  assert (Hr : in_i64 (t - fee) = true).
  { rewrite in_i64_iff in *. unfold i64_min, i64_max in *. lia. }
  split; [|split].
  1: unfold fin_plan_new_taxed; rewrite i64_sub_exact by done; simpl.
  all: apply built_contract_verifies; simpl; rewrite ?Z.sub_0_r; try lia.
  all: destruct cancel; simpl; rewrite ?Z.eqb_refl; try done.
  all: cbv [wf Contract_wf FinPlan_wf Condition_wf Payment_wf] in *; simpl; tauto.
Qed.
End Plans.

(** ** Reference instances and witnesses *)

Module Toy.
(** Not cryptography: functions of the right shape, to run the program on. *)
Definition digest (b : bytes) : bytes := Byte.x2a :: take 31 (b ++ replicate 31 Byte.x00).
Lemma digest_length b : length (digest b) = 32%nat.
Proof. unfold digest. cbn [length]. rewrite length_take, length_app, length_replicate. lia. Qed.
Definition sha : Sha256 := {| sha256 := digest; sha256_length := digest_length |}.
Definition ed : Ed25519 := {|
  Keypair := byte;
  public_key_bytes b := replicate 32 b;
  keypair_sign b m := replicate 32 b ++ digest m;
  ed25519_verify pk m sg := bool_decide (sg = pk ++ digest m) |}.
Lemma ed_ok : @Ed25519Ok ed.
Proof.
  split.
  - intros k. apply length_replicate.
  - intros k m. cbn [keypair_sign ed]. by rewrite length_app, length_replicate, digest_length.
  - intros k m. by apply bool_decide_eq_true.
Qed.

Definition keys_bincode : Bincode (list Pubkey) := codec_bincode (c_vec c_pubkey c_pubkey_nonempty).
Definition pubkey_bincode : Bincode Pubkey := codec_bincode c_pubkey.
Definition hash_bincode : Bincode Hash := codec_bincode c_hash.
Definition bytes_bincode : Bincode bytes := codec_bincode c_bytes.
Definition tx_bincode : Bincode Transaction := codec_bincode c_transaction.

Lemma layout : @TxLayout tx_bincode keys_bincode pubkey_bincode hash_bincode
  SystemCodec.i64_bincode bytes_bincode.
Proof.
  split; [done|]. intros keys _ _.
  exists (le_bytes 8 (Z.of_nat (length keys))). split; [apply length_le_bytes|done].
Qed.

Lemma instruction_ok : @BincodeOk Instruction _ FinPlanCodec.instruction_bincode.
Proof.
  apply codec_bincode_ok. intros [[t plan]| | |[v1 v2]]; unfold wf; simpl.
  - pose proof (FinPlanCodec.c_fin_plan_wf plan) as Hp. unfold wf, Contract_wf in *. simpl in *. tauto.
  - tauto.
  - tauto.
  - unfold wf, Vote_wf. simpl. rewrite !u64_range. tauto.
Qed.
End Toy.

Module TransactionsWitness.
Import Toy.
#[local] Existing Instances ed ed_ok keys_bincode pubkey_bincode hash_bincode bytes_bincode tx_bincode
  layout SystemCodec.i64_bincode FinPlanCodec.instruction_bincode instruction_ok SystemCodec.system_bincode.
#[local] Instance checked : Profile := true.

Definition kp : @Keypair ed := Byte.x05.

Definition tx : Transaction :=
  match system_move kp (key 9) 42 Hash_default 1 with
  | Ret tx => tx
  | Panic => mk_tx Signature_default [] System_id Hash_default 0 []
  end.

Lemma tx_wf : wf tx.
Proof. repeat split; vm_compute; try reflexivity; repeat constructor. Qed.

Lemma Transaction_new_verifies_witness : exists tx,
  Transaction_new kp [key 9] System_id [Byte.x07] Hash_default 1 = Ret tx /\ verify_signature tx = Ret true /\
  tx_from tx = Ret (keypair_pubkey kp) /\ tx_keys tx = keypair_pubkey kp :: [key 9] /\
  tx_program_id tx = System_id /\ tx_last_id tx = Hash_default /\ tx_fee tx = 1 /\
  tx_userdata tx = [Byte.x07].
Proof. apply Transaction_new_verifies. Defined.

Lemma verify_packet_agrees_witness :
  verify_packet (serialize tx ++ [Byte.x00]) (length (serialize tx)) =
    (b ← verify_signature tx; Ret (if (b : bool) then 1 else 0)) /\
  verify_signature tx = Ret true.
Proof.
  split; [|vm_compute; reflexivity].
  apply (verify_packet_agrees tx (keypair_pubkey kp) [key 9]); [apply tx_wf|reflexivity].
Defined.

Lemma built_plans_verify_witness :
  (exists tx, fin_plan_new_taxed kp (key 2) 10 1 Hash_default = Ret tx /\
              verify_plan tx = Ret true) /\
  (exists tx, fin_plan_new_on_date kp (key 2) (key 3) 7 (key 4) (Some (key 5)) 10 Hash_default
                = Ret tx /\ verify_plan tx = Ret true) /\
  (exists tx, fin_plan_new_when_signed kp (key 2) (key 3) (key 4) (Some (key 5)) 10 Hash_default
                = Ret tx /\ verify_plan tx = Ret true).
Proof. apply built_plans_verify; vm_compute; try reflexivity; split; discriminate. Defined.
End TransactionsWitness.
