(* ===== verification/Entry.v ===== *)
(** * Proof of dedication: the hash chain, entries and blocks

    [src/pod.rs] (the hash chain), [src/entry.rs] (entries), the [Block] trait
    and the packing of transactions into entries of [src/ledger.rs], and the
    genesis entries of [src/mint.rs]. *)

From S2P Require Import Prelude.
From S2P Require Import Types.
From S2P Require Import Codec.
From S2P Require Import Packet.
From S2P Require Import FinPlan.
From S2P Require Import FinPlanProgram.
From S2P Require Import SystemProgram.
From S2P Require Import Transactions.

(** ** The hash chain *)

Record Pod := mk_pod { pod_last_hash : Hash; pod_num_hashes : Z (* u64 *) }.
Record PodEntry := mk_pod_entry { pe_num_hashes : Z; pe_id : Hash; pe_mixin : option Hash }.

Section Chain.
Context `{Profile} `{Sha256}.

Definition Pod_new (last_hash : Hash) : Pod := mk_pod last_hash 0.

Definition Pod_hash (p : Pod) : outcome Pod :=
  n ← u64_add (pod_num_hashes p) 1;
  Ret (mk_pod (hash (hash_bytes (pod_last_hash p))) n).

Definition Pod_record (p : Pod) (mixin : Hash) : outcome (PodEntry * Pod) :=
  n ← u64_add (pod_num_hashes p) 1;
  let last := hashv [hash_bytes (pod_last_hash p); hash_bytes mixin] in
  Ret (mk_pod_entry n last (Some mixin), mk_pod last 0).

Definition Pod_tick (p : Pod) : outcome (PodEntry * Pod) :=
  p1 ← Pod_hash p;
  Ret (mk_pod_entry (pod_num_hashes p1) (pod_last_hash p1) None, mk_pod (pod_last_hash p1) 0).

(** [h] hashed [n] times. *)
Fixpoint hash_n (n : nat) (h : Hash) : Hash :=
  match n with O => h | S n' => hash_n n' (hash (hash_bytes h)) end.

(** [pod::verify]. *)
Fixpoint pod_verify (last_hash : Hash) (entries : list PodEntry) : outcome bool :=
  match entries with
  | [] => Ret true
  | e :: rest =>
      _ ← rassert (negb (pe_num_hashes e =? 0));
      let last := hash_n (Z.to_nat (pe_num_hashes e - 1)) last_hash in
      let id := match pe_mixin e with
                | Some mixin => hashv [hash_bytes last; hash_bytes mixin]
                | None => hash (hash_bytes last)
                end in
      if bool_decide (id = pe_id e) then pod_verify id rest else Ret false
  end.
End Chain.

(** ** Entries *)

Record Entry := mk_entry {
  e_num_hashes : Z;      (* u64 *)
  e_id : Hash;
  e_transactions : list Transaction }.

#[export] Instance Entry_eq_dec : EqDecision Entry.
Proof. solve_decision. Defined.

#[export] Instance Entry_wf : Wf Entry := fun e =>
  in_u64 (e_num_hashes e) = true /\ wf (e_id e) /\ Forall wf (e_transactions e) /\
  vec_wf (e_transactions e).

Section Entries.
Context `{Profile} `{Sha256} `{Bincode Entry} `{Bincode Instruction}.

(** [for _ in 1..n { pod.hash() }]. *)
Fixpoint Pod_hash_n (n : nat) (p : Pod) : outcome Pod :=
  match n with O => Ret p | S n' => p' ← Pod_hash p; Pod_hash_n n' p' end.

Definition next_hash (start_hash : Hash) (num_hashes : Z) (txs : list Transaction) : outcome Hash :=
  if (num_hashes =? 0) && bool_decide (txs = []) then Ret start_hash
  else
    pod ← Pod_hash_n (Z.to_nat (num_hashes - 1)) (Pod_new start_hash);
    if bool_decide (txs = []) then
      '(e, _) ← Pod_tick pod; Ret (pe_id e)
    else
      '(e, _) ← Pod_record pod (transactions_hash txs); Ret (pe_id e).

(** [entry::next_entry]. *)
Definition next_entry (start_hash : Hash) (num_hashes : Z) (txs : list Transaction) : outcome Entry :=
  _ ← rassert ((0 <? num_hashes) || bool_decide (txs = []));
  id ← next_hash start_hash num_hashes txs;
  Ret (mk_entry num_hashes id txs).

(** [Entry::new]: the chain is advanced by at most one hash, whatever
    [num_hashes] says. *)
Definition Entry_new (start_hash : Hash) (num_hashes : Z) (txs : list Transaction) : outcome Entry :=
  n ← u64_add num_hashes (if bool_decide (txs = []) then 0 else 1);
  id ← next_hash start_hash 0 txs;
  let entry := mk_entry n id txs in
  if BLOB_DATA_SIZE <? serialized_size entry then Panic else Ret entry.

Definition Entry_new_tick (num_hashes : Z) (id : Hash) : Entry := mk_entry num_hashes id [].

(** [Entry::new_mut]: the entry, the next start hash and hash count. *)
Definition Entry_new_mut (start_hash : Hash) (num_hashes : Z) (txs : list Transaction)
    : outcome (Entry * Hash * Z) :=
  entry ← Entry_new start_hash num_hashes txs;
  _ ← rassert (serialized_size entry <=? BLOB_DATA_SIZE);
  Ret (entry, e_id entry, 0).

Definition will_fit (txs : list Transaction) : bool :=
  serialized_size (mk_entry 0 Hash_default txs) <=? BLOB_DATA_SIZE.

(** [Entry::verify]. *)
Fixpoint all_plans_verify (txs : list Transaction) : outcome bool :=
  match txs with
  | [] => Ret true
  | tx :: rest => r ← verify_plan tx; if (r : bool) then all_plans_verify rest else Ret false
  end.

Definition Entry_verify (e : Entry) (start_hash : Hash) : outcome bool :=
  tx_plans_verified ← all_plans_verify (e_transactions e);
  if negb tx_plans_verified then Ret false
  else
    ref_hash ← next_hash start_hash (e_num_hashes e) (e_transactions e);
    Ret (bool_decide (e_id e = ref_hash)).

(** [Block::verify]: each entry against the id before it. *)
Fixpoint block_verify (entries : list Entry) (start_hash : Hash) : outcome bool :=
  match entries with
  | [] => Ret true
  | e :: rest =>
      r ← Entry_verify e start_hash;
      if (r : bool) then block_verify rest (e_id e) else Ret false
  end.

(** [Block::votes]. *)
Fixpoint tx_votes (txs : list Transaction) : outcome (list (Pubkey * Vote * Hash)) :=
  match txs with
  | [] => Ret []
  | tx :: rest =>
      v ← tx_vote tx; vs ← tx_votes rest;
      Ret (match v with Some x => x :: vs | None => vs end)
  end.
Definition block_votes (entries : list Entry) : outcome (list (Pubkey * Vote * Hash)) :=
  tx_votes (concat (e_transactions <$> entries)).

(** ** Packing transactions into entries

    The search both [Entry::num_will_fit] and the inner loop of
    [next_entries_mut] run: [fits n] tests the slice that ends at [n].
    [None] is a search that has not converged within the fuel. *)
Fixpoint fit_search (fits : nat -> bool) (fuel num upper lower : nat) : option nat :=
  match fuel with
  | O => None
  | S fuel' =>
      let '(next, upper', lower') :=
        if fits num then ((upper + num) / 2, upper, num)%nat
        else ((lower + num) / 2, num, lower)%nat in
      if (next =? num)%nat then Some num else fit_search fits fuel' next upper' lower'
  end.

(** Enough for a slice of [n]: see [fit_search_terminates]. *)
Definition search_fuel (n : nat) : nat := 3 * n + 4.

Definition num_will_fit (txs : list Transaction) : option nat :=
  if bool_decide (txs = []) then Some O
  else fit_search (fun n => will_fit (take n txs)) (search_fuel (length txs))
         (length txs) (length txs) 1.

(** The outer loop of [next_entries_mut]; [None] when it has not finished
    within the fuel. *)
Fixpoint pack (fuel : nat) (start_hash : Hash) (num_hashes : Z) (txs : list Transaction)
    (chunk_start : nat) (entries : list Entry) : option (outcome (list Entry * Hash * Z)) :=
  match fuel with
  | O => None
  | S fuel' =>
      if (chunk_start <? length txs)%nat then
        let chunk_stop := length txs in
        match fit_search (fun n => will_fit (take (n - chunk_start) (drop chunk_start txs)))
                (search_fuel (length txs)) chunk_stop chunk_stop chunk_start with
        | None => None
        | Some chunk_end =>
            match Entry_new_mut start_hash num_hashes
                    (take (chunk_end - chunk_start) (drop chunk_start txs)) with
            | Panic => Some Panic
            | Ret (e, start', n') => pack fuel' start' n' txs chunk_end (entries ++ [e])
            end
        end
      else Some (Ret (entries, start_hash, num_hashes))
  end.

Definition next_entries_mut (fuel : nat) (start_hash : Hash) (num_hashes : Z)
    (txs : list Transaction) : option (outcome (list Entry * Hash * Z)) :=
  if (length txs <=? 1)%nat then
    Some ('(e, h, n) ← Entry_new_mut start_hash num_hashes txs; Ret ([e], h, n))
  else pack fuel start_hash num_hashes txs 0 [].

Definition next_entries (fuel : nat) (start_hash : Hash) (num_hashes : Z) (txs : list Transaction)
    : option (outcome (list Entry)) :=
  match next_entries_mut fuel start_hash num_hashes txs with
  | Some (Ret (entries, _, _)) => Some (Ret entries)
  | Some Panic => Some Panic
  | None => None
  end.
End Entries.

(** ** Lemmas: the chain *)

Section ChainLemmas.
Context `{Profile} `{Sha256}.

Lemma Pod_hash_n_Ret n p : 0 <= pod_num_hashes p -> pod_num_hashes p + Z.of_nat n <= u64_max ->
  Pod_hash_n n p = Ret (mk_pod (hash_n n (pod_last_hash p)) (pod_num_hashes p + Z.of_nat n)).
Proof.
  revert p. induction n as [|n IH]; intros [h k] Hpos Hn; simpl in *.
  { by rewrite Z.add_0_r. }
  unfold Pod_hash. simpl. rewrite u64_add_exact by (apply in_u64_iff; lia). simpl.
  rewrite IH by (simpl; lia). simpl. do 2 f_equal. lia.
Qed.

(** [next_hash] as a function of the chain. *)
Definition next_id (start_hash : Hash) (num_hashes : Z) (txs : list Transaction) : Hash :=
  if decide (num_hashes = 0 /\ txs = []) then start_hash
  else
    let last := hash_n (Z.to_nat (num_hashes - 1)) start_hash in
    if decide (txs = []) then hash (hash_bytes last)
    else hashv [hash_bytes last; hash_bytes (transactions_hash txs)].

Lemma next_hash_Ret start n txs : in_u64 n = true -> next_hash start n txs = Ret (next_id start n txs).
Proof.
  intros Hn%in_u64_iff. unfold next_hash, next_id.
  destruct (decide (n = 0 /\ txs = [])) as [[-> ->]|Hne]; [done|].
  assert ((n =? 0) && bool_decide (txs = []) = false) as ->.
  { apply andb_false_iff. rewrite Z.eqb_neq, bool_decide_eq_false.
    destruct (decide (n = 0)); [right|left]; tauto. }
  unfold u64_max in *.
  rewrite Pod_hash_n_Ret by (simpl; unfold u64_max; lia). simpl.
  case_decide; [rewrite bool_decide_true by done|rewrite bool_decide_false by done].
  - unfold Pod_tick, Pod_hash. simpl. rewrite u64_add_exact by (apply in_u64_iff; unfold u64_max; lia).
    done.
  - unfold Pod_record. simpl. rewrite u64_add_exact by (apply in_u64_iff; unfold u64_max; lia). done.
Qed.

Lemma next_id_zero start txs : next_id start 0 txs = if decide (txs = []) then start else next_id start 1 txs.
Proof. unfold next_id. repeat case_decide; done || (exfalso; intuition lia). Qed.

Lemma hash_eq b : hash b = mk_hash (sha256 b).
Proof. unfold hash. rewrite hashv_concat. simpl. by rewrite app_nil_r. Qed.

Lemma hash_n_wf n h : wf h -> wf (hash_n n h).
Proof.
  revert h. induction n as [|n IH]; intros h Hh; simpl; [done|].
  apply IH. rewrite hash_eq. apply sha256_length.
Qed.

Lemma next_id_wf start n txs : wf start -> wf (next_id start n txs).
Proof.
  intros Hs. unfold next_id. repeat case_decide; [done|rewrite hash_eq; apply sha256_length|].
  apply hashv_wf.
Qed.

(** Two distinct inputs with the same digest. *)
Definition collision : Prop := exists x y : bytes, x <> y /\ sha256 x = sha256 y.

Lemma sha256_inj x y : sha256 x = sha256 y -> x = y \/ collision.
Proof. intros Heq. destruct (decide (x = y)); [by left|right; by exists x, y]. Qed.

Lemma hash_n_inj n h1 h2 : hash_n n h1 = hash_n n h2 -> h1 = h2 \/ collision.
Proof.
  revert h1 h2. induction n as [|n IH]; intros h1 h2 Heq; [by left|]. simpl in Heq.
  apply IH in Heq as [Heq|?]; [|by right]. rewrite !hash_eq in Heq.
  injection Heq as [Heq|?]%sha256_inj; [|by right]. left. destruct h1, h2; simpl in *; congruence.
Qed.

(** Signature lists of fixed-width signatures, from their concatenation. *)
Lemma concat_signatures_inj txs1 txs2 : Forall wf txs1 -> Forall wf txs2 ->
  concat (signature_bytes ∘ tx_signature <$> txs1) = concat (signature_bytes ∘ tx_signature <$> txs2) ->
  tx_signature <$> txs1 = tx_signature <$> txs2.
Proof.
  intros Hw1. revert txs2. induction Hw1 as [|t1 txs1 [Ht1 _] Hw1 IH]; intros txs2 Hw2 Heq.
  - destruct Hw2 as [|t2 txs2 [Ht2 _] _]; [done|]. cbn in Heq.
    apply (f_equal length) in Heq. rewrite length_app in Heq. unfold wf, Signature_wf in Ht2.
    simpl in Heq. lia.
  - destruct Hw2 as [|t2 txs2 [Ht2 _] Hw2]; cbn in Heq.
    + apply (f_equal length) in Heq. rewrite length_app in Heq. unfold wf, Signature_wf in Ht1.
      simpl in Heq. lia.
    + apply app_inj_1 in Heq as [Hs Heq]; [|unfold wf, Signature_wf in *; congruence].
      cbn. rewrite (IH _ Hw2 Heq). f_equal.
      destruct (tx_signature t1), (tx_signature t2); simpl in *; congruence.
Qed.

Lemma transactions_hash_inj txs1 txs2 : Forall wf txs1 -> Forall wf txs2 ->
  transactions_hash txs1 = transactions_hash txs2 ->
  tx_signature <$> txs1 = tx_signature <$> txs2 \/ collision.
Proof.
  intros Hw1 Hw2. rewrite !transactions_hash_concat. intros [= [Heq|?]%sha256_inj]; [|by right].
  left. by apply concat_signatures_inj.
Qed.

(** An id pins down what it was computed from, or exhibits a collision. *)
Lemma next_id_inj h1 h2 n txs1 txs2 :
  0 < n -> wf h1 -> wf h2 -> Forall wf txs1 -> Forall wf txs2 ->
  next_id h1 n txs1 = next_id h2 n txs2 ->
  (h1 = h2 /\ tx_signature <$> txs1 = tx_signature <$> txs2) \/ collision.
Proof.
  intros Hn Hh1 Hh2 Hw1 Hw2. unfold next_id.
  rewrite !(decide_False (P := n = 0 /\ _)) by lia. cbv zeta.
  set (k := Z.to_nat (n - 1)).
  pose proof (hash_n_wf k h1 Hh1) as Hl1. pose proof (hash_n_wf k h2 Hh2) as Hl2.
  pose proof (transactions_hash_wf txs1) as Ht1. pose proof (transactions_hash_wf txs2) as Ht2.
  unfold wf, Hash_wf in Hl1, Hl2, Ht1, Ht2.
  pose proof (transactions_hash_inj txs1 txs2 Hw1 Hw2) as Hinj.
  revert Ht1 Ht2 Hinj. generalize (transactions_hash txs1) (transactions_hash txs2).
  intros m1 m2 Ht1 Ht2 Hinj.
  destruct (decide (txs1 = [])) as [->|Hne1], (decide (txs2 = [])) as [->|Hne2];
    rewrite ?hash_eq, ?hashv_concat; cbn [concat]; rewrite ?app_nil_r; intros [= [Heq|?]%sha256_inj];
    try by right.
  - destruct (hash_n_inj k h1 h2) as [->|?]; [|by left|by right].
    destruct (hash_n k h1), (hash_n k h2); simpl in *; congruence.
  - apply (f_equal length) in Heq. rewrite length_app in Heq. lia.
  - apply (f_equal length) in Heq. rewrite length_app in Heq. lia.
  - apply app_inj_1 in Heq as [Hl Ht]; [|congruence].
    destruct (hash_n_inj k h1 h2) as [->|?]; [|..|by right].
    + destruct (hash_n k h1), (hash_n k h2); simpl in *; congruence.
    + destruct Hinj as [->|?]; [|by left|by right].
      destruct m1, m2; simpl in *; congruence.
Qed.
End ChainLemmas.

(** ** Lemmas: blocks *)

Section BlockLemmas.
Context `{Profile} `{Sha256} `{Bincode Entry} `{Bincode Instruction}.

(** The id a block ends at. *)
Definition end_hash (entries : list Entry) (start_hash : Hash) : Hash :=
  default start_hash (e_id <$> last entries).

Lemma Entry_verify_true e h : in_u64 (e_num_hashes e) = true ->
  Entry_verify e h = Ret true <->
  all_plans_verify (e_transactions e) = Ret true /\
  e_id e = next_id h (e_num_hashes e) (e_transactions e).
Proof.
  intros Hn. unfold Entry_verify. rewrite next_hash_Ret by done.
  destruct (all_plans_verify _) as [[]|]; simpl; split.
  - intros [= Hb%bool_decide_eq_true]. done.
  - intros [_ ?]. f_equal. by apply bool_decide_eq_true.
  - discriminate.
  - by intros [[=] _].
  - discriminate.
  - by intros [[=] _].
Qed.

Lemma end_hash_cons e b h : end_hash (e :: b) h = end_hash b (e_id e).
Proof. unfold end_hash. rewrite last_cons. by destruct (last b). Qed.

Lemma block_verify_app b1 b2 h :
  block_verify (b1 ++ b2) h =
    (r ← block_verify b1 h; if (r : bool) then block_verify b2 (end_hash b1 h) else Ret false).
Proof.
  revert h. induction b1 as [|e b1 IH]; intros h; [done|]. simpl.
  destruct (Entry_verify e h) as [[]|]; simpl; [|done..]. rewrite IH.
  destruct (block_verify b1 (e_id e)) as [[]|]; simpl; [|done..].
  by rewrite end_hash_cons.
Qed.

Lemma end_hash_snoc b e h : end_hash (b ++ [e]) h = e_id e.
Proof. unfold end_hash. by rewrite last_snoc. Qed.

Lemma end_hash_wf b h : Forall wf b -> wf h -> wf (end_hash b h).
Proof.
  intros Hb Hh. unfold end_hash. destruct (last b) as [e|] eqn:E; [|done].
  apply last_Some in E as [b' ->]. apply Forall_app in Hb as [_ He].
  apply Forall_inv in He as (_ & ? & _). done.
Qed.

Lemma block_verify_snoc b e h : block_verify (b ++ [e]) h = Ret true ->
  block_verify b h = Ret true /\ Entry_verify e (end_hash b h) = Ret true.
Proof.
  rewrite block_verify_app. intros Hv. by run Hv.
Qed.

Lemma all_plans_verify_app txs1 txs2 : all_plans_verify (txs1 ++ txs2) = Ret true <->
  all_plans_verify txs1 = Ret true /\ all_plans_verify txs2 = Ret true.
Proof.
  induction txs1 as [|tx txs1 IH]; simpl; [naive_solver|].
  destruct (verify_plan tx) as [[]|]; simpl; [done|naive_solver..].
Qed.

(** The entry [next_entry] makes is the one [verify] accepts from the
    same starting hash, for every number of hashes and every batch of
    transactions whose plans check. *)
Theorem next_entry_verifies : forall start n txs,
  in_u64 n = true -> 0 < n \/ txs = [] -> all_plans_verify txs = Ret true ->
  exists e, next_entry start n txs = Ret e /\ e_transactions e = txs /\ e_num_hashes e = n /\
    Entry_verify e start = Ret true.
Proof.
  intros start n txs Hn Hpos Hplans. unfold next_entry.
  assert ((0 <? n) || bool_decide (txs = []) = true) as ->.
  { apply orb_true_iff. rewrite Z.ltb_lt, bool_decide_eq_true. done. }
  simpl. rewrite next_hash_Ret by done. simpl. eexists. split; [done|]. do 2 (split; [done|]).
  by apply Entry_verify_true.
Qed.

(** Verification is compositional: a chain verifies from a hash if and
    only if every prefix does and the rest verifies from where the prefix
    ended. *)
Theorem block_verify_compose : forall b1 b2 h,
  block_verify (b1 ++ b2) h = Ret true <->
  block_verify b1 h = Ret true /\ block_verify b2 (end_hash b1 h) = Ret true.
Proof.
  intros b1 b2 h. rewrite block_verify_app.
  destruct (block_verify b1 h) as [[]|]; simpl; naive_solver.
Qed.

End BlockLemmas.

(** ** Lemmas: the search for the largest slice that fits *)

Section Search.
Context (fits : nat -> bool).

Definition search_measure (num upper lower : nat) : nat :=
  3 * (upper - lower) + (if decide (num = lower) then 1 else 0) +
  (if decide (num = upper) then 2 else 0).

Lemma fit_search_terminates fuel num upper lower :
  (lower <= num <= upper)%nat -> (search_measure num upper lower < fuel)%nat ->
  is_Some (fit_search fits fuel num upper lower).
Proof.
  revert num upper lower. induction fuel as [|fuel IH]; intros num upper lower Hr Hm; [lia|].
  pose proof (Nat.div_mod_eq (upper + num) 2). pose proof (Nat.mod_upper_bound (upper + num) 2).
  pose proof (Nat.div_mod_eq (lower + num) 2). pose proof (Nat.mod_upper_bound (lower + num) 2).
  cbn [fit_search]. destruct (fits num).
  - destruct (_ =? num)%nat eqn:E; [eauto|]. apply Nat.eqb_neq in E.
    apply IH; [lia|]. unfold search_measure in *. repeat case_decide; lia.
  - destruct (_ =? num)%nat eqn:E; [eauto|]. apply Nat.eqb_neq in E.
    apply IH; [lia|]. unfold search_measure in *. repeat case_decide; lia.
Qed.

Lemma fit_search_maximal fuel num upper lower top r :
  (lower <= num <= upper)%nat -> (upper <= top)%nat -> fits lower = true ->
  (upper = top /\ num = top) \/ fits upper = false ->
  fit_search fits fuel num upper lower = Some r ->
  fits r = true /\ (lower <= r <= top)%nat /\ (r = top \/ fits (S r) = false).
Proof.
  revert num upper lower. induction fuel as [|fuel IH]; intros num upper lower Hr Ht Hlow Hup Hs; [done|].
  pose proof (Nat.div_mod_eq (upper + num) 2). pose proof (Nat.mod_upper_bound (upper + num) 2).
  pose proof (Nat.div_mod_eq (lower + num) 2). pose proof (Nat.mod_upper_bound (lower + num) 2).
  cbn [fit_search] in Hs. destruct (fits num) eqn:Ef.
  - destruct (_ =? num)%nat eqn:E; simplify_eq.
    + apply Nat.eqb_eq in E. split; [done|]. split; [lia|].
      destruct Hup as [[-> ->]|Hup]; [by left|]. right.
      destruct (decide (upper = r)); [congruence|]. by replace (S r) with upper by lia.
    + apply Nat.eqb_neq in E.
      apply IH in Hs; [|lia|lia|done|destruct Hup as [[-> ->]|]; [lia|by right]].
      destruct Hs as (? & ? & ?). split_and!; [done|lia|lia|done].
  - destruct (decide (num = lower)) as [->|Hne]; [congruence|].
    destruct (_ =? num)%nat eqn:E; [apply Nat.eqb_eq in E; lia|].
    apply IH in Hs; [|lia|lia|done|by right]. done.
Qed.
End Search.

(** ** Lemmas and properties: packing *)

(** What packing relies on of the wire size of an entry: the fixed-width fields
    do not change it, and appending a transaction does not shrink it. *)
Class EntryWire `{Bincode Entry} : Prop := {
  entry_size_fields : forall n h txs, in_u64 n = true -> wf h ->
    serialized_size (mk_entry n h txs) = serialized_size (mk_entry 0 Hash_default txs);
  entry_size_snoc : forall txs tx,
    serialized_size (mk_entry 0 Hash_default txs) <= serialized_size (mk_entry 0 Hash_default (txs ++ [tx])) }.

Section Packing.
Context `{Profile} `{Sha256} `{Bincode Entry} `{!EntryWire} `{Bincode Instruction}.

(** The slice of the transactions a chunk takes. *)
Definition chunk (txs : list Transaction) (a b : nat) : list Transaction := take (b - a) (drop a txs).

Lemma will_fit_prefix txs1 txs2 : will_fit (txs1 ++ txs2) = true -> will_fit txs1 = true.
Proof.
  induction txs2 as [|tx txs2 IH] using rev_ind; [by rewrite app_nil_r|].
  rewrite app_assoc. unfold will_fit in *. rewrite !Z.leb_le in *.
  pose proof (entry_size_snoc (txs1 ++ txs2) tx). intros. apply IH. lia.
Qed.

Lemma Entry_new_mut_Ret start txs : wf start -> will_fit txs = true ->
  let e := mk_entry (if decide (txs = []) then 0 else 1) (next_id start 0 txs) txs in
  Entry_new_mut start 0 txs = Ret (e, e_id e, 0).
Proof.
  intros Hs Hf e. unfold Entry_new_mut, Entry_new.
  assert (Hn : (if bool_decide (txs = []) then 0 else 1) = e_num_hashes e).
  { unfold e. simpl. by case_decide; [rewrite bool_decide_true|rewrite bool_decide_false]. }
  assert (Hu : in_u64 (e_num_hashes e) = true) by (unfold e; simpl; by case_decide).
  rewrite Hn, u64_add_exact, Z.add_0_l by (by rewrite Z.add_0_l). simpl.
  rewrite next_hash_Ret by done. simpl. fold e.
  assert (Hsz : serialized_size e <= BLOB_DATA_SIZE).
  { unfold e. rewrite entry_size_fields; [|done|by apply next_id_wf]. by apply Z.leb_le. }
  change (mk_entry _ (next_id start 0 txs) txs) with e.
  rewrite (proj2 (Z.ltb_ge _ _)) by done. simpl. by rewrite (proj2 (Z.leb_le _ _)).
Qed.

Lemma new_entry_verifies start txs : wf start -> txs <> [] -> all_plans_verify txs = Ret true ->
  Entry_verify (mk_entry 1 (next_id start 0 txs) txs) start = Ret true.
Proof.
  intros Hs Hne Hp. apply Entry_verify_true; [done|]. simpl. split; [done|].
  rewrite next_id_zero. by rewrite decide_False.
Qed.

(** The search inside one round of packing finds a non-empty chunk that fits,
    and cannot be extended. *)
Lemma chunk_search txs cs :
  (cs < length txs)%nat -> will_fit [] = true -> Forall (fun tx => will_fit [tx] = true) txs ->
  exists ce, fit_search (fun n => will_fit (chunk txs cs n)) (search_fuel (length txs))
               (length txs) (length txs) cs = Some ce /\
    (cs < ce <= length txs)%nat /\ will_fit (chunk txs cs ce) = true /\
    (ce = length txs \/ will_fit (chunk txs cs (S ce)) = false).
Proof.
  intros Hcs H0' Hone.
  destruct (fit_search_terminates (fun n => will_fit (chunk txs cs n)) (search_fuel (length txs))
    (length txs) (length txs) cs) as [ce Hce]; [lia| |].
  { unfold search_measure, search_fuel. repeat case_decide; lia. }
  exists ce. split; [done|].
  apply (fit_search_maximal _ _ _ _ _ (length txs)) in Hce as (Hf & Hr & Hmax); [|lia|lia| |by left].
  2: { unfold chunk. by rewrite Nat.sub_diag. }
  split; [|done]. split; [|lia]. destruct (decide (ce = cs)) as [->|]; [exfalso|lia].
  destruct Hmax as [?|Hmax]; [lia|]. destruct (lookup_lt_is_Some_2 txs cs Hcs) as [tx Htx].
  unfold chunk in Hmax. rewrite (drop_S _ tx), Nat.sub_succ_l, Nat.sub_diag in Hmax by (done || lia).
  simpl in Hmax. rewrite take_0 in Hmax.
  rewrite (Forall_lookup_1 _ _ _ _ Hone Htx) in Hmax. done.
Qed.

(** No entry could have taken the transaction that starts the next one. *)
Fixpoint greedy (entries : list Entry) : Prop :=
  match entries with
  | [] => True
  | e :: rest =>
      (concat (e_transactions <$> rest) = [] \/
       will_fit (e_transactions e ++ take 1 (concat (e_transactions <$> rest))) = false) /\
      greedy rest
  end.

(** A packing of [txs] into entries chained from [start]. *)
Definition packed (start : Hash) (txs : list Transaction) (es : list Entry) : Prop :=
  concat (e_transactions <$> es) = txs /\
  Forall (fun e => serialized_size e <= BLOB_DATA_SIZE) es /\
  block_verify es start = Ret true /\ greedy es.

Lemma drop_chunk txs a b : (a <= b)%nat -> drop a txs = chunk txs a b ++ drop b txs.
Proof.
  intros Hab. unfold chunk. rewrite <- (take_drop (b - a) (drop a txs)) at 1.
  f_equal. rewrite drop_drop. f_equal. lia.
Qed.

Lemma chunk_S txs a b : (a <= b)%nat -> chunk txs a (S b) = chunk txs a b ++ take 1 (drop b txs).
Proof.
  intros Hab. unfold chunk. replace (S b - a)%nat with ((b - a) + 1)%nat by lia.
  rewrite <- (take_drop (b - a) (drop a txs)) at 1.
  rewrite take_app, take_take, Nat.min_r, drop_drop, length_take, length_drop by lia.
  f_equal. replace (a + (b - a))%nat with b by lia.
  destruct (decide (b <= length txs)%nat); [f_equal; lia|].
  rewrite !drop_ge by lia. by rewrite !take_nil.
Qed.

Lemma packed_nil start : packed start [] [].
Proof. done. Qed.

Lemma packed_cons start txs es e a b :
  (a <= b <= length txs)%nat -> chunk txs a b <> [] -> wf start ->
  e = mk_entry 1 (next_id start 0 (chunk txs a b)) (chunk txs a b) ->
  will_fit (chunk txs a b) = true -> all_plans_verify (chunk txs a b) = Ret true ->
  b = length txs \/ will_fit (chunk txs a (S b)) = false ->
  packed (e_id e) (drop b txs) es -> packed start (drop a txs) (e :: es).
Proof.
  intros Hab Hne Hs -> Hf Hp Hmax (Hc & Hz & Hv & Hg). split_and!.
  - cbn. by rewrite Hc, <- drop_chunk by lia.
  - constructor; [|done]. rewrite entry_size_fields; [|done|by apply next_id_wf]. by apply Z.leb_le.
  - cbn [block_verify]. rewrite new_entry_verifies by done. done.
  - cbn [greedy e_transactions]. split; [|done]. destruct Hmax as [->|Hmax].
    + left. by rewrite drop_all in Hc.
    + right. by rewrite Hc, <- chunk_S by lia.
Qed.

Lemma chunk_ne txs a b : (a < b <= length txs)%nat -> chunk txs a b <> [].
Proof.
  intros Hab Hc. apply (f_equal length) in Hc. unfold chunk in Hc.
  rewrite length_take, length_drop in Hc. simpl in Hc. lia.
Qed.

Lemma chunk_plans txs a b : all_plans_verify txs = Ret true -> all_plans_verify (chunk txs a b) = Ret true.
Proof.
  intros Hp. rewrite <- (take_drop a txs) in Hp. apply all_plans_verify_app in Hp as [_ Hp].
  rewrite <- (take_drop (b - a) (drop a txs)) in Hp. by apply all_plans_verify_app in Hp as [? _].
Qed.

Lemma pack_packed fuel start txs cs entries :
  (cs <= length txs < cs + fuel)%nat -> wf start ->
  will_fit [] = true -> Forall (fun tx => will_fit [tx] = true) txs -> all_plans_verify txs = Ret true ->
  exists es h, pack fuel start 0 txs cs entries = Some (Ret (entries ++ es, h, 0)) /\
    h = end_hash es start /\ packed start (drop cs txs) es.
Proof.
  revert start cs entries. induction fuel as [|fuel IH]; intros start cs entries Hcs Hs He Hone Hp; [lia|].
  cbn [pack]. destruct (cs <? length txs)%nat eqn:E.
  - apply Nat.ltb_lt in E.
    destruct (chunk_search txs cs E He Hone) as (ce & Hce & Hr & Hf & Hmax).
    change (fun n => will_fit (take (n - cs) (drop cs txs))) with (fun n => will_fit (chunk txs cs n)).
    rewrite Hce. change (take (ce - cs) (drop cs txs)) with (chunk txs cs ce).
    rewrite Entry_new_mut_Ret, decide_False by (done || by apply chunk_ne).
    cbn [e_id]. destruct (IH (next_id start 0 (chunk txs cs ce)) ce
      (entries ++ [mk_entry 1 (next_id start 0 (chunk txs cs ce)) (chunk txs cs ce)]))
      as (es & h & -> & -> & Hpk); [lia|by apply next_id_wf|done..|].
    eexists (_ :: es), _. split; [by rewrite <- app_assoc|]. split; [by rewrite end_hash_cons|].
    eapply (packed_cons start txs es _ cs ce);
      [lia|by apply chunk_ne|done|done|done|by apply chunk_plans|done|done].
  - apply Nat.ltb_ge in E. exists [], start. rewrite app_nil_r, drop_ge by lia. done.
Qed.


(** A transaction too large for an entry of its own, at the head of a
    batch of at least two, keeps the packer in its loop forever: it emits
    empty entries and never advances. *)
Theorem next_entries_stuck : forall fuel start tx txs,
  wf start -> will_fit [] = true -> will_fit [tx] = false -> txs <> [] ->
  next_entries fuel start 0 (tx :: txs) = None.
Proof.
  intros fuel start tx txs Hs He Hbig Hne. unfold next_entries, next_entries_mut.
  destruct txs as [|tx2 txs]; [done|]. cbn [length Nat.leb].
  set (l := tx :: tx2 :: txs).
  assert (Hpack : forall entries, pack fuel start 0 l 0 entries = None); [|by rewrite Hpack].
  induction fuel as [|fuel IH]; intros entries; [done|]. cbn [pack].
  change (0 <? length l)%nat with true. cbv iota.
  destruct (fit_search_terminates (fun n => will_fit (take (n - 0) (drop 0 l))) (search_fuel (length l))
    (length l) (length l) 0) as [ce Hce]; [lia| |].
  { unfold search_measure, search_fuel. repeat case_decide; lia. }
  rewrite Hce. apply (fit_search_maximal _ _ _ _ _ (length l)) in Hce as (Hf & _ & _); [|lia|lia|done|by left].
  destruct ce as [|ce].
  - change (take (0 - 0) (drop 0 l)) with (@nil Transaction). rewrite Entry_new_mut_Ret by done.
    cbn [e_id]. rewrite next_id_zero. apply IH.
  - exfalso. change (take (S ce - 0) (drop 0 l)) with ([tx] ++ take ce (tx2 :: txs)) in Hf.
    apply will_fit_prefix in Hf. congruence.
Qed.
End Packing.
