(* ===== verification/Block.v ===== *)
(** * Entries on the wire, and the genesis entries

    [Entry::to_blob] of [src/entry.rs], the [Block] blobs and
    [reconstruct_entries_from_blobs] of [src/ledger.rs], and [src/mint.rs]. *)

From S2P Require Import Prelude.
From S2P Require Import Types.
From S2P Require Import Codec.
From S2P Require Import Packet.
From S2P Require Import FinPlan.
From S2P Require Import FinPlanProgram.
From S2P Require Import SystemProgram.
From S2P Require Import Transactions.
From S2P Require Import Entry.

(** ** Entries as blobs *)

Inductive LedgerError := BlobErr (e : BlobError) | SerializeErr.

Section EntryBlobs.
Context `{Profile} `{ByteOrder} `{Bincode Pubkey} `{Bincode Entry}.

(** [serialize_into(&mut Cursor::new(blob.data_mut()), &entry)] fails, and the
    caller panics, when the payload is too small; otherwise the payload's
    prefix is overwritten. *)
Definition write_payload (b : Blob) (v : bytes) : outcome Blob :=
  let lo := Z.to_nat BLOB_HEADER_SIZE in
  _ ← rassert (length v <=? length (b_data b) - lo)%nat;
  d ← write_slice (b_data b) lo (lo + length v) v;
  Ret (set_data d b).

(** [Entry::to_blob]. *)
Definition Entry_to_blob (e : Entry) (idx : option Z) (id : option Pubkey) (addr : option SocketAddr)
    : outcome Blob :=
  let v := serialize e in
  b ← write_payload Blob_default v;
  b ← set_size b (Z.of_nat (length v));
  b ← match idx with Some idx => set_index b idx | None => Ret b end;
  b ← match id with Some id => set_id b id | None => Ret b end;
  let b := match addr with Some a => set_meta (Meta_set_addr (b_meta b) a) b | None => b end in
  set_flags b 0.

(** [Block::to_blobs_with_id]: consecutive indices from [start_idx]. *)
Fixpoint blobs_from (i : nat) (id : Pubkey) (start_idx : Z) (addr : SocketAddr) (entries : list Entry)
    : outcome (list Blob) :=
  match entries with
  | [] => Ret []
  | e :: rest =>
      idx ← u64_add start_idx (Z.of_nat i);
      b ← Entry_to_blob e (Some idx) (Some id) (Some addr);
      bs ← blobs_from (S i) id start_idx addr rest;
      Ret (b :: bs)
  end.
Definition to_blobs_with_id (entries : list Entry) (id : Pubkey) (start_idx : Z) (addr : SocketAddr)
    : outcome (list Blob) := blobs_from 0 id start_idx addr entries.

(** [Block::to_blobs]. *)
Definition block_to_blobs (entries : list Entry) : outcome (list Blob) :=
  to_blobs_with_id entries Pubkey_default 0 (V4 [Byte.x00; Byte.x00; Byte.x00; Byte.x00] 0).

(** [reconstruct_entries_from_blobs]: the first blob that does not decode
    ends the call. *)
Fixpoint reconstruct_entries_from_blobs (blobs : list Blob)
    : outcome (result (list Entry) LedgerError) :=
  match blobs with
  | [] => Ret (Ok [])
  | b :: rest =>
      msg_size ← get_size b;
      match msg_size with
      | Err e => Ret (Err (BlobErr e))
      | Ok n =>
          d ← blob_data b;
          msg ← slice d 0 (Z.to_nat n);
          match deserialize (A := Entry) msg with
          | None => Ret (Err SerializeErr)
          | Some entry =>
              r ← reconstruct_entries_from_blobs rest;
              Ret (match r with Ok entries => Ok (entry :: entries) | Err e => Err e end)
          end
      end
  end.
End EntryBlobs.

(** ** The mint *)

Class Pkcs8 `{Ed25519} := from_pkcs8 : bytes -> option Keypair.

Record Mint := mk_mint { mint_pkcs8 : bytes; mint_pubkey : Pubkey; mint_tokens : Z (* i64 *) }.

Section MintOps.
Context `{Profile} `{Sha256} `{Ed25519} `{!Pkcs8} `{Bincode Entry}
  `{Bincode SystemInstruction} `{Bincode (list Pubkey)} `{Bincode Pubkey} `{Bincode Hash}
  `{Bincode I64} `{Bincode bytes}.

(** [Mint::new_with_pkcs8]. *)
Definition new_with_pkcs8 (tokens : Z) (pkcs8 : bytes) : outcome Mint :=
  keypair ← unwrap (from_pkcs8 pkcs8);
  Ret (mk_mint pkcs8 (keypair_pubkey keypair) tokens).

Definition mint_seed (m : Mint) : Hash := hash (mint_pkcs8 m).
Definition mint_keypair (m : Mint) : outcome Keypair := unwrap (from_pkcs8 (mint_pkcs8 m)).

Definition create_transactions (m : Mint) : outcome (list Transaction) :=
  keypair ← mint_keypair m;
  tx ← system_move keypair (mint_pubkey m) (mint_tokens m) (mint_seed m) 0;
  Ret [tx].

Definition create_entries (m : Mint) : outcome (list Entry) :=
  e0 ← Entry_new (mint_seed m) 0 [];
  txs ← create_transactions m;
  e1 ← Entry_new (e_id e0) 0 txs;
  Ret [e0; e1].

Definition mint_last_id (m : Mint) : outcome Hash :=
  es ← create_entries m; e ← index es 1; Ret (e_id e).
End MintOps.

(** ** Lemmas and properties: blobs *)

Section BlobRoundTrip.
Context `{Profile} `{ByteOrder} `{!ByteOrderOk} `{Bincode Pubkey} `{!PubkeyWire}
  `{Bincode Entry} `{!BincodeOk Entry}.

(** The payload of a blob starts with [v]. *)
Definition payload_starts (b : Blob) (v : bytes) : Prop :=
  exists rest, field_of FPayload b = Ret (v ++ rest).

Lemma write_payload_spec b v : wf b -> (length v <= BLOB_SIZE - 64)%nat ->
  exists b', write_payload b v = Ret b' /\ wf b' /\ b_meta b' = b_meta b /\ payload_starts b' v.
Proof.
  intros Hb Hv. pose proof BLOB_SIZE_ge. unfold wf, Blob_wf in *. unfold write_payload.
  rewrite BLOB_HEADER_SIZE_eq, Hb. change (Z.to_nat 64) with 64%nat.
  rewrite (proj2 (Nat.leb_le _ _)) by done. cbn -[drop take Nat.add].
  rewrite write_slice_Ret by lia. cbn -[drop take Nat.add]. eexists. split; [done|].
  split; [simpl; rewrite length_put by lia; done|]. split; [done|].
  exists (drop (64 + length v) (b_data b)). unfold field_of. cbn -[drop take Nat.add].
  apply (slice_middle _ (take 64 (b_data b)) _ []); [by rewrite app_nil_r|rewrite length_take; lia|].
  rewrite length_app, length_take, length_drop. lia.
Qed.

Lemma Entry_to_blob_spec e ix id addr :
  wf id -> in_u64 ix = true -> serialized_size e <= BLOB_DATA_SIZE ->
  exists b, Entry_to_blob e (Some ix) (Some id) (Some addr) = Ret b /\ wf b /\
    shows b (mk_header ix id 0 (serialized_size e)) /\ payload_starts b (serialize e).
Proof.
  intros Hid Hix Hsz. unfold serialized_size in *. rewrite BLOB_DATA_SIZE_eq in Hsz.
  pose proof BLOB_SIZE_Z. unfold Entry_to_blob.
  destruct (write_payload_spec Blob_default (serialize e)) as (b0 & -> & Hb0 & _ & [rest Hp]);
    [apply length_replicate|lia|]. simpl.
  assert (Hn : in_u64 (Z.of_nat (length (serialize e)) + 64) = true)
    by (apply in_u64_iff; unfold u64_max; lia).
  destruct (set_size_spec b0 _ Hb0 Hn) as (b1 & -> & Hb1 & Hm1 & Hf1). simpl.
  destruct (set_index_spec b1 ix Hb1) as (b2 & -> & Hb2 & Hm2 & Hf2). simpl.
  destruct (set_id_spec b2 id Hb2 Hid) as (b3 & -> & Hb3 & Hm3 & Hf3). simpl.
  destruct (set_flags_spec (set_meta (Meta_set_addr (b_meta b3) addr) b3) 0 Hb3)
    as (b4 & -> & Hb4 & Hm4 & Hf4).
  exists b4. split; [done|]. split; [done|].
  split; [|exists rest; by rewrite Hf4, field_of_set_meta, Hf3, Hf2, Hf1].
  apply shows_fields; cbn [h_index h_id h_flags h_size];
    rewrite ?Hf4, ?field_of_set_meta, ?Hf3, ?Hf2, ?Hf1; try reflexivity; [exact Hix|exact Hid|lia|exact Hn|].
  rewrite Hm4, Hm3, Hm2, Hm1. by destruct addr.
Qed.

Lemma reconstruct_cons b bs e h : wf b -> wf e ->
  shows b h -> h_size h = serialized_size e -> payload_starts b (serialize e) ->
  reconstruct_entries_from_blobs (b :: bs) =
    (r ← reconstruct_entries_from_blobs bs;
     Ret (match r with Ok entries => Ok (e :: entries) | Err err => Err err end)).
Proof.
  intros Hb He (_ & _ & _ & Hs) Hh [rest Hp]. cbn [reconstruct_entries_from_blobs].
  rewrite Hs. simpl. rewrite blob_data_field, Hp by done. simpl. rewrite Hh. unfold serialized_size.
  rewrite Nat2Z.id, (slice_middle _ [] (serialize e) rest) by done. simpl.
  by rewrite deserialize_serialize.
Qed.

(** What a reader sees of the [i]-th blob. *)
Definition shows_from (id : Pubkey) (start i : Z) (b : Blob) (e : Entry) : Prop :=
  shows b (mk_header (start + i) id 0 (serialized_size e)).

Lemma blobs_from_spec i id start addr es :
  wf id -> 0 <= start -> in_u64 (start + Z.of_nat i + Z.of_nat (length es)) = true -> Forall wf es ->
  Forall (fun e => serialized_size e <= BLOB_DATA_SIZE) es ->
  exists bs, blobs_from i id start addr es = Ret bs /\
    reconstruct_entries_from_blobs bs = Ret (Ok es) /\ length bs = length es /\
    forall j b e, bs !! j = Some b -> es !! j = Some e -> shows_from id start (Z.of_nat (i + j)) b e.
Proof.
  intros Hid Hs. revert i. induction es as [|e es IH]; intros i Hu Hw Hz.
  { exists []. split_and!; [done..|]. intros j b e Hj. by rewrite lookup_nil in Hj. }
  apply in_u64_iff in Hu as Hu'. cbn [length] in *. unfold u64_max in Hu'.
  apply Forall_cons in Hw as [He Hw], Hz as [Hze Hz]. cbn [blobs_from].
  assert (Hix : in_u64 (start + Z.of_nat i) = true) by (apply in_u64_iff; unfold u64_max; lia).
  rewrite u64_add_exact by done.
  destruct (Entry_to_blob_spec e (start + Z.of_nat i) id addr) as (b & Eb & Hb & Hsh & Hp); [done..|].
  rewrite bind_Ret, Eb, bind_Ret.
  destruct (IH (S i)) as (bs & -> & Hr & Hl & Hlk); [apply in_u64_iff; unfold u64_max; lia|done..|].
  rewrite bind_Ret. exists (b :: bs). split; [done|]. split; [|split; [simpl; congruence|]].
  - erewrite reconstruct_cons by done. by rewrite Hr.
  - intros [|j] b' e' Hb' He'; simplify_eq/=.
    + by replace (i + 0)%nat with i by lia.
    + replace (i + S j)%nat with (S i + j)%nat by lia. eauto.
Qed.

End BlobRoundTrip.

(** ** Reference instances and witnesses *)

Module EntryCodec.
Lemma c_transaction_nonempty : nonempty_enc c_transaction.
Proof. intros t [Ht _]. simpl in *. rewrite length_app. lia. Qed.

Definition c_entry : codec Entry := c_iso
  (c_pair (c_uint 8) (c_pair c_hash (c_vec c_transaction c_transaction_nonempty)))
  (fun e => (e_num_hashes e, (e_id e, e_transactions e)))
  (fun '(n, (h, txs)) => mk_entry n h txs)
  ltac:(by intros []) ltac:(by intros (?&?&?)).

Definition entry_bincode : Bincode Entry := codec_bincode c_entry.

Lemma c_transaction_wf tx : wf tx <-> cwf c_transaction tx.
Proof.
  destruct tx as [sg ks p l f u]. unfold wf, Transaction_wf. simpl.
  assert (Forall (fun _ : byte => True) u) by (by apply Forall_true).
  unfold wf, Signature_wf, Pubkey_wf, Hash_wf. simpl. tauto.
Qed.

Lemma entry_wf_cwf (e : Entry) : wf e <-> cwf c_entry e.
Proof.
  destruct e as [n h txs]. unfold wf, Entry_wf. simpl.
  assert (Forall wf txs <-> Forall (cwf c_transaction) txs) as ->.
  { split; intros Hf; (eapply Forall_impl; [exact Hf|apply c_transaction_wf]). }
  rewrite u64_range. tauto.
Qed.

Lemma entry_ok : @BincodeOk Entry _ entry_bincode.
Proof. apply codec_bincode_ok, entry_wf_cwf. Qed.

Lemma entry_wire : @EntryWire entry_bincode.
Proof.
  split.
  - intros n [h] txs _ Hh. unfold serialized_size. simpl. unfold wf, Hash_wf in Hh.
    simpl in Hh. rewrite !length_app, Hh. done.
  - intros txs tx. unfold serialized_size. simpl.
    rewrite fmap_app, concat_app, !length_app. lia.
Qed.
End EntryCodec.

Module EntryWitness.
Import Toy EntryCodec.
#[local] Existing Instances sha entry_bincode entry_ok entry_wire FinPlanCodec.instruction_bincode
  PacketWitness.le PacketWitness.le_ok PacketWitness.pk PacketWitness.pk_ok.
#[local] Instance checked : Profile := true.

Definition tx : Transaction := TransactionsWitness.tx.
Definition start : Hash := hash [].

Definition chain : list Entry :=
  [Entry_new_tick 3 (next_id start 3 []); mk_entry 2 (next_id (next_id start 3 []) 2 [tx; tx]) [tx; tx]].

Lemma chain_wf : Forall wf chain.
Proof.
  repeat first [constructor|apply TransactionsWitness.tx_wf|reflexivity|apply next_id_wf].
Qed.

Lemma next_entry_verifies_witness :
  exists e, next_entry start 5 [tx] = Ret e /\ e_transactions e = [tx] /\ e_num_hashes e = 5 /\
    Entry_verify e start = Ret true.
Proof. apply next_entry_verifies; [reflexivity|left; lia|vm_compute; reflexivity]. Defined.



(** A transaction with 66000 bytes of user data. *)
Definition big_tx : Transaction :=
  mk_tx Signature_default [key 1] System_id start 0 (replicate (Z.to_nat 66000) Byte.x00).

Lemma next_entries_stuck_witness : next_entries 100 start 0 [big_tx; tx] = None.
Proof.
  apply (next_entries_stuck 100 start big_tx [tx]);
    [reflexivity|vm_compute; reflexivity|vm_compute; reflexivity|done].
Defined.

End EntryWitness.
