(* ===== verification/Processor.v ===== *)
(** * The transaction processor

    [src/transaction_processor.rs]: the accounts, the window of recent entry
    ids with the signatures seen under each, the loading, execution and storing
    of a batch of transactions, entries and the replay of a ledger; and
    [src/pod_recorder.rs], which drives it on the leader. *)

From S2P Require Import Prelude.
From S2P Require Import Types.
From S2P Require Import Codec.
From S2P Require Import Packet.
From S2P Require Import FinPlan.
From S2P Require Import FinPlanProgram.
From S2P Require Import SystemProgram.
From S2P Require Import Transactions.
From S2P Require Import Entry.
From S2P Require Import Block.

Definition MAX_ENTRY_IDS : nat := Z.to_nat (1024 * 16).
Definition VERIFY_BLOCK_SIZE : nat := 16.

Inductive TransactionProcessorError :=
  | AccountNotFound | InsufficientFundsForFee | DuplicateSignature | LastIdNotFound
  | SignatureNotFound | LedgerVerificationFailed | UnbalancedTransaction
  | ResultWithNegativeTokens | UnknownContractId | ModifiedContractId
  | ExternalAccountTokenSpend | ProgramRuntimeError.

#[export] Instance TransactionProcessorError_eq_dec : EqDecision TransactionProcessorError.
Proof. solve_decision. Defined.

Abbreviation Res A := (result A TransactionProcessorError).
Abbreviation SignatureStatusMap := (gmap Signature (Res unit)).

Record ErrorCounters := mk_counters {
  account_not_found_validator : Z;
  account_not_found_leader : Z;
  account_not_found_vote : Z }.
Definition ErrorCounters_default : ErrorCounters := mk_counters 0 0 0.

(** The tic-tac-toe programs the processor dispatches to are not part of the
    sources: each is an id and an update of the accounts that may fail. *)
Class Games := {
  TicTacToe_check_id : Pubkey -> bool;
  TicTacToe_process : Transaction -> list Account -> outcome (list Account * bool);
  Dashboard_check_id : Pubkey -> bool;
  Dashboard_process : Transaction -> list Account -> outcome (list Account * bool) }.

Record TransactionProcessor `{Libloading} := mk_tp {
  tp_accounts : gmap Pubkey Account;
  tp_last_ids : list Hash;                                        (* VecDeque *)
  tp_last_ids_sigs : gmap Hash (SignatureStatusMap * Z);
  tp_transaction_count : Z;                                       (* AtomicUsize *)
  tp_is_leader : bool;
  tp_finality_time : Z;                                           (* AtomicUsize *)
  tp_loaded_contracts : gmap Pubkey DynamicProgram }.

Section Fields.
Context `{Libloading}.

Definition set_accounts (m : gmap Pubkey Account) (tp : TransactionProcessor) : TransactionProcessor :=
  mk_tp _ m (tp_last_ids tp) (tp_last_ids_sigs tp) (tp_transaction_count tp) (tp_is_leader tp)
    (tp_finality_time tp) (tp_loaded_contracts tp).
Definition set_ids (ids : list Hash) (sigs : gmap Hash (SignatureStatusMap * Z))
    (tp : TransactionProcessor) : TransactionProcessor :=
  mk_tp _ (tp_accounts tp) ids sigs (tp_transaction_count tp) (tp_is_leader tp)
    (tp_finality_time tp) (tp_loaded_contracts tp).
Definition set_sigs (sigs : gmap Hash (SignatureStatusMap * Z)) (tp : TransactionProcessor)
    : TransactionProcessor := set_ids (tp_last_ids tp) sigs tp.
Definition set_count (n : Z) (tp : TransactionProcessor) : TransactionProcessor :=
  mk_tp _ (tp_accounts tp) (tp_last_ids tp) (tp_last_ids_sigs tp) n (tp_is_leader tp)
    (tp_finality_time tp) (tp_loaded_contracts tp).
Definition set_contracts (lp : gmap Pubkey DynamicProgram) (tp : TransactionProcessor)
    : TransactionProcessor :=
  mk_tp _ (tp_accounts tp) (tp_last_ids tp) (tp_last_ids_sigs tp) (tp_transaction_count tp)
    (tp_is_leader tp) (tp_finality_time tp) lp.

Definition new_default (is_leader : bool) : TransactionProcessor :=
  mk_tp _ ∅ [] ∅ 0 is_leader u64_max ∅.

Definition finality (tp : TransactionProcessor) : Z := tp_finality_time tp.
Definition set_finality (n : Z) (tp : TransactionProcessor) : TransactionProcessor :=
  mk_tp _ (tp_accounts tp) (tp_last_ids tp) (tp_last_ids_sigs tp) (tp_transaction_count tp)
    (tp_is_leader tp) n (tp_loaded_contracts tp).
End Fields.

(** ** Signatures and entry ids *)

Section Signatures.
Context `{Libloading}.

Definition last_id (tp : TransactionProcessor) : outcome Hash := unwrap (last (tp_last_ids tp)).

Definition reserve_signature (signatures : SignatureStatusMap) (sg : Signature)
    : SignatureStatusMap * Res unit :=
  match signatures !! sg with
  | Some _ => (signatures, Err DuplicateSignature)
  | None => (<[sg := Ok tt]> signatures, Ok tt)
  end.

Definition clear_signatures (tp : TransactionProcessor) : TransactionProcessor :=
  set_sigs ((fun e : SignatureStatusMap * Z => (∅, e.2)) <$> tp_last_ids_sigs tp) tp.

Definition reserve_signature_with_last_id (tp : TransactionProcessor) (sg : Signature) (id : Hash)
    : TransactionProcessor * Res unit :=
  match tp_last_ids_sigs tp !! id with
  | Some (signatures, ts) =>
      let '(signatures', r) := reserve_signature signatures sg in
      (set_sigs (<[id := (signatures', ts)]> (tp_last_ids_sigs tp)) tp, r)
  | None => (tp, Err LastIdNotFound)
  end.

Definition update_signature_status (signatures : SignatureStatusMap) (sg : Signature) (r : Res unit)
    : SignatureStatusMap := <[sg := r]> signatures.

Definition update_signature_status_with_last_id (tp : TransactionProcessor) (sg : Signature)
    (r : Res unit) (id : Hash) : TransactionProcessor :=
  match tp_last_ids_sigs tp !! id with
  | Some (signatures, ts) =>
      set_sigs (<[id := (update_signature_status signatures sg r, ts)]> (tp_last_ids_sigs tp)) tp
  | None => tp
  end.

(** [res[i]] for each transaction. *)
Fixpoint update_transaction_statuses (tp : TransactionProcessor) (txs : list Transaction)
    (res : list (Res unit)) : outcome TransactionProcessor :=
  match txs, res with
  | [], _ => Ret tp
  | _ :: _, [] => Panic
  | tx :: txs', r :: res' =>
      update_transaction_statuses
        (update_signature_status_with_last_id tp (tx_signature tx) r (tx_last_id tx)) txs' res'
  end.

Definition count_valid_ids (tp : TransactionProcessor) (ids : list Hash) : list (nat * Z) :=
  concat (imap (fun i id => match tp_last_ids_sigs tp !! id with
                            | Some e => [(i, e.2)] | None => [] end) ids).

(** [register_entry_id]; [now] is what [timestamp()] returned. *)
Definition register_entry_id (tp : TransactionProcessor) (id : Hash) (now : Z) : TransactionProcessor :=
  let '(ids, sigs) :=
    if (MAX_ENTRY_IDS <=? length (tp_last_ids tp))%nat then
      match tp_last_ids tp with
      | front :: rest => (rest, delete front (tp_last_ids_sigs tp))
      | [] => ([], tp_last_ids_sigs tp)
      end
    else (tp_last_ids tp, tp_last_ids_sigs tp) in
  set_ids (ids ++ [id]) (<[id := (∅, now)]> sigs) tp.

(** [get_signature_status]; [order] is the order the hash map is walked in. *)
Fixpoint signature_status_in (sigs : gmap Hash (SignatureStatusMap * Z)) (order : list Hash)
    (sg : Signature) : Res unit :=
  match order with
  | [] => Err SignatureNotFound
  | h :: rest =>
      match sigs !! h ≫= (fun e => e.1 !! sg) with
      | Some r => r
      | None => signature_status_in sigs rest sg
      end
  end.
Definition get_signature_status (tp : TransactionProcessor) (order : list Hash) (sg : Signature)
    : Res unit := signature_status_in (tp_last_ids_sigs tp) order sg.
Definition has_signature (tp : TransactionProcessor) (order : list Hash) (sg : Signature) : bool :=
  match get_signature_status tp order sg with Err SignatureNotFound => false | _ => true end.
End Signatures.

(** ** Execution *)

Section Execution.
Context `{Profile} `{Libloading} `{!Games} `{Bincode SystemInstruction} `{Bincode Instruction}
  `{Bincode FinPlanState} `{Bincode U64} `{Bincode StorageInstruction}.

(** [apply_payment]. *)
Definition apply_payment (p : Payment) (a : Account) : outcome Account :=
  t ← i64_add (tokens a) (pay_tokens p); Ret (set_tokens t a).

Definition new_from_deposit (deposit : Payment) : outcome TransactionProcessor :=
  a ← apply_payment deposit Account_default;
  Ret (set_accounts {[ pay_to deposit := a ]} (new_default true)).

(** [load_account]: the loaded accounts, the processor with the signature
    reserved, and the counters. *)
Definition load_account (tp : TransactionProcessor) (tx : Transaction) (accounts : gmap Pubkey Account)
    (ec : ErrorCounters) : outcome (Res (list Account) * TransactionProcessor * ErrorCounters) :=
  k0 ← index (tx_keys tx) 0;
  match accounts !! k0 with
  | None =>
      let ec1 := if negb (tp_is_leader tp)
                 then mk_counters (account_not_found_validator ec + 1) (account_not_found_leader ec)
                        (account_not_found_vote ec)
                 else mk_counters (account_not_found_validator ec) (account_not_found_leader ec + 1)
                        (account_not_found_vote ec) in
      ec2 ← (if FinPlan_check_id (tx_program_id tx) then
               Ret (match tx_instruction tx with
                    | Some (NewVote _) => mk_counters (account_not_found_validator ec1)
                        (account_not_found_leader ec1) (account_not_found_vote ec1 + 1)
                    | _ => ec1
                    end)
             else Ret ec1);
      Ret (Err AccountNotFound, tp, ec2)
  | Some a0 =>
      if tokens a0 <? tx_fee tx then Ret (Err InsufficientFundsForFee, tp, ec)
      else
        let called_accounts := (fun k => default Account_default (accounts !! k)) <$> tx_keys tx in
        let '(tp1, r) := reserve_signature_with_last_id tp (tx_signature tx) (tx_last_id tx) in
        match r with
        | Err e => Ret (Err e, tp1, ec)
        | Ok _ =>
            c0 ← index called_accounts 0;
            t ← i64_sub (tokens c0) (tx_fee tx);
            accs ← update called_accounts 0 (set_tokens t);
            Ret (Ok accs, tp1, ec)
        end
  end.

Fixpoint load_accounts (tp : TransactionProcessor) (txs : list Transaction)
    (accounts : gmap Pubkey Account) (ec : ErrorCounters)
    : outcome (list (Res (list Account)) * TransactionProcessor * ErrorCounters) :=
  match txs with
  | [] => Ret ([], tp, ec)
  | tx :: rest =>
      '(r, tp1, ec1) ← load_account tp tx accounts ec;
      '(rs, tp2, ec2) ← load_accounts tp1 rest accounts ec1;
      Ret (r :: rs, tp2, ec2)
  end.

Definition verify_transaction (tx : Transaction) (pre_program_id : Pubkey) (pre_tokens : Z)
    (account : Account) : Res unit :=
  if negb (bool_decide (pre_program_id = program_id account) ||
           (System_check_id (tx_program_id tx) && System_check_id pre_program_id))
  then Err ModifiedContractId
  else if negb (bool_decide (tx_program_id tx = program_id account)) && (tokens account <? pre_tokens)
  then Err ExternalAccountTokenSpend
  else if tokens account <? 0 then Err ResultWithNegativeTokens
  else Ok tt.

Fixpoint verify_accounts (tx : Transaction) (pre_data : list (Pubkey * Z)) (accounts : list Account)
    : Res unit :=
  match pre_data, accounts with
  | (pid, t) :: pre', a :: accs' =>
      match verify_transaction tx pid t a with
      | Ok _ => verify_accounts tx pre' accs'
      | Err e => Err e
      end
  | _, _ => Ok tt
  end.

(** [loaded_contract]: [None] when no program is loaded under the id. *)
Definition loaded_contract (lp : gmap Pubkey DynamicProgram) (tx : Transaction) (accounts : list Account)
    : outcome (option (list Account)) :=
  match lp !! tx_program_id tx with
  | Some dc =>
      written ← DynamicProgram_call dc (zip (tx_keys tx) accounts) (tx_userdata tx);
      Ret (Some (write_back accounts written))
  | None => Ret None
  end.

(** The program a transaction names: the accounts it leaves, the loaded
    programs, and whether it succeeded. *)
Definition dispatch (tx : Transaction) (accounts : list Account) (lp : gmap Pubkey DynamicProgram)
    : outcome (list Account * gmap Pubkey DynamicProgram * Res unit) :=
  let pid := tx_program_id tx in
  let runtime (p : list Account * bool) :=
    (write_back accounts p.1, lp, if p.2 then Ok tt else Err ProgramRuntimeError) in
  if System_check_id pid then
    '(accs, lp') ← system_process tx accounts lp; Ret (accs, lp', Ok tt)
  else if FinPlan_check_id pid then
    '(accs, r) ← finplan_process tx accounts;
    Ret (accs, lp, if is_ok r then Ok tt else Err ProgramRuntimeError)
  else if Storage_check_id pid then
    Ret (accounts, lp, if is_ok (storage_process tx accounts) then Ok tt else Err ProgramRuntimeError)
  else if TicTacToe_check_id pid then
    p ← TicTacToe_process tx accounts; Ret (runtime p)
  else if Dashboard_check_id pid then
    p ← Dashboard_process tx accounts; Ret (runtime p)
  else
    r ← loaded_contract lp tx accounts;
    Ret (match r with
         | Some accs => (accs, lp, Ok tt)
         | None => (accounts, lp, Err UnknownContractId)
         end).

Definition execute_transaction (tx : Transaction) (accounts : list Account)
    (lp : gmap Pubkey DynamicProgram)
    : outcome (list Account * gmap Pubkey DynamicProgram * Res unit) :=
  pre_total ← i64_sum (tokens <$> accounts);
  let pre_data := (fun a => (program_id a, tokens a)) <$> accounts in
  '(accs, lp', r) ← dispatch tx accounts lp;
  match r with
  | Err e => Ret (accs, lp', Err e)
  | Ok _ =>
      match verify_accounts tx pre_data accs with
      | Err e => Ret (accs, lp', Err e)
      | Ok _ =>
          post_total ← i64_sum (tokens <$> accs);
          Ret (accs, lp', if pre_total =? post_total then Ok tt else Err UnbalancedTransaction)
      end
  end.

(** The [map] over the loaded accounts: each is updated in place. *)
Fixpoint execute_all (txs : list Transaction) (loaded : list (Res (list Account)))
    (lp : gmap Pubkey DynamicProgram)
    : outcome (list (Res (list Account)) * list (Res unit) * gmap Pubkey DynamicProgram) :=
  match loaded, txs with
  | acc :: loaded', tx :: txs' =>
      '(acc', r, lp1) ← (match acc with
                         | Err e => Ret (Err e, Err e, lp)
                         | Ok accs => '(accs', lp', r) ← execute_transaction tx accs lp;
                                      Ret (Ok accs', r, lp')
                         end);
      '(accs, rs, lp2) ← execute_all txs' loaded' lp1;
      Ret (acc' :: accs, r :: rs, lp2)
  | _, _ => Ret (loaded, [], lp)
  end.

(** The accounts of one transaction, written back. *)
Fixpoint store_keys (keys : list Pubkey) (accs : list Account) (m : gmap Pubkey Account)
    : gmap Pubkey Account :=
  match keys, accs with
  | k :: keys', a :: accs' =>
      store_keys keys' accs' (if tokens a =? 0 then delete k m else <[k := a]> m)
  | _, _ => m
  end.

(** [store_accounts]: failed transactions are skipped. *)
Fixpoint store_accounts (txs : list Transaction) (res : list (Res unit))
    (loaded : list (Res (list Account))) (m : gmap Pubkey Account) : outcome (gmap Pubkey Account) :=
  match loaded with
  | [] => Ret m
  | racc :: loaded' =>
      match res with
      | [] => Panic
      | r :: res' =>
          match r, racc with
          | Ok _, Ok acc =>
              match txs with
              | [] => Panic
              | tx :: txs' => store_accounts txs' res' loaded' (store_keys (tx_keys tx) acc m)
              end
          | _, _ => store_accounts (tail txs) res' loaded' m
          end
      end
  end.

Definition process_transactions (tp : TransactionProcessor) (txs : list Transaction)
    : outcome (list (Res unit) * TransactionProcessor) :=
  '(loaded, tp1, _) ← load_accounts tp txs (tp_accounts tp) ErrorCounters_default;
  '(loaded', res, lp) ← execute_all txs loaded (tp_loaded_contracts tp1);
  m ← store_accounts txs res loaded' (tp_accounts tp1);
  tp2 ← update_transaction_statuses (set_accounts m (set_contracts lp tp1)) txs res;
  let tx_count := Z.of_nat (length (filter (fun r => is_ok r = true) res)) in
  let cur_tx_count := tp_transaction_count tp2 in
  _ ← u64_add cur_tx_count tx_count;
  Ret (res, set_count (wrap_u64 (cur_tx_count + tx_count)) tp2).

Definition process_transaction (tp : TransactionProcessor) (tx : Transaction)
    : outcome (Res unit * TransactionProcessor) :=
  '(res, tp') ← process_transactions tp [tx];
  r ← index res 0; Ret (r, tp').
End Execution.

(** ** Entries and the ledger

    [clock] is the wall clock [register_entry_id] reads: [clock t] at the
    [t]-th read. *)

Section Replay.
Context `{Profile} `{Libloading} `{!Games} `{Sha256} `{Bincode Entry} `{Bincode SystemInstruction}
  `{Bincode Instruction} `{Bincode FinPlanState} `{Bincode U64} `{Bincode StorageInstruction}.
Context (clock : nat -> Z).

(** The first error of a batch, if any. *)
Fixpoint first_error (res : list (Res unit)) : Res unit :=
  match res with
  | [] => Ok tt
  | Ok _ :: rest => first_error rest
  | Err e :: _ => Err e
  end.

Definition process_entry (t : nat) (tp : TransactionProcessor) (e : Entry)
    : outcome (Res unit * TransactionProcessor) :=
  '(r, tp1) ← (if bool_decide (e_transactions e = []) then Ret (Ok tt, tp)
               else '(res, tp1) ← process_transactions tp (e_transactions e);
                    Ret (first_error res, tp1));
  match r with
  | Err err => Ret (Err err, tp1)
  | Ok _ => Ret (Ok tt, register_entry_id tp1 (e_id e) (clock t))
  end.

Fixpoint process_entries (t : nat) (tp : TransactionProcessor) (es : list Entry)
    : outcome (Res unit * TransactionProcessor) :=
  match es with
  | [] => Ret (Ok tt, tp)
  | e :: rest =>
      '(r, tp1) ← process_entry t tp e;
      match r with
      | Err err => Ret (Err err, tp1)
      | Ok _ => process_entries (S t) tp1 rest
      end
  end.

(** The circular buffer of the last entries: [tail[tail_idx] = entry] once it
    has grown that far, [push] before. *)
Definition tail_push (tail : list Entry) (tail_idx : nat) (e : Entry) : list Entry * nat :=
  (if (tail_idx <? length tail)%nat then <[tail_idx := e]> tail else tail ++ [e],
   (tail_idx + 1) mod WINDOW_SIZE)%nat.

Fixpoint process_entries_tail (t : nat) (tp : TransactionProcessor) (es : list Entry)
    (tail : list Entry) (tail_idx : nat) (entry_count : Z)
    : outcome (Res (Z * list Entry * nat) * TransactionProcessor) :=
  match es with
  | [] => Ret (Ok (entry_count, tail, tail_idx), tp)
  | e :: rest =>
      let '(tail', idx') := tail_push tail tail_idx e in
      count ← u64_add entry_count 1;
      '(r, tp1) ← process_entry t tp e;
      match r with
      | Err err => Ret (Err err, tp1)
      | Ok _ => process_entries_tail (S t) tp1 rest tail' idx' count
      end
  end.

(** [process_blocks] over the blocks [chunks(VERIFY_BLOCK_SIZE)] yields, none
    of them empty. *)
Fixpoint process_blocks (t : nat) (tp : TransactionProcessor) (id : Hash) (blocks : list (list Entry))
    (tail : list Entry) (tail_idx : nat) (entry_count : Z)
    : outcome (Res (Z * list Entry * nat) * TransactionProcessor) :=
  match blocks with
  | [] => Ret (Ok (entry_count, tail, tail_idx), tp)
  | block :: rest =>
      ok ← block_verify block id;
      if negb ok then Ret (Err LedgerVerificationFailed, tp)
      else
        e ← unwrap (last block);
        '(r, tp1) ← process_entries_tail t tp block tail tail_idx 0;
        match r with
        | Err err => Ret (Err err, tp1)
        | Ok (n, tail', idx') =>
            count ← u64_add entry_count n;
            process_blocks (t + length block) tp1 (e_id e) rest tail' idx' count
        end
  end.

(** [Itertools::chunks]. *)
Fixpoint chunks_of {A} (fuel n : nat) (l : list A) : list (list A) :=
  match fuel, l with
  | S fuel', _ :: _ => take n l :: chunks_of fuel' n (drop n l)
  | _, _ => []
  end.

Definition rotate_left {A} (n : nat) (l : list A) : list A := drop n l ++ take n l.

Definition process_ledger (tp : TransactionProcessor) (entries : list Entry)
    : outcome (Res (Z * list Entry) * TransactionProcessor) :=
  match entries with
  | entry0 :: entry1 :: rest =>
      tx ← index (e_transactions entry1) 0;
      _ ← rassert (System_check_id (tx_program_id tx));
      instruction ← unwrap (deserialize (A := SystemInstruction) (tx_userdata tx));
      deposit ← unwrap (match instruction with Move n => Some n | _ => None end);
      k0 ← index (tx_keys tx) 0;
      let account := default Account_default (tp_accounts tp !! k0) in
      t ← i64_add (tokens account) deposit;
      let tp1 := set_accounts (<[k0 := set_tokens t account]> (tp_accounts tp)) tp in
      let tp2 := register_entry_id tp1 (e_id entry0) (clock 0) in
      let tp3 := register_entry_id tp2 (e_id entry1) (clock 1) in
      '(r, tp4) ← process_blocks 2 tp3 (e_id entry1)
                    (chunks_of (length rest) VERIFY_BLOCK_SIZE rest) [entry0; entry1] 2 2;
      Ret (match r with
           | Err err => Err err
           | Ok (entry_count, tail, tail_idx) =>
               Ok (entry_count,
                   if (length tail =? WINDOW_SIZE)%nat then rotate_left tail_idx tail else tail)
           end, tp4)
  | _ => Panic
  end.
End Replay.

(** ** Balances *)

Section Balances.
Context `{Libloading} `{Bincode FinPlanState}.

Definition read_balance (a : Account) : Z :=
  if System_check_id (program_id a) then system_get_balance a
  else if FinPlan_check_id (program_id a) then finplan_get_balance a
  else tokens a.

Definition get_account (tp : TransactionProcessor) (k : Pubkey) : option Account := tp_accounts tp !! k.

Definition get_balance (tp : TransactionProcessor) (k : Pubkey) : Z :=
  match get_account tp k with Some a => read_balance a | None => 0 end.

(** [hash_internal_state]: the accounts are serialised in key order, so the
    encoding is a function of the map. *)
Definition hash_internal_state `{Sha256} `{Bincode (gmap Pubkey Account)} (tp : TransactionProcessor)
    : Hash := hash (serialize (tp_accounts tp)).
End Balances.

(** ** Client calls, the mint and the leader's recorder *)

Section Clients.
Context `{Profile} `{Libloading} `{!Games} `{Sha256} `{Ed25519} `{!Pkcs8} `{Bincode Entry}
  `{Bincode SystemInstruction} `{Bincode (list Pubkey)} `{Bincode Pubkey} `{Bincode Hash}
  `{Bincode I64} `{Bincode bytes} `{Bincode Instruction} `{Bincode FinPlanState} `{Bincode U64}
  `{Bincode StorageInstruction}.

Definition transfer (tp : TransactionProcessor) (n : Z) (keypair : Keypair) (to : Pubkey) (id : Hash)
    : outcome (Res Signature * TransactionProcessor) :=
  tx ← system_new keypair to n id;
  '(r, tp') ← process_transaction tp tx;
  Ret (match r with Ok _ => Ok (tx_signature tx) | Err e => Err e end, tp').

(** [TransactionProcessor::new]. *)
Definition tp_new (mint : Mint) (now : Z) : outcome TransactionProcessor :=
  tp ← new_from_deposit (mk_payment (mint_tokens mint) (mint_pubkey mint));
  id ← mint_last_id mint;
  Ret (register_entry_id tp id now).

(** [PodRecorder]: the chain, the processor, and what has been sent so far
    with whether the receiver is still there. *)
Record PodRecorder := mk_recorder {
  pr_pod : Pod; pr_tp : TransactionProcessor; pr_sent : list (list Entry); pr_open : bool }.

Definition PodRecorder_new (tp : TransactionProcessor) (is_open : bool) : outcome PodRecorder :=
  id ← last_id tp; Ret (mk_recorder (Pod_new id) tp [] is_open).

Definition pr_hash (pr : PodRecorder) : outcome PodRecorder :=
  pod ← Pod_hash (pr_pod pr); Ret (mk_recorder pod (pr_tp pr) (pr_sent pr) (pr_open pr)).

(** [sender.send(vec![entry])?] after the id has been registered. *)
Definition pr_send (pr : PodRecorder) (pod : Pod) (tick : PodEntry) (txs : list Transaction) (now : Z)
    : bool * PodRecorder :=
  let tp := register_entry_id (pr_tp pr) (pe_id tick) now in
  let entry := mk_entry (pe_num_hashes tick) (pe_id tick) txs in
  if pr_open pr then (true, mk_recorder pod tp (pr_sent pr ++ [[entry]]) true)
  else (false, mk_recorder pod tp (pr_sent pr) false).

Definition pr_tick (pr : PodRecorder) (now : Z) : outcome (bool * PodRecorder) :=
  '(tick, pod) ← Pod_tick (pr_pod pr); Ret (pr_send pr pod tick [] now).

Definition pr_record (pr : PodRecorder) (mixin : Hash) (txs : list Transaction) (now : Z)
    : outcome (bool * PodRecorder) :=
  '(tick, pod) ← Pod_record (pr_pod pr) mixin; Ret (pr_send pr pod tick txs now).
End Clients.
