(* ===== verification/ProcessorLaws.v ===== *)
(** * What the transaction processor guarantees

    Execution, the accounts, the token supply, replay protection and the
    ledger: the lemmas and properties of [Processor]. *)

From S2P Require Import Prelude.
From S2P Require Import Types.
From S2P Require Import Codec.
From S2P Require Import Packet.
From S2P Require Import FinPlan.
From S2P Require Import FinPlanProgram.
From S2P Require Import SystemProgram.
From S2P Require Import Transactions.
From S2P Require Import Entry.
From S2P Require Import Block.
From S2P Require Import Processor.

(** ** Execution *)

(** What the checks after a program let through for one account. *)
Definition fair_change (tx : Transaction) (pre post : Account) : Prop :=
  (program_id pre = program_id post \/
   tx_program_id tx = System_id /\ program_id pre = System_id) /\
  (tx_program_id tx <> program_id post -> tokens pre <= tokens post) /\
  0 <= tokens post.

Section ExecutionLaws.
Context `{Profile} `{Libloading} `{!Games} `{Bincode SystemInstruction} `{Bincode Instruction}
  `{Bincode FinPlanState} `{Bincode U64} `{Bincode StorageInstruction}.

Lemma dispatch_length tx accs lp accs' lp' r :
  dispatch tx accs lp = Ret (accs', lp', r) -> length accs' = length accs.
Proof.
  unfold dispatch, loaded_contract. intros Hd. run Hd; rewrite ?length_write_back; try done.
  - by eapply system_process_length.
  - by eapply finplan_process_length.
Qed.

Lemma verify_transaction_Ok tx pre post :
  verify_transaction tx (program_id pre) (tokens pre) post = Ok tt <-> fair_change tx pre post.
Proof.
  unfold verify_transaction, fair_change. split.
  - intros Hv. repeat case_match; try discriminate. bool_prop.
    rewrite orb_true_iff, andb_true_iff, bool_decide_eq_true, !System_check_id_eq in *.
    split; [done|]. split; [|done]. intros Hne.
    destruct (Z.ltb_spec (tokens post) (tokens pre)); [|lia].
    rewrite bool_decide_false in * by done. done.
  - intros (Hid & Hsp & Hnn).
    assert (bool_decide (program_id pre = program_id post) ||
      System_check_id (tx_program_id tx) && System_check_id (program_id pre) = true) as ->.
    { rewrite orb_true_iff, andb_true_iff, bool_decide_eq_true, !System_check_id_eq. done. }
    simpl. rewrite (proj2 (Z.ltb_ge (tokens post) 0)) by done.
    destruct (bool_decide (tx_program_id tx = program_id post)) eqn:E; [done|].
    bool_prop. by rewrite (proj2 (Z.ltb_ge _ _)) by auto.
Qed.

Lemma verify_accounts_Ok tx pre post : length pre = length post ->
  verify_accounts tx ((fun a => (program_id a, tokens a)) <$> pre) post = Ok tt <->
  Forall2 (fair_change tx) pre post.
Proof.
  revert post. induction pre as [|a pre IH]; intros [|b post] Hl; try discriminate; simpl.
  { split; constructor. }
  injection Hl as Hl. split.
  - destruct (verify_transaction _ _ _ _) as [[]|] eqn:E; [|done].
    rewrite IH by done. apply verify_transaction_Ok in E. by constructor.
  - intros [Hf Hfs]%Forall2_cons. apply verify_transaction_Ok in Hf as ->. by apply IH.
Qed.

Lemma execute_Ok tx accs lp accs' lp' :
  execute_transaction tx accs lp = Ret (accs', lp', Ok tt) ->
  dispatch tx accs lp = Ret (accs', lp', Ok tt) /\ Forall2 (fair_change tx) accs accs' /\
  tokens_eq (total_tokens accs') (total_tokens accs).
Proof.
  unfold execute_transaction. intros He.
  apply bind_Ret_inv in He as (pre & Hpre & He).
  apply bind_Ret_inv in He as ([[accs1 lp1] r] & Hd & He). simpl in He.
  destruct r as [[]|]; [|by run He].
  destruct (verify_accounts _ _ _) as [[]|] eqn:Hv; [|by run He].
  apply bind_Ret_inv in He as (post & Hpost & He).
  destruct (pre =? post) eqn:E; [|by run He]. injection He as <- <-. apply Z.eqb_eq in E as <-.
  split; [done|]. split.
  - apply verify_accounts_Ok; [|done]. symmetry. by eapply dispatch_length.
  - apply i64_sum_tokens_eq in Hpre, Hpost. unfold total_tokens. by rewrite <- Hpre, <- Hpost.
Qed.

(** C15: whatever program ran (system, fin_plan, storage, or native code
    loaded from a library), an accepted execution kept the total of the
    accounts, left none negative, took tokens only from accounts of the
    transaction's own program, and changed the owner only of system accounts
    in a system transaction. *)
Theorem execute_transaction_fair : forall tx accs lp accs' lp',
  execute_transaction tx accs lp = Ret (accs', lp', Ok tt) ->
  length accs' = length accs /\ Forall2 (fair_change tx) accs accs' /\
  tokens_eq (total_tokens accs') (total_tokens accs).
Proof.
  intros tx accs lp accs' lp' (_ & Hf & Ht)%execute_Ok.
  split; [symmetry; by eapply Forall2_length|done].
Qed.
End ExecutionLaws.

(** ** A batch, transaction by transaction *)

(** What [load_account] hands to the program: the accounts of the keys, the fee
    already taken from the first. *)
Definition loads `{Profile} (m : gmap Pubkey Account) (tx : Transaction) (accs : list Account) : Prop :=
  exists k0 ks a0 t, tx_keys tx = k0 :: ks /\ m !! k0 = Some a0 /\ tx_fee tx <= tokens a0 /\
    i64_sub (tokens a0) (tx_fee tx) = Ret t /\
    accs = set_tokens t a0 :: ((fun k => default Account_default (m !! k)) <$> ks).

(** The accounts a transaction commits, if it was accepted. *)
Definition committed `{Profile} (m : gmap Pubkey Account) (tx : Transaction) (out : Res (list Account))
    : Prop :=
  match out with
  | Ok accs' => exists accs, loads m tx accs /\ Forall2 (fair_change tx) accs accs' /\
                             tokens_eq (total_tokens accs') (total_tokens accs)
  | Err _ => True
  end.

Definition status (out : Res (list Account)) : Res unit :=
  match out with Ok _ => Ok tt | Err e => Err e end.

Fixpoint store_outs (txs : list Transaction) (outs : list (Res (list Account)))
    (m : gmap Pubkey Account) : gmap Pubkey Account :=
  match txs, outs with
  | tx :: txs', Ok accs :: outs' => store_outs txs' outs' (store_keys (tx_keys tx) accs m)
  | _ :: txs', Err _ :: outs' => store_outs txs' outs' m
  | _, _ => m
  end.

Section BatchLaws.
Context `{Profile} `{Libloading} `{!Games} `{Bincode SystemInstruction} `{Bincode Instruction}
  `{Bincode FinPlanState} `{Bincode U64} `{Bincode StorageInstruction}.

Lemma set_sigs_idem s1 s2 (tp : TransactionProcessor) : set_sigs s1 (set_sigs s2 tp) = set_sigs s1 tp.
Proof. done. Qed.
Lemma set_sigs_same (tp : TransactionProcessor) : set_sigs (tp_last_ids_sigs tp) tp = tp.
Proof. by destruct tp. Qed.

(** The processors that differ from [tp] at most in the signatures. *)
Definition sigs_only (tp tp' : TransactionProcessor) : Prop :=
  tp' = set_sigs (tp_last_ids_sigs tp') tp.

#[local] Instance sigs_only_preorder : PreOrder sigs_only.
Proof.
  split.
  - intros tp. unfold sigs_only. by rewrite set_sigs_same.
  - intros tp1 tp2 tp3. unfold sigs_only. intros -> ->. done.
Qed.

Lemma sigs_only_set s (tp : TransactionProcessor) : sigs_only tp (set_sigs s tp).
Proof. done. Qed.

Lemma reserve_sigs_only tp sg id tp' r :
  reserve_signature_with_last_id tp sg id = (tp', r) -> sigs_only tp tp'.
Proof.
  unfold reserve_signature_with_last_id. intros Hr. repeat case_match; simplify_eq; done.
Qed.

Lemma load_account_spec tp tx m ec r tp' ec' :
  load_account tp tx m ec = Ret (r, tp', ec') ->
  sigs_only tp tp' /\
  match r with
  | Ok accs => loads m tx accs /\
      reserve_signature_with_last_id tp (tx_signature tx) (tx_last_id tx) = (tp', Ok tt)
  | Err _ => True
  end.
Proof.
  unfold load_account. intros Hl. apply bind_Ret_inv in Hl as (k0 & Hk0%index_Ret & Hl).
  destruct (m !! k0) as [a0|] eqn:Hm; [|by run Hl].
  destruct (tokens a0 <? tx_fee tx) eqn:Hfee; [by run Hl|]. bool_prop.
  destruct (reserve_signature_with_last_id tp _ _) as [tp1 [[]|e]] eqn:Hr;
    pose proof (reserve_sigs_only _ _ _ _ _ Hr); [|by run Hl].
  destruct (tx_keys tx) as [|k ks] eqn:Hks; simplify_eq/=.
  rewrite Hm in Hl. unfold update in Hl. simpl in Hl.
  apply bind_Ret_inv in Hl as (t & Ht & Hl). simplify_eq/=. split; [done|].
  split; [|done]. exists k0, ks, a0, t. done.
Qed.

Lemma load_accounts_spec tp txs m ec rs tp' ec' :
  load_accounts tp txs m ec = Ret (rs, tp', ec') ->
  sigs_only tp tp' /\
  Forall2 (fun tx r => match r with Ok accs => loads m tx accs | Err _ => True end) txs rs.
Proof.
  revert tp ec rs. induction txs as [|tx txs IH]; intros tp ec rs Hl; simplify_eq/=.
  { split; [done|constructor]. }
  apply bind_Ret_inv in Hl as ([[r tp1] ec1] & Hq1 & Hl). apply load_account_spec in Hq1 as [Hs1 Hr].
  apply bind_Ret_inv in Hl as ([[rs' tp2] ec2] & Hq2 & Hl).
  simplify_eq/=. apply IH in Hq2 as [Hs2 Hrs]. split; [by etrans|]. constructor; [|done]. by destruct r as [accs|]; [destruct Hr|].
Qed.

Lemma execute_all_spec m txs loaded lp loaded' res lp' :
  Forall2 (fun tx r => match r with Ok accs => loads m tx accs | Err _ => True end) txs loaded ->
  execute_all txs loaded lp = Ret (loaded', res, lp') ->
  exists outs, Forall2 (committed m) txs outs /\ res = status <$> outs /\
    (forall m0, store_accounts txs res loaded' m0 = Ret (store_outs txs outs m0)) /\
    Forall2 (fun l o => is_ok o = true -> is_ok l = true) loaded outs.
Proof.
  intros Hl. revert lp loaded' res. induction Hl as [|tx l txs loaded Htx Hl IH]; intros lp loaded' res He;
    simpl in He.
  { simplify_eq. exists []. split_and!; constructor || done. }
  apply bind_Ret_inv in He as ([[acc' r] lp1] & Hq1 & He).
  apply bind_Ret_inv in He as ([[accs rs] lp2] & Hq2 & He). simplify_eq/=.
  destruct (IH _ _ _ Hq2) as (outs & Hc & -> & Hst & Hok).
  destruct l as [accs0|e].
  - apply bind_Ret_inv in Hq1 as ([[accs1 lp1'] r1] & Hq1 & He). simplify_eq/=.
    destruct r as [[]|e].
    + apply execute_Ok in Hq1 as (_ & Hf & Ht).
      exists (Ok accs1 :: outs). split_and!; [constructor; [|done]; by exists accs0|done|done|by constructor].
    + exists (Err e :: outs). split_and!; [by constructor|done|done|by constructor].
  - simplify_eq/=. exists (Err e :: outs). split_and!; [by constructor|done|done|by constructor].
Qed.

Lemma update_statuses_spec tp txs res tp' :
  update_transaction_statuses tp txs res = Ret tp' -> sigs_only tp tp'.
Proof.
  revert tp res. induction txs as [|tx txs IH]; intros tp [|r res] Hu; simplify_eq/=; [done|done|].
  etrans; [|by eapply IH]. unfold update_signature_status_with_last_id.
  by destruct (tp_last_ids_sigs tp !! tx_last_id tx) as [[]|].
Qed.

(** The accounts and results of a batch. *)
Lemma process_transactions_spec tp txs res tp' :
  process_transactions tp txs = Ret (res, tp') ->
  exists outs, Forall2 (committed (tp_accounts tp)) txs outs /\ res = status <$> outs /\
    tp_accounts tp' = store_outs txs outs (tp_accounts tp) /\
    tp_last_ids tp' = tp_last_ids tp.
Proof.
  unfold process_transactions. intros Hp.
  apply bind_Ret_inv in Hp as ([[loaded tp1] ec] & Hl & Hp).
  apply load_accounts_spec in Hl as [Hs1 Hl].
  apply bind_Ret_inv in Hp as ([[loaded' res'] lp] & He & Hp).
  destruct (execute_all_spec _ _ _ _ _ _ _ Hl He) as (outs & Hc & -> & Hst & _).
  apply bind_Ret_inv in Hp as (m & Hm & Hp). rewrite Hst in Hm. simplify_eq.
  apply bind_Ret_inv in Hp as (tp2 & Hu & Hp). apply update_statuses_spec in Hu.
  apply bind_Ret_inv in Hp as (n & _ & Hp). simplify_eq/=.
  exists outs. rewrite Hu, Hs1. done.
Qed.
End BatchLaws.

(** ** The accounts and the token supply *)

Definition bal (m : gmap Pubkey Account) (k : Pubkey) : Z :=
  tokens (default Account_default (m !! k)).

(** All tokens in existence. *)
Definition supply (m : gmap Pubkey Account) : Z := map_fold (fun _ a acc => tokens a + acc) 0 m.

(** No account is empty or overdrawn. *)
Definition positive (m : gmap Pubkey Account) : Prop := map_Forall (fun _ a => 0 < tokens a) m.

Lemma supply_insert_new m k a : m !! k = None -> supply (<[k := a]> m) = tokens a + supply m.
Proof. intros Hk. unfold supply. rewrite map_fold_insert_L; [done|intros; lia|done]. Qed.

Lemma supply_insert m k a : supply (<[k := a]> m) = supply m - bal m k + tokens a.
Proof.
  unfold bal. destruct (m !! k) as [b|] eqn:E; simpl.
  - rewrite <- (insert_delete_id m k b E) at 2. rewrite <- insert_delete_eq.
    rewrite !supply_insert_new by apply lookup_delete_eq. lia.
  - rewrite supply_insert_new by done. lia.
Qed.

Lemma supply_delete m k : supply (delete k m) = supply m - bal m k.
Proof.
  destruct (m !! k) as [b|] eqn:E.
  - rewrite <- (insert_delete_id m k b E) at 2. rewrite supply_insert. unfold bal.
    rewrite lookup_delete_eq, E. simpl. lia.
  - rewrite delete_id by done. unfold bal. rewrite E. simpl. lia.
Qed.

Lemma bal_insert_ne m k k' a : k <> k' -> bal (<[k := a]> m) k' = bal m k'.
Proof. intros. unfold bal. by rewrite lookup_insert_ne. Qed.
Lemma bal_delete_ne m k k' : k <> k' -> bal (delete k m) k' = bal m k'.
Proof. intros. unfold bal. by rewrite lookup_delete_ne. Qed.

Lemma store_keys_other keys accs m k : k ∉ keys -> store_keys keys accs m !! k = m !! k.
Proof.
  revert accs m. induction keys as [|k' keys IH]; intros [|a accs] m Hk; try done. cbn [store_keys].
  apply not_elem_of_cons in Hk as [Hne Hk]. rewrite IH by done.
  by case_match; [rewrite lookup_delete_ne|rewrite lookup_insert_ne].
Qed.

Lemma store_keys_supply keys accs m : NoDup keys -> length keys = length accs ->
  supply (store_keys keys accs m) = supply m - Zsum (bal m <$> keys) + total_tokens accs.
Proof.
  intros Hnd. revert accs m. induction Hnd as [|k keys Hk Hnd IH]; intros [|a accs] m Hl; try discriminate.
  { unfold total_tokens. simpl. lia. }
  injection Hl as Hl. cbn [store_keys]. rewrite IH, fmap_cons, Zsum_cons by done.
  assert (Hb : forall m', (forall k', k' <> k -> bal m' k' = bal m k') -> bal m' <$> keys = bal m <$> keys).
  { intros m' Hm'. apply list_fmap_ext. intros i k' Hk'%list_elem_of_lookup_2. apply Hm'.
    intros ->. done. }
  unfold total_tokens. rewrite fmap_cons, Zsum_cons. destruct (tokens a =? 0) eqn:E; bool_prop.
  - rewrite supply_delete, (Hb (delete k m)) by (intros; by apply bal_delete_ne). lia.
  - rewrite supply_insert, (Hb (<[k := a]> m)) by (intros; by apply bal_insert_ne). lia.
Qed.

Lemma store_keys_positive keys accs m : Forall (fun a => 0 <= tokens a) accs -> positive m ->
  positive (store_keys keys accs m).
Proof.
  intros Ha. revert keys m. induction Ha as [|a accs Ha Haccs IH]; intros [|k keys] m Hm; try done.
  cbn [store_keys]. apply IH. destruct (tokens a =? 0) eqn:E; bool_prop.
  - by apply map_Forall_delete.
  - apply map_Forall_insert_2; [lia|done].
Qed.

Section SupplyLaws.
Context `{Profile}.

Lemma loads_total m tx accs : loads m tx accs ->
  tokens_eq (total_tokens accs) (Zsum (bal m <$> tx_keys tx) - tx_fee tx).
Proof.
  intros (k0 & ks & a0 & t & -> & Hm & _ & Ht & ->). unfold total_tokens. simpl.
  rewrite (i64_sub_tokens_eq _ _ _ Ht). unfold bal at 1. rewrite Hm. simpl.
  rewrite <- list_fmap_compose. apply tokens_eq_of_eq.
  change (tokens ∘ _) with (bal m). unfold fmap. lia.
Qed.

Lemma loads_length m tx accs : loads m tx accs -> length accs = length (tx_keys tx).
Proof. intros (k0 & ks & a0 & t & -> & _ & _ & _ & ->). simpl. by rewrite length_fmap. Qed.

Lemma fair_nonneg tx accs accs' : Forall2 (fair_change tx) accs accs' -> Forall (fun a => 0 <= tokens a) accs'.
Proof. induction 1 as [|a b accs accs' (_ & _ & Hb) Hf IH]; by constructor. Qed.

(** The fees of the accepted transactions. *)
Definition fees (txs : list Transaction) (res : list (Res unit)) : Z :=
  Zsum (zip_with (fun tx r => if is_ok r then tx_fee tx else 0) txs res).

Lemma fees_cons tx txs out outs :
  fees (tx :: txs) (status <$> out :: outs) =
    (if is_ok (status out) then tx_fee tx else 0) + fees txs (status <$> outs).
Proof. done. Qed.

(** The accounts [mc] and [m] agree on the keys of [txs]. *)
Lemma store_outs_supply m txs outs mc :
  Forall2 (committed m) txs outs -> NoDup (concat (tx_keys <$> txs)) ->
  (forall k, k ∈ concat (tx_keys <$> txs) -> mc !! k = m !! k) ->
  tokens_eq (supply (store_outs txs outs mc)) (supply mc - fees txs (status <$> outs)).
Proof.
  intros Hc. revert mc. induction Hc as [|tx out txs outs Hout Hc IH]; intros mc Hnd Hag.
  { apply tokens_eq_of_eq. unfold fees. simpl. lia. }
  cbn in Hnd, Hag. apply NoDup_app in Hnd as (Hndk & Hdisj & Hnd).
  rewrite fees_cons. destruct out as [accs'|e]; cbn [is_ok status store_outs].
  - destruct Hout as (accs & Hl & Hf & Ht). rewrite IH; [|done|].
    2: { intros k Hk. rewrite store_keys_other; [apply Hag; set_solver|]. intros Hin. by apply (Hdisj k). }
    rewrite store_keys_supply; [|done|].
    2: { rewrite <- (loads_length _ _ _ Hl). by eapply Forall2_length. }
    assert (bal mc <$> tx_keys tx = bal m <$> tx_keys tx) as ->.
    { apply list_fmap_ext. intros i k Hk%list_elem_of_lookup_2. unfold bal. rewrite Hag; [done|set_solver]. }
    rewrite Ht, (loads_total _ _ _ Hl). apply tokens_eq_of_eq. lia.
  - rewrite IH; [|done|intros; apply Hag; set_solver]. apply tokens_eq_of_eq. lia.
Qed.

Lemma store_outs_positive m txs outs mc :
  Forall2 (committed m) txs outs -> positive mc -> positive (store_outs txs outs mc).
Proof.
  intros Hc. revert mc. induction Hc as [|tx [accs'|e] txs outs Hout Hc IH]; intros mc Hp; [done| |by apply IH].
  destruct Hout as (accs & _ & Hf & _). apply IH. apply store_keys_positive; [|done].
  by eapply fair_nonneg.
Qed.

Lemma store_outs_other txs outs m k :
  Forall2 (fun tx out => k ∈ tx_keys tx -> is_ok (status out) = false) txs outs ->
  store_outs txs outs m !! k = m !! k.
Proof.
  intros Hf. revert m. induction Hf as [|tx [accs|e] txs outs Hk Hf IH]; intros m; [done| |by apply IH].
  cbn [store_outs]. rewrite IH. apply store_keys_other. intros Hin. by specialize (Hk Hin).
Qed.
End SupplyLaws.

Section BatchProperties.
Context `{Profile} `{Libloading} `{!Games} `{Bincode SystemInstruction} `{Bincode Instruction}
  `{Bincode FinPlanState} `{Bincode U64} `{Bincode StorageInstruction}.


(** C30: the processor never stores an empty or overdrawn account: the
    balances stay positive through every batch. *)
Theorem process_transactions_positive : forall tp txs res tp',
  process_transactions tp txs = Ret (res, tp') -> positive (tp_accounts tp) ->
  positive (tp_accounts tp').
Proof.
  intros tp txs res tp' (outs & Hc & -> & -> & _)%process_transactions_spec Hp.
  by eapply store_outs_positive.
Qed.

(** C29: a rejected transaction has no effect on the accounts: an account that
    no accepted transaction of the batch names is as it was. *)
Theorem process_transactions_frame : forall tp txs res tp' k,
  process_transactions tp txs = Ret (res, tp') ->
  Forall2 (fun tx r => k ∈ tx_keys tx -> is_ok r = false) txs res ->
  tp_accounts tp' !! k = tp_accounts tp !! k.
Proof.
  intros tp txs res tp' k (outs & Hc & -> & -> & _)%process_transactions_spec Hf.
  apply store_outs_other. by apply Forall2_fmap_r in Hf.
Qed.
End BatchProperties.

(** ** Signatures: no transaction is executed twice *)

Section Signatures.
Context `{Profile} `{Libloading} `{!Games} `{Bincode SystemInstruction} `{Bincode Instruction}
  `{Bincode FinPlanState} `{Bincode U64} `{Bincode StorageInstruction}.

(** What identifies a submission. *)
Abbreviation ticket := (Hash * Signature)%type.
Definition ticket_of (tx : Transaction) : ticket := (tx_last_id tx, tx_signature tx).

(** The processor remembers the signature under the entry id. *)
Definition seen (tp : TransactionProcessor) (p : ticket) : Prop :=
  exists e, tp_last_ids_sigs tp !! p.1 = Some e /\ is_Some (e.1 !! p.2).

(** Everything remembered in [tp] is remembered in [tp'], for the same ids. *)
Definition remembers (tp tp' : TransactionProcessor) : Prop :=
  (forall p, seen tp p -> seen tp' p) /\
  (forall h, is_Some (tp_last_ids_sigs tp' !! h) <-> is_Some (tp_last_ids_sigs tp !! h)).

#[local] Instance remembers_preorder : PreOrder remembers.
Proof.
  split; [by intros tp|]. intros tp1 tp2 tp3 [Hs1 Hd1] [Hs2 Hd2].
  split; [auto|]. intros h. by rewrite Hd2.
Qed.

(** Rewriting the signatures under a known id without forgetting any. *)
Lemma remembers_insert tp h m ts m' :
  tp_last_ids_sigs tp !! h = Some (m, ts) -> dom m ⊆ dom m' ->
  remembers tp (set_sigs (<[h := (m', ts)]> (tp_last_ids_sigs tp)) tp).
Proof.
  intros Hh Hm. split.
  - intros [h' sg] (e & He & Hsg). unfold seen. simpl in *. destruct (decide (h = h')) as [->|].
    + rewrite lookup_insert_eq. eexists. split; [done|]. simpl. simplify_eq.
      apply elem_of_dom. apply Hm. by apply elem_of_dom.
    + rewrite lookup_insert_ne by done. eauto.
  - intros h'. simpl. destruct (decide (h = h')) as [->|]; [|by rewrite lookup_insert_ne].
    rewrite lookup_insert_eq, Hh. by split; eauto.
Qed.

Lemma reserve_remembers tp sg id tp' r :
  reserve_signature_with_last_id tp sg id = (tp', r) ->
  remembers tp tp' /\ (r = Ok tt -> ~ seen tp (id, sg) /\ seen tp' (id, sg)).
Proof.
  unfold reserve_signature_with_last_id, reserve_signature. intros Hr.
  destruct (tp_last_ids_sigs tp !! id) as [[m ts]|] eqn:Hid; [|by simplify_eq].
  destruct (m !! sg) as [x|] eqn:Hsg; simplify_eq/=.
  - split; [|done]. by apply (remembers_insert _ _ m).
  - split; [apply (remembers_insert _ _ m); [done|rewrite dom_insert; set_solver]|].
    intros _. split.
    + intros (e & He & [? Hx]). by simplify_eq/=.
    + eexists. simpl. rewrite lookup_insert_eq. split; [done|]. simpl. by rewrite lookup_insert_eq.
Qed.

Lemma load_account_remembers tp tx m ec r tp' ec' :
  load_account tp tx m ec = Ret (r, tp', ec') ->
  remembers tp tp' /\ (is_ok r = true -> ~ seen tp (ticket_of tx) /\ seen tp' (ticket_of tx)).
Proof.
  unfold load_account. intros Hl.
  destruct (reserve_signature_with_last_id tp (tx_signature tx) (tx_last_id tx)) as [tp1 r1] eqn:Hr.
  apply reserve_remembers in Hr as [Hrem Hok]. apply bind_Ret_inv in Hl as (k0 & _ & Hl).
  destruct r1 as [[]|]; run Hl; try done; split; done || (intros _; by apply Hok).
Qed.

(** The tickets of the transactions with a positive result. *)
Definition ok_tickets {A} (txs : list Transaction) (rs : list (Res A)) : list ticket :=
  concat (zip_with (fun tx r => if is_ok r then [ticket_of tx] else []) txs rs).

Lemma ok_tickets_elem {A} p txs (rs : list (Res A)) : p ∈ ok_tickets txs rs ->
  exists i tx r, txs !! i = Some tx /\ rs !! i = Some r /\ is_ok r = true /\ p = ticket_of tx.
Proof.
  revert rs. induction txs as [|tx txs IH]; intros [|r rs] Hp; try (by apply not_elem_of_nil in Hp).
  unfold ok_tickets in Hp. cbn in Hp. fold (ok_tickets txs rs) in Hp. apply elem_of_app in Hp as [Hp|Hp].
  - exists O, tx, r. destruct (is_ok r) eqn:E; [|by apply not_elem_of_nil in Hp].
    apply list_elem_of_singleton in Hp. done.
  - destruct (IH _ Hp) as (i & ?). by exists (S i).
Qed.

Lemma load_accounts_tickets tp txs m ec rs tp' ec' :
  load_accounts tp txs m ec = Ret (rs, tp', ec') ->
  remembers tp tp' /\ NoDup (ok_tickets txs rs) /\
  (forall p, p ∈ ok_tickets txs rs -> ~ seen tp p /\ seen tp' p).
Proof.
  revert tp ec rs. induction txs as [|tx txs IH]; intros tp ec rs Hl; simplify_eq/=.
  { split; [done|]. split; [constructor|]. intros p Hp. by apply not_elem_of_nil in Hp. }
  apply bind_Ret_inv in Hl as ([[r tp1] ec1] & Hq1 & Hl).
  apply load_account_remembers in Hq1 as [Hrem1 Hok1].
  apply bind_Ret_inv in Hl as ([[rs' tp2] ec2] & Hq2 & Hl). simplify_eq/=.
  apply IH in Hq2 as (Hrem2 & Hnd & Hin). split; [by etrans|].
  unfold ok_tickets. cbn. fold (ok_tickets txs rs'). destruct (is_ok r).
  - destruct (Hok1 eq_refl) as [Hnew Hseen]. cbn. split.
    + constructor; [|done]. intros [Hc _]%Hin. done.
    + intros p [->|Hp]%elem_of_cons; [split; [done|by apply Hrem2]|].
      destruct (Hin p Hp) as [Hn Hs]. split; [|done]. intros Hp'. by apply Hn, Hrem1.
  - cbn. split; [done|]. intros p Hp. destruct (Hin p Hp) as [Hn Hs].
    split; [|done]. intros Hp'. by apply Hn, Hrem1.
Qed.

Lemma update_statuses_remembers tp txs res tp' :
  update_transaction_statuses tp txs res = Ret tp' -> remembers tp tp'.
Proof.
  revert tp res. induction txs as [|tx txs IH]; intros tp [|r res] Hu; simplify_eq/=; [done|done|].
  etrans; [|by eapply IH]. unfold update_signature_status_with_last_id.
  destruct (tp_last_ids_sigs tp !! tx_last_id tx) as [[m ts]|] eqn:E; [|done].
  apply (remembers_insert _ _ m); [done|]. unfold update_signature_status.
  rewrite dom_insert. set_solver.
Qed.

(** Execution can only turn a loaded transaction into a failed one. *)
Lemma ok_tickets_sublist {A B} txs (l : list (Res A)) (o : list (Res B)) :
  Forall2 (fun l o => is_ok o = true -> is_ok l = true) l o ->
  sublist (ok_tickets txs o) (ok_tickets txs l).
Proof.
  intros Hf. revert txs. induction Hf as [|a b l o Hab Hf IH]; intros [|tx txs]; try constructor.
  unfold ok_tickets. cbn. apply sublist_app; [|apply IH].
  destruct (is_ok b); [by rewrite Hab|apply sublist_nil_l].
Qed.

Lemma ok_tickets_status txs (outs : list (Res (list Account))) :
  ok_tickets txs (status <$> outs) = ok_tickets txs outs.
Proof.
  revert txs. induction outs as [|o outs IH]; intros [|tx txs]; try done.
  unfold ok_tickets. cbn. f_equal; [by destruct o|apply IH].
Qed.

Lemma process_transactions_tickets tp txs res tp' :
  process_transactions tp txs = Ret (res, tp') ->
  remembers tp tp' /\ NoDup (ok_tickets txs res) /\
  (forall p, p ∈ ok_tickets txs res -> ~ seen tp p /\ seen tp' p).
Proof.
  unfold process_transactions. intros Hp.
  apply bind_Ret_inv in Hp as ([[loaded tp1] ec] & Hl & Hp).
  pose proof (proj2 (load_accounts_spec _ _ _ _ _ _ _ Hl)) as Hl'.
  apply load_accounts_tickets in Hl as (Hrem1 & Hnd & Hin).
  apply bind_Ret_inv in Hp as ([[loaded' res'] lp] & He & Hp).
  destruct (execute_all_spec _ _ _ _ _ _ _ Hl' He) as (outs & _ & -> & _ & Hsub).
  apply bind_Ret_inv in Hp as (m & _ & Hp).
  apply bind_Ret_inv in Hp as (tp2 & Hu & Hp). apply update_statuses_remembers in Hu.
  apply bind_Ret_inv in Hp as (n & _ & Hp). simplify_eq/=.
  apply (ok_tickets_sublist txs) in Hsub. rewrite ok_tickets_status.
  assert (Hrem2 : remembers tp1 (set_count (wrap_u64 (tp_transaction_count tp2 +
    Z.of_nat (length (filter (fun r => is_ok r = true) (status <$> outs))))) tp2)) by exact Hu.
  split; [by etrans|]. split; [by eapply sublist_NoDup|].
  intros p Hp. destruct (Hin p) as [Hn Hs]; [by eapply elem_of_sublist|].
  split; [done|]. by apply Hrem2.
Qed.

(** The operations that touch the signatures while a node runs. *)
Inductive op := Batch (txs : list Transaction) | Register (id : Hash) (now : Z).

(** A run, with the tickets of the transactions it accepted. *)
Fixpoint run_ops (tp : TransactionProcessor) (ops : list op) : outcome (list ticket * TransactionProcessor) :=
  match ops with
  | [] => Ret ([], tp)
  | Batch txs :: ops' =>
      '(res, tp1) ← process_transactions tp txs;
      '(ps, tp2) ← run_ops tp1 ops';
      Ret (ok_tickets txs res ++ ps, tp2)
  | Register id now :: ops' => run_ops (register_entry_id tp id now) ops'
  end.

Definition registered (ops : list op) : list Hash :=
  concat ((fun o => match o with Batch _ => [] | Register id _ => [id] end) <$> ops).

(** A ticket that can no longer be accepted: its signature is remembered, or
    its entry id is gone and will not come back. *)
Definition barred (tp : TransactionProcessor) (ids : list Hash) (p : ticket) : Prop :=
  seen tp p \/ tp_last_ids_sigs tp !! p.1 = None /\ p.1 ∉ ids.

Lemma seen_known tp p : seen tp p -> is_Some (tp_last_ids_sigs tp !! p.1).
Proof. intros (e & He & _). eauto. Qed.

(** The ids a processor knows, after one more is registered. *)
Lemma register_sigs tp id now h :
  tp_last_ids_sigs (register_entry_id tp id now) !! h =
    if decide (h = id) then Some (∅, now)
    else if decide ((MAX_ENTRY_IDS <= length (tp_last_ids tp))%nat /\ head (tp_last_ids tp) = Some h)
    then None else tp_last_ids_sigs tp !! h.
Proof.
  unfold register_entry_id. case_decide as Hid; [subst|].
  - destruct (_ <=? _)%nat; [destruct (tp_last_ids tp)|]; simpl; by rewrite lookup_insert_eq.
  - destruct (_ <=? _)%nat eqn:E.
    + apply Nat.leb_le in E. destruct (tp_last_ids tp) as [|f rest] eqn:El; cbn [set_ids tp_last_ids_sigs].
      * rewrite lookup_insert_ne by done. rewrite decide_False by naive_solver. done.
      * rewrite lookup_insert_ne by done. destruct (decide (f = h)) as [->|].
        -- rewrite lookup_delete_eq, decide_True by done. done.
        -- rewrite lookup_delete_ne, decide_False by naive_solver. done.
    + apply Nat.leb_gt in E. cbn [set_ids tp_last_ids_sigs]. rewrite lookup_insert_ne by done.
      rewrite decide_False by lia. done.
Qed.

Lemma register_barred tp id now ids p :
  tp_last_ids_sigs tp !! id = None -> (forall h, h ∈ ids -> tp_last_ids_sigs tp !! h = None) ->
  barred tp (id :: ids) p -> barred (register_entry_id tp id now) ids p.
Proof.
  intros Hid Hids [Hs|[Hn Hp]]; unfold barred, seen.
  - pose proof (seen_known _ _ Hs) as [e He]. rewrite register_sigs.
    rewrite decide_False by (intros <-; congruence). case_decide; [right|left].
    + split; [done|]. intros Hin%Hids. congruence.
    + destruct Hs as (e' & He' & Hsg). eauto.
  - right. apply not_elem_of_cons in Hp as [Hne Hp]. split; [|done].
    rewrite register_sigs, decide_False by done. by case_decide.
Qed.

Lemma run_ops_barred ops tp ps tp' :
  run_ops tp ops = Ret (ps, tp') -> NoDup (registered ops) ->
  (forall h, h ∈ registered ops -> tp_last_ids_sigs tp !! h = None) ->
  NoDup ps /\ forall p, barred tp (registered ops) p -> p ∉ ps.
Proof.
  revert tp ps. induction ops as [|[txs|id now] ops IH]; intros tp ps Hr Hnd Hnew; simpl in Hr.
  - simplify_eq. split; [constructor|]. intros p _. apply not_elem_of_nil.
  - apply bind_Ret_inv in Hr as ([res tp1] & Hq1 & Hr). apply bind_Ret_inv in Hr as ([ps2 tp2] & Hq2 & Hr).
    simplify_eq/=. apply process_transactions_tickets in Hq1 as ([Hseen Hdom] & Hnd1 & Hin).
    change (registered (Batch txs :: ops)) with (registered ops) in *.
    assert (Hnone : forall h, tp_last_ids_sigs tp !! h = None -> tp_last_ids_sigs tp1 !! h = None).
    { intros h. rewrite !eq_None_not_Some, Hdom. done. }
    destruct (IH _ _ Hq2 Hnd) as [Hnd2 Hbar]; [auto|]. split.
    + apply NoDup_app. split_and!; [done| |done]. intros p Hp. apply Hbar. left. by apply Hin.
    + intros p Hb. apply not_elem_of_app. split.
      * intros Hp. destruct (Hin p Hp) as [Hn Hs]. destruct Hb as [?|[Hn' _]]; [done|].
        apply seen_known in Hs as [? ?]. apply Hnone in Hn'. congruence.
      * apply Hbar. destruct Hb as [?|[Hn' ?]]; [left; auto|right; auto].
  - change (registered (Register id now :: ops)) with (id :: registered ops) in *.
    apply NoDup_cons in Hnd as [Hid Hnd].
    destruct (IH _ _ Hr Hnd) as [Hnd2 Hbar].
    + intros h Hh. rewrite register_sigs, decide_False by (intros ->; done).
      case_decide; [done|]. apply Hnew. by apply elem_of_cons; right.
    + split; [done|]. intros p Hb. apply Hbar.
      apply register_barred; [apply Hnew; by left|intros; apply Hnew; by right|done].
Qed.

(** C1: no transaction is accepted twice.  Through any sequence of batches
    and registrations of new entry ids (evictions included), the accepted
    transactions carry pairwise distinct (entry id, signature) pairs, and none
    that the processor already remembered. *)
Theorem no_replay : forall ops tp ps tp',
  run_ops tp ops = Ret (ps, tp') -> NoDup (registered ops) ->
  (forall h, h ∈ registered ops -> tp_last_ids_sigs tp !! h = None) ->
  NoDup ps /\ forall p, seen tp p -> p ∉ ps.
Proof.
  intros ops tp ps tp' Hr Hnd Hnew. destruct (run_ops_barred _ _ _ _ Hr Hnd Hnew) as [? Hb].
  split; [done|]. intros p Hp. apply Hb. by left.
Qed.

(** The protection rests on ids being new: registering an id again
    forgets every signature recorded under it, and the same signature can be
    reserved a second time. *)
Theorem reregistering_forgets : forall tp id now sg,
  ~ seen (register_entry_id tp id now) (id, sg) /\
  exists tp', reserve_signature_with_last_id (register_entry_id tp id now) sg id = (tp', Ok tt).
Proof.
  intros tp id now sg. pose proof (register_sigs tp id now id) as Hid. rewrite decide_True in Hid by done.
  split.
  - intros (e & He & Hsg). simpl in *. rewrite Hid in He. simplify_eq/=. by destruct Hsg.
  - unfold reserve_signature_with_last_id, reserve_signature. rewrite Hid, lookup_empty. eauto.
Qed.
End Signatures.
