(* ===== verification/Replay.v ===== *)
(** * Replaying a ledger, and recording one

    The circular buffer of [process_entries_tail], [process_ledger] of
    [src/transaction_processor.rs], and the chain the leader's
    [src/pod_recorder.rs] sends. *)

From S2P Require Import Prelude.
From S2P Require Import Types.
From S2P Require Import Codec.
From S2P Require Import Packet.
From S2P Require Import FinPlan.
From S2P Require Import FinPlanProgram.
From S2P Require Import SystemProgram.
From S2P Require Import Transactions.
From S2P Require Import Entry.
From S2P Require Import Block.
From S2P Require Import Processor.

(** ** The circular buffer *)

(** The last [WINDOW_SIZE] elements. *)
Definition last_window {A} (l : list A) : list A := drop (length l - WINDOW_SIZE) l.

(** [tail] and [idx] hold the end of the history [hist]. *)
Definition ring (hist tail : list Entry) (idx : nat) : Prop :=
  (idx = length hist mod WINDOW_SIZE)%nat /\
  (((length hist < WINDOW_SIZE)%nat /\ tail = hist) \/
   ((WINDOW_SIZE <= length hist)%nat /\ length tail = WINDOW_SIZE /\
    rotate_left idx tail = last_window hist)).

Lemma last_window_snoc {A} (l : list A) e : (WINDOW_SIZE <= length l)%nat ->
  last_window (l ++ [e]) = drop 1 (last_window l) ++ [e].
Proof.
  intros Hl. pose proof WINDOW_SIZE_pos. unfold last_window. rewrite length_app. simpl.
  rewrite drop_drop, drop_app_le by lia. do 2 f_equal. lia.
Qed.

(** Overwriting the oldest slot of a full buffer. *)
Lemma rotate_overwrite (tail : list Entry) idx e : (idx < length tail)%nat ->
  rotate_left ((idx + 1) mod length tail) (<[idx := e]> tail) = drop 1 (rotate_left idx tail) ++ [e].
Proof.
  intros Hi. unfold rotate_left.
  assert (Htake : take (idx + 1) (<[idx := e]> tail) = take idx tail ++ [e]).
  { rewrite insert_take_drop by done. rewrite take_app_ge by (rewrite length_take; lia).
    rewrite length_take, Nat.min_l by lia. by replace (idx + 1 - idx)%nat with 1%nat by lia. }
  assert (Hdrop : drop 1 (drop idx tail ++ take idx tail) = drop (idx + 1) tail ++ take idx tail).
  { rewrite drop_app_le by (rewrite length_drop; lia). by rewrite drop_drop. }
  destruct (decide (idx + 1 = length tail)%nat) as [Heq|Hne].
  - rewrite Heq, Nat.Div0.mod_same, drop_0, take_0, app_nil_r, Hdrop, drop_ge by lia.
    simpl. rewrite <- Htake, take_ge by (rewrite length_insert; lia). done.
  - rewrite Nat.mod_small, Htake, Hdrop, <- app_assoc by lia.
    rewrite drop_insert_lt by lia. done.
Qed.

Lemma ring_push hist tail idx e tail' idx' :
  ring hist tail idx -> tail_push tail idx e = (tail', idx') -> ring (hist ++ [e]) tail' idx'.
Proof.
  pose proof WINDOW_SIZE_pos as HW. unfold tail_push. intros [-> Hr] [= <- <-]. split.
  { rewrite length_app. simpl. by rewrite Nat.Div0.add_mod_idemp_l. }
  destruct Hr as [[Hl ->]|(Hl & Ht & Hrot)].
  - rewrite Nat.mod_small, (proj2 (Nat.ltb_ge _ _)) by lia. rewrite length_app. simpl.
    destruct (decide (length hist + 1 < WINDOW_SIZE)%nat); [left; split; [lia|done]|right].
    split; [lia|]. split; [lia|].
    replace (length hist + 1)%nat with WINDOW_SIZE by lia. rewrite Nat.Div0.mod_same.
    unfold rotate_left, last_window. rewrite drop_0, take_0, app_nil_r, length_app. simpl.
    by replace (length hist + 1 - WINDOW_SIZE)%nat with 0%nat by lia.
  - right. pose proof (Nat.mod_upper_bound (length hist) WINDOW_SIZE).
    rewrite (proj2 (Nat.ltb_lt _ _)) by lia. rewrite length_app, length_insert. simpl.
    split; [lia|]. split; [done|].
    rewrite last_window_snoc, <- Hrot by done.
    pose proof (rotate_overwrite tail (length hist mod WINDOW_SIZE) e) as Ho. rewrite Ht in Ho.
    apply Ho. lia.
Qed.

(** What [process_ledger] returns of the buffer. *)
Lemma ring_tail hist tail idx : ring hist tail idx ->
  (if (length tail =? WINDOW_SIZE)%nat then rotate_left idx tail else tail) = last_window hist.
Proof.
  intros [-> [[Hl ->]|(Hl & Ht & Hrot)]].
  - rewrite (proj2 (Nat.eqb_neq _ _)) by lia. unfold last_window.
    by replace (length hist - WINDOW_SIZE)%nat with 0%nat by lia.
  - by rewrite Ht, Nat.eqb_refl.
Qed.

(** ** Replaying a ledger *)

Section LedgerLaws.
Context `{Profile} `{Libloading} `{!Games} `{Sha256} `{Bincode Entry} `{Bincode SystemInstruction}
  `{Bincode Instruction} `{Bincode FinPlanState} `{Bincode U64} `{Bincode StorageInstruction}.
Context (clock : nat -> Z).

Lemma register_last_id tp id now : last_id (register_entry_id tp id now) = Ret id.
Proof.
  unfold register_entry_id, last_id. destruct (_ <=? _)%nat; [destruct (tp_last_ids tp)|];
    simpl; by rewrite ?last_snoc.
Qed.

Lemma process_entry_last_id t tp e tp' :
  process_entry clock t tp e = Ret (Ok tt, tp') -> last_id tp' = Ret (e_id e).
Proof.
  unfold process_entry. intros Hp. apply bind_Ret_inv in Hp as ([r tp1] & _ & Hp).
  destruct r; simplify_eq/=. apply register_last_id.
Qed.

(** The state of the replay: the processor stands at the end of [hist]. *)
Definition at_end (tp : TransactionProcessor) (hist : list Entry) : Prop :=
  unwrap (last hist) ≫= (fun e => Ret (e_id e)) = last_id tp.

Lemma at_end_snoc t tp hist e tp' :
  process_entry clock t tp e = Ret (Ok tt, tp') -> at_end tp' (hist ++ [e]).
Proof. intros Hp%process_entry_last_id. unfold at_end. by rewrite last_snoc, Hp. Qed.

Lemma process_entries_tail_spec t tp es tail idx n hist out tp' :
  ring hist tail idx -> at_end tp hist -> 0 <= n ->
  in_u64 (n + Z.of_nat (length es)) = true ->
  process_entries_tail clock t tp es tail idx n = Ret (Ok out, tp') ->
  exists tail' idx', out = (n + Z.of_nat (length es), tail', idx') /\
    ring (hist ++ es) tail' idx' /\ at_end tp' (hist ++ es).
Proof.
  revert t tp tail idx n hist. induction es as [|e es IH]; intros t tp tail idx n hist Hr Ha Hn Hu Hp;
    simpl in Hp.
  { simplify_eq. exists tail, idx. rewrite app_nil_r, Z.add_0_r. done. }
  destruct (tail_push tail idx e) as [tail1 idx1] eqn:Et. simpl in Hp, Hu.
  apply in_u64_iff in Hu as Hu'.
  rewrite u64_add_exact in Hp by (apply in_u64_iff; lia). simpl in Hp.
  apply bind_Ret_inv in Hp as ([[[]|] tp1] & He & Hp); simplify_eq/=.
  apply (IH _ _ _ _ _ (hist ++ [e])) in Hp as (tail' & idx' & -> & Hr' & Ha').
  - exists tail', idx'. rewrite <- app_assoc in *. split; [f_equal; f_equal; lia|done].
  - by eapply ring_push.
  - by eapply at_end_snoc.
  - lia.
  - apply in_u64_iff. lia.
Qed.

Lemma end_hash_last (es : list Entry) h e : last es = Some e -> end_hash es h = e_id e.
Proof. unfold end_hash. by intros ->. Qed.

Lemma process_blocks_spec t tp id blocks tail idx n hist out tp' :
  ring hist tail idx -> at_end tp hist -> 0 <= n ->
  in_u64 (n + Z.of_nat (length (concat blocks))) = true ->
  process_blocks clock t tp id blocks tail idx n = Ret (Ok out, tp') ->
  exists tail' idx', out = (n + Z.of_nat (length (concat blocks)), tail', idx') /\
    ring (hist ++ concat blocks) tail' idx' /\ at_end tp' (hist ++ concat blocks) /\
    block_verify (concat blocks) id = Ret true.
Proof.
  revert t tp id tail idx n hist. induction blocks as [|b blocks IH];
    intros t tp id tail idx n hist Hr Ha Hn Hu Hp; simpl in Hp.
  { simplify_eq. exists tail, idx. simpl. rewrite app_nil_r, Z.add_0_r. done. }
  cbn in Hu. rewrite length_app, Nat2Z.inj_add in Hu. apply in_u64_iff in Hu as Hu'.
  apply bind_Ret_inv in Hp as (ok & Hv & Hp). destruct ok; simpl in Hp; [|by simplify_eq].
  apply bind_Ret_inv in Hp as (e & He & Hp).
  apply bind_Ret_inv in Hp as ([[[[m tail1] idx1]|] tp1] & Ht & Hp); simplify_eq/=.
  apply (process_entries_tail_spec _ _ _ _ _ _ hist) in Ht as (tail2 & idx2 & Heq & Hr1 & Ha1);
    [|done|done|lia|apply in_u64_iff; lia].
  simplify_eq. rewrite Z.add_0_l in Hp. rewrite u64_add_exact in Hp by (apply in_u64_iff; lia). simpl in Hp.
  apply (IH _ _ _ _ _ _ (hist ++ b)) in Hp as (tail' & idx' & -> & Hr' & Ha' & Hv');
    [|done|done|lia|apply in_u64_iff; lia].
  exists tail', idx'. rewrite length_app, app_assoc. split; [f_equal; f_equal; lia|].
  split; [done|]. split; [done|]. rewrite block_verify_app, Hv. simpl.
  destruct (last b) as [e'|] eqn:El; simplify_eq/=. by rewrite (end_hash_last _ _ _ El).
Qed.

Lemma concat_chunks_of {A} fuel n (es : list A) : (0 < n)%nat -> (length es <= fuel)%nat ->
  concat (chunks_of fuel n es) = es.
Proof.
  intros Hn. revert es. induction fuel as [|fuel IH]; intros [|e es] Hl; try done; [simpl in Hl; lia|].
  cbn [chunks_of concat]. rewrite IH, take_drop; [done|]. rewrite length_drop. simpl in *. lia.
Qed.

(** [process_ledger] before its first block: the processor [g] with the
    deposit and the ids of the genesis entries. *)
Definition opened (tp : TransactionProcessor) (e0 e1 : Entry) : outcome TransactionProcessor :=
  tx ← index (e_transactions e1) 0;
  _ ← rassert (System_check_id (tx_program_id tx));
  instruction ← unwrap (deserialize (A := SystemInstruction) (tx_userdata tx));
  deposit ← unwrap (match instruction with Move n => Some n | _ => None end);
  k0 ← index (tx_keys tx) 0;
  let account := default Account_default (tp_accounts tp !! k0) in
  t ← i64_add (tokens account) deposit;
  let tp1 := set_accounts (<[k0 := set_tokens t account]> (tp_accounts tp)) tp in
  Ret (register_entry_id (register_entry_id tp1 (e_id e0) (clock 0)) (e_id e1) (clock 1)).

Lemma process_ledger_opened tp e0 e1 rest : process_ledger clock tp (e0 :: e1 :: rest) =
  (g ← opened tp e0 e1;
   '(r, tp') ← process_blocks clock 2 g (e_id e1) (chunks_of (length rest) VERIFY_BLOCK_SIZE rest) [e0; e1] 2 2;
   Ret (match r with
        | Err err => Err err
        | Ok (n, tail, idx) => Ok (n, if (length tail =? WINDOW_SIZE)%nat then rotate_left idx tail else tail)
        end, tp')).
Proof.
  unfold process_ledger, opened. repeat (match goal with |- (?m ≫= _) = _ => destruct m; [cbn [mbind outcome_bind]|done] end).
  done.
Qed.

Lemma opened_last_id tp e0 e1 g : opened tp e0 e1 = Ret g -> last_id g = Ret (e_id e1).
Proof. unfold opened. intros Hg. run Hg. apply register_last_id. Qed.

(** What the blocks of a ledger give when they replay. *)
Lemma ledger_blocks g e0 e1 rest n tail idx tp' : last_id g = Ret (e_id e1) ->
  in_u64 (Z.of_nat (length (e0 :: e1 :: rest))) = true ->
  process_blocks clock 2 g (e_id e1) (chunks_of (length rest) VERIFY_BLOCK_SIZE rest) [e0; e1] 2 2 =
    Ret (Ok (n, tail, idx), tp') ->
  n = Z.of_nat (length (e0 :: e1 :: rest)) /\
  (if (length tail =? WINDOW_SIZE)%nat then rotate_left idx tail else tail) = last_window (e0 :: e1 :: rest) /\
  block_verify rest (e_id e1) = Ret true /\ last_id tp' = Ret (end_hash rest (e_id e1)).
Proof.
  intros Hg Hu Hb. pose proof WINDOW_SIZE_pos. apply in_u64_iff in Hu as Hu'. cbn [length] in Hu'.
  apply (process_blocks_spec _ _ _ _ _ _ _ [e0; e1]) in Hb as (tail' & idx' & Heq & Hr & Ha & Hv).
  - rewrite concat_chunks_of in * by (unfold VERIFY_BLOCK_SIZE; lia). simplify_eq/=.
    split; [lia|]. split; [by apply ring_tail|]. split; [done|].
    unfold at_end in Ha. rewrite <- Ha. unfold end_hash. rewrite !last_cons.
    by destruct (last rest).
  - split; [by rewrite Nat.mod_small|]. left. done.
  - unfold at_end. simpl. by rewrite Hg.
  - lia.
  - rewrite concat_chunks_of by (unfold VERIFY_BLOCK_SIZE; lia). apply in_u64_iff. lia.
Qed.

(** C7: a ledger that replays was verified throughout.  The count returned
    is its length, the entries returned are its last [WINDOW_SIZE] in order
    (the circular buffer is unrolled correctly), everything after the genesis
    entries chains from them, and the processor stands at the id of the last
    entry. *)
Theorem process_ledger_spec : forall tp e0 e1 rest n tail tp',
  in_u64 (Z.of_nat (length (e0 :: e1 :: rest))) = true ->
  process_ledger clock tp (e0 :: e1 :: rest) = Ret (Ok (n, tail), tp') ->
  n = Z.of_nat (length (e0 :: e1 :: rest)) /\ tail = last_window (e0 :: e1 :: rest) /\
  block_verify rest (e_id e1) = Ret true /\
  last_id tp' = Ret (end_hash rest (e_id e1)).
Proof.
  intros tp e0 e1 rest n tail tp' Hu Hp. rewrite process_ledger_opened in Hp.
  apply bind_Ret_inv in Hp as (g & Hg & Hp). apply bind_Ret_inv in Hp as ([r tp4] & Hb & Hp).
  apply opened_last_id in Hg. destruct r as [[[cnt tl] ix]|]; simplify_eq/=.
  destruct (ledger_blocks _ _ _ _ _ _ _ _ Hg Hu Hb) as (-> & -> & ? & ?). done.
Qed.
End LedgerLaws.

(** ** Recording a ledger *)

Section RecorderLaws.
Context `{Profile} `{Libloading} `{Sha256} `{Bincode Entry} `{Bincode Instruction}.

(** The calls the leader makes: hash, tick, and record with the hash of the
    transactions it is given. *)
Inductive recorder_op := RHash | RTick (now : Z) | RRecord (txs : list Transaction) (now : Z).

Definition recorder_step (pr : PodRecorder) (o : recorder_op) : outcome PodRecorder :=
  match o with
  | RHash => pr_hash pr
  | RTick now => '(_, pr') ← pr_tick pr now; Ret pr'
  | RRecord txs now => '(_, pr') ← pr_record pr (transactions_hash txs) txs now; Ret pr'
  end.

(** Recorded transactions are not empty and their plans verify. *)
Definition recordable (o : recorder_op) : Prop :=
  match o with RRecord txs _ => txs <> [] /\ all_plans_verify txs = Ret true | _ => True end.

Lemma hash_n_S n h : hash (hash_bytes (hash_n n h)) = hash_n (S n) h.
Proof. revert h. induction n as [|n IH]; intros h; [done|]. cbn [hash_n]. by rewrite IH. Qed.

(** The chain stands [n] hashes after the last entry sent. *)
Definition recording (start : Hash) (n : nat) (pr : PodRecorder) : Prop :=
  pr_open pr = true /\
  block_verify (concat (pr_sent pr)) start = Ret true /\
  last_id (pr_tp pr) = Ret (end_hash (concat (pr_sent pr)) start) /\
  pr_pod pr = mk_pod (hash_n n (end_hash (concat (pr_sent pr)) start)) (Z.of_nat n).

Lemma recording_send start n pr txs now :
  recording start n pr -> in_u64 (Z.of_nat n + 1) = true -> all_plans_verify txs = Ret true ->
  let id := next_id (end_hash (concat (pr_sent pr)) start) (Z.of_nat n + 1) txs in
  forall mixin, recording start 0
    (pr_send pr (mk_pod id 0) (mk_pod_entry (Z.of_nat n + 1) id mixin) txs now).2.
Proof.
  intros (Ho & Hv & Hl & Hp) Hu Hplans id mixin. unfold pr_send. rewrite Ho. simpl.
  unfold recording. simpl. rewrite concat_app. simpl. rewrite end_hash_snoc. split_and!; [done| |
    by rewrite register_last_id|done].
  rewrite block_verify_app, Hv. simpl.
  assert (Hve : Entry_verify (mk_entry (Z.of_nat n + 1) id txs) (end_hash (concat (pr_sent pr)) start)
    = Ret true) by (by apply Entry_verify_true).
  by rewrite Hve.
Qed.

Lemma recorder_step_recording start n pr o pr' :
  recording start n pr -> Z.of_nat n < u64_max -> recordable o -> recorder_step pr o = Ret pr' ->
  exists m, (m <= S n)%nat /\ recording start m pr'.
Proof.
  intros Hrec Hn Ho Hs. assert (Hu : in_u64 (Z.of_nat n + 1) = true) by (apply in_u64_iff; lia).
  destruct Hrec as (Hop & Hv & Hl & Hp) eqn:Hr. clear Hr.
  pose proof (hash_n_S n (end_hash (concat (pr_sent pr)) start)) as HS.
  destruct o as [|now|txs now]; simpl in Hs.
  - unfold pr_hash, Pod_hash in Hs. rewrite Hp in Hs. simpl in Hs. rewrite u64_add_exact in Hs by done.
    simplify_eq/=. exists (S n). split; [done|]. unfold recording. simpl. rewrite HS.
    split_and!; try done. f_equal. lia.
  - unfold pr_tick, Pod_tick, Pod_hash in Hs. rewrite Hp in Hs. simpl in Hs.
    rewrite u64_add_exact in Hs by done. simpl in Hs. exists 0%nat. split; [lia|].
    pose proof (recording_send start n pr [] now ltac:(done) Hu eq_refl None) as Hsend.
    unfold next_id in Hsend. rewrite decide_False in Hsend by lia. rewrite decide_True in Hsend by done.
    replace (Z.to_nat (Z.of_nat n + 1 - 1)) with n in Hsend by lia.
    destruct (pr_send _ _ _ _ _) as [b pr1]. by simplify_eq/=.
  - destruct Ho as [Hne Hplans]. unfold pr_record, Pod_record in Hs. rewrite Hp in Hs. simpl in Hs.
    rewrite u64_add_exact in Hs by done. simpl in Hs. exists 0%nat. split; [lia|].
    pose proof (recording_send start n pr txs now ltac:(done) Hu Hplans (Some (transactions_hash txs)))
      as Hsend.
    unfold next_id in Hsend. rewrite !decide_False in Hsend by naive_solver.
    replace (Z.to_nat (Z.of_nat n + 1 - 1)) with n in Hsend by lia.
    destruct (pr_send _ _ _ _ _) as [b pr1]. by simplify_eq/=.
Qed.

Lemma recorder_run start ops n pr pr' :
  recording start n pr -> Z.of_nat n + Z.of_nat (length ops) < u64_max -> Forall recordable ops ->
  ofold recorder_step pr ops = Ret pr' -> exists m, recording start m pr'.
Proof.
  intros Hrec Hn Hops. revert n pr Hrec Hn. induction Hops as [|o ops Ho Hops IH]; intros n pr Hrec Hn Hf.
  { simplify_eq/=. eauto. }
  simpl in Hf, Hn. apply bind_Ret_inv in Hf as (pr1 & Hs & Hf).
  destruct (recorder_step_recording _ _ _ _ _ Hrec ltac:(lia) Ho Hs) as (m & Hm & Hrec').
  apply (IH m pr1); [done|lia|done].
Qed.

(** C14: what the leader records is what a validator accepts.  However the
    leader interleaves hashing, ticking and recording batches of transactions,
    the entries it has sent form a chain that verifies from the id its
    processor started at, and that processor has registered the id the chain
    ends at. *)
Theorem recorded_chain_verifies : forall tp start pr ops pr',
  last_id tp = Ret start -> PodRecorder_new tp true = Ret pr ->
  Z.of_nat (length ops) < u64_max -> Forall recordable ops ->
  ofold recorder_step pr ops = Ret pr' ->
  block_verify (concat (pr_sent pr')) start = Ret true /\
  last_id (pr_tp pr') = Ret (end_hash (concat (pr_sent pr')) start).
Proof.
  intros tp start pr ops pr' Hid Hnew Hlen Hops Hf. unfold PodRecorder_new in Hnew. rewrite Hid in Hnew.
  simplify_eq/=. apply (recorder_run start ops 0) in Hf as (m & _ & ? & ? & _); [done|done|lia|done].
Qed.
End RecorderLaws.
