(* ===== verification/ProcessorRuns.v ===== *)
(** * The processor on hostile and on concrete input

    Transactions the processor accepts although no owner agreed to them, and
    runs of the processor, the ledger and the recorder on concrete values. *)

From S2P Require Import Prelude.
From S2P Require Import Types.
From S2P Require Import Codec.
From S2P Require Import Packet.
From S2P Require Import FinPlan.
From S2P Require Import FinPlanProgram.
From S2P Require Import SystemProgram.
From S2P Require Import Transactions.
From S2P Require Import Entry.
From S2P Require Import Block.
From S2P Require Import Processor.
From S2P Require Import ProcessorLaws.
From S2P Require Import Replay.

Section Hostile.
Context `{Profile} `{Libloading} `{!Games} `{Bincode SystemInstruction} `{Bincode Instruction}
  `{Bincode FinPlanState} `{Bincode U64} `{Bincode StorageInstruction}.

Lemma i64_sum_two a b : in_i64 a = true -> in_i64 (a + b) = true -> i64_sum [a; b] = Ret (a + b).
Proof.
  intros Ha Hab. unfold i64_sum. simpl. rewrite i64_add_exact, Z.add_0_l by (by rewrite Z.add_0_l).
  simpl. by rewrite i64_add_exact.
Qed.

(** Two non-negative balances whose sum fits. *)
Definition two_balances (a0 a1 : Account) : Prop :=
  0 <= tokens a0 /\ 0 <= tokens a1 /\ tokens a0 + tokens a1 <= i64_max.

(** A system transaction that passes the checks on two accounts. *)
Lemma execute_two tx a0 a1 lp b0 b1 lp' :
  tx_program_id tx = System_id -> two_balances a0 a1 ->
  system_process tx [a0; a1] lp = Ret ([b0; b1], lp') ->
  fair_change tx a0 b0 -> fair_change tx a1 b1 -> tokens b0 + tokens b1 = tokens a0 + tokens a1 ->
  execute_transaction tx [a0; a1] lp = Ret ([b0; b1], lp', Ok tt).
Proof.
  intros Hpid (Ha0 & Ha1 & Hmax) Hs Hf0 Hf1 Hsum. unfold i64_max in *. unfold execute_transaction.
  destruct Hf0 as (? & ? & Hb0) eqn:E0, Hf1 as (? & ? & Hb1) eqn:E1. clear E0 E1.
  assert (Hr : forall x, 0 <= x <= 2 ^ 63 - 1 -> in_i64 x = true)
    by (intros; apply in_i64_iff; unfold i64_min, i64_max; lia).
  cbn [fmap list_fmap]. rewrite i64_sum_two by (apply Hr; lia). simpl.
  unfold dispatch. rewrite (proj2 (System_check_id_eq _) Hpid), Hs. simpl.
  rewrite (proj2 (verify_transaction_Ok tx a0 b0)), (proj2 (verify_transaction_Ok tx a1 b1)) by done.
  rewrite i64_sum_two by (apply Hr; lia). simpl. by rewrite Hsum, Z.eqb_refl.
Qed.

(** A system transaction may move a negative amount.  Whoever signs it
    takes the tokens of any other system account, whose owner signed
    nothing. *)
Theorem negative_move_takes : forall tx n a0 a1 lp,
  tx_program_id tx = System_id -> deserialize (tx_userdata tx) = Some (Move (- n)) ->
  program_id a1 = System_id -> program_id a0 = System_id -> two_balances a0 a1 ->
  0 <= n <= tokens a1 ->
  execute_transaction tx [a0; a1] lp =
    Ret ([set_tokens (tokens a0 + n) a0; set_tokens (tokens a1 - n) a1], lp, Ok tt).
Proof.
  intros tx n a0 a1 lp Hpid Hd Hp1 Hp0 Htwo Hn. destruct Htwo as (Ha0 & Ha1 & Hmax) eqn:E. clear E.
  apply execute_two; try done.
  - unfold system_process, move_tokens. rewrite Hd. simpl. unfold i64_max in *.
    rewrite i64_sub_exact by (apply in_i64_iff; unfold i64_min, i64_max; lia). simpl.
    rewrite i64_add_exact by (apply in_i64_iff; unfold i64_min, i64_max; lia). simpl.
    do 4 f_equal; f_equal; lia.
  - unfold fair_change. simpl. rewrite Hpid, Hp0. split; [by left|]. split; [done|lia].
  - unfold fair_change. simpl. rewrite Hpid, Hp1. split; [by left|]. split; [done|lia].
  - simpl. lia.
Qed.

(** A system transaction that creates an account of no size over an
    existing one erases the data of that account, whatever program owns it
    (the contract state of a pending fin_plan, for instance): the check that
    the account is free is made only when space is asked for. *)
Theorem create_account_erases : forall tx a0 a1 lp,
  tx_program_id tx = System_id ->
  deserialize (tx_userdata tx) = Some (CreateAccount 0 0 (program_id a1)) ->
  program_id a0 = System_id -> two_balances a0 a1 ->
  execute_transaction tx [a0; a1] lp = Ret ([a0; set_userdata [] a1], lp, Ok tt).
Proof.
  intros tx a0 a1 lp Hpid Hd Hp0 Htwo. destruct Htwo as (Ha0 & Ha1 & Hmax) eqn:E. clear E.
  apply execute_two; try done.
  - unfold system_process, move_tokens. rewrite Hd. simpl. unfold i64_max in *.
    rewrite (proj2 (System_check_id_eq _) Hp0). simpl.
    unfold i64_sub, i64_add, arith. rewrite Z.sub_0_r.
    assert (forall x, 0 <= x <= 2 ^ 63 - 1 -> in_i64 x = true) as Hr
      by (intros; apply in_i64_iff; unfold i64_min, i64_max; lia).
    rewrite Hr by lia. simpl. rewrite Z.add_0_r, Hr by lia. simpl. by destruct a0, a1.
  - unfold fair_change. split; [by left|done].
  - unfold fair_change. simpl. split; [by left|done].
Qed.

(** A transaction submitted again is refused and moves nothing, but the
    refusal replaces the result recorded for the first submission: the status
    of a transaction that succeeded turns into [DuplicateSignature]. *)
Theorem replay_overwrites_status : forall tp tx k0 ks a0 m ts r,
  tp_last_ids_sigs tp !! tx_last_id tx = Some (m, ts) -> m !! tx_signature tx = Some r ->
  tx_keys tx = k0 :: ks -> tp_accounts tp !! k0 = Some a0 -> tx_fee tx <= tokens a0 ->
  in_u64 (tp_transaction_count tp) = true ->
  exists tp', process_transaction tp tx = Ret (Err DuplicateSignature, tp') /\
    tp_accounts tp' = tp_accounts tp /\ tp_transaction_count tp' = tp_transaction_count tp /\
    tp_last_ids_sigs tp' !! tx_last_id tx =
      Some (<[tx_signature tx := Err DuplicateSignature]> m, ts).
Proof.
  intros tp tx k0 ks a0 m ts r Hid Hsg Hk Ha Hfee Hc.
  assert (Hl : load_account tp tx (tp_accounts tp) ErrorCounters_default = Ret (Err DuplicateSignature,
    set_sigs (<[tx_last_id tx := (m, ts)]> (tp_last_ids_sigs tp)) tp, ErrorCounters_default)).
  { unfold load_account. rewrite Hk. simpl. rewrite Ha, (proj2 (Z.ltb_ge _ _)) by done.
    unfold reserve_signature_with_last_id, reserve_signature. by rewrite Hid, Hsg. }
  unfold process_transaction, process_transactions. simpl. rewrite Hl. simpl.
  unfold update_signature_status_with_last_id, update_signature_status. simpl.
  rewrite lookup_insert_eq. simpl. rewrite u64_add_exact by (by rewrite Z.add_0_r). simpl.
  eexists. split; [done|]. simpl. split; [done|]. split; [|by rewrite lookup_insert_eq].
  rewrite Z.add_0_r. unfold wrap_u64. apply in_u64_iff in Hc. unfold u64_max in Hc.
  apply Z.mod_small. lia.
Qed.
End Hostile.

(** ** Concrete runs *)

Module Runs.
Import Toy SystemCodec EntryCodec.
#[export] Existing Instances sha entry_bincode FinPlanCodec.instruction_bincode FinPlanCodec.state_bincode
  u64_bincode system_bincode storage_bincode no_libraries.
#[export] Instance checked : Profile := true.
#[export] Instance no_games : Games := {|
  TicTacToe_check_id _ := false; TicTacToe_process _ accs := Ret (accs, false);
  Dashboard_check_id _ := false; Dashboard_process _ accs := Ret (accs, false) |}.

Definition id0 : Hash := hash [].
Definition sig_of (n : byte) : Signature := mk_signature (replicate 64 n).

(** Key 1 owns 10 tokens, key 4 owns 5. *)
Definition tp0 : TransactionProcessor :=
  register_entry_id (set_accounts {[ key 1 := Account_new 10 0 System_id; key 4 := Account_new 5 0 System_id ]}
    (new_default true)) id0 100.

Definition move_tx (s : byte) (from to : Pubkey) (n fee : Z) : Transaction :=
  mk_tx (sig_of s) [from; to] System_id id0 fee (serialize (Move n)).

Definition after (r : outcome (list (Res unit) * TransactionProcessor)) : TransactionProcessor :=
  match r with Ret (_, tp) => tp | Panic => tp0 end.

Definition good : Transaction := move_tx Byte.x01 (key 1) (key 2) 3 1.
Definition poor : Transaction := move_tx Byte.x02 (key 4) (key 5) 9 0.
Definition tp1 : TransactionProcessor := after (process_transactions tp0 [good; poor]).

Lemma batch_run : process_transactions tp0 [good; poor] = Ret ([Ok tt; Err ResultWithNegativeTokens], tp1).
Proof. vm_compute. reflexivity. Qed.

Lemma execute_fair_witness :
  length [Account_new 6 0 System_id; Account_new 3 0 System_id] = 2%nat /\
  Forall2 (fair_change good) [Account_new 9 0 System_id; Account_default]
    [Account_new 6 0 System_id; Account_new 3 0 System_id] /\
  tokens_eq (total_tokens [Account_new 6 0 System_id; Account_new 3 0 System_id])
    (total_tokens [Account_new 9 0 System_id; Account_default]).
Proof.
  apply (execute_transaction_fair good [Account_new 9 0 System_id; Account_default] ∅ _ ∅).
  vm_compute. reflexivity.
Defined.


Lemma positive_witness : positive (tp_accounts tp1).
Proof.
  apply (process_transactions_positive tp0 [good; poor] [Ok tt; Err ResultWithNegativeTokens] tp1);
    [apply batch_run|]. apply (bool_decide_unpack _). vm_compute. exact I.
Defined.

Lemma frame_witness : tp_accounts tp1 !! key 4 = tp_accounts tp0 !! key 4.
Proof.
  apply (process_transactions_frame tp0 [good; poor] [Ok tt; Err ResultWithNegativeTokens] tp1 (key 4));
    [apply batch_run|]. constructor; [|constructor; [done|constructor]].
  intros Hin. exfalso. revert Hin. apply (bool_decide_unpack _). vm_compute. exact I.
Defined.

Definition id1 : Hash := hash [Byte.x01].
Definition ops : list op := [Batch [good]; Register id1 101; Batch [good; poor]].
Definition tp_ops : TransactionProcessor := match run_ops tp0 ops with Ret (_, tp) => tp | Panic => tp0 end.

Lemma no_replay_witness : NoDup [ticket_of good] /\ forall p, seen tp0 p -> p ∉ [ticket_of good].
Proof.
  apply (no_replay ops tp0 [ticket_of good] tp_ops).
  - vm_compute. reflexivity.
  - apply (bool_decide_unpack _). vm_compute. exact I.
  - intros h Hh. apply list_elem_of_singleton in Hh as ->. vm_compute. reflexivity.
Defined.

Lemma negative_move_witness :
  execute_transaction (move_tx Byte.x03 (key 1) (key 4) (- (5)) 0)
    [Account_new 10 0 System_id; Account_new 5 0 System_id] ∅ =
  Ret ([Account_new 15 0 System_id; Account_new 0 0 System_id], ∅, Ok tt).
Proof.
  apply (negative_move_takes (move_tx Byte.x03 (key 1) (key 4) (- (5)) 0) 5
    (Account_new 10 0 System_id) (Account_new 5 0 System_id) ∅); vm_compute; repeat split; discriminate.
Defined.

Definition create_tx (a : Account) : Transaction :=
  mk_tx (sig_of Byte.x04) [key 1; key 4] System_id id0 0 (serialize (CreateAccount 0 0 (program_id a))).
Definition contract_account : Account := mk_account 5 [Byte.x01; Byte.x02] FinPlan_id.

Lemma create_account_erases_witness :
  execute_transaction (create_tx contract_account) [Account_new 10 0 System_id; contract_account] ∅ =
  Ret ([Account_new 10 0 System_id; mk_account 5 [] FinPlan_id], ∅, Ok tt).
Proof.
  apply (create_account_erases (create_tx contract_account) (Account_new 10 0 System_id) contract_account ∅);
    vm_compute; repeat split; discriminate.
Defined.

(** The signatures recorded under [id0] after the batch. *)
Definition sigs1 : SignatureStatusMap := default ∅ (fst <$> tp_last_ids_sigs tp1 !! id0).

Lemma replay_overwrites_witness : exists tp',
  process_transaction tp1 good = Ret (Err DuplicateSignature, tp') /\
  tp_accounts tp' = tp_accounts tp1 /\ tp_transaction_count tp' = tp_transaction_count tp1 /\
  tp_last_ids_sigs tp' !! tx_last_id good =
    Some (<[tx_signature good := Err DuplicateSignature]> sigs1, 100).
Proof.
  refine (replay_overwrites_status tp1 good (key 1) [key 2] (Account_new 6 0 System_id)
    sigs1 100 (Ok tt) _ _ _ _ _ _).
  - vm_cast_no_check (@eq_refl _ (Some (sigs1, 100))).
  - vm_cast_no_check (@eq_refl _ (Some (Ok tt : Res unit))).
  - reflexivity.
  - vm_compute. reflexivity.
  - vm_compute. discriminate.
  - vm_compute. reflexivity.
Defined.

(** Two spends of the same 10 tokens in one batch are both accepted: each is
    checked against the accounts as they were before the batch. *)
Definition double : list Transaction :=
  [move_tx Byte.x05 (key 1) (key 2) 10 0; move_tx Byte.x06 (key 1) (key 3) 10 0].
Lemma double_spend_in_batch : (process_transactions tp0 double) ≫=
    (fun r => Ret (r.1, supply (tp_accounts tp0), supply (tp_accounts r.2))) =
  Ret ([Ok tt; Ok tt], 15, 25).
Proof. vm_compute. reflexivity. Qed.

(** A transaction that names its own account as the destination keeps the
    second copy of it: paying oneself creates the tokens paid. *)
Lemma self_payment_mints : (process_transactions tp0 [move_tx Byte.x07 (key 1) (key 1) 10 0]) ≫=
    (fun r => Ret (r.1, supply (tp_accounts tp0), supply (tp_accounts r.2))) =
  Ret ([Ok tt], 15, 25).
Proof. vm_compute. reflexivity. Qed.

(** A negative fee is paid out to the sender. *)
Lemma negative_fee_mints : (process_transactions tp0 [move_tx Byte.x08 (key 1) (key 2) 1 (- (7))]) ≫=
    (fun r => Ret (r.1, supply (tp_accounts tp0), supply (tp_accounts r.2))) =
  Ret ([Ok tt], 15, 22).
Proof. vm_compute. reflexivity. Qed.

(** ** A small ledger *)

Definition genesis_tx : Transaction :=
  mk_tx (sig_of Byte.x09) [key 1; key 1] System_id id0 0 (serialize (Move 100)).
Definition e0 : Entry := mk_entry 0 id0 [].
Definition e1 : Entry := mk_entry 1 (next_id id0 1 [genesis_tx]) [genesis_tx].
Definition pay_tx : Transaction :=
  mk_tx (sig_of Byte.x0a) [key 1; key 2] System_id (e_id e1) 0 (serialize (Move 30)).
Definition e2 : Entry := mk_entry 2 (next_id (e_id e1) 2 []) [].
Definition e3 : Entry := mk_entry 1 (next_id (e_id e2) 1 [pay_tx]) [pay_tx].
Definition clock (t : nat) : Z := Z.of_nat t.
Definition replayed : TransactionProcessor :=
  match process_ledger clock (new_default false) [e0; e1; e2; e3] with
  | Ret (_, tp) => tp | Panic => tp0 end.

Lemma ledger_balances :
  (get_balance replayed (key 1), get_balance replayed (key 2)) = (70, 30).
Proof. vm_compute. reflexivity. Qed.

Lemma process_ledger_witness :
  4 = Z.of_nat (length [e0; e1; e2; e3]) /\ [e0; e1; e2; e3] = last_window [e0; e1; e2; e3] /\
  block_verify [e2; e3] (e_id e1) = Ret true /\
  last_id replayed = Ret (end_hash [e2; e3] (e_id e1)).
Proof.
  apply (process_ledger_spec clock (new_default false) e0 e1 [e2; e3] 4 [e0; e1; e2; e3] replayed).
  - vm_compute. reflexivity.
  - vm_compute. reflexivity.
Defined.

Definition rec_ops : list recorder_op := [RHash; RTick 1; RHash; RHash; RRecord [pay_tx] 2; RTick 3].
Definition pr0 : PodRecorder := mk_recorder (Pod_new id0) tp0 [] true.
Definition pr1 : PodRecorder := match ofold recorder_step pr0 rec_ops with Ret pr => pr | Panic => pr0 end.

Lemma recorded_chain_witness :
  block_verify (concat (pr_sent pr1)) id0 = Ret true /\
  last_id (pr_tp pr1) = Ret (end_hash (concat (pr_sent pr1)) id0).
Proof.
  apply (recorded_chain_verifies tp0 id0 pr0 rec_ops pr1).
  - vm_compute. reflexivity.
  - vm_compute. reflexivity.
  - vm_compute. reflexivity.
  - unfold rec_ops. repeat constructor; vm_compute; done.
  - vm_compute. reflexivity.
Defined.
End Runs.
