(* ===== verification/Ledger.v ===== *)
(** * The ledger on disk

    [src/ledger.rs]: the index and data files, the writer and the readers,
    verification and recovery.  [src/entry_writer.rs] writes the same records
    to a plain stream.

    A file is its contents; an operating-system error while reading or writing
    is not modelled.  The writer appends to both files and flushes them, so a
    crash leaves a prefix of each. *)

From S2P Require Import Prelude.
From S2P Require Import Types.
From S2P Require Import Codec.
From S2P Require Import Packet.
From S2P Require Import FinPlan.
From S2P Require Import FinPlanProgram.
From S2P Require Import SystemProgram.
From S2P Require Import Transactions.
From S2P Require Import Entry.
From S2P Require Import Block.

(** [bincode::deserialize_from]: the value, and what the reader has left. *)
Class BincodeFrom (A : Type) := deserialize_from : bytes -> option (A * bytes).

(** What the ledger relies on of it: it undoes [serialize] and leaves the rest
    of the stream, and it reads forward only, so more input does not change a
    result. *)
Class BincodeFromOk (A : Type) `{Wf A} `{Bincode A} `{BincodeFrom A} : Prop := {
  from_serialize : forall (a : A) rest, wf a -> deserialize_from (serialize a ++ rest) = Some (a, rest);
  from_forward : forall bs (a : A) rest more,
    deserialize_from bs = Some (a, rest) -> deserialize_from (bs ++ more) = Some (a, rest ++ more) }.

Definition SIZEOF_U64 : Z := 8.

(** The error kinds a caller can tell apart: all are [io::ErrorKind::Other]
    with a message. *)
Inductive IoError :=
  | BincodeFailed | IndexNotMultiple | GapOrOverlap (i : nat) | EntryFailed (i : nat)
  | GarbageAtEnd | EmptyLedgerIndex.

Record LedgerFiles := mk_files { lf_index : bytes; lf_data : bytes }.

Section LedgerOps.
Context `{Profile} `{Bincode Entry} `{!BincodeFrom Entry} `{Bincode U64} `{!BincodeFrom U64}.

(** A position [n] in [s], no further than its end. *)
Definition upto (n : Z) (s : bytes) : nat := Z.to_nat (Z.min n (Z.of_nat (length s))).

(** [deserialize_from(file.take(n))] on a file positioned at [s]. *)
Definition read_take {A} `{BincodeFrom A} (n : Z) (s : bytes) : option (A * bytes) :=
  '(a, r) ← deserialize_from (take (upto n s) s); Some (a, r ++ drop (upto n s) s).

(** [ledger::next_entry]. *)
Definition read_entry (s : bytes) : option (Entry * bytes) :=
  '(len, s1) ← read_take (A := U64) SIZEOF_U64 s; read_take (A := Entry) (u64_val len) s1.

(** [entry_at], [u64_at]: after a seek, which may leave the file. *)
Definition entry_at (file : bytes) (at_ : Z) : result Entry IoError :=
  match read_entry (drop (upto at_ file) file) with
  | Some (e, _) => Ok e
  | None => Err BincodeFailed
  end.
Definition u64_at (file : bytes) (at_ : Z) : result Z IoError :=
  match read_take (A := U64) SIZEOF_U64 (drop (upto at_ file) file) with
  | Some (n, _) => Ok (u64_val n)
  | None => Err BincodeFailed
  end.

(** [LedgerWindow::get_entry]. *)
Definition get_entry (lf : LedgerFiles) (ix : Z) : outcome (result Entry IoError) :=
  at_ ← u64_mul ix SIZEOF_U64;
  Ret (match u64_at (lf_index lf) at_ with
       | Ok offset => entry_at (lf_data lf) offset
       | Err e => Err e
       end).

(** The loop of [verify_ledger]; [fuel] is the number of index records. *)
Fixpoint verify_loop (fuel : nat) (lf : LedgerFiles) (last_data_offset index_offset data_read last_len : Z)
    (i : nat) : outcome (result Z IoError) :=
  match fuel with
  | O => Ret (Ok data_read)
  | S fuel' =>
      match u64_at (lf_index lf) index_offset with
      | Err e => Ret (Err e)
      | Ok data_offset =>
          expected ← u64_add last_data_offset last_len;
          if negb (expected =? data_offset) then Ret (Err (GapOrOverlap i))
          else match entry_at (lf_data lf) data_offset with
          | Err _ => Ret (Err (EntryFailed i))
          | Ok entry =>
              len ← u64_add (serialized_size entry) SIZEOF_U64;
              data_read' ← u64_add data_read len;
              index_offset' ← u64_add index_offset SIZEOF_U64;
              verify_loop fuel' lf data_offset index_offset' data_read' len (S i)
          end
      end
  end.

Definition verify_ledger (lf : LedgerFiles) : outcome (result unit IoError) :=
  let index_len := Z.of_nat (length (lf_index lf)) in
  if negb (index_len mod SIZEOF_U64 =? 0) then Ret (Err IndexNotMultiple)
  else
    r ← verify_loop (Z.to_nat (index_len / SIZEOF_U64)) lf 0 0 0 0 0;
    Ret (match r with
         | Err e => Err e
         | Ok data_read =>
             if negb (data_read =? Z.of_nat (length (lf_data lf))) then Err GarbageAtEnd else Ok tt
         end).

(** [File::set_len]: truncates, or extends with zeros. *)
Definition set_len (n : Z) (file : bytes) : bytes :=
  take (upto n file) file ++ replicate (Z.to_nat (n - Z.of_nat (length file))) Byte.x00.

(** The loop of [recover_ledger]: each round drops an index record or ends. *)
Fixpoint recover_loop (fuel : nat) (lf : LedgerFiles) : outcome (result unit IoError * LedgerFiles) :=
  match fuel with
  | O => Panic
  | S fuel' =>
      let len := Z.of_nat (length (lf_index lf)) in
      if len <? SIZEOF_U64 then Ret (Err EmptyLedgerIndex, lf)
      else match u64_at (lf_index lf) (len - SIZEOF_U64) with
      | Err e => Ret (Err e, lf)
      | Ok offset =>
          match entry_at (lf_data lf) offset with
          | Ok entry =>
              a ← u64_add offset SIZEOF_U64;
              stop ← u64_add a (serialized_size entry);
              Ret (Ok tt, mk_files (lf_index lf) (set_len stop (lf_data lf)))
          | Err _ => recover_loop fuel' (mk_files (set_len (len - SIZEOF_U64) (lf_index lf)) (lf_data lf))
          end
      end
  end.

Definition recover_ledger (lf : LedgerFiles) : outcome (result unit IoError * LedgerFiles) :=
  let len := Z.of_nat (length (lf_index lf)) in
  let index := if negb (len mod SIZEOF_U64 =? 0) then set_len (len - len mod SIZEOF_U64) (lf_index lf)
               else lf_index lf in
  recover_loop (S (length (lf_index lf))) (mk_files index (lf_data lf)).

(** ** The writer *)

(** [LedgerWriter::write_entry_noflush]. *)
Definition write_entry_noflush (lf : LedgerFiles) (e : Entry) : outcome LedgerFiles :=
  let len := serialized_size e in
  let data := lf_data lf ++ serialize (mk_u64 len) ++ serialize e in
  a ← u64_sub (Z.of_nat (length data)) len;
  offset ← u64_sub a SIZEOF_U64;
  Ret (mk_files (lf_index lf ++ serialize (mk_u64 offset)) data).

(** [LedgerWriter::write_entries]. *)
Definition write_entries (lf : LedgerFiles) (es : list Entry) : outcome LedgerFiles :=
  ofold write_entry_noflush lf es.

(** [LedgerWriter::open(path, true)]. *)
Definition empty_ledger : LedgerFiles := mk_files [] [].

(** ** The readers *)

(** [LedgerReader]: entries until one does not decode; every entry takes at
    least the bytes of its length. *)
Fixpoint read_entries (fuel : nat) (s : bytes) : list Entry :=
  match fuel with
  | O => []
  | S fuel' =>
      match read_entry s with
      | Some (e, s') => e :: read_entries fuel' s'
      | None => []
      end
  end.

Definition read_ledger (lf : LedgerFiles) (recover : bool) : outcome (result (list Entry) IoError) :=
  if recover then
    '(r, lf') ← recover_ledger lf;
    Ret (match r with
         | Ok _ => Ok (read_entries (S (length (lf_data lf'))) (lf_data lf'))
         | Err e => Err e
         end)
  else Ret (Ok (read_entries (S (length (lf_data lf))) (lf_data lf))).
End LedgerOps.

(** ** The files of a list of entries *)

Section Layout.
Context `{Bincode Entry} `{Bincode U64}.

(** A record of the data file: the length of the entry, then the entry. *)
Definition entry_record (e : Entry) : bytes := serialize (mk_u64 (serialized_size e)) ++ serialize e.
Definition data_file (es : list Entry) : bytes := concat (entry_record <$> es).

(** The index file, for entries whose records start at [o]. *)
Fixpoint index_from (o : nat) (es : list Entry) : bytes :=
  match es with
  | [] => []
  | e :: es' => serialize (mk_u64 (Z.of_nat o)) ++ index_from (o + length (entry_record e)) es'
  end.
Definition files_of (es : list Entry) : LedgerFiles := mk_files (index_from 0 es) (data_file es).

Lemma data_file_app es1 es2 : data_file (es1 ++ es2) = data_file es1 ++ data_file es2.
Proof. unfold data_file. by rewrite fmap_app, concat_app. Qed.

Lemma data_file_cons e es : data_file (e :: es) = entry_record e ++ data_file es.
Proof. done. Qed.

Lemma data_file_snoc es e : data_file (es ++ [e]) = data_file es ++ entry_record e.
Proof. rewrite data_file_app. unfold data_file at 2. cbn. by rewrite app_nil_r. Qed.

Lemma index_from_app o es1 es2 :
  index_from o (es1 ++ es2) = index_from o es1 ++ index_from (o + length (data_file es1)) es2.
Proof.
  revert o. induction es1 as [|e es1 IH]; intros o; [by rewrite Nat.add_0_r|].
  cbn [app index_from]. rewrite IH, data_file_cons, length_app, <- app_assoc. do 3 f_equal. lia.
Qed.

Lemma length_data_take n es : (length (data_file (take n es)) <= length (data_file es))%nat.
Proof. rewrite <- (take_drop n es) at 2. rewrite data_file_app, length_app. lia. Qed.
End Layout.

Section StreamLemmas.
Context {A : Type} `{BincodeFromOk A}.

(** A truncated encoding does not decode. *)
Lemma from_truncated (a : A) n : wf a -> (n < length (serialize a))%nat ->
  deserialize_from (A := A) (take n (serialize a)) = None.
Proof.
  intros Ha Hn. destruct (deserialize_from (take n (serialize a))) as [[b r]|] eqn:E; [exfalso|done].
  apply (from_forward _ _ _ (drop n (serialize a))) in E. rewrite take_drop in E.
  pose proof (from_serialize a [] Ha) as Hs. rewrite app_nil_r, E in Hs. injection Hs as _ Hs.
  apply (f_equal length) in Hs. rewrite length_app, length_drop in Hs. simpl in Hs. lia.
Qed.
End StreamLemmas.

(** ** Lemmas: reading back *)

Section LedgerLemmas.
Context `{Profile} `{Bincode Entry} `{!BincodeFrom Entry} `{!BincodeFromOk Entry}
  `{Bincode U64} `{!BincodeU64Ok} `{!BincodeFrom U64} `{!BincodeFromOk U64}.

Lemma upto_small n s : (n <= length s)%nat -> upto (Z.of_nat n) s = n.
Proof. intros. unfold upto. lia. Qed.
Lemma upto_large n s : (length s <= Z.to_nat n)%nat -> upto n s = length s.
Proof. intros. unfold upto. lia. Qed.

Lemma length_u64 n : in_u64 n = true -> length (serialize (mk_u64 n)) = 8%nat.
Proof. intros. by apply u64_size. Qed.

Lemma read_take_exact {A} `{BincodeFromOk A} (a : A) rest n :
  wf a -> n = serialized_size a -> read_take n (serialize a ++ rest) = Some (a, rest).
Proof.
  intros Ha ->. unfold read_take, serialized_size. rewrite upto_small by (rewrite length_app; lia).
  rewrite take_app_length, drop_app_length.
  pose proof (from_serialize a [] Ha) as Hs. rewrite app_nil_r in Hs. by rewrite Hs.
Qed.

Lemma read_take_truncated {A} `{BincodeFromOk A} (a : A) n m :
  wf a -> n = serialized_size a -> (m < length (serialize a))%nat ->
  read_take (A := A) n (take m (serialize a)) = None.
Proof.
  intros Ha -> Hm. unfold read_take, serialized_size.
  rewrite upto_large by (rewrite length_take; lia). rewrite (take_ge (take m (serialize a))) by lia.
  by rewrite from_truncated.
Qed.

(** An entry the ledger can hold. *)
Definition storable (e : Entry) : Prop := wf e /\ in_u64 (serialized_size e) = true.

Lemma length_record e : storable e -> length (entry_record e) = (8 + length (serialize e))%nat.
Proof. intros [_ Hs]. unfold entry_record. by rewrite length_app, length_u64. Qed.

Lemma size_u64 n : in_u64 n = true -> serialized_size (mk_u64 n) = SIZEOF_U64.
Proof. intros. unfold serialized_size. by rewrite length_u64. Qed.

Lemma read_entry_record e rest : storable e -> read_entry (entry_record e ++ rest) = Some (e, rest).
Proof.
  intros [He Hs]. unfold read_entry, entry_record. rewrite <- app_assoc.
  rewrite read_take_exact by (done || by rewrite size_u64). simpl. by apply read_take_exact.
Qed.

Lemma read_entry_truncated e m : storable e -> (m < length (entry_record e))%nat ->
  read_entry (take m (entry_record e)) = None.
Proof.
  intros Hst Hm. pose proof (length_record e Hst) as Hlen. destruct Hst as [He Hs].
  pose proof (length_u64 _ Hs) as H8. unfold read_entry, entry_record.
  destruct (decide (m < 8)%nat).
  - rewrite take_app_le by lia. rewrite read_take_truncated; [done|done|by rewrite size_u64|lia].
  - rewrite take_app_ge by lia. rewrite read_take_exact by (done || by rewrite size_u64). simpl.
    apply read_take_truncated; [done|done|lia].
Qed.

Lemma read_entry_nil : read_entry [] = None.
Proof.
  unfold read_entry. change (@nil byte) with (take 0 (serialize (mk_u64 0))).
  rewrite read_take_truncated; [done|done|by rewrite size_u64|rewrite length_u64 by done; lia].
Qed.

Lemma read_entries_file es fuel : Forall storable es -> (length es < fuel)%nat ->
  read_entries fuel (data_file es) = es.
Proof.
  intros Hes. revert fuel. induction Hes as [|e es He Hes IH]; intros [|fuel] Hf; simpl in Hf; try lia; cbn [read_entries].
  - change (data_file []) with (@nil byte). by rewrite read_entry_nil.
  - rewrite data_file_cons, read_entry_record by done. rewrite IH by lia. done.
Qed.

Lemma entry_at_split d s :
  entry_at (d ++ s) (Z.of_nat (length d)) =
    match read_entry s with Some (e, _) => Ok e | None => Err BincodeFailed end.
Proof.
  unfold entry_at. rewrite upto_small by (rewrite length_app; lia). by rewrite drop_app_length.
Qed.

Lemma u64_at_split i n s : in_u64 n = true ->
  u64_at (i ++ serialize (mk_u64 n) ++ s) (Z.of_nat (length i)) = Ok n.
Proof.
  intros Hn. unfold u64_at. rewrite upto_small by (rewrite length_app; lia). rewrite drop_app_length.
  by rewrite read_take_exact by (done || by rewrite size_u64).
Qed.

(** All of [es] can be stored, and its offsets fit a [u64]. *)
Definition ledger_ok (es : list Entry) : Prop :=
  Forall storable es /\ in_u64 (Z.of_nat (length (data_file es))) = true.

Lemma ledger_ok_app es1 es2 : ledger_ok (es1 ++ es2) -> ledger_ok es1.
Proof.
  intros [Hs Hu]. apply Forall_app in Hs as [Hs _]. split; [done|].
  rewrite data_file_app, length_app, in_u64_iff in *. lia.
Qed.

Lemma ledger_ok_storable es1 e es2 : ledger_ok (es1 ++ e :: es2) -> storable e.
Proof. intros [Hs _]. apply Forall_app in Hs as [_ Hs]. by apply Forall_inv in Hs. Qed.

Lemma ledger_ok_offset es1 es2 : ledger_ok (es1 ++ es2) -> in_u64 (Z.of_nat (length (data_file es1))) = true.
Proof. intros Hok. by apply ledger_ok_app in Hok as [_ ?]. Qed.

Lemma length_index es : ledger_ok es -> length (index_from 0 es) = (8 * length es)%nat.
Proof.
  induction es as [|e es IH] using rev_ind; intros Hok; [done|].
  rewrite index_from_app, !length_app, IH by (by eapply ledger_ok_app). cbn [index_from length].
  rewrite app_nil_r, length_u64 by (by eapply ledger_ok_offset). lia.
Qed.

(** The data file is at least as long as the index. *)
Lemma data_covers_index es : Forall storable es -> (8 * length es <= length (data_file es))%nat.
Proof.
  induction 1 as [|e es He Hes IH]; [done|]. rewrite data_file_cons, length_app, length_record by done.
  cbn [length]. lia.
Qed.

(** The files around the entry at a position. *)
Lemma files_split es1 e es2 :
  files_of (es1 ++ e :: es2) = mk_files
    (index_from 0 es1 ++ serialize (mk_u64 (Z.of_nat (length (data_file es1)))) ++
     index_from (length (data_file es1) + length (entry_record e)) es2)
    (data_file es1 ++ entry_record e ++ data_file es2).
Proof. unfold files_of. by rewrite index_from_app, data_file_app. Qed.

Lemma write_noflush_files es e : ledger_ok (es ++ [e]) ->
  write_entry_noflush (files_of es) e = Ret (files_of (es ++ [e])).
Proof.
  intros Hok. pose proof (ledger_ok_storable _ _ _ Hok) as Hst. pose proof (length_record e Hst) as Hr.
  pose proof (ledger_ok_offset _ _ Hok) as Ho. destruct Hok as [_ Hu].
  unfold write_entry_noflush. cbn [lf_data lf_index files_of].
  change (serialize (mk_u64 (serialized_size e)) ++ serialize e) with (entry_record e).
  rewrite data_file_snoc in Hu. rewrite length_app in *. unfold serialized_size in *.
  rewrite in_u64_iff in *. rewrite Nat2Z.inj_add in *.
  rewrite u64_sub_exact by (apply in_u64_iff; lia). simpl.
  rewrite u64_sub_exact by (apply in_u64_iff; unfold SIZEOF_U64; lia). simpl.
  f_equal. unfold files_of. rewrite index_from_app, data_file_snoc. cbn [index_from].
  rewrite app_nil_r.
  do 4 f_equal. unfold SIZEOF_U64. lia.
Qed.

Lemma write_entries_files es1 es2 : ledger_ok (es1 ++ es2) ->
  write_entries (files_of es1) es2 = Ret (files_of (es1 ++ es2)).
Proof.
  revert es1. induction es2 as [|e es2 IH]; intros es1 Hok; [by rewrite app_nil_r|].
  unfold write_entries. simpl. rewrite (cons_middle e es1 es2), app_assoc in Hok |- *.
  rewrite write_noflush_files by (by eapply ledger_ok_app). simpl. by apply IH.
Qed.

Lemma verify_loop_files es1 es2 ldo ll : ledger_ok (es1 ++ es2) -> 0 <= ldo -> 0 <= ll ->
  ldo + ll = Z.of_nat (length (data_file es1)) ->
  verify_loop (length es2) (files_of (es1 ++ es2)) ldo (Z.of_nat (8 * length es1))
    (Z.of_nat (length (data_file es1))) ll (length es1) =
  Ret (Ok (Z.of_nat (length (data_file (es1 ++ es2))))).
Proof.
  revert es1 ldo ll. induction es2 as [|e es2 IH]; intros es1 ldo ll Hok Hl0 Hll Hsum.
  { by rewrite app_nil_r. }
  pose proof (ledger_ok_storable _ _ _ Hok) as Hst. pose proof (ledger_ok_offset _ _ Hok) as Ho.
  pose proof (length_record e Hst) as Hr. cbn [length verify_loop].
  assert (Hat : u64_at (lf_index (files_of (es1 ++ e :: es2))) (Z.of_nat (8 * length es1)) =
                Ok (Z.of_nat (length (data_file es1)))).
  { rewrite files_split, <- length_index by (by eapply ledger_ok_app). by apply u64_at_split. }
  assert (Hen : entry_at (lf_data (files_of (es1 ++ e :: es2))) (Z.of_nat (length (data_file es1))) = Ok e).
  { rewrite files_split. cbn [lf_data]. by rewrite entry_at_split, read_entry_record. }
  rewrite (cons_middle e es1 es2), app_assoc in *.
  pose proof (ledger_ok_offset _ _ Hok) as Ho'. rewrite data_file_snoc, length_app, Nat2Z.inj_add in Ho'.
  assert (Hlen : serialized_size e + SIZEOF_U64 = Z.of_nat (length (entry_record e)))
    by (rewrite Hr; unfold serialized_size, SIZEOF_U64; lia).
  assert (Hi : in_u64 (Z.of_nat (8 * length es1) + SIZEOF_U64) = true).
  { pose proof (data_covers_index (es1 ++ [e]) (proj1 (ledger_ok_app _ _ Hok))) as Hc.
    rewrite data_file_snoc, !length_app in Hc. cbn [length] in Hc. rewrite in_u64_iff in *.
    unfold SIZEOF_U64. lia. }
  rewrite Hat. cbv iota beta. rewrite (u64_add_exact ldo ll) by (by rewrite Hsum). rewrite bind_Ret, Hsum, Z.eqb_refl.
  cbv iota beta. cbn [negb]. rewrite Hen. cbv iota beta.
  rewrite (u64_add_exact (serialized_size e)) by (rewrite Hlen; rewrite in_u64_iff in *; lia).
  rewrite bind_Ret, Hlen. cbv beta.
  rewrite (u64_add_exact (Z.of_nat (length (data_file es1)))), bind_Ret by done. cbv beta.
  rewrite u64_add_exact, bind_Ret by done. cbv beta.
  replace (Z.of_nat (length (data_file es1)) + Z.of_nat (length (entry_record e)))
    with (Z.of_nat (length (data_file (es1 ++ [e])))) by (rewrite data_file_snoc, length_app; lia).
  replace (Z.of_nat (8 * length es1) + SIZEOF_U64) with (Z.of_nat (8 * length (es1 ++ [e])))
    by (rewrite length_app; unfold SIZEOF_U64; simpl; lia).
  replace (S (length es1)) with (length (es1 ++ [e])) by (rewrite length_app; simpl; lia).
  apply IH; [done|lia|lia|]. rewrite data_file_snoc, length_app. lia.
Qed.

Lemma read_entries_all es : ledger_ok es -> read_entries (S (length (data_file es))) (data_file es) = es.
Proof.
  intros [Hs _]. apply read_entries_file; [done|]. pose proof (data_covers_index es Hs). lia.
Qed.

Lemma get_entry_files es i e : ledger_ok es -> es !! i = Some e ->
  get_entry (files_of es) (Z.of_nat i) = Ret (Ok e).
Proof.
  intros Hok Hi. destruct (list_elem_of_split_length _ _ _ Hi) as (es1 & es2 & -> & ->).
  pose proof (ledger_ok_storable _ _ _ Hok) as Hst. pose proof (ledger_ok_offset _ _ Hok) as Ho.
  pose proof (data_covers_index _ (proj1 (ledger_ok_app _ _ Hok))) as Hc. unfold get_entry.
  assert (Z.of_nat (length es1) * SIZEOF_U64 = Z.of_nat (length (index_from 0 es1))) as Hix.
  { rewrite length_index by (by eapply ledger_ok_app). unfold SIZEOF_U64. lia. }
  assert (in_u64 (Z.of_nat (length (index_from 0 es1))) = true) as Hu.
  { rewrite length_index by (by eapply ledger_ok_app). rewrite in_u64_iff in *. lia. }
  unfold u64_mul, arith. rewrite Hix, Hu. cbn [mbind outcome_bind]. rewrite files_split.
  cbn [lf_index lf_data]. by rewrite u64_at_split, entry_at_split, read_entry_record.
Qed.

Lemma read_ledger_files es : ledger_ok es -> read_ledger (files_of es) false = Ret (Ok es).
Proof. intros Hok. unfold read_ledger. cbn [lf_data files_of]. by rewrite read_entries_all. Qed.

(** C34: a ledger written to disk is the ledger read back: the writer's files
    pass verification, the reader yields the entries in order, and the index
    finds each entry by its height. *)
Theorem ledger_roundtrip : forall es, ledger_ok es ->
  exists lf, write_entries empty_ledger es = Ret lf /\ read_ledger lf false = Ret (Ok es) /\
    verify_ledger lf = Ret (Ok tt) /\
    forall i e, es !! i = Some e -> get_entry lf (Z.of_nat i) = Ret (Ok e).
Proof.
  intros es Hok. exists (files_of es). split; [by apply (write_entries_files [])|].
  split; [by apply read_ledger_files|]. split; [|intros; by apply get_entry_files].
  unfold verify_ledger. cbn [lf_index lf_data files_of]. rewrite length_index by done.
  unfold SIZEOF_U64 at 1 2. rewrite Nat2Z.inj_mul, Z.mul_comm, Z.mod_mul, Z.div_mul, Nat2Z.id by lia.
  pose proof (verify_loop_files [] es 0 0 Hok ltac:(lia) ltac:(lia) eq_refl) as Hv.
  cbn [app length data_file] in Hv. change (Z.of_nat (8 * 0)) with 0 in Hv.
  change (Z.of_nat (length (data_file []))) with 0 in Hv. cbn [negb Z.eqb].
  rewrite Hv. cbn [mbind outcome_bind]. by rewrite Z.eqb_refl.
Qed.

(** ** Recovery *)

Lemma set_len_take n (file : bytes) : (n <= length file)%nat -> set_len (Z.of_nat n) file = take n file.
Proof.
  intros Hn. unfold set_len. rewrite upto_small by done.
  replace (Z.to_nat _) with 0%nat by lia. by rewrite app_nil_r.
Qed.

Lemma take_index n es : ledger_ok es -> (n <= length es)%nat ->
  take (8 * n) (index_from 0 es) = index_from 0 (take n es).
Proof.
  intros Hok Hn. rewrite <- (take_drop n es) in Hok |- * at 1. rewrite index_from_app.
  apply take_app_length'. rewrite length_index by (by eapply ledger_ok_app). rewrite length_take. lia.
Qed.

(** The last record of the index, and the entry it points to in a data file
    cut at [b]. *)
Lemma torn_last es1 e es2 b : ledger_ok (es1 ++ e :: es2) ->
  u64_at (index_from 0 (es1 ++ [e])) (Z.of_nat (length (index_from 0 (es1 ++ [e]))) - SIZEOF_U64) =
    Ok (Z.of_nat (length (data_file es1))) /\
  entry_at (take b (data_file (es1 ++ e :: es2))) (Z.of_nat (length (data_file es1))) =
    if decide (length (data_file (es1 ++ [e])) <= b)%nat then Ok e else Err BincodeFailed.
Proof.
  intros Hok. pose proof (ledger_ok_storable _ _ _ Hok) as Hst. pose proof (ledger_ok_offset _ _ Hok) as Ho.
  split.
  - pose proof Hok as Hok'. rewrite (cons_middle e es1 es2), app_assoc in Hok'. apply ledger_ok_app in Hok'.
    rewrite length_index, length_app by done. cbn [length].
    replace (Z.of_nat (8 * (length es1 + 1)) - SIZEOF_U64) with (Z.of_nat (length (index_from 0 es1)))
      by (rewrite length_index by (by eapply ledger_ok_app); unfold SIZEOF_U64; lia).
    rewrite index_from_app. cbn [index_from]. by apply u64_at_split.
  - rewrite data_file_snoc, data_file_app, data_file_cons, length_app. case_decide as Hb.
    + rewrite take_app_ge, (take_app_ge (entry_record e)) by lia.
      by rewrite entry_at_split, read_entry_record.
    + destruct (decide (length (data_file es1) <= b)%nat).
      * rewrite take_app_ge, (take_app_le (entry_record e)) by lia.
        rewrite entry_at_split, read_entry_truncated by (done || lia). done.
      * rewrite take_app_le by lia. unfold entry_at. rewrite upto_large by (rewrite length_take; lia).
        by rewrite drop_ge, read_entry_nil by lia.
Qed.

(** Where the record of entry [k] starts. *)
Definition offset (es : list Entry) (k : nat) : nat := length (data_file (take k es)).

(** The most entries of [es] that [q] index records and [b] data bytes hold. *)
Definition survivors (es : list Entry) (q b k : nat) : Prop :=
  (k <= q)%nat /\ (offset es k <= b)%nat /\ forall j, (j <= q)%nat -> (offset es j <= b)%nat -> (j <= k)%nat.

(** What recovery leaves of a ledger of which [k] entries survive. *)
Definition recovered (es : list Entry) (data : bytes) (k : nat) : result unit IoError * LedgerFiles :=
  if decide (k = 0%nat) then (Err EmptyLedgerIndex, mk_files [] data)
  else (Ok tt, files_of (take k es)).

Lemma take_data_file n es : take (offset es n) (data_file es) = data_file (take n es).
Proof.
  unfold offset. rewrite <- (take_drop n es) at 2. rewrite data_file_app. apply take_app_length.
Qed.

Lemma recover_loop_torn es q b fuel : ledger_ok es -> (q <= length es)%nat -> (q < fuel)%nat ->
  exists k, survivors es q b k /\
    recover_loop fuel (mk_files (index_from 0 (take q es)) (take b (data_file es))) =
      Ret (recovered es (take b (data_file es)) k).
Proof.
  intros Hok. revert fuel. induction q as [|q IH]; intros [|fuel] Hq Hf; try lia.
  { exists 0%nat. split; [|done]. split; [done|]. split; [unfold offset; simpl; lia|]. intros; lia. }
  destruct (lookup_lt_is_Some_2 es q) as [e He]; [lia|].
  pose proof (take_S_r _ _ _ He) as Htk. pose proof (take_drop_middle _ _ _ He) as Hes.
  pose proof Hok as Hok'. rewrite <- Hes in Hok'.
  pose proof (ledger_ok_storable _ _ _ Hok') as Hst. pose proof (length_record e Hst) as Hr.
  destruct (torn_last _ _ _ b Hok') as [Hat Hen]. rewrite Hes in Hen. rewrite <- Htk in Hat, Hen. clear Hok'.
  assert (HokS : ledger_ok (take (S q) es)) by (rewrite <- (take_drop (S q) es) in Hok; by eapply ledger_ok_app).
  pose proof (length_index _ HokS) as Hlen. rewrite length_take, Nat.min_l in Hlen by lia.
  cbn [recover_loop lf_index lf_data]. rewrite (proj2 (Z.ltb_ge _ _)) by (rewrite Hlen; unfold SIZEOF_U64; lia).
  rewrite Hat, Hen. case_decide as Hb.
  - exists (S q). split; [done|].
    destruct HokS as [_ Hu]. rewrite in_u64_iff in Hu.
    assert (HS : length (data_file (take (S q) es)) =
      (length (data_file (take q es)) + 8 + length (serialize e))%nat)
      by (rewrite Htk, data_file_snoc, length_app; lia).
    unfold serialized_size, SIZEOF_U64.
    rewrite u64_add_exact by (apply in_u64_iff; lia). rewrite bind_Ret. cbv beta.
    rewrite u64_add_exact by (apply in_u64_iff; lia). rewrite bind_Ret. cbv beta.
    replace (_ + 8 + _) with (Z.of_nat (offset es (S q))) by (unfold offset; lia).
    pose proof (length_data_take (S q) es).
    rewrite set_len_take by (rewrite length_take; unfold offset; lia).
    rewrite take_take, Nat.min_l by (unfold offset; lia). by rewrite take_data_file.
  - destruct (IH fuel) as (k & (Hk & Hkb & Hmax) & Hrec); [lia|lia|]. exists k. split.
    + split; [lia|]. split; [done|]. intros j Hj Hjb. destruct (decide (j = S q)) as [->|]; [|apply Hmax; lia].
      unfold offset in Hjb. lia.
    + rewrite <- Hrec. do 2 f_equal. rewrite Hlen.
      replace (Z.of_nat (8 * S q) - SIZEOF_U64) with (Z.of_nat (8 * q)) by (unfold SIZEOF_U64; lia).
      rewrite set_len_take by lia. rewrite Htk, index_from_app. apply take_app_length'.
      rewrite length_index, length_take by (rewrite Htk in *; by eapply ledger_ok_app). lia.
Qed.

(** C9: recovery after a crash.  Whatever prefixes of the index and of the
    data file reached the disk, recovery keeps exactly the entries that both
    files hold completely and leaves the two files as if only those had been
    written, so that they verify and can be appended to; it fails only when
    not even one entry survived. *)
Theorem recover_torn_ledger : forall es a b, ledger_ok es ->
  exists k, survivors es (Nat.min (a / 8) (length es)) b k /\
    recover_ledger (mk_files (take a (index_from 0 es)) (take b (data_file es))) =
      Ret (recovered es (take b (data_file es)) k).
Proof.
  intros es a b Hok. set (q := Nat.min (a / 8) (length es)).
  pose proof (Nat.div_mod_eq a 8). pose proof (Nat.mod_upper_bound a 8).
  destruct (recover_loop_torn es q b (S (length (take a (index_from 0 es))))) as (k & Hs & Hr);
    [done|lia|rewrite length_take, length_index by done; lia|].
  exists k. split; [done|]. rewrite <- Hr. unfold recover_ledger. cbn [lf_index lf_data]. do 2 f_equal.
  rewrite length_take, length_index by done.
  assert (Hmin : (Nat.min a (8 * length es) = 8 * q + (Nat.min a (8 * length es) mod 8))%nat).
  { destruct (decide (a <= 8 * length es)%nat).
    - rewrite Nat.min_l by lia. unfold q. lia.
    - rewrite Nat.min_r, Nat.mul_comm, Nat.Div0.mod_mul by lia. unfold q. lia. }
  unfold SIZEOF_U64. change 8 with (Z.of_nat 8) at 1 2. rewrite <- Nat2Z.inj_mod.
  rewrite <- take_index by (done || lia). case_match eqn:Em; bool_prop.
  - replace (_ - _) with (Z.of_nat (8 * q)) by lia.
    rewrite set_len_take by (rewrite length_take, length_index by done; lia).
    rewrite take_take. f_equal. lia.
  - replace (8 * q)%nat with (Nat.min a (8 * length es)) by lia.
    destruct (decide (a <= 8 * length es)%nat); [by rewrite Nat.min_l by lia|].
    rewrite Nat.min_r by lia. rewrite !take_ge; [done|rewrite length_index by done; lia..].
Qed.
End LedgerLemmas.

(** ** Reference instances and witnesses *)

Module LedgerWitness.
Import EntryCodec.
Definition codec_from {A} (c : codec A) : BincodeFrom A := dec c.

Lemma codec_from_ok {A} (c : codec A) `{Wf A} :
  (forall a, wf a <-> cwf c a) -> @BincodeFromOk A _ (codec_bincode c) (codec_from c).
Proof.
  intros Hwf. split.
  - intros a rest Ha%Hwf. by apply dec_enc.
  - intros bs a rest more Hd. by apply dec_ext.
Qed.

#[local] Existing Instances entry_bincode u64_bincode u64_bincode_ok.
#[local] Instance entry_from : BincodeFrom Entry := codec_from c_entry.
#[local] Instance u64_from : BincodeFrom U64 := codec_from c_u64.
#[local] Instance entry_from_ok : BincodeFromOk Entry.
Proof. apply codec_from_ok. apply entry_wf_cwf. Qed.
#[local] Instance u64_from_ok : BincodeFromOk U64.
Proof. apply codec_from_ok. intros [z]. apply u64_range. Qed.
#[local] Instance checked : Profile := true.

Definition es : list Entry := EntryWitness.chain.

Lemma es_ok : ledger_ok es.
Proof.
  split; [|vm_compute; reflexivity].
  pose proof EntryWitness.chain_wf as Hwf. unfold es in *.
  repeat match goal with H : Forall _ (_ :: _) |- _ => apply Forall_cons in H as [? H] end.
  repeat constructor; done || (vm_compute; reflexivity).
Qed.

Lemma ledger_roundtrip_witness :
  exists lf, write_entries empty_ledger es = Ret lf /\ read_ledger lf false = Ret (Ok es) /\
    verify_ledger lf = Ret (Ok tt) /\
    forall i e, es !! i = Some e -> get_entry lf (Z.of_nat i) = Ret (Ok e).
Proof. apply ledger_roundtrip, es_ok. Defined.

(** The index holds a record and a half, the data file lost its last byte. *)
Lemma recover_torn_witness :
  exists k, survivors es (Nat.min (12 / 8) (length es)) (length (data_file es) - 1) k /\
    recover_ledger (mk_files (take 12 (index_from 0 es)) (take (length (data_file es) - 1) (data_file es))) =
      Ret (recovered es (take (length (data_file es) - 1) (data_file es)) k).
Proof. apply recover_torn_ledger, es_ok. Defined.
End LedgerWitness.
