(* ===== verification/BlockThread.v ===== *)
(** * The gossip table

    [src/blockthread.rs]: the table of nodes each node keeps and exchanges with
    its peers: versions, update indices, liveness, leader selection, purging,
    votes, and the choice of whom to send to.

    A hash map is a [gmap]; where the source walks one, the order of the walk
    is the order of [map_to_list], and no result below depends on it.  [now] is
    what [timestamp()] returned. *)

From S2P Require Import Prelude.
From S2P Require Import Types.
From S2P Require Import Codec.
From S2P Require Import Packet.

Definition GOSSIP_PURGE_MILLIS : Z := 15000.
Definition MIN_TABLE_SIZE : nat := 2.

Inductive BlockThreadError := NoPeers | NoLeader | BadContactInfo | BadNodeInfo | BadGossipAddress.

Record ContactInfo := mk_contact {
  ci_ncp : SocketAddr;
  ci_tx_signer : SocketAddr;
  ci_rpu : SocketAddr;
  ci_tx_creator : SocketAddr;
  ci_storage_addr : SocketAddr;
  ci_version : Z }.

Record NodeInfo := mk_node {
  ni_id : Pubkey;
  ni_version : Z;
  ni_contact_info : ContactInfo;
  ni_leader_id : Pubkey;
  ni_last_id : Hash   (* ledger_state.last_id *) }.

#[export] Instance ContactInfo_eq_dec : EqDecision ContactInfo.
Proof. solve_decision. Defined.
#[export] Instance NodeInfo_eq_dec : EqDecision NodeInfo.
Proof. solve_decision. Defined.

Definition NodeInfo_new (id : Pubkey) (ncp tx_signer rpu tx_creator storage_addr : SocketAddr) : NodeInfo :=
  mk_node id 0 (mk_contact ncp tx_signer rpu tx_creator storage_addr 0) Pubkey_default Hash_default.

Record BlockThread := mk_bt {
  bt_table : gmap Pubkey NodeInfo;
  bt_local : gmap Pubkey Z;
  bt_remote : gmap Pubkey Z;
  bt_alive : gmap Pubkey Z;
  bt_update_index : Z;
  bt_id : Pubkey;
  bt_external_liveness : gmap Pubkey (gmap Pubkey Z);
  bt_scheduled_leaders : gmap Z Pubkey;
  bt_leader_rotation_interval : Z }.

(** Field assignments. *)
Definition set_alive (m : gmap Pubkey Z) (bt : BlockThread) : BlockThread :=
  mk_bt (bt_table bt) (bt_local bt) (bt_remote bt) m (bt_update_index bt) (bt_id bt)
    (bt_external_liveness bt) (bt_scheduled_leaders bt) (bt_leader_rotation_interval bt).
Definition set_remote (m : gmap Pubkey Z) (ext : gmap Pubkey (gmap Pubkey Z)) (bt : BlockThread) : BlockThread :=
  mk_bt (bt_table bt) (bt_local bt) m (bt_alive bt) (bt_update_index bt) (bt_id bt)
    ext (bt_scheduled_leaders bt) (bt_leader_rotation_interval bt).
Definition set_schedule (m : gmap Z Pubkey) (interval : Z) (bt : BlockThread) : BlockThread :=
  mk_bt (bt_table bt) (bt_local bt) (bt_remote bt) (bt_alive bt) (bt_update_index bt) (bt_id bt)
    (bt_external_liveness bt) m interval.
Definition set_leader_id (k : Pubkey) (n : NodeInfo) : NodeInfo :=
  mk_node (ni_id n) (ni_version n) (ni_contact_info n) k (ni_last_id n).
Definition set_version (v : Z) (n : NodeInfo) : NodeInfo :=
  mk_node (ni_id n) v (ni_contact_info n) (ni_leader_id n) (ni_last_id n).
Definition set_last_id (h : Hash) (n : NodeInfo) : NodeInfo :=
  mk_node (ni_id n) (ni_version n) (ni_contact_info n) (ni_leader_id n) h.
Definition set_ncp (a : SocketAddr) (n : NodeInfo) : NodeInfo :=
  let c := ni_contact_info n in
  mk_node (ni_id n) (ni_version n)
    (mk_contact a (ci_tx_signer c) (ci_rpu c) (ci_tx_creator c) (ci_storage_addr c) (ci_version c))
    (ni_leader_id n) (ni_last_id n).

(** ** Addresses *)

(** [IpAddr::is_unspecified] and [is_multicast]. *)
Definition ip_is_unspecified (a : SocketAddr) : bool :=
  match a with
  | V4 octets _ => forallb (fun o => byte_to_Z o =? 0) octets
  | V6 segments _ => forallb (fun s => s =? 0) segments
  end.
Definition ip_is_multicast (a : SocketAddr) : bool :=
  match a with
  | V4 octets _ => match octets with o :: _ => (224 <=? byte_to_Z o) && (byte_to_Z o <=? 239) | [] => false end
  | V6 segments _ => match segments with s :: _ => Z.land s 65280 =? 65280 | [] => false end
  end.
Definition is_valid_ip (a : SocketAddr) : bool := negb (ip_is_unspecified a || ip_is_multicast a).
Definition is_valid_address (a : SocketAddr) : bool := negb (addr_port a =? 0) && is_valid_ip a.

Section Table.
Context `{Profile}.

(** [BlockThread::new]. *)
Definition bt_new (n : NodeInfo) : result BlockThread BlockThreadError :=
  if negb (ni_version n =? 0) then Err BadNodeInfo
  else Ok (mk_bt {[ ni_id n := n ]} {[ ni_id n := 1 ]} ∅ ∅ 1 (ni_id n) ∅ ∅ 100).

(** [&self.table[&self.id]] panics when the node is not in its own table. *)
Definition my_data (bt : BlockThread) : outcome NodeInfo := unwrap (bt_table bt !! bt_id bt).

Definition leader_data (bt : BlockThread) : outcome (option NodeInfo) :=
  me ← my_data bt;
  if bool_decide (ni_leader_id me = Pubkey_default) then Ret None
  else Ret (bt_table bt !! ni_leader_id me).

(** The liveness table. *)
Definition update_liveness (bt : BlockThread) (id : Pubkey) (now : Z) : BlockThread :=
  set_alive (<[id := now]> (bt_alive bt)) bt.

(** [insert]: the newest version wins; the result is the number of updates. *)
Definition insert (bt : BlockThread) (v : NodeInfo) (now : Z) : outcome (Z * BlockThread) :=
  let newer := match bt_table bt !! ni_id v with
               | None => true
               | Some old => ni_version old <? ni_version v
               end in
  if newer then
    ups ← u64_add (bt_update_index bt) 1;
    Ret (1, update_liveness
              (mk_bt (<[ni_id v := v]> (bt_table bt)) (<[ni_id v := ups]> (bt_local bt)) (bt_remote bt)
                 (bt_alive bt) ups (bt_id bt) (bt_external_liveness bt) (bt_scheduled_leaders bt)
                 (bt_leader_rotation_interval bt))
              (ni_id v) now)
  else Ret (0, bt).

Definition set_leader (bt : BlockThread) (key : Pubkey) (now : Z) : outcome BlockThread :=
  me ← my_data bt;
  v ← u64_add (ni_version me) 1;
  '(_, bt') ← insert bt (set_version v (set_leader_id key me)) now;
  Ret bt'.

(** The schedule of leaders. *)
Definition get_scheduled_leader (bt : BlockThread) (entry_height : Z) : outcome (option Pubkey) :=
  match bt_scheduled_leaders bt !! entry_height with
  | Some x => Ret (Some x)
  | None => me ← my_data bt; Ret (Some (ni_leader_id me))
  end.
Definition set_leader_rotation_interval (bt : BlockThread) (n : Z) : BlockThread :=
  set_schedule (bt_scheduled_leaders bt) n bt.
Definition get_leader_rotation_interval (bt : BlockThread) : Z := bt_leader_rotation_interval bt.
Definition set_scheduled_leader (bt : BlockThread) (entry_height : Z) (k : Pubkey) : BlockThread :=
  set_schedule (<[entry_height := k]> (bt_scheduled_leaders bt)) (bt_leader_rotation_interval bt) bt.

Definition table_values (bt : BlockThread) : list NodeInfo := (map_to_list (bt_table bt)).*2.

Definition get_valid_peers (bt : BlockThread) : outcome (list NodeInfo) :=
  me ← my_data bt;
  Ret (filter (fun x => is_valid_address (ci_rpu (ni_contact_info x)) = true)
         (filter (fun x => ni_id x <> ni_id me) (table_values bt))).

(** ** Votes *)

Definition insert_vote (bt : BlockThread) (k : Pubkey) (v : Vote) (last_id : Hash) (now : Z)
    : outcome BlockThread :=
  match bt_table bt !! k with
  | None => Ret bt
  | Some data =>
      if ci_version (ni_contact_info data) <? vote_contact_info_version v then Ret bt
      else
        _ ← my_data bt;
        if vote_version v <=? ni_version data then Ret (update_liveness bt k now)
        else
          let data' := set_last_id last_id (set_version (vote_version v) data) in
          '(_, bt') ← insert (update_liveness bt (ni_id data') now) data' now;
          Ret bt'
  end.

(** [clock i] is the time at the [i]-th vote. *)
Fixpoint insert_votes (bt : BlockThread) (votes : list (Pubkey * Vote * Hash)) (clock : nat -> Z) (i : nat)
    : outcome BlockThread :=
  match votes with
  | [] => Ret bt
  | (k, v, h) :: rest => bt' ← insert_vote bt k v h (clock i); insert_votes bt' rest clock (S i)
  end.

(** [new_vote]: the vote and where to send it. *)
Definition new_vote (bt : BlockThread) (last_id : Hash) (now : Z)
    : outcome (result (Vote * SocketAddr) BlockThreadError * BlockThread) :=
  me ← my_data bt;
  leader ← leader_data bt;
  match leader with
  | None => Ret (Err NoLeader, bt)
  | Some leader =>
      ver ← u64_add (ni_version me) 1;
      let me' := set_last_id last_id (set_version ver me) in
      let vote := mk_vote (ni_version me') (ci_version (ni_contact_info me')) in
      '(_, bt') ← insert bt me' now;
      Ret (Ok (vote, ci_tx_creator (ni_contact_info leader)), bt')
  end.

(** ** Purging *)

(** The ids not heard from for [GOSSIP_PURGE_MILLIS]; [now - v] is a [u64]. *)
Fixpoint dead_among (self : Pubkey) (now : Z) (alive : list (Pubkey * Z)) : outcome (list Pubkey) :=
  match alive with
  | [] => Ret []
  | (k, v) :: rest =>
      dead ← (if bool_decide (k = self) then Ret false
              else d ← u64_sub now v; Ret (GOSSIP_PURGE_MILLIS <? d));
      ids ← dead_among self now rest;
      Ret (if (dead : bool) then k :: ids else ids)
  end.

Definition forget (bt : BlockThread) (id : Pubkey) : BlockThread :=
  mk_bt (delete id (bt_table bt)) (delete id (bt_local bt)) (delete id (bt_remote bt))
    (delete id (bt_alive bt)) (bt_update_index bt) (bt_id bt)
    (delete id <$> delete id (bt_external_liveness bt))
    (bt_scheduled_leaders bt) (bt_leader_rotation_interval bt).

Fixpoint purge_ids (bt : BlockThread) (leader_id : Pubkey) (ids : list Pubkey) (now : Z) : outcome BlockThread :=
  match ids with
  | [] => Ret bt
  | id :: rest =>
      bt' ← (if bool_decide (id = leader_id) then set_leader (forget bt id) Pubkey_default now
             else Ret (forget bt id));
      purge_ids bt' leader_id rest now
  end.

Definition purge (bt : BlockThread) (now : Z) : outcome BlockThread :=
  if (size (bt_table bt) <=? MIN_TABLE_SIZE)%nat then Ret bt
  else
    leader ← leader_data bt;
    match leader with
    | None => Ret bt
    | Some leader =>
        ids ← dead_among (bt_id bt) now (map_to_list (bt_alive bt));
        purge_ids bt (ni_id leader) ids now
    end.

(** ** Whom to send to *)

(** [compute_broadcast_table]: [&self.table[x.0]] for every live id. *)
Fixpoint live_nodes (bt : BlockThread) (ids : list Pubkey) : outcome (list NodeInfo) :=
  match ids with
  | [] => Ret []
  | k :: rest => n ← unwrap (bt_table bt !! k); ns ← live_nodes bt rest; Ret (n :: ns)
  end.
Definition compute_broadcast_table (bt : BlockThread) : outcome (list NodeInfo) :=
  me ← my_data bt;
  live ← live_nodes bt (map_to_list (bt_alive bt)).*1;
  Ret (filter (fun v => ni_id me <> ni_id v /\ is_valid_address (ci_tx_signer (ni_contact_info v)) = true) live).

(** [retransmit]: the nodes a blob is passed on to. *)
Definition retransmit_orders (bt : BlockThread) : outcome (list NodeInfo) :=
  me ← my_data bt;
  Ret (filter (fun v => ni_id me <> ni_id v /\ ni_leader_id me <> ni_id v /\
                        is_valid_address (ci_tx_signer (ni_contact_info v)) = true) (table_values bt)).

(** [window_index_request]: [rnd] is the random number drawn. *)
Definition window_index_peer (bt : BlockThread) (rnd : Z) : outcome (result SocketAddr BlockThreadError) :=
  let valid := filter (fun r => ni_id r <> bt_id bt /\
                                is_valid_address (ci_tx_signer (ni_contact_info r)) = true) (table_values bt) in
  if bool_decide (valid = []) then Ret (Err NoPeers)
  else
    n ← index valid (Z.to_nat (rnd mod Z.of_nat (length valid)));
    _ ← my_data bt;
    Ret (Ok (ci_ncp (ni_contact_info n))).

Definition convergence (bt : BlockThread) : Z :=
  fold_left Z.min (map_to_list (bt_remote bt)).*2 (Z.of_nat (size (bt_remote bt)) + 1).

Definition valid_last_ids (bt : BlockThread) : list Hash :=
  ni_last_id <$> filter (fun r => ni_id r <> Pubkey_default /\
    (is_valid_address (ci_tx_creator (ni_contact_info r)) ||
     is_valid_address (ci_tx_signer (ni_contact_info r))) = true) (table_values bt).
End Table.

(** ** Gossip *)

Inductive Protocol :=
  | RequestUpdates (version : Z) (from : NodeInfo)
  | ReceiveUpdates (from : Pubkey) (update_index : Z) (data : list NodeInfo) (liveness : list (Pubkey * Z))
  | RequestWindowIndex (from : NodeInfo) (ix : Z).

Section Gossip.
Context `{Profile}.

(** [get_updates_since]: [self.local[&x.id]] panics on an id without an
    index. *)
Fixpoint updated_since (local : gmap Pubkey Z) (v : Z) (nodes : list NodeInfo) : outcome (list NodeInfo) :=
  match nodes with
  | [] => Ret []
  | x :: rest =>
      newer ← (if bool_decide (ni_id x <> Pubkey_default)
               then l ← unwrap (local !! ni_id x); Ret (v <? l) else Ret false);
      xs ← updated_since local v rest;
      Ret (if (newer : bool) then x :: xs else xs)
  end.
Definition get_updates_since (bt : BlockThread) (v : Z) : outcome (Pubkey * Z * list NodeInfo) :=
  data ← updated_since (bt_local bt) v (table_values bt);
  Ret (bt_id bt, bt_update_index bt, data).

(** The leader most nodes name; [order] is the order in which the hash map of
    counts is walked, which decides ties. *)
Definition leader_votes (bt : BlockThread) (k : Pubkey) : nat :=
  length (filter (fun x => ni_leader_id x = k) (table_values bt)).
Definition top_leader (bt : BlockThread) (order : list Pubkey) : option Pubkey :=
  fold_left (fun best k => match best with
                           | Some b => if (leader_votes bt b <=? leader_votes bt k)%nat then Some k else Some b
                           | None => Some k
                           end) order None.

(** The keys of the counting map. *)
Definition named_leaders (bt : BlockThread) : gset Pubkey :=
  list_to_set (filter (fun k => k <> Pubkey_default) (ni_leader_id <$> table_values bt)).

Definition update_leader (bt : BlockThread) (order : list Pubkey) (now : Z) : outcome BlockThread :=
  match top_leader bt order with
  | Some leader_id =>
      me ← my_data bt;
      if bool_decide (ni_leader_id me <> leader_id) && bool_decide (is_Some (bt_table bt !! leader_id))
      then set_leader bt leader_id now
      else Ret bt
  | None => Ret bt
  end.

Fixpoint insert_all (bt : BlockThread) (data : list NodeInfo) (clock : nat -> Z) (i : nat)
    : outcome BlockThread :=
  match data with
  | [] => Ret bt
  | v :: rest => '(_, bt') ← insert bt v (clock i); insert_all bt' rest clock (S i)
  end.

(** One rumour of [apply_updates]. *)
Definition add_rumour (remote : gmap Pubkey Z) (from : Pubkey) (ext : gmap Pubkey (gmap Pubkey Z))
    (p : Pubkey * Z) : gmap Pubkey (gmap Pubkey Z) :=
  if p.2 <=? default 0 (remote !! p.1) then ext
  else
    let entry := default ∅ (ext !! p.1) in
    <[p.1 := <[from := Z.max p.2 (default p.2 (entry !! from))]> entry]> ext.

Definition apply_updates (bt : BlockThread) (from : Pubkey) (update_index : Z) (data : list NodeInfo)
    (external_liveness : list (Pubkey * Z)) (clock : nat -> Z) : outcome BlockThread :=
  bt1 ← insert_all bt data clock 0;
  let ext := fold_left (add_rumour (bt_remote bt1) from) external_liveness (bt_external_liveness bt1) in
  Ret (set_remote (<[from := update_index]> (bt_remote bt1)) (delete from ext) bt1).

(** [gossip_request]: the peers that can be asked, and the request to the one
    the strategy picked. *)
Definition gossip_options (bt : BlockThread) : list NodeInfo :=
  filter (fun v => ni_id v <> bt_id bt /\ is_valid_ip (ci_ncp (ni_contact_info v)) = true) (table_values bt).
Definition gossip_request (bt : BlockThread) (choose : list NodeInfo -> option NodeInfo)
    : outcome (result (SocketAddr * Protocol) BlockThreadError) :=
  match choose (gossip_options bt) with
  | None => Ret (Err NoPeers)
  | Some v =>
      me ← my_data bt;
      Ret (Ok (ci_ncp (ni_contact_info v), RequestUpdates (default 0 (bt_remote bt !! ni_id v)) me))
  end.

(** [handle_protocol], the two gossip messages: the reply and the new table. *)
Definition handle_request_updates (bt : BlockThread) (from_addr : SocketAddr) (version : Z) (from : NodeInfo)
    (now : Z) : outcome (option (Protocol * SocketAddr) * BlockThread) :=
  if bool_decide (ni_id from = bt_id bt) then Ret (None, bt)
  else
    let from := if ip_is_unspecified (ci_ncp (ni_contact_info from)) then set_ncp from_addr from else from in
    '(from_id, ups, data) ← get_updates_since bt version;
    let liveness := map_to_list (bt_remote bt) in
    '(_, bt1) ← insert bt from now;
    let bt2 := update_liveness bt1 (ni_id from) now in
    Ret (if (length data <? 1)%nat then None
         else Some (ReceiveUpdates from_id ups data liveness, ci_ncp (ni_contact_info from)), bt2).

Definition handle_receive_updates (bt : BlockThread) (from : Pubkey) (update_index : Z)
    (data : list NodeInfo) (liveness : list (Pubkey * Z)) (clock : nat -> Z) : outcome BlockThread :=
  apply_updates bt from update_index data liveness clock.
End Gossip.

(** ** The invariant of the table *)

(** What keeps the lookups from panicking: the node is in its own table, keys
    are ids, and every known or live id has its entries. *)
Record bt_ok (bt : BlockThread) : Prop := {
  ok_self : is_Some (bt_table bt !! bt_id bt);
  ok_ids : forall k n, bt_table bt !! k = Some n -> ni_id n = k;
  ok_local : forall k, is_Some (bt_table bt !! k) -> is_Some (bt_local bt !! k);
  ok_alive : forall k, is_Some (bt_alive bt !! k) -> is_Some (bt_table bt !! k) }.

Section TableLaws.
Context `{Profile}.

Lemma lookup_insert_is_Some_or {A} (m : gmap Pubkey A) k k' x :
  is_Some (<[k := x]> m !! k') <-> k' = k \/ is_Some (m !! k').
Proof. rewrite lookup_insert_is_Some'. naive_solver. Qed.

Lemma update_liveness_ok bt k now : bt_ok bt -> is_Some (bt_table bt !! k) -> bt_ok (update_liveness bt k now).
Proof.
  intros [Hs Hi Hl Ha] Hk. split; simpl; auto. intros k' Hk'.
  apply lookup_insert_is_Some_or in Hk' as [->|?]; auto.
Qed.

(** The table after [v] was taken. *)
Definition inserted (bt : BlockThread) (v : NodeInfo) (ups now : Z) : BlockThread :=
  mk_bt (<[ni_id v := v]> (bt_table bt)) (<[ni_id v := ups]> (bt_local bt)) (bt_remote bt)
    (<[ni_id v := now]> (bt_alive bt)) ups (bt_id bt) (bt_external_liveness bt) (bt_scheduled_leaders bt)
    (bt_leader_rotation_interval bt).

Lemma insert_cases bt v now r bt' : insert bt v now = Ret (r, bt') ->
  (r = 0 /\ bt' = bt /\ exists old, bt_table bt !! ni_id v = Some old /\ ni_version v <= ni_version old) \/
  (r = 1 /\ (forall old, bt_table bt !! ni_id v = Some old -> ni_version old < ni_version v) /\
   exists ups, u64_add (bt_update_index bt) 1 = Ret ups /\ bt' = inserted bt v ups now).
Proof.
  unfold insert. destruct (bt_table bt !! ni_id v) as [old|]; [destruct (Z.ltb_spec (ni_version old) (ni_version v))|].
  - intros Hi. apply bind_Ret_inv in Hi as (ups & Hu & Hi). simplify_eq/=. right.
    split; [done|]. split; [naive_solver|]. eauto.
  - intros Hi. simplify_eq. left. eauto.
  - intros Hi. apply bind_Ret_inv in Hi as (ups & Hu & Hi). simplify_eq/=. right. split; [done|]. split; [done|]. eauto.
Qed.

Lemma insert_ok bt v now r bt' : bt_ok bt -> insert bt v now = Ret (r, bt') -> bt_ok bt' /\ bt_id bt' = bt_id bt.
Proof.
  intros Hok [(_ & -> & _)|(_ & _ & ups & _ & ->)]%insert_cases; [done|].
  destruct Hok as [Hs Hi Hl Ha]. split; [|done]. split; simpl.
  - apply lookup_insert_is_Some_or. auto.
  - intros k n Hk. apply lookup_insert_Some in Hk as [[<- <-]|[_ Hk]]; auto.
  - intros k. rewrite !lookup_insert_is_Some_or. naive_solver.
  - intros k. rewrite !lookup_insert_is_Some_or. naive_solver.
Qed.

Lemma set_leader_ok bt k now bt' : bt_ok bt -> set_leader bt k now = Ret bt' -> bt_ok bt' /\ bt_id bt' = bt_id bt.
Proof. intros Hok Hset. unfold set_leader in Hset. run Hset. by eapply insert_ok. Qed.

Lemma insert_vote_ok bt k v h now bt' : bt_ok bt -> insert_vote bt k v h now = Ret bt' ->
  bt_ok bt' /\ bt_id bt' = bt_id bt.
Proof.
  intros Hok Hv. unfold insert_vote in Hv. destruct (bt_table bt !! k) as [data|] eqn:Ek; [|by simplify_eq].
  destruct (_ <? _); [by simplify_eq|]. apply bind_Ret_inv in Hv as (me & _ & Hv).
  destruct (_ <=? _); simplify_eq/=.
  - split; [|done]. apply update_liveness_ok; [done|by rewrite Ek].
  - pose proof (ok_ids _ Hok _ _ Ek) as Hid. run Hv.
    apply insert_ok in Hrun; [done|]. apply update_liveness_ok; [done|]. simpl. by rewrite Ek.
Qed.

Lemma new_vote_ok bt h now r bt' : bt_ok bt -> new_vote bt h now = Ret (r, bt') -> bt_ok bt' /\ bt_id bt' = bt_id bt.
Proof. intros Hok Hn. unfold new_vote in Hn. run Hn; [by eapply insert_ok|done]. Qed.

Lemma forget_ok bt k : bt_ok bt -> k <> bt_id bt -> bt_ok (forget bt k).
Proof.
  intros [Hs Hi Hl Ha] Hk. split; simpl.
  - by rewrite lookup_delete_ne.
  - intros k' n. rewrite lookup_delete_Some. naive_solver.
  - intros k'. rewrite !lookup_delete_is_Some. naive_solver.
  - intros k'. rewrite !lookup_delete_is_Some. naive_solver.
Qed.

Lemma dead_among_self self now alive ids : dead_among self now alive = Ret ids -> self ∉ ids.
Proof.
  revert ids. induction alive as [|[k v] alive IH]; intros ids Hd; simplify_eq/=; [apply not_elem_of_nil|].
  apply bind_Ret_inv in Hd as (dead & Hq & Hd). apply bind_Ret_inv in Hd as (ids' & Hd' & Hd).
  apply IH in Hd'. case_bool_decide; simplify_eq/=; [done|]. destruct dead; [|done].
  apply not_elem_of_cons. auto.
Qed.

Lemma purge_ids_ok bt lid ids now bt' : bt_ok bt -> bt_id bt ∉ ids -> purge_ids bt lid ids now = Ret bt' ->
  bt_ok bt' /\ bt_id bt' = bt_id bt.
Proof.
  revert bt. induction ids as [|id ids IH]; intros bt Hok Hn Hp; simplify_eq/=; [done|].
  apply not_elem_of_cons in Hn as [Hne Hn]. apply bind_Ret_inv in Hp as (bt1 & Hq & Hp).
  pose proof (forget_ok bt id Hok ltac:(done)) as Hf.
  assert (bt_ok bt1 /\ bt_id bt1 = bt_id bt) as [Hok1 Hid1].
  { case_bool_decide; [by apply set_leader_ok in Hq|by simplify_eq]. }
  apply IH in Hp; [by rewrite Hid1 in Hp|done|by rewrite Hid1].
Qed.

Lemma purge_ok bt now bt' : bt_ok bt -> purge bt now = Ret bt' -> bt_ok bt' /\ bt_id bt' = bt_id bt.
Proof.
  intros Hok Hp. unfold purge in Hp. run Hp; try done.
  eapply purge_ids_ok; [done| |done]. by eapply dead_among_self.
Qed.

Lemma update_leader_ok bt order now bt' : bt_ok bt -> update_leader bt order now = Ret bt' ->
  bt_ok bt' /\ bt_id bt' = bt_id bt.
Proof. intros Hok Hu. unfold update_leader in Hu. run Hu; try done. by eapply set_leader_ok. Qed.

Lemma insert_all_ok bt data clock i bt' : bt_ok bt -> insert_all bt data clock i = Ret bt' ->
  bt_ok bt' /\ bt_id bt' = bt_id bt.
Proof.
  revert bt i. induction data as [|v data IH]; intros bt i Hok Hi; simplify_eq/=; [done|].
  apply bind_Ret_inv in Hi as ([r bt1] & Hq & Hi). apply insert_ok in Hq as [Hok1 Hid1]; [|done].
  apply IH in Hi as [? Hid]; [|done]. by rewrite Hid1 in Hid.
Qed.

Lemma apply_updates_ok bt from ups data live clock bt' :
  bt_ok bt -> apply_updates bt from ups data live clock = Ret bt' -> bt_ok bt' /\ bt_id bt' = bt_id bt.
Proof.
  intros Hok Ha. unfold apply_updates in Ha. apply bind_Ret_inv in Ha as (bt1 & Hq & Ha).
  apply insert_all_ok in Hq as [[Hs Hi Hl Hal] Hid]; [|done]. simplify_eq/=. done.
Qed.

Lemma handle_request_ok bt addr v from now r bt' : bt_ok bt ->
  handle_request_updates bt addr v from now = Ret (r, bt') -> bt_ok bt' /\ bt_id bt' = bt_id bt.
Proof.
  intros Hok Hh. unfold handle_request_updates in Hh. case_bool_decide; [by simplify_eq|].
  set (f := if ip_is_unspecified _ then _ else _) in *.
  apply bind_Ret_inv in Hh as ([[fid ups] data] & _ & Hh). apply bind_Ret_inv in Hh as ([r1 bt1] & Hq & Hh).
  pose proof (insert_ok _ _ _ _ _ Hok Hq) as [Hok1 Hid1]. simplify_eq/=. split; [|done].
  apply update_liveness_ok; [done|].
  apply insert_cases in Hq as [(_ & -> & old & -> & _)|(_ & _ & ups' & _ & ->)]; [done|].
  simpl. rewrite lookup_insert_is_Some_or. by left.
Qed.

(** Everything that changes a table. *)
Inductive bt_step (bt : BlockThread) : BlockThread -> Prop :=
  | StepInsert v now r bt' : insert bt v now = Ret (r, bt') -> bt_step bt bt'
  | StepLeader k now bt' : set_leader bt k now = Ret bt' -> bt_step bt bt'
  | StepVote k v h now bt' : insert_vote bt k v h now = Ret bt' -> bt_step bt bt'
  | StepNewVote h now r bt' : new_vote bt h now = Ret (r, bt') -> bt_step bt bt'
  | StepPurge now bt' : purge bt now = Ret bt' -> bt_step bt bt'
  | StepUpdateLeader order now bt' : update_leader bt order now = Ret bt' -> bt_step bt bt'
  | StepReceive from ups data live clock bt' :
      handle_receive_updates bt from ups data live clock = Ret bt' -> bt_step bt bt'
  | StepRequest addr v from now r bt' :
      handle_request_updates bt addr v from now = Ret (r, bt') -> bt_step bt bt'
  | StepSchedule h k : bt_step bt (set_scheduled_leader bt h k)
  | StepInterval n : bt_step bt (set_leader_rotation_interval bt n).

Lemma bt_step_ok bt bt' : bt_step bt bt' -> bt_ok bt -> bt_ok bt' /\ bt_id bt' = bt_id bt.
Proof.
  intros Hstep Hok. destruct Hstep; eauto using insert_ok, set_leader_ok, insert_vote_ok, new_vote_ok,
    purge_ok, update_leader_ok, apply_updates_ok, handle_request_ok; by destruct Hok.
Qed.

Lemma bt_new_ok n bt : bt_new n = Ok bt -> bt_ok bt /\ bt_id bt = ni_id n.
Proof.
  unfold bt_new. intros Hn. destruct (negb _); simplify_eq/=. split; [|done].
  split; simpl.
  - by rewrite lookup_singleton_eq.
  - intros k m Hk. by apply lookup_singleton_Some in Hk as [<- <-].
  - intros k. rewrite !lookup_singleton_is_Some. done.
  - intros k [? Hk]. by rewrite lookup_empty in Hk.
Qed.

Lemma reachable_ok n bt0 bt : bt_new n = Ok bt0 -> rtc bt_step bt0 bt -> bt_ok bt /\ bt_id bt = ni_id n.
Proof.
  intros Hn Hr. apply bt_new_ok in Hn as [Hok <-].
  induction Hr as [|bt1 bt2 bt3 Hstep _ IH]; [done|].
  apply bt_step_ok in Hstep as [Hok' Hid]; [|done]. destruct (IH Hok') as [? ->]. done.
Qed.
End TableLaws.

(** ** The lookups never panic *)

Definition returns {A} (m : outcome A) : Prop := exists x, m = Ret x.

Section NoPanic.
Context `{Profile}.

Lemma my_data_returns bt : bt_ok bt -> exists me, my_data bt = Ret me.
Proof. intros Hok. destruct (ok_self _ Hok) as [me Hme]. exists me. unfold my_data. by rewrite Hme. Qed.

Lemma live_nodes_returns bt ids : (forall k, k ∈ ids -> is_Some (bt_table bt !! k)) ->
  exists ns, live_nodes bt ids = Ret ns.
Proof.
  induction ids as [|k ids IH]; intros Hk; simpl; [eauto|].
  destruct (Hk k) as [n ->]; [by left|]. simpl.
  destruct IH as [ns ->]; [intros; apply Hk; by right|]. simpl. eauto.
Qed.

Lemma table_values_elem bt n : bt_ok bt -> n ∈ table_values bt <-> bt_table bt !! ni_id n = Some n.
Proof.
  intros Hok. unfold table_values. rewrite list_elem_of_fmap. split.
  - intros ([k m] & -> & Hin%elem_of_map_to_list). simpl. by rewrite (ok_ids _ Hok _ _ Hin).
  - intros Hn%elem_of_map_to_list. by exists (ni_id n, n).
Qed.

Lemma updated_since_returns local v nodes : (forall n, n ∈ nodes -> is_Some (local !! ni_id n)) ->
  exists xs, updated_since local v nodes = Ret xs /\
    forall n, n ∈ nodes -> ni_id n <> Pubkey_default ->
      exists l, local !! ni_id n = Some l /\ (v < l -> n ∈ xs).
Proof.
  induction nodes as [|n nodes IH]; intros Hn; simpl.
  { exists []. split; [done|]. intros n Hin. by apply not_elem_of_nil in Hin. }
  destruct (Hn n) as [l Hl]; [by left|].
  destruct IH as (xs & -> & Hxs); [intros; apply Hn; by right|]. case_bool_decide as Hd; simpl.
  - rewrite Hl. simpl. eexists. split; [done|]. intros m [->|Hm]%elem_of_cons Hne.
    + exists l. split; [done|]. intros Hlt. rewrite (proj2 (Z.ltb_lt _ _)) by done. by left.
    + destruct (Hxs m Hm Hne) as (l' & Hl' & Hin). exists l'. split; [done|]. intros Hlt.
      destruct (v <? l); [right|]; auto.
  - eexists. split; [done|]. intros m [->|Hm]%elem_of_cons Hne; [done|]. auto.
Qed.

Lemma get_updates_returns bt v : bt_ok bt -> exists xs, get_updates_since bt v = Ret (bt_id bt, bt_update_index bt, xs) /\
  forall k n, bt_table bt !! k = Some n -> k <> Pubkey_default ->
    exists l, bt_local bt !! k = Some l /\ (v < l -> n ∈ xs).
Proof.
  intros Hok. destruct (updated_since_returns (bt_local bt) v (table_values bt)) as (xs & Hxs & Hin).
  { intros n Hn%table_values_elem; [|done]. apply (ok_local _ Hok). eauto. }
  exists xs. unfold get_updates_since. rewrite Hxs. split; [done|]. intros k n Hk Hne.
  pose proof (ok_ids _ Hok _ _ Hk) as Hid. subst k. apply Hin; [|done]. by apply table_values_elem.
Qed.

(** C26: however a node's table was built up by gossip, votes, leader changes
    and purges, the lookups the node makes in it succeed: its own data, its
    leader, its peers, whom to broadcast and retransmit to, and the updates it
    answers a request with. *)
Theorem table_lookups_return : forall n bt0 bt, bt_new n = Ok bt0 -> rtc bt_step bt0 bt ->
  returns (my_data bt) /\ returns (leader_data bt) /\ returns (get_valid_peers bt) /\
  returns (compute_broadcast_table bt) /\ returns (retransmit_orders bt) /\
  (forall h, returns (get_scheduled_leader bt h)) /\ (forall v, returns (get_updates_since bt v)).
Proof.
  intros n bt0 bt Hn Hr. destruct (reachable_ok _ _ _ Hn Hr) as [Hok _].
  destruct (my_data_returns bt Hok) as [me Hme]. unfold returns. split_and!.
  - eauto.
  - unfold leader_data. rewrite Hme. simpl. case_bool_decide; eauto.
  - unfold get_valid_peers. rewrite Hme. simpl. eauto.
  - unfold compute_broadcast_table. rewrite Hme. simpl.
    destruct (live_nodes_returns bt (map_to_list (bt_alive bt)).*1) as [ns ->]; [|simpl; eauto].
    intros k Hk. apply list_elem_of_fmap in Hk as ([k' t] & -> & Hk%elem_of_map_to_list).
    apply (ok_alive _ Hok). simpl. eauto.
  - unfold retransmit_orders. rewrite Hme. simpl. eauto.
  - intros h. unfold get_scheduled_leader. destruct (bt_scheduled_leaders bt !! h); [eauto|].
    rewrite Hme. simpl. eauto.
  - intros v. destruct (get_updates_returns bt v Hok) as (xs & -> & _). eauto.
Qed.
End NoPanic.

(** ** Gossip spreads the newest versions *)

Section Convergence.
Context `{Profile}.

(** The table has the node at this version or a newer one. *)
Definition knows (bt : BlockThread) (k : Pubkey) (v : Z) : Prop :=
  exists n, bt_table bt !! k = Some n /\ v <= ni_version n.

Lemma insert_knows bt v now r bt' : insert bt v now = Ret (r, bt') ->
  (forall k w, knows bt k w -> knows bt' k w) /\ knows bt' (ni_id v) (ni_version v) /\
  bt_remote bt' = bt_remote bt.
Proof.
  intros [(_ & -> & old & Ho & Hle)|(_ & Hnew & ups & _ & ->)]%insert_cases.
  - split; [done|]. split; [|done]. exists old. done.
  - split; [|split; [exists v; simpl; by rewrite lookup_insert_eq|done]].
    intros k w (n & Hn & Hw). unfold knows. simpl. destruct (decide (k = ni_id v)) as [->|].
    + exists v. rewrite lookup_insert_eq. apply Hnew in Hn. split; [done|lia].
    + exists n. by rewrite lookup_insert_ne.
Qed.

Lemma insert_all_knows bt data clock i bt' : insert_all bt data clock i = Ret bt' ->
  (forall k w, knows bt k w -> knows bt' k w) /\
  (forall v, v ∈ data -> knows bt' (ni_id v) (ni_version v)).
Proof.
  revert bt i. induction data as [|v data IH]; intros bt i Hi; simplify_eq/=.
  { split; [done|]. intros v Hv. by apply not_elem_of_nil in Hv. }
  apply bind_Ret_inv in Hi as ([r bt1] & Hq & Hi). apply insert_knows in Hq as (Hk1 & Hv1 & _).
  apply IH in Hi as [Hk2 Hd]. split; [auto|]. intros w [->|Hw]%elem_of_cons; auto.
Qed.

(** How far [a] has followed the updates of [b]. *)
Definition seen_of (a b : BlockThread) : Z := default 0 (bt_remote a !! bt_id b).

(** [a] asks [b] for updates and applies the answer. *)
Definition exchange (a b a' : BlockThread) : Prop :=
  exists id ups data live clock, get_updates_since b (seen_of a b) = Ret (id, ups, data) /\
    handle_receive_updates a id ups data live clock = Ret a'.

(** Two nodes: each learns of nodes on its own, and [a] asks [b]. *)
Inductive sync_step : BlockThread * BlockThread -> BlockThread * BlockThread -> Prop :=
  | SyncLearnA a b v now r a' : insert a v now = Ret (r, a') -> sync_step (a, b) (a', b)
  | SyncLearnB a b v now r b' : insert b v now = Ret (r, b') -> bt_update_index b < u64_max ->
      sync_step (a, b) (a, b')
  | SyncExchange a b a' : exchange a b a' -> sync_step (a, b) (a', b).

(** What [a] has followed of [b], it has. *)
Record synced (a b : BlockThread) : Prop := {
  sync_ok : bt_ok b;
  sync_index : 0 <= bt_update_index b;
  sync_local : forall k l, bt_local b !! k = Some l -> l <= bt_update_index b;
  sync_seen : seen_of a b <= bt_update_index b;
  sync_knows : forall k n l, bt_table b !! k = Some n -> k <> Pubkey_default ->
    bt_local b !! k = Some l -> l <= seen_of a b -> knows a k (ni_version n) }.

Lemma exchange_dominates a b a' : synced a b -> exchange a b a' ->
  synced a' b /\ forall k n, bt_table b !! k = Some n -> k <> Pubkey_default -> knows a' k (ni_version n).
Proof.
  intros [Hok Hui Hloc Hseen Hkn] (id & ups & data & live & clock & Hg & Hr).
  destruct (get_updates_returns b (seen_of a b) Hok) as (xs & Hg' & Hin). rewrite Hg in Hg'. simplify_eq.
  unfold handle_receive_updates, apply_updates in Hr. apply bind_Ret_inv in Hr as (a1 & Hall & Hr).
  apply insert_all_knows in Hall as [Hmono Hdata]. simplify_eq/=.
  assert (Hdom : forall k n, bt_table b !! k = Some n -> k <> Pubkey_default -> knows a1 k (ni_version n)).
  { intros k n Hk Hne. destruct (Hin k n Hk Hne) as (l & Hl & Hnew).
    destruct (decide (seen_of a b < l)) as [Hlt|Hge].
    - pose proof (ok_ids _ Hok _ _ Hk) as <-. by apply Hdata, Hnew.
    - apply Hmono. apply (Hkn k n l); [done..|lia]. }
  split; [|exact Hdom]. split; [done..| |].
  - unfold seen_of. simpl. rewrite lookup_insert_eq. done.
  - intros k n l Hk Hne _ _. by apply Hdom.
Qed.

Lemma sync_step_synced a b a' b' : sync_step (a, b) (a', b') -> synced a b -> synced a' b'.
Proof.
  intros Hstep Hs. inversion Hstep as [? ? v now r ? Hi|? ? v now r ? Hi Hmax|? ? ? Hx]; simplify_eq.
  - destruct Hs as [Hok Hui Hloc Hseen Hkn]. apply insert_knows in Hi as (Hmono & _ & Hrem).
    unfold seen_of in *. split; unfold seen_of; rewrite ?Hrem; eauto.
  - destruct Hs as [Hok Hui Hloc Hseen Hkn]. pose proof (insert_ok _ _ _ _ _ Hok Hi) as [Hok' Hid].
    apply insert_cases in Hi as [(_ & -> & _)|(_ & _ & ups & Hups & ->)]; [done|].
    rewrite u64_add_exact in Hups by (apply in_u64_iff; lia). simplify_eq.
    split; unfold seen_of in *; simpl in *; [done|lia| |lia|].
    + intros k l Hl. apply lookup_insert_Some in Hl as [[_ <-]|[_ Hl]]; [lia|]. apply Hloc in Hl. lia.
    + intros k n l Hk Hne Hl Hle. apply lookup_insert_Some in Hl as [[_ <-]|[Hkne Hl]]; [lia|].
      rewrite lookup_insert_ne in Hk by done. eauto.
  - by eapply exchange_dominates.
Qed.

Lemma sync_run s s' : rtc sync_step s s' -> synced s.1 s.2 -> synced s'.1 s'.2.
Proof.
  induction 1 as [|[a b] [a1 b1] s3 Hstep _ IH]; [done|]. intros Hs. apply IH.
  by eapply sync_step_synced.
Qed.

(** C21: gossip spreads what a node knows.  In any run of two nodes that learn
    of others independently and in which the first asks the second for
    updates since the last index it saw, after each exchange the first knows
    every node the second knows, at least at that version: the update indices
    never skip anything. *)
Theorem gossip_spreads : forall n1 n2 a0 b0 a b a',
  bt_new n1 = Ok a0 -> bt_new n2 = Ok b0 -> rtc sync_step (a0, b0) (a, b) -> exchange a b a' ->
  forall k n, bt_table b !! k = Some n -> k <> Pubkey_default -> knows a' k (ni_version n).
Proof.
  intros n1 n2 a0 b0 a b a' Ha Hb Hr Hx.
  assert (Hs : synced a0 b0).
  { pose proof (bt_new_ok _ _ Hb) as [Hok _]. unfold bt_new in Ha, Hb.
    destruct (negb (ni_version n1 =? 0)), (negb (ni_version n2 =? 0)); simplify_eq/=.
    split; unfold seen_of; simpl; [done|lia| |rewrite lookup_empty; simpl; lia|].
    - intros k l Hl. apply lookup_singleton_Some in Hl as [_ <-]. done.
    - intros k n l _ _ Hl Hle. rewrite lookup_empty in Hle. simpl in Hle.
      apply lookup_singleton_Some in Hl as [_ <-]. lia. }
  apply sync_run in Hr; [|done]. by eapply exchange_dominates.
Qed.
End Convergence.

(** ** A version that cannot grow *)

Section Poison.
Context `{Profile}.

(** An update message can name the receiver itself, and the newest
    version wins.  After one that carries the receiver's own id at the largest
    version, the receiver cannot vote again: counting its version up panics,
    or wraps to zero in a build that does not trap, so that its vote is
    numbered 0 and its own table refuses it. *)
Theorem largest_version_silences : forall bt me leader from ups h now clock,
  my_data bt = Ret me -> ni_id me = bt_id bt -> leader_data bt = Ret (Some leader) ->
  ni_version me < u64_max -> 0 <= bt_update_index bt < u64_max ->
  exists bt', handle_receive_updates bt from ups [set_version u64_max me] [] clock = Ret bt' /\
    match new_vote bt' h now with
    | Panic => overflow_checks = true
    | Ret (Ok (vote, _), bt2) => vote_version vote = 0 /\ bt_table bt2 = bt_table bt'
    | Ret (Err _, _) => False
    end.
Proof.
  intros bt me leader from ups h now clock Hme Hid Hl Hv Hu.
  unfold my_data, unwrap in Hme. destruct (bt_table bt !! bt_id bt) as [me'|] eqn:Et; simplify_eq.
  unfold leader_data, my_data in Hl. rewrite Et in Hl. simpl in Hl.
  case_bool_decide as Hd; [discriminate|]. injection Hl as Hl.
  unfold handle_receive_updates, apply_updates. cbn [insert_all]. unfold insert.
  cbn [ni_id ni_version set_version]. rewrite Hid, Et, (proj2 (Z.ltb_lt _ _)) by done.
  rewrite u64_add_exact by (apply in_u64_iff; lia). cbn [mbind outcome_bind].
  eexists. split; [done|]. unfold new_vote, leader_data, my_data. cbn [bt_table bt_id set_remote update_liveness set_alive].
  rewrite lookup_insert_eq. cbn [unwrap mbind outcome_bind ni_leader_id set_version].
  rewrite bool_decide_false by done. cbn [mbind outcome_bind].
  assert (is_Some (<[bt_id bt := set_version u64_max me]> (bt_table bt) !! ni_leader_id me)) as [l' ->].
  { apply lookup_insert_is_Some_or. rewrite Hl. eauto. }
  unfold u64_add, arith. change (in_u64 (u64_max + 1)) with false. cbv iota.
  destruct overflow_checks; [done|]. change (wrap_u64 (u64_max + 1)) with 0. cbn [mbind outcome_bind].
  unfold insert. cbn [ni_id ni_version set_version set_last_id bt_table set_remote update_liveness set_alive].
  rewrite Hid, lookup_insert_eq. cbn [ni_version set_version]. done.
Qed.
End Poison.

(** ** Witnesses *)

Module BlockThreadWitness.
#[local] Instance wrapping : Profile := false.
Definition key_of (b : byte) : Pubkey := mk_pubkey (replicate 32 b).
Definition addr (p : Z) : SocketAddr := V4 [Byte.x7f; Byte.x00; Byte.x00; Byte.x01] p.
Definition node (b : byte) : NodeInfo := NodeInfo_new (key_of b) (addr 1) (addr 2) (addr 3) (addr 4) (addr 5).

Definition after_ok {A} (d : A) (r : result A BlockThreadError) : A := match r with Ok a => a | Err _ => d end.
Definition after_ret {A} (d : A) (r : outcome (Z * A)) : A := match r with Ret (_, a) => a | Panic => d end.
Definition dummy : BlockThread := mk_bt ∅ ∅ ∅ ∅ 0 (key_of Byte.x00) ∅ ∅ 0.

Definition a0 : BlockThread := after_ok dummy (bt_new (node Byte.x01)).
Definition b0 : BlockThread := after_ok dummy (bt_new (node Byte.x02)).
Definition b1 : BlockThread := after_ret dummy (insert b0 (node Byte.x03) 7).

Lemma table_lookups_witness : returns (my_data b1) /\ returns (leader_data b1) /\ returns (get_valid_peers b1) /\
  returns (compute_broadcast_table b1) /\ returns (retransmit_orders b1) /\
  (forall h, returns (get_scheduled_leader b1 h)) /\ (forall v, returns (get_updates_since b1 v)).
Proof.
  apply (table_lookups_return (node Byte.x02) b0 b1); [reflexivity|].
  apply rtc_once, (StepInsert b0 (node Byte.x03) 7 1). vm_compute. reflexivity.
Defined.

Definition answer : list NodeInfo :=
  match get_updates_since b1 0 with Ret (_, _, data) => data | Panic => [] end.
Definition a1 : BlockThread :=
  match handle_receive_updates a0 (bt_id b1) 2 answer [] (fun _ => 9) with Ret bt => bt | Panic => dummy end.

Lemma exchange_run : exchange a0 b1 a1.
Proof. exists (bt_id b1), 2, answer, [], (fun _ => 9). split; vm_compute; reflexivity. Qed.

Lemma gossip_spreads_witness : knows a1 (key_of Byte.x03) (ni_version (node Byte.x03)).
Proof.
  apply (gossip_spreads (node Byte.x01) (node Byte.x02) a0 b0 a0 b1 a1) with (k := key_of Byte.x03);
    [reflexivity|reflexivity| |apply exchange_run|reflexivity|discriminate].
  apply rtc_once, (SyncLearnB a0 b0 (node Byte.x03) 7 1); [vm_compute; reflexivity|reflexivity].
Defined.

(** A node that is its own leader. *)
Definition led : BlockThread := match set_leader a0 (key_of Byte.x01) 5 with Ret bt => bt | Panic => dummy end.
Definition led_me : NodeInfo := set_version 1 (set_leader_id (key_of Byte.x01) (node Byte.x01)).

Lemma largest_version_witness :
  exists bt', handle_receive_updates led (key_of Byte.x09) 1 [set_version u64_max led_me] [] (fun _ => 6) = Ret bt' /\
    match new_vote bt' Hash_default 7 with
    | Panic => overflow_checks = true
    | Ret (Ok (vote, _), bt2) => vote_version vote = 0 /\ bt_table bt2 = bt_table bt'
    | Ret (Err _, _) => False
    end.
Proof.
  apply (largest_version_silences led led_me led_me).
  - vm_compute. reflexivity.
  - reflexivity.
  - vm_compute. reflexivity.
  - reflexivity.
  - split; [discriminate|reflexivity].
Defined.
End BlockThreadWitness.
