(* ===== verification/Window.v ===== *)
(** * The window of received blobs

    [src/window.rs]: the slots, the indices to repair, the delivery of blobs in
    order, and the window a leader starts from.
    The [erasure] feature is off, as it is by default.  A blob shared between
    the window and a queue is a value: nothing below changes a blob after it
    was queued. *)

From S2P Require Import Prelude.
From S2P Require Import Types.
From S2P Require Import Codec.
From S2P Require Import Packet.
From S2P Require Import FinPlan.
From S2P Require Import FinPlanProgram.
From S2P Require Import SystemProgram.
From S2P Require Import Transactions.
From S2P Require Import Entry.
From S2P Require Import Block.
From S2P Require Import Ledger.
From S2P Require Import BlockThread.

Record WindowSlot := mk_slot { ws_data : option Blob; ws_coding : option Blob; ws_leader_unknown : bool }.
Abbreviation Window := (list WindowSlot).

Definition WindowSlot_default : WindowSlot := mk_slot None None false.
Definition slot_set_data (d : option Blob) (s : WindowSlot) : WindowSlot :=
  mk_slot d (ws_coding s) (ws_leader_unknown s).
Definition slot_set_coding (d : option Blob) (s : WindowSlot) : WindowSlot :=
  mk_slot (ws_data s) d (ws_leader_unknown s).
Definition slot_set_unknown (b : bool) (s : WindowSlot) : WindowSlot := mk_slot (ws_data s) (ws_coding s) b.

(** [(pix % WINDOW_SIZE) as usize]. *)
Definition slot_of (pix : Z) : nat := Z.to_nat (pix mod Z.of_nat WINDOW_SIZE).

Definition default_window : Window := replicate WINDOW_SIZE WindowSlot_default.

(** [a..b]. *)
Definition range (a b : Z) : list Z := (fun i => a + Z.of_nat i) <$> seq 0 (Z.to_nat (b - a)).

Section WindowOps.
Context `{Profile} `{ByteOrder} `{Bincode Pubkey} `{Bincode Entry}.

(** [WindowSlot::blob_index]. *)
Definition blob_index (s : WindowSlot) : outcome (option Z) :=
  match ws_data s with Some b => ix ← get_index b; Ret (Some ix) | None => Ret None end.

(** [clear_slots], one index at a time. *)
Fixpoint clear_slots_in (w : Window) (pixs : list Z) : outcome (list Z * Window) :=
  match pixs with
  | [] => Ret ([], w)
  | pix :: rest =>
      s ← index w (slot_of pix);
      bi ← blob_index s;
      if bool_decide (bi = Some pix) then clear_slots_in w rest
      else
        w1 ← update w (slot_of pix) (slot_set_data None);
        '(missing, w2) ← clear_slots_in w1 rest;
        Ret (pix :: missing, w2)
  end.
Definition clear_slots (w : Window) (consumed received : Z) : outcome (list Z * Window) :=
  clear_slots_in w (range consumed received).

Definition calculate_max_repair (num_peers consumed received times : Z) (is_next_leader : bool) : outcome Z :=
  let max_repair := if (8 <=? times) || is_next_leader then Z.max consumed received
                    else Z.max consumed (Z.max 0 (received - num_peers)) in
  a ← u64_add consumed (Z.of_nat WINDOW_SIZE);
  b ← u64_sub a 1;
  Ret (Z.min b max_repair).

(** [window_index_request]: [rnd] is the random number drawn. *)
Definition window_index_request (bt : BlockThread) (rnd ix : Z)
    : outcome (result (SocketAddr * Protocol) BlockThreadError) :=
  r ← window_index_peer bt rnd;
  match r with
  | Err e => Ret (Err e)
  | Ok to => me ← my_data bt; Ret (Ok (to, RequestWindowIndex me ix))
  end.

(** [repair]'s [filter_map]; [rnd pix] is drawn for the request for [pix]. *)
Fixpoint window_requests (bt : BlockThread) (rnd : Z -> Z) (idxs : list Z)
    : outcome (list (SocketAddr * Protocol)) :=
  match idxs with
  | [] => Ret []
  | pix :: rest =>
      r ← window_index_request bt (rnd pix) pix;
      rs ← window_requests bt rnd rest;
      Ret (match ok r with Some req => req :: rs | None => rs end)
  end.

(** [repair]'s bound on the indices to ask for. *)
Definition repair_limit (bt : BlockThread) (id : Pubkey) (times consumed received max_entry_height : Z)
    : outcome Z :=
  let interval := get_leader_rotation_interval bt in
  a ← u64_add consumed interval;
  r ← u64_rem consumed interval;
  next_leader_rotation ← u64_sub a r;
  l ← get_scheduled_leader bt next_leader_rotation;
  let is_next_leader := bool_decide (l = Some id) in
  let num_peers := Z.of_nat (size (bt_table bt)) in
  if max_entry_height =? 0
  then calculate_max_repair num_peers consumed received times is_next_leader
  else u64_add max_entry_height 1.

(** [repair]: the requests, and the window with the slots of the missing
    blobs cleared. *)
Definition repair (w : Window) (bt : BlockThread) (id : Pubkey)
    (times consumed received max_entry_height : Z) (rnd : Z -> Z)
    : outcome (list (SocketAddr * Protocol) * Window) :=
  max_repair ← repair_limit bt id times consumed received max_entry_height;
  '(idxs, w') ← clear_slots w consumed max_repair;
  reqs ← window_requests bt rnd idxs;
  Ret (reqs, w').

(** [blob_idx_in_window]: whether to take the blob, and the new [received]. *)
Definition blob_idx_in_window (pix consumed received : Z) : outcome (bool * Z) :=
  if pix <? consumed then Ret (false, received)
  else
    limit ← u64_add consumed (Z.of_nat WINDOW_SIZE);
    Ret (negb (limit <=? pix), Z.max pix received).

(** [insert_blob_is_dup]: the slot always takes the new blob. *)
Definition is_dup (old : option Blob) (pix : Z) : outcome bool :=
  match old with Some b => ix ← get_index b; Ret (ix =? pix) | None => Ret false end.

(** One turn of the loop of [process_blob]: the entries of the next blob, or
    [None] when the loop ends there. *)
Definition my_turn (bt : BlockThread) (consumed interval : Z) : outcome bool :=
  if consumed =? 0 then Ret false
  else
    r ← u64_rem consumed interval;
    if r =? 0 then
      me ← my_data bt;
      l ← get_scheduled_leader bt consumed;
      Ret (bool_decide (l = Some (ni_id me)))
    else Ret false.
Definition consume_step (bt : BlockThread) (w : Window) (consumed interval : Z)
    : outcome (option (list Entry) * Window) :=
  stop ← my_turn bt consumed interval;
  if (stop : bool) then Ret (None, w)
  else
    let k := slot_of consumed in
    s ← index w k;
    match ws_data s with
    | None => Ret (None, w)
    | Some blob =>
        ix ← get_index blob;
        if ix <? consumed then Ret (None, w)
        else
          r ← reconstruct_entries_from_blobs [blob];
          match r with
          | Ok entries => Ret (Some entries, w)
          | Err _ => w' ← update w k (slot_set_data None); Ret (None, w')
          end
    end.

(** The loop that delivers contiguous blobs; [None] when it has not ended
    within the fuel. *)
Fixpoint consume (fuel : nat) (bt : BlockThread) (w : Window) (queue : list Entry) (consumed interval : Z)
    : option (outcome (Window * list Entry * Z)) :=
  match fuel with
  | O => None
  | S fuel' =>
      match consume_step bt w consumed interval with
      | Panic => Some Panic
      | Ret (None, w') => Some (Ret (w', queue, consumed))
      | Ret (Some entries, w') =>
          match u64_add consumed 1 with
          | Panic => Some Panic
          | Ret consumed' => consume fuel' bt w' (queue ++ entries) consumed' interval
          end
      end
  end.

(** [process_blob]'s insertion: whether the blob is a duplicate, and the
    window that holds it. *)
Definition insert_blob (w : Window) (blob : Blob) (pix : Z) : outcome (bool * Window) :=
  coding ← is_coding blob;
  s ← index w (slot_of pix);
  if (coding : bool) then
    w1 ← update w (slot_of pix) (slot_set_coding (Some blob));
    d ← is_dup (ws_coding s) pix; Ret (d, w1)
  else
    w1 ← update w (slot_of pix) (slot_set_data (Some blob));
    d ← is_dup (ws_data s) pix; Ret (d, w1).

(** [process_blob]; the fuel covers a whole window. *)
Definition process_blob (w : Window) (bt : BlockThread) (blob : Blob) (pix : Z) (queue : list Entry)
    (consumed : Z) (leader_unknown pending : bool) (interval : Z)
    : option (outcome (Window * list Entry * Z * bool)) :=
  match insert_blob w blob pix with
  | Panic => Some Panic
  | Ret (true, w1) => Some (Ret (w1, queue, consumed, pending))
  | Ret (false, w1) =>
      match update w1 (slot_of pix) (slot_set_unknown leader_unknown) with
      | Panic => Some Panic
      | Ret w2 =>
          match consume (S WINDOW_SIZE) bt w2 queue consumed interval with
          | None => None
          | Some Panic => Some Panic
          | Some (Ret (w3, queue', consumed')) => Some (Ret (w3, queue', consumed', true))
          end
      end
  end.

(** [index_blobs]: the leader's id and consecutive indices. *)
Fixpoint index_blobs_from (i : nat) (id : Pubkey) (blobs : list Blob) (receive_index : Z) : outcome (list Blob) :=
  match blobs with
  | [] => Ret []
  | b :: rest =>
      b1 ← set_id b id;
      ix ← u64_add receive_index (Z.of_nat i);
      b2 ← set_index b1 ix;
      b3 ← set_flags b2 0;
      bs ← index_blobs_from (S i) id rest receive_index;
      Ret (b3 :: bs)
  end.
Definition index_blobs (id : Pubkey) (blobs : list Blob) (receive_index : Z) : outcome (list Blob) :=
  index_blobs_from 0 id blobs receive_index.

(** [initialized_window], [new_window_from_entries]. *)
Fixpoint cache_blobs (w : Window) (blobs : list Blob) : outcome Window :=
  match blobs with
  | [] => Ret w
  | b :: rest =>
      ix ← get_index b;
      s ← index w (slot_of ix);
      _ ← rassert (match ws_data s with None => true | Some _ => false end);
      w' ← update w (slot_of ix) (slot_set_data (Some b));
      cache_blobs w' rest
  end.
Definition initialized_window (id : Pubkey) (blobs : list Blob) (entry_height : Z) : outcome Window :=
  received ← u64_sub entry_height (Z.of_nat (length blobs));
  bs ← index_blobs id blobs received;
  cache_blobs default_window (drop (length bs - length default_window) bs).
Definition new_window_from_entries (ledger_tail : list Entry) (entry_height : Z) (id : Pubkey)
    : outcome Window :=
  blobs ← block_to_blobs ledger_tail; initialized_window id blobs entry_height.
End WindowOps.

(** ** Delivery in order *)

(** [pix] is [consumed] when its slot is and it lies less than a window ahead. *)
Lemma slot_of_lt pix : (slot_of pix < WINDOW_SIZE)%nat.
Proof.
  unfold slot_of. pose proof WINDOW_SIZE_Z. pose proof (Z.mod_pos_bound pix (Z.of_nat WINDOW_SIZE)). lia.
Qed.

Lemma slot_of_inj a b :
  slot_of a = slot_of b -> a <= b < a + Z.of_nat WINDOW_SIZE -> b = a.
Proof.
  unfold slot_of. rewrite WINDOW_SIZE_Z. intros Hs Hb.
  pose proof (Z.mod_pos_bound a 2048). pose proof (Z.mod_pos_bound b 2048).
  pose proof (Z.div_mod a 2048). pose proof (Z.div_mod b 2048). nia.
Qed.

Section Delivery.
Context `{Profile} `{ByteOrder} `{Bincode Pubkey} `{Bincode Entry}.

(** A slot's blobs have indices that can be read; a data blob belongs in its
    slot, is less than a window ahead of [consumed], and can be read without
    a panic. *)
Definition data_ok (i : nat) (consumed : Z) (b : Blob) : Prop :=
  exists ix, get_index b = Ret ix /\ slot_of ix = i /\ ix < consumed + Z.of_nat WINDOW_SIZE /\
    returns (reconstruct_entries_from_blobs [b]).
Record slot_ok (i : nat) (consumed : Z) (s : WindowSlot) : Prop := {
  so_data : forall b, ws_data s = Some b -> data_ok i consumed b;
  so_coding : forall b, ws_coding s = Some b -> returns (get_index b) }.
Definition win_ok (w : Window) (consumed : Z) : Prop :=
  length w = WINDOW_SIZE /\ forall i s, w !! i = Some s -> slot_ok i consumed s.

(** The window holds blobs [c] to [c' - 1], and these are their entries. *)
Inductive run_of (w : Window) : Z -> Z -> list Entry -> Prop :=
  | run_nil c : run_of w c c []
  | run_cons c c' s b es rest :
      w !! slot_of c = Some s -> ws_data s = Some b -> get_index b = Ret c ->
      reconstruct_entries_from_blobs [b] = Ret (Ok es) ->
      run_of w (c + 1) c' rest -> run_of w c c' (es ++ rest).

(** Why delivery stops at [c]: this node leads from there on, or blob [c] is
    not in the window, or it does not decode. *)
Definition leads_at (bt : BlockThread) (interval c : Z) : Prop :=
  c <> 0 /\ c mod interval = 0 /\
  exists me, my_data bt = Ret me /\ get_scheduled_leader bt c = Ret (Some (ni_id me)).
Definition missing_at (w : Window) (c : Z) : Prop :=
  forall s b, w !! slot_of c = Some s -> ws_data s = Some b -> get_index b <> Ret c.
Definition undecodable_at (w : Window) (c : Z) : Prop :=
  exists s b e, w !! slot_of c = Some s /\ ws_data s = Some b /\
    reconstruct_entries_from_blobs [b] = Ret (Err e).
Definition stops_at (bt : BlockThread) (w : Window) (interval c : Z) : Prop :=
  leads_at bt interval c \/ missing_at w c \/ undecodable_at w c.

(** Delivery depends on the data blobs alone. *)
Definition same_data (w w' : Window) : Prop := forall i, ws_data <$> w !! i = ws_data <$> w' !! i.

Lemma win_ok_mono w c c' : c <= c' -> win_ok w c -> win_ok w c'.
Proof.
  intros Hc [Hl Hw]. split; [done|]. intros i s Hs. destruct (Hw i s Hs) as [Hd Hk].
  split; [|done]. intros b Hb. destruct (Hd b Hb) as (ix & ? & ? & ? & ?).
  exists ix. split_and!; [done..|lia|done].
Qed.

Lemma win_ok_update w c i s s' : win_ok w c -> w !! i = Some s -> slot_ok i c s' ->
  win_ok (<[i := s']> w) c.
Proof.
  intros [Hl Hw] Hi Hs. split; [by rewrite length_insert|]. intros j t Hj.
  destruct (decide (i = j)) as [<-|Hn].
  - rewrite list_lookup_insert_eq in Hj by eauto using lookup_lt_Some. by simplify_eq.
  - rewrite list_lookup_insert_ne in Hj by done. eauto.
Qed.

Lemma win_ok_slot w c pix : win_ok w c -> exists s, w !! slot_of pix = Some s /\ slot_ok (slot_of pix) c s.
Proof.
  intros [Hl Hw]. destruct (lookup_lt_is_Some_2 w (slot_of pix)) as [s Hs].
  { rewrite Hl. apply slot_of_lt. }
  eauto.
Qed.

Lemma my_turn_returns bt c interval : bt_ok bt -> interval <> 0 ->
  exists t : bool, my_turn bt c interval = Ret t /\ (t = true -> leads_at bt interval c).
Proof.
  intros Hb Hi. destruct (my_data_returns bt Hb) as [me Hme]. unfold my_turn, u64_rem.
  destruct (c =? 0) eqn:Ec; [by exists false|]. bool_prop. rewrite (proj2 (Z.eqb_neq _ _) Hi), bind_Ret.
  destruct (c mod interval =? 0) eqn:Em; [|by exists false]. bool_prop.
  rewrite Hme, bind_Ret.
  assert (exists l, get_scheduled_leader bt c = Ret l) as [l Hl].
  { unfold get_scheduled_leader. rewrite Hme. destruct (bt_scheduled_leaders bt !! c); eauto. }
  rewrite Hl, bind_Ret. eexists. split; [done|]. intros Hd. bool_prop. subst l.
  split_and!; [done..|]. eauto.
Qed.

(** One turn of the loop, [c0] being where it started. *)
Lemma consume_step_spec bt w c0 c interval : bt_ok bt -> interval <> 0 -> win_ok w c0 ->
  c0 <= c ->
  (exists es s b, consume_step bt w c interval = Ret (Some es, w) /\ c < c0 + Z.of_nat WINDOW_SIZE /\
     w !! slot_of c = Some s /\ ws_data s = Some b /\ get_index b = Ret c /\
     reconstruct_entries_from_blobs [b] = Ret (Ok es)) \/
  (exists w', consume_step bt w c interval = Ret (None, w') /\ win_ok w' c0 /\ stops_at bt w interval c /\
     (same_data w' w \/ undecodable_at w c)).
Proof.
  intros Hbt Hi Hw Hc. unfold consume_step.
  destruct (my_turn_returns bt c interval Hbt Hi) as (t & -> & Ht). rewrite bind_Ret.
  destruct t.
  { right. exists w. split_and!; [done..|left; auto|by left]. }
  destruct (win_ok_slot w c0 c Hw) as (s & Hs & [Hd Hk]).
  unfold index. rewrite Hs. cbn [unwrap mbind outcome_bind]. destruct (ws_data s) as [b|] eqn:Eb.
  2:{ right. exists w. split_and!; [done..| |by left]. right. left. intros s' b Hs' Hb'. congruence. }
  destruct (Hd b eq_refl) as (ix & Hix & Hslot & Hlt & [r Hr]). rewrite Hix, bind_Ret.
  destruct (ix <? c) eqn:Elt; bool_prop.
  { right. exists w. split_and!; [done..| |by left]. right. left. intros s' b' Hs' Hb' Hg. assert (ix = c) by congruence. lia. }
  assert (ix = c) as -> by (apply slot_of_inj; [done|lia]).
  rewrite Hr, bind_Ret. destruct r as [es|e].
  { left. exists es, s, b. split_and!; done. }
  right. unfold update. rewrite Hs. simpl. eexists. split_and!; [done| |right; right; by exists s, b, e|right; by exists s, b, e].
  eapply win_ok_update; [done..|]. split; [by intros b'|done].
Qed.

Lemma consume_spec fuel bt w c0 c interval queue : bt_ok bt -> interval <> 0 -> win_ok w c0 ->
  0 <= c0 <= c -> c0 + Z.of_nat WINDOW_SIZE <= u64_max ->
  c <= c0 + Z.of_nat WINDOW_SIZE -> c0 + Z.of_nat WINDOW_SIZE - c < Z.of_nat fuel ->
  exists w' es c', consume fuel bt w queue c interval = Some (Ret (w', queue ++ es, c')) /\
    win_ok w' c0 /\ c <= c' <= c0 + Z.of_nat WINDOW_SIZE /\ run_of w c c' es /\ stops_at bt w interval c' /\
    (same_data w' w \/ undecodable_at w c').
Proof.
  intros Hbt Hi Hw Hc Hu. revert c queue Hc. induction fuel as [|fuel IH]; intros c queue Hc Hle Hf; [lia|].
  cbn [consume].
  destruct (consume_step_spec bt w c0 c interval) as
    [(es & s & b & -> & Hlt & Hs & Hb & Hix & Hr)|(w' & -> & Hw' & Hst & Hk)]; [done..|lia| |].
  - rewrite u64_add_exact by (apply in_u64_iff; lia).
    destruct (IH (c + 1) (queue ++ es)) as (w' & es' & c' & -> & Hw' & Hc' & Hrun & Hst & Hk); [lia..|].
    exists w', (es ++ es'), c'. rewrite app_assoc. split_and!; [done..|lia|lia| |done|done].
    by eapply run_cons.
  - exists w', [], c. rewrite app_nil_r. split_and!; [done..|lia|lia|constructor|done|done].
Qed.

(** What the window holds once [blob] was put in it. *)
Definition with_blob (w : Window) (blob : Blob) (pix : Z) (coding : bool) : Window :=
  alter (if coding then slot_set_coding (Some blob) else slot_set_data (Some blob)) (slot_of pix) w.

Lemma is_dup_returns (o : option Blob) pix :
  (forall b, o = Some b -> returns (get_index b)) ->
  exists d : bool, is_dup o pix = Ret d /\ (d = true <-> exists b, o = Some b /\ get_index b = Ret pix).
Proof.
  intros Ho. destruct o as [b|]; simpl.
  - destruct (Ho b eq_refl) as [ix Hix]. rewrite Hix. simpl. eexists. split; [done|].
    rewrite Z.eqb_eq. split; [intros ->; eauto|]. intros (b' & Hb & Hg). congruence.
  - exists false. split; [done|]. split; [done|]. by intros (b & ? & _).
Qed.

(** The slot [blob] goes to. *)
Definition old_blob (w : Window) (pix : Z) (coding : bool) : option Blob :=
  w !! slot_of pix ≫= fun s => if coding then ws_coding s else ws_data s.

Lemma insert_blob_spec w c blob pix (coding : bool) : win_ok w c -> is_coding blob = Ret coding ->
  get_index blob = Ret pix -> pix < c + Z.of_nat WINDOW_SIZE ->
  returns (reconstruct_entries_from_blobs [blob]) ->
  exists d, insert_blob w blob pix = Ret (d, with_blob w blob pix coding) /\
    (d = true <-> exists b, old_blob w pix coding = Some b /\ get_index b = Ret pix) /\
    win_ok (with_blob w blob pix coding) c.
Proof.
  intros Hw Hco Hix Hlt Hr. unfold insert_blob, old_blob, with_blob.
  destruct (win_ok_slot w c pix Hw) as (s & Hs & Hok).
  rewrite Hco. unfold index, update. rewrite Hs. simpl.
  assert (Halt : forall f, alter f (slot_of pix) w = <[slot_of pix := f s]> w).
  { intros f. apply list_eq. intros j. destruct (decide (slot_of pix = j)) as [<-|Hn].
    - rewrite list_lookup_alter_eq, list_lookup_insert_eq, Hs by eauto using lookup_lt_Some. done.
    - by rewrite list_lookup_alter_ne, list_lookup_insert_ne. }
  rewrite Halt.
  destruct (is_dup_returns (if coding then ws_coding s else ws_data s) pix) as (d & Hd & Hdup).
  { intros b Hb. destruct coding; [by eapply so_coding|].
    destruct (so_data _ _ _ Hok b Hb) as (ix & Hg & _). by exists ix. }
  exists d. split; [|split; [done|]].
  - destruct coding; simpl; by rewrite Hd.
  - eapply win_ok_update; [done..|]. destruct coding; split; simpl;
      try apply Hok; intros b [= <-]; [by exists pix|]. exists pix. split_and!; done.
Qed.

Lemma same_data_lookup w w' i s b : same_data w w' -> w !! i = Some s -> ws_data s = Some b ->
  exists s', w' !! i = Some s' /\ ws_data s' = Some b.
Proof.
  intros Hd Hs Hb. specialize (Hd i). rewrite Hs in Hd. destruct (w' !! i) as [s'|]; [|done].
  exists s'. simplify_eq/=. split; congruence.
Qed.

Lemma run_of_data w w' c c' es : same_data w w' -> run_of w c c' es -> run_of w' c c' es.
Proof.
  intros Hd. induction 1 as [c|c c' s b es rest Hs Hb Hi Hr _ IH]; [constructor|].
  destruct (same_data_lookup w w' _ s b Hd Hs Hb) as (s' & ? & ?). by eapply run_cons.
Qed.

Lemma same_data_sym w w' : same_data w w' -> same_data w' w.
Proof. intros Hd i. symmetry. apply Hd. Qed.

Lemma same_data_trans w1 w2 w3 : same_data w1 w2 -> same_data w2 w3 -> same_data w1 w3.
Proof. intros Hd Hd' i. by rewrite (Hd i). Qed.

Lemma undecodable_at_data w w' c : same_data w' w -> undecodable_at w' c -> undecodable_at w c.
Proof.
  intros Hd (s & b & e & Hs & Hb & Hr).
  destruct (same_data_lookup w' w _ s b Hd Hs Hb) as (s' & ? & ?). by exists s', b, e.
Qed.

Lemma stops_at_data bt w w' interval c : same_data w' w -> stops_at bt w' interval c ->
  stops_at bt w interval c.
Proof.
  intros Hd [Hl|[Hm|Hu]]; [by left|right; left|right; right; by eapply undecodable_at_data].
  intros s b Hs Hb. apply same_data_sym in Hd.
  destruct (same_data_lookup w w' _ s b Hd Hs Hb) as (s' & ? & ?). by eapply Hm.
Qed.

Lemma update_unknown w c pix u : win_ok w c ->
  exists w', update w (slot_of pix) (slot_set_unknown u) = Ret w' /\ win_ok w' c /\ same_data w' w.
Proof.
  intros Hw. destruct (win_ok_slot w c pix Hw) as (s & Hs & Hok).
  unfold update. rewrite Hs. eexists. split_and!; [done| |].
  - eapply win_ok_update; [done..|]. destruct Hok. by split.
  - intros j. destruct (decide (slot_of pix = j)) as [<-|Hn].
    + by rewrite list_lookup_insert_eq, Hs by eauto using lookup_lt_Some.
    + by rewrite list_lookup_insert_ne.
Qed.

(** A second copy of a blob the window holds. *)
Definition duplicate (w : Window) (pix : Z) (coding : bool) : Prop :=
  exists b, old_blob w pix coding = Some b /\ get_index b = Ret pix.

#[export] Instance duplicate_dec w pix coding : Decision (duplicate w pix coding).
Proof.
  unfold duplicate. destruct (old_blob w pix coding) as [b|]; [|right; by intros (b & ? & _)].
  destruct (decide (get_index b = Ret pix)) as [E|E]; [left; eauto|right].
  intros (b' & ? & ?). congruence.
Defined.

Definition delivered (bt : BlockThread) (w : Window) (dup : Prop) (pending : bool) (interval consumed : Z)
    (w' : Window) (es : list Entry) (consumed' : Z) (pending' : bool) : Prop :=
  win_ok w' consumed' /\ consumed <= consumed' <= consumed + Z.of_nat WINDOW_SIZE /\
  run_of w consumed consumed' es /\
  (dup -> consumed' = consumed /\ pending' = pending) /\
  (~ dup -> pending' = true /\ stops_at bt w interval consumed') /\
  (same_data w' w \/ undecodable_at w consumed').

Lemma process_blob_spec w bt blob pix queue consumed unknown pending interval coding :
  bt_ok bt -> interval <> 0 -> win_ok w consumed ->
  is_coding blob = Ret coding -> get_index blob = Ret pix -> returns (reconstruct_entries_from_blobs [blob]) ->
  0 <= consumed <= pix -> pix < consumed + Z.of_nat WINDOW_SIZE <= u64_max ->
  exists w' es consumed' pending',
    process_blob w bt blob pix queue consumed unknown pending interval =
      Some (Ret (w', queue ++ es, consumed', pending')) /\
    delivered bt (with_blob w blob pix coding) (duplicate w pix coding) pending interval consumed
      w' es consumed' pending'.
Proof.
  rename consumed into c, pending into p. intros Hbt Hi Hw Hco Hix Hr Hc Hu.
  destruct (insert_blob_spec w c blob pix coding) as (d & Hins & Hd & Hw1); [done..|lia|done|].
  unfold process_blob. rewrite Hins. destruct d.
  { exists (with_blob w blob pix coding), [], c, p. rewrite app_nil_r. split; [done|].
    split_and!; [done|lia|lia|constructor|done| |by left]. intros []. by apply Hd. }
  destruct (update_unknown _ c pix unknown Hw1) as (w2 & -> & Hw2 & Hsame).
  destruct (consume_spec (S WINDOW_SIZE) bt w2 c c interval queue)
    as (w' & es & c' & -> & Hw' & Hc' & Hrun & Hst & Hk); [done..|lia|lia|lia|lia|].
  exists w', es, c', true. split; [done|].
  split_and!; [eapply win_ok_mono; [|done]; lia|lia|lia|by eapply run_of_data| | |].
  - intros Hdup. by apply Hd in Hdup.
  - intros _. split; [done|]. by eapply stops_at_data.
  - destruct Hk as [Hk|Hk]; [left; by eapply same_data_trans|right; by eapply undecodable_at_data].
Qed.

(** Taking a blob that lies in the window ends, whatever blobs are in it,
    within the fuel, and delivers exactly the entries of the contiguous blobs
    [consumed], [consumed + 1], ... in order: a duplicate delivers nothing and
    keeps the state, and any other blob delivers until this node's turn to
    lead, a missing blob or one that does not decode.  [consumed] moves by the
    number of blobs delivered, at most a window; the window stays well formed
    and keeps its blobs, but for one that did not decode. *)
Theorem process_blob_delivers : forall w bt blob pix queue consumed unknown pending interval coding,
  bt_ok bt -> interval <> 0 -> win_ok w consumed ->
  is_coding blob = Ret coding -> get_index blob = Ret pix -> returns (reconstruct_entries_from_blobs [blob]) ->
  0 <= consumed <= pix -> pix < consumed + Z.of_nat WINDOW_SIZE <= u64_max ->
  exists w' es consumed' pending',
    process_blob w bt blob pix queue consumed unknown pending interval =
      Some (Ret (w', queue ++ es, consumed', pending')) /\
    win_ok w' consumed' /\ consumed <= consumed' <= consumed + Z.of_nat WINDOW_SIZE /\
    run_of (with_blob w blob pix coding) consumed consumed' es /\
    (duplicate w pix coding -> consumed' = consumed /\ pending' = pending) /\
    (~ duplicate w pix coding -> pending' = true /\
       stops_at bt (with_blob w blob pix coding) interval consumed') /\
    (same_data w' (with_blob w blob pix coding) \/ undecodable_at (with_blob w blob pix coding) consumed').
Proof. intros. by apply process_blob_spec. Qed.
End Delivery.
