(* ===== verification/WindowService.v ===== *)
(** * The window service

    [src/window_service.rs]: what a validator does with the blobs it receives.

    Channels are what they deliver: the blobs received are an argument, the
    messages sent a result, and a flag says whether the other end is open. *)

From S2P Require Import Prelude.
From S2P Require Import Types.
From S2P Require Import Codec.
From S2P Require Import Packet.
From S2P Require Import FinPlan.
From S2P Require Import FinPlanProgram.
From S2P Require Import SystemProgram.
From S2P Require Import Transactions.
From S2P Require Import Entry.
From S2P Require Import Block.
From S2P Require Import Ledger.
From S2P Require Import BlockThread.
From S2P Require Import Window.

(** ** Receiving *)

Definition MAX_REPAIR_BACKOFF : Z := 128.

Inductive WindowServiceReturnType := LeaderRotation (height : Z).

Inductive RecvTimeoutError := Timeout | Disconnected.
Inductive ServiceError := RecvTimeout (e : RecvTimeoutError) | SendError.

(** The variables of the service's thread. *)
Record service := mk_service {
  sv_window : Window;
  sv_consumed : Z;
  sv_received : Z;
  sv_pending_retransmits : bool;
  sv_done : bool;
  sv_last : Z;
  sv_times : Z }.

Definition sv_set_times (last times : Z) (s : service) : service :=
  mk_service (sv_window s) (sv_consumed s) (sv_received s) (sv_pending_retransmits s) (sv_done s) last times.
Definition sv_set_window (w : Window) (pending : bool) (s : service) : service :=
  mk_service w (sv_consumed s) (sv_received s) pending (sv_done s) (sv_last s) (sv_times s).

(** [repair_backoff]; [rnd] is [thread_rng().gen_range(0, times)], which panics
    on an empty range. *)
Definition next_times (last times consumed : Z) : Z :=
  let times := (if last =? consumed then times else 1) + 1 in
  if MAX_REPAIR_BACKOFF <? times then MAX_REPAIR_BACKOFF / 2 else times.
Definition repair_backoff (last times consumed : Z) (rnd : Z -> Z) : outcome (bool * Z * Z) :=
  let times := next_times last times consumed in
  _ ← rassert (0 <? times);
  Ret (rnd times =? 0, consumed, times).

Section Service.
Context `{Profile} `{ByteOrder} `{Bincode Pubkey} `{Bincode Entry}.

(** A fresh blob with the first [meta.size] bytes of [p]. *)
Definition copy_blob (p : Blob) : outcome Blob :=
  let sz := m_size (b_meta p) in
  src ← slice (b_data p) 0 (Z.to_nat sz);
  d ← write_slice (b_data Blob_default) 0 (Z.to_nat sz) src;
  Ret (mk_blob d (set_meta_size sz Meta_default)).

Definition add_block_to_retransmit_queue (p : Blob) (leader_id : Pubkey) (queue : list Blob)
    : outcome (list Blob) :=
  r ← get_id p;
  id ← unwrap_result r;
  if bool_decide (id = leader_id) then nv ← copy_blob p; Ret (queue ++ [nv]) else Ret queue.

(** The slots that were filled while the leader was unknown. *)
Fixpoint queue_unknown (w : Window) (leader_id : Pubkey) (queue : list Blob) : outcome (Window * list Blob) :=
  match w with
  | [] => Ret ([], queue)
  | s :: rest =>
      '(s', queue') ← (match ws_leader_unknown s, ws_data s with
                       | true, Some b =>
                           q ← add_block_to_retransmit_queue b leader_id queue;
                           Ret (slot_set_unknown false s, q)
                       | _, _ => Ret (s, queue)
                       end);
      '(rest', q) ← queue_unknown rest leader_id queue';
      Ret (s' :: rest', q)
  end.

(** [retransmit_all_leader_blocks]: the window, [pending_retransmits] and the
    blobs queued. *)
Definition queue_retransmits (w : Window) (maybe_leader : option NodeInfo) (dq : list Blob) (pending : bool)
    : outcome (Window * bool * list Blob) :=
  match maybe_leader with
  | None => Ret (w, pending, [])
  | Some leader =>
      q ← ofold (fun q b => add_block_to_retransmit_queue b (ni_id leader) q) [] dq;
      if (pending : bool) then
        '(w', q') ← queue_unknown w (ni_id leader) q;
        Ret (w', if bool_decide (w = []) then pending else false, q')
      else Ret (w, pending, q)
  end.
Definition retransmit_all_leader_blocks (w : Window) (maybe_leader : option NodeInfo) (dq : list Blob)
    (pending open : bool) : outcome (Window * bool * result (list Blob) ServiceError) :=
  '(w', pending', q) ← queue_retransmits w maybe_leader dq pending;
  Ret (w', pending', if bool_decide (q = []) || open then Ok q else Err SendError).

(** [recv_window]'s loop over the blobs received: the window and the queue of
    entries, or [None] when [process_blob] has not ended within its fuel. *)
Definition sv_take (s : service) (w : Window) (consumed received : Z) (pending : bool) (max_ix : Z)
    : outcome service :=
  done ← (if max_ix =? 0 then Ret (sv_done s)
          else m ← u64_add max_ix 1; Ret (if consumed =? m then true else sv_done s));
  Ret (mk_service w consumed received pending done (sv_last s) (sv_times s)).

Definition recv_blob (bt : BlockThread) (leader_unknown : bool) (max_ix interval : Z)
    (s : service) (queue : list Entry) (b : Blob) : option (outcome (service * list Entry)) :=
  match (pix ← get_index b; '(inside, received) ← blob_idx_in_window pix (sv_consumed s) (sv_received s);
         Ret (pix, inside, received)) with
  | Panic => Some Panic
  | Ret (pix, inside, received) =>
      if negb inside || (negb (max_ix =? 0) && (max_ix <? pix)) then
        Some (Ret (mk_service (sv_window s) (sv_consumed s) received (sv_pending_retransmits s) (sv_done s)
                     (sv_last s) (sv_times s), queue))
      else
        match process_blob (sv_window s) bt b pix queue (sv_consumed s) leader_unknown
                (sv_pending_retransmits s) interval with
        | None => None
        | Some Panic => Some Panic
        | Some (Ret (w, queue', consumed, pending)) =>
            Some (s' ← sv_take s w consumed received pending max_ix; Ret (s', queue'))
        end
  end.
Fixpoint recv_blobs (bt : BlockThread) (leader_unknown : bool) (max_ix interval : Z)
    (s : service) (queue : list Entry) (dq : list Blob) : option (outcome (service * list Entry)) :=
  match dq with
  | [] => Some (Ret (s, queue))
  | b :: rest =>
      match recv_blob bt leader_unknown max_ix interval s queue b with
      | None => None
      | Some Panic => Some Panic
      | Some (Ret (s', queue')) => recv_blobs bt leader_unknown max_ix interval s' queue' rest
      end
  end.

(** What [recv_window] puts on its channels. *)
Record sent := mk_sent { st_entries : list Entry; st_retransmit : list Blob }.

(** [recv_window]: [first] is the message waited for, [more] the ones that
    were already there. *)
Definition recv_window (s : service) (bt : BlockThread) (max_ix interval : Z)
    (first : result (list Blob) RecvTimeoutError) (more : list (list Blob)) (entries_open retransmit_open : bool)
    : option (outcome (service * result sent ServiceError)) :=
  match first with
  | Err e => Some (Ret (s, Err (RecvTimeout e)))
  | Ok dq =>
      let dq := dq ++ concat more in
      match (maybe_leader ← leader_data bt;
             r ← retransmit_all_leader_blocks (sv_window s) maybe_leader dq (sv_pending_retransmits s)
                   retransmit_open;
             Ret (maybe_leader, r)) with
      | Panic => Some Panic
      | Ret (maybe_leader, (w, pending, r)) =>
          let s1 := sv_set_window w pending s in
          match r with
          | Err e => Some (Ret (s1, Err e))
          | Ok q =>
              match recv_blobs bt (bool_decide (maybe_leader = None)) max_ix interval s1 [] dq with
              | None => None
              | Some Panic => Some Panic
              | Some (Ret (s2, entries)) =>
                  Some (Ret (s2, if bool_decide (entries = []) || entries_open then Ok (mk_sent entries q)
                                 else Err SendError))
              end
          end
      end
  end.

(** One turn of [window_service]'s loop, after which it goes on with a new
    state or returns. *)
Inductive turn := Continue (s : service) (out : option sent) (reqs : list (SocketAddr * Protocol))
  | Return (s : service) (r : option WindowServiceReturnType).

Definition rotation_due (bt : BlockThread) (id : Pubkey) (consumed interval : Z) : outcome bool :=
  if consumed =? 0 then Ret false
  else
    r ← u64_rem consumed interval;
    if r =? 0 then l ← get_scheduled_leader bt consumed; Ret (bool_decide (l = Some id)) else Ret false.

Definition service_repair (s : service) (bt : BlockThread) (id : Pubkey) (max_entry_height : Z)
    (backoff_rnd rnd : Z -> Z) (out : option sent) : outcome turn :=
  if sv_received s <=? sv_consumed s then Ret (Continue s out [])
  else
    '(go, last, times) ← repair_backoff (sv_last s) (sv_times s) (sv_consumed s) backoff_rnd;
    let s := sv_set_times last times s in
    if (go : bool) then
      '(reqs, w) ← repair (sv_window s) bt id times (sv_consumed s) (sv_received s) max_entry_height rnd;
      Ret (Continue (sv_set_window w (sv_pending_retransmits s) s) out reqs)
    else Ret (Continue s out []).

Definition service_turn (s : service) (bt : BlockThread) (id : Pubkey) (interval max_entry_height : Z)
    (first : result (list Blob) RecvTimeoutError) (more : list (list Blob)) (entries_open retransmit_open : bool)
    (backoff_rnd rnd : Z -> Z) : option (outcome turn) :=
  match rotation_due bt id (sv_consumed s) interval with
  | Panic => Some Panic
  | Ret true => Some (Ret (Return s (Some (LeaderRotation (sv_consumed s)))))
  | Ret false =>
      match recv_window s bt max_entry_height interval first more entries_open retransmit_open with
      | None => None
      | Some Panic => Some Panic
      | Some (Ret (s', Err (RecvTimeout Disconnected))) => Some (Ret (Return s' None))
      | Some (Ret (s', Err _)) => Some (service_repair s' bt id max_entry_height backoff_rnd rnd None)
      | Some (Ret (s', Ok out)) => Some (service_repair s' bt id max_entry_height backoff_rnd rnd (Some out))
      end
  end.

(** The state [window_service] starts with. *)
Definition service_start (w : Window) (entry_height : Z) (done : bool) : service :=
  mk_service w entry_height entry_height false done entry_height 0.
End Service.

(** ** Blobs arrive in any order *)

Section AnyOrder.
Context `{Profile} `{ByteOrder} `{Bincode Pubkey} `{Bincode Entry}.
Context (bt : BlockThread) (interval start max_ix : Z) (es : list Entry) (B : nat -> Blob -> Prop).
Hypothesis (Hbt : bt_ok bt) (Hint : interval <> 0).
Hypothesis (Hstart : 0 <= start) (Hmax : start + Z.of_nat (2 * WINDOW_SIZE) <= u64_max).
Hypothesis (Hfit : (length es <= WINDOW_SIZE)%nat).
(** The service stops nowhere, or at the last of the entries. *)
Hypothesis Hupto : max_ix = 0 \/ max_ix = start + Z.of_nat (length es) - 1.

(** [b] is the blob of entry [e], the [j]-th of the leader's. *)
Record blob_of (j : nat) (e : Entry) (b : Blob) : Prop := {
  bo_index : get_index b = Ret (start + Z.of_nat j);
  bo_coding : is_coding b = Ret false;
  bo_entry : reconstruct_entries_from_blobs [b] = Ret (Ok [e]) }.
(** [B j b]: [b] is a copy of the leader's [j]-th blob. *)
Hypothesis Hbs : forall j b, B j b -> exists e, es !! j = Some e /\ blob_of j e b.
Hypothesis Hturn : forall c, start <= c < start + Z.of_nat (length es) -> ~ leads_at bt interval c.

(** The window holds the blobs in [seen], and no others. *)
Definition holds (w : Window) (seen : gset nat) : Prop :=
  (forall i s b, w !! i = Some s -> ws_data s = Some b ->
     exists j, j ∈ seen /\ B j b /\ i = slot_of (start + Z.of_nat j)) /\
  (forall j, j ∈ seen -> exists s b, B j b /\ w !! slot_of (start + Z.of_nat j) = Some s /\
     ws_data s = Some b).

Lemma holds_seen w seen j : holds w seen -> j ∈ seen -> (j < length es)%nat.
Proof.
  intros [_ Hs] Hj. destruct (Hs j Hj) as (s & b & Hb & _).
  destruct (Hbs j b Hb) as (e & He & _). by eapply lookup_lt_Some.
Qed.

(** The blob at the slot of [c] with index [c] is the leader's. *)
Lemma holds_lookup w seen c s b : holds w seen -> w !! slot_of c = Some s -> ws_data s = Some b ->
  get_index b = Ret c -> exists j e, j ∈ seen /\ c = start + Z.of_nat j /\ es !! j = Some e /\ blob_of j e b.
Proof.
  intros [Hw _] Hs Hb Hix. destruct (Hw _ s b Hs Hb) as (j & Hj & Hlk & _).
  destruct (Hbs j b Hlk) as (e & He & Ho). exists j, e. split_and!; try done.
  destruct Ho as [Hj' _ _]. congruence.
Qed.

Lemma holds_same w w' seen : same_data w' w -> holds w seen -> holds w' seen.
Proof.
  intros Hd [Hw Hs]. split.
  - intros i s b Hi Hb. destruct (same_data_lookup w' w i s b Hd Hi Hb) as (s' & Hi' & Hb').
    by apply (Hw i s').
  - intros j Hj. destruct (Hs j Hj) as (s & b & Hb & Hi & Hdt). apply same_data_sym in Hd.
    destruct (same_data_lookup w w' _ s b Hd Hi Hdt) as (s' & ? & ?). by exists s', b.
Qed.

Lemma slots_differ j k : (j < length es)%nat -> (k < length es)%nat ->
  slot_of (start + Z.of_nat j) = slot_of (start + Z.of_nat k) -> j = k.
Proof.
  intros Hj Hk Hs. destruct (Nat.le_ge_cases j k).
  - assert (start + Z.of_nat k = start + Z.of_nat j); [|lia]. apply slot_of_inj; [done|lia].
  - assert (start + Z.of_nat j = start + Z.of_nat k); [|lia]. apply slot_of_inj; [done|lia].
Qed.

Lemma holds_with_blob w seen j b : length w = WINDOW_SIZE -> holds w seen -> B j b ->
  holds (with_blob w b (start + Z.of_nat j) false) ({[ j ]} ∪ seen).
Proof.
  intros Hl Hh Hb. pose proof Hh as [Hw Hs]. unfold with_blob.
  destruct (Hbs j b Hb) as (e & He & _). apply lookup_lt_Some in He.
  set (k := slot_of (start + Z.of_nat j)).
  destruct (lookup_lt_is_Some_2 w k) as [s0 Hs0]; [rewrite Hl; apply slot_of_lt|]. split.
  - intros i s b' Hi Hd. destruct (decide (k = i)) as [<-|Hn].
    + rewrite list_lookup_alter_eq, Hs0 in Hi. simplify_eq/=. exists j. set_solver.
    + rewrite list_lookup_alter_ne in Hi by done. destruct (Hw i s b' Hi Hd) as (j' & ? & ? & ?).
      exists j'. set_solver.
  - intros j' Hj'. destruct (decide (j' = j)) as [->|Hn].
    + exists (slot_set_data (Some b) s0), b. fold k. by rewrite list_lookup_alter_eq, Hs0.
    + destruct (Hs j') as (s & b' & ? & Hi & ?); [set_solver|]. exists s, b'. split_and!; try done.
      rewrite list_lookup_alter_ne; [done|]. unfold k. intros E. apply slots_differ in E; [done|done|].
      eapply holds_seen; [done|set_solver].
Qed.

(** Delivery from a window that holds [seen] gives the leader's entries. *)
Lemma holds_run w seen c c' out : holds w seen -> run_of w c c' out -> start <= c ->
  c <= c' /\ out = take (Z.to_nat (c' - c)) (drop (Z.to_nat (c - start)) es) /\
  forall j, c <= start + Z.of_nat j < c' -> j ∈ seen.
Proof.
  intros Hh. induction 1 as [c|c c' s b out rest Hs Hb Hix Hr _ IH]; intros Hc.
  { split_and!; [lia|by rewrite Z.sub_diag|lia]. }
  destruct (holds_lookup w seen c s b) as (j & e & Hj & -> & He & Ho); [done..|].
  destruct IH as (Hle & -> & Hall); [lia|]. destruct Ho as [_ _ Hent].
  assert (out = [e]) as -> by congruence. split_and!; [lia| |].
  - replace (Z.to_nat (start + Z.of_nat j - start)) with j by lia.
    replace (Z.to_nat (start + Z.of_nat j + 1 - start)) with (S j) by lia.
    replace (Z.to_nat (c' - (start + Z.of_nat j))) with (S (Z.to_nat (c' - (start + Z.of_nat j + 1)))) by lia.
    by rewrite (drop_S es e j He).
  - intros j' Hj'. destruct (decide (j' = j)) as [->|Hn]; [done|]. apply Hall. lia.
Qed.

Lemma holds_decodes w seen c : holds w seen -> ~ undecodable_at w c.
Proof.
  intros [Hw _] (s & b & e & Hs & Hb & Hr). destruct (Hw _ s b Hs Hb) as (j & _ & Hlk & _).
  destruct (Hbs j b Hlk) as (e' & _ & [_ _ Hent]). congruence.
Qed.

Lemma holds_missing w seen j : holds w seen -> missing_at w (start + Z.of_nat j) -> j ∉ seen.
Proof.
  intros [_ Hs] Hm Hj. destruct (Hs j Hj) as (s & b & Hb & Hi & Hd).
  destruct (Hbs j b Hb) as (e & _ & [Hix _ _]). by eapply Hm.
Qed.

(** The service once it has seen the blobs in [seen]. *)
Record progress (s : service) (queue : list Entry) (seen : gset nat) : Prop := {
  pg_win : win_ok (sv_window s) (sv_consumed s);
  pg_holds : holds (sv_window s) seen;
  pg_range : start <= sv_consumed s <= start + Z.of_nat (length es);
  pg_queue : queue = take (Z.to_nat (sv_consumed s - start)) es;
  pg_prefix : forall j, start + Z.of_nat j < sv_consumed s -> j ∈ seen;
  pg_next : forall j, start + Z.of_nat j = sv_consumed s -> j ∉ seen;
  pg_done : max_ix <> 0 -> es <> [] -> sv_consumed s = start + Z.of_nat (length es) -> sv_done s = true }.

(** [b] is past the last entry that is wanted. *)
Definition beyond (b : Blob) : Prop := max_ix <> 0 /\ exists ix, get_index b = Ret ix /\ max_ix < ix.

Lemma progress_skip s queue seen received j : progress s queue seen -> start + Z.of_nat j < sv_consumed s ->
  progress (mk_service (sv_window s) (sv_consumed s) received (sv_pending_retransmits s) (sv_done s)
              (sv_last s) (sv_times s)) queue ({[ j ]} ∪ seen).
Proof.
  intros [Hw Hh Hr Hq Hp Hn Hd] Hj. replace ({[ j ]} ∪ seen) with seen; [by split|].
  apply set_eq. intros k. specialize (Hp j Hj). set_solver.
Qed.

Lemma progress_take s queue seen j b w' out c' p p' : progress s queue seen -> B j b ->
  sv_consumed s <= start + Z.of_nat j ->
  let w := with_blob (sv_window s) b (start + Z.of_nat j) false in
  delivered bt w (duplicate (sv_window s) (start + Z.of_nat j) false) p interval (sv_consumed s) w' out c' p' ->
  forall received done last times,
  (max_ix <> 0 -> es <> [] -> c' = start + Z.of_nat (length es) -> done = true) ->
  progress (mk_service w' c' received p' done last times) (queue ++ out) ({[ j ]} ∪ seen).
Proof.
  intros [Hw Hh Hr Hq Hp Hn _] Hb Hj w (Hw' & Hc' & Hrun & Hdup & Hnew & Hsame) received done last times Hdone.
  pose proof (holds_with_blob _ _ j b (proj1 Hw) Hh Hb) as Hh1. fold w in Hh1.
  destruct (holds_run w _ _ _ _ Hh1 Hrun) as (Hle & -> & Hall); [lia|].
  assert (Hpre : forall k, start + Z.of_nat k < c' -> k ∈ {[ j ]} ∪ seen).
  { intros k Hk. destruct (decide (start + Z.of_nat k < sv_consumed s)); [set_solver|]. apply Hall. lia. }
  assert (Hend : c' <= start + Z.of_nat (length es)).
  { destruct (decide (c' <= start + Z.of_nat (length es))) as [|Hgt]; [done|].
    assert (Hin : length es ∈ {[ j ]} ∪ seen) by (apply Hpre; lia).
    pose proof (holds_seen w _ _ Hh1 Hin). lia. }
  split; simpl; [done| |lia| |done| |done].
  - destruct Hsame as [Hsame|Hu]; [by eapply holds_same|]. by apply (holds_decodes w _ c' Hh1) in Hu.
  - subst queue. rewrite take_take_drop. f_equal. lia.
  - intros k Hk. destruct (decide (duplicate (sv_window s) (start + Z.of_nat j) false)) as [Hd|Hd].
    + destruct (Hdup Hd) as [-> _]. destruct Hd as (b' & Ho & Hix). unfold old_blob in Ho.
      apply bind_Some in Ho as (s0 & Hs0 & Hd0).
      destruct (holds_lookup _ _ _ s0 b' Hh Hs0 Hd0 Hix) as (j' & e & Hj' & E & _).
      assert (j' = j) as -> by lia. specialize (Hn k Hk). set_solver.
    + destruct (Hnew Hd) as [_ [Hl|[Hm|Hu]]].
      * intros Hin. pose proof (holds_seen w _ _ Hh1 Hin). apply (Hturn c'); [lia|done].
      * apply (holds_missing w _ k Hh1). by rewrite Hk.
      * by apply (holds_decodes w _ c' Hh1) in Hu.
Qed.

Lemma recv_blob_progress s queue seen unknown j b : progress s queue seen -> B j b ->
  exists s' queue', recv_blob bt unknown max_ix interval s queue b = Some (Ret (s', queue')) /\
    progress s' queue' ({[ j ]} ∪ seen).
Proof.
  intros Hpg Hb. destruct (Hbs j b Hb) as (e & He & [Hix Hco Hent]). apply lookup_lt_Some in He.
  pose proof (pg_range _ _ _ Hpg) as Hr.
  unfold recv_blob, blob_idx_in_window. rewrite Hix, bind_Ret.
  destruct (start + Z.of_nat j <? sv_consumed s) eqn:Elt; bool_prop.
  { do 2 eexists. split; [done|]. by apply progress_skip. }
  rewrite u64_add_exact by (apply in_u64_iff; lia). cbn -[process_blob Z.of_nat].
  rewrite (proj2 (Z.leb_gt _ _)) by lia. cbn -[process_blob Z.of_nat].
  assert (negb (max_ix =? 0) && (max_ix <? start + Z.of_nat j) = false) as ->.
  { destruct Hupto as [->| ->]; [done|]. rewrite (proj2 (Z.ltb_ge _ _)) by lia. apply andb_false_r. }
  destruct (process_blob_spec (sv_window s) bt b (start + Z.of_nat j) queue (sv_consumed s) unknown
    (sv_pending_retransmits s) interval false) as (w' & out & c' & p' & Epb & Hdel);
    [done|done|apply Hpg|done|done|by exists (Ok [e])|lia|lia|].
  rewrite Epb. unfold sv_take. destruct (Z.eqb_spec max_ix 0) as [E0|E0]; cbn [mbind outcome_bind].
  - do 2 eexists. split; [done|]. by eapply progress_take.
  - rewrite u64_add_exact by (apply in_u64_iff; lia). cbn [mbind outcome_bind]. do 2 eexists. split; [done|].
    eapply progress_take; [done..|]. intros _ _ Hc'. by rewrite (proj2 (Z.eqb_eq _ _)) by lia.
Qed.

Lemma recv_blob_beyond s queue seen unknown b : progress s queue seen -> beyond b ->
  exists s', recv_blob bt unknown max_ix interval s queue b = Some (Ret (s', queue)) /\ progress s' queue seen.
Proof.
  intros Hpg (Hm0 & ix & Hix & Hgt). pose proof (pg_range _ _ _ Hpg) as Hr. unfold recv_blob, blob_idx_in_window. rewrite Hix, bind_Ret.
  assert (negb (max_ix =? 0) && (max_ix <? ix) = true) as Hstop by (by rewrite (proj2 (Z.eqb_neq _ _) Hm0), (proj2 (Z.ltb_lt _ _) Hgt)).
  destruct (ix <? sv_consumed s); [|rewrite u64_add_exact by (apply in_u64_iff; lia)]; cbn -[Z.of_nat andb Z.eqb Z.ltb];
    rewrite ?Hstop, ?orb_true_r; (eexists; split; [done|]; by destruct Hpg).
Qed.

Lemma blob_index_unique j j' b : B j b -> B j' b -> j = j'.
Proof using Hbs.
  clear -Hbs. intros Hj Hj'. destruct (Hbs j b Hj) as (e & _ & [Hi _ _]), (Hbs j' b Hj') as (e' & _ & [Hi' _ _]).
  assert (start + Z.of_nat j = start + Z.of_nat j') by congruence. lia.
Qed.

Lemma within_not_beyond j b : B j b -> ~ beyond b.
Proof using Hbs Hupto.
  clear -Hbs Hupto. intros Hj (Hm0 & ix & Hix & Hgt). destruct (Hbs j b Hj) as (e & He & [Hi _ _]). apply lookup_lt_Some in He.
  assert (ix = start + Z.of_nat j) by congruence. destruct Hupto; lia.
Qed.

Lemma recv_blobs_progress dq s queue seen unknown : progress s queue seen -> Forall (fun b => (exists j, B j b) \/ beyond b) dq ->
  exists s' queue' seen', recv_blobs bt unknown max_ix interval s queue dq = Some (Ret (s', queue')) /\
    progress s' queue' seen' /\ seen ⊆ seen' /\ forall b j, b ∈ dq -> B j b -> j ∈ seen'.
Proof.
  revert s queue seen. induction dq as [|b dq IH]; intros s queue seen Hpg Hd.
  { exists s, queue, seen. split_and!; [done..|]. intros b j Hb. by apply elem_of_nil in Hb. }
  apply Forall_cons in Hd as [[[j Hj]|Hby] Hd].
  2: { destruct (recv_blob_beyond s queue seen unknown b Hpg Hby) as (s1 & E1 & Hpg1).
       destruct (IH s1 queue seen Hpg1 Hd) as (s' & q' & seen' & E & Hpg' & Hsub & Hall).
       exists s', q', seen'. cbn [recv_blobs]. rewrite E1. split_and!; [done..|].
       intros b' j' [->|Hb']%elem_of_cons Hj'; [by destruct (within_not_beyond j' b)|eauto]. }
  destruct (recv_blob_progress s queue seen unknown j b Hpg Hj) as (s1 & q1 & E1 & Hpg1).
  destruct (IH s1 q1 _ Hpg1 Hd) as (s' & q' & seen' & E & Hpg' & Hsub & Hall).
  exists s', q', seen'. cbn [recv_blobs]. rewrite E1. split_and!; [done..|set_solver|].
  intros b' j' Hb' Hj'. apply elem_of_cons in Hb' as [->|Hb']; [|eauto].
  rewrite (blob_index_unique j' j b) by done. set_solver.
Qed.

(** Nothing is missing once every blob was seen. *)
Lemma progress_complete s queue seen : progress s queue seen ->
  (forall j, (j < length es)%nat -> j ∈ seen) ->
  queue = es /\ sv_consumed s = start + Z.of_nat (length es) /\ (max_ix <> 0 -> es <> [] -> sv_done s = true).
Proof.
  intros [Hw Hh Hr -> Hp Hn Hd] Hall.
  assert (E : sv_consumed s = start + Z.of_nat (length es)).
  { destruct (decide (sv_consumed s = start + Z.of_nat (length es))) as [|Hne]; [done|]. exfalso.
    apply (Hn (Z.to_nat (sv_consumed s - start))); [lia|]. apply Hall. lia. }
  split_and!; [|done|intros; by apply Hd]. rewrite E. apply take_ge. lia.
Qed.

Lemma progress_start : progress (service_start default_window start false) [] ∅.
Proof.
  split; simpl; [| |lia|by rewrite Z.sub_diag|lia|set_solver|].
  - split; [apply length_replicate|]. intros i s Hs. apply lookup_replicate in Hs as [-> _]. by split.
  - split; [|set_solver]. intros i s b Hs. apply lookup_replicate in Hs as [-> _]. done.
  - intros _ Hes Hc. destruct es; [done|]. cbn [length] in Hc. lia.
Qed.
End AnyOrder.

Section Broadcasted.
Context `{Profile} `{ByteOrder} `{!ByteOrderOk} `{Bincode Pubkey} `{!PubkeyWire}
  `{Bincode Entry} `{!BincodeOk Entry}.

Lemma blobs_from_lookup i id start addr es bs : 0 <= start ->
  in_u64 (start + Z.of_nat i + Z.of_nat (length es)) = true -> blobs_from i id start addr es = Ret bs ->
  length bs = length es /\
  forall j b, bs !! j = Some b -> exists e, es !! j = Some e /\
    Entry_to_blob e (Some (start + Z.of_nat (i + j))) (Some id) (Some addr) = Ret b.
Proof.
  intros Hs. revert i bs. induction es as [|e es IH]; intros i bs Hu Hb.
  { injection Hb as <-. split; [done|]. intros j b Hj. by rewrite lookup_nil in Hj. }
  apply in_u64_iff in Hu. cbn [length blobs_from] in *.
  rewrite u64_add_exact in Hb by (apply in_u64_iff; lia). run Hb.
  destruct (IH (S i) x0) as [Hl Hlk]; [apply in_u64_iff; lia|done|]. split; [simpl; congruence|].
  intros [|j] b Hj; simplify_eq/=.
  - exists e. by rewrite Nat.add_0_r.
  - destruct (Hlk j b Hj) as (e' & ? & ?). exists e'. by replace (i + S j)%nat with (S (i + j)) by lia.
Qed.

(** [b] is a copy of the leader's [j]-th blob, which holds [e]. *)
Definition carries (start : Z) (id : Pubkey) (j : nat) (e : Entry) (b : Blob) : Prop :=
  wf b /\ shows b (mk_header (start + Z.of_nat j) id 0 (serialized_size e)) /\
  payload_starts b (serialize e) /\ wf e /\ serialized_size e <= BLOB_DATA_SIZE.

Lemma carries_blob_of start id j e b : carries start id j e b -> blob_of start j e b.
Proof.
  intros (Hb & Hsh & Hp & He & _). split; [apply Hsh| |].
  - destruct Hsh as (_ & _ & Hf & _). unfold is_coding. rewrite Hf. done.
  - by rewrite (reconstruct_cons b [] e (mk_header (start + Z.of_nat j) id 0 (serialized_size e))).
Qed.

(** What the leader's blobs look like to a validator. *)
Lemma broadcasted id start addr es bs : wf id -> 0 <= start ->
  in_u64 (start + Z.of_nat (length es)) = true -> Forall wf es ->
  Forall (fun e => serialized_size e <= BLOB_DATA_SIZE) es -> to_blobs_with_id es id start addr = Ret bs ->
  length bs = length es /\ forall j b, bs !! j = Some b -> exists e, es !! j = Some e /\ carries start id j e b.
Proof.
  intros Hid Hs Hu Hw Hz Hb. destruct (blobs_from_lookup 0 id start addr es bs) as [Hl Hlk];
    [done|by rewrite Z.add_0_r|done|]. split; [done|]. intros j b Hj.
  destruct (Hlk j b Hj) as (e & He & Eb). exists e. split; [done|].
  assert (Hlt := lookup_lt_Some _ _ _ He). apply in_u64_iff in Hu.
  pose proof (Forall_lookup_1 _ _ _ _ Hw He) as Hwe. pose proof (Forall_lookup_1 _ _ _ _ Hz He) as Hze.
  destruct (Entry_to_blob_spec e (start + Z.of_nat (0 + j)) id addr) as (b' & Eb' & Hb' & Hsh & Hp);
    [done|apply in_u64_iff; lia|done|].
  assert (b' = b) as -> by congruence. by split_and!.
Qed.

(** The size a header shows is the size of the metadata, less the header. *)
Lemma shows_size b h : shows b h -> 0 <= h_size h <= BLOB_DATA_SIZE ->
  get_data_size b = Ret (h_size h + 64) /\ m_size (b_meta b) = h_size h + 64.
Proof.
  intros (_ & _ & _ & Hs) Hz. rewrite BLOB_DATA_SIZE_eq in Hz. unfold get_size in Hs.
  apply bind_Ret_inv in Hs as (n & En & Hs). destruct (m_size (b_meta b) =? n) eqn:Em; [|done]. bool_prop.
  apply bind_Ret_inv in Hs as (k & Ek & Hs). injection Hs as ->.
  enough (n = h_size h + 64) by (subst n; split; congruence).
  pose proof En as Hn. unfold get_data_size in Hn. apply bind_Ret_inv in Hn as (x & Ex & Hn). injection Hn as <-.
  apply slice_length in Ex. pose proof (read_u64_range x Ex) as Hn. apply in_u64_iff in Hn.
  unfold u64_sub, arith, in_u64 in Ek. rewrite BLOB_HEADER_SIZE_eq in Ek. unfold u64_max, wrap_u64 in *.
  destruct (_ && _) eqn:E; [bool_prop; injection Ek as Ek; lia|]. destruct overflow_checks; [done|].
  injection Ek as Ek. destruct (decide (64 <= read_u64 x)); [rewrite Z.mod_small in Ek by lia; lia|].
  rewrite <- (Z.mod_add _ 1), Z.mod_small in Ek by lia. lia.
Qed.

Lemma copy_blob_returns b h : wf b -> shows b h -> 0 <= h_size h <= BLOB_DATA_SIZE -> returns (copy_blob b).
Proof.
  intros Hb Hsh Hz. destruct (shows_size b h Hsh Hz) as [_ Hm]. rewrite BLOB_DATA_SIZE_eq in Hz.
  pose proof BLOB_SIZE_Z. unfold copy_blob, wf, Blob_wf in *. rewrite slice_Ret by lia. rewrite bind_Ret.
  assert (length (b_data Blob_default) = BLOB_SIZE) by apply length_replicate.
  rewrite write_slice_Ret; [|lia|rewrite length_take, length_drop; lia]. rewrite bind_Ret. by eexists.
Qed.

Lemma retransmits_return dq w maybe_leader id :
  Forall (fun b => wf b /\ exists h, shows b h /\ h_id h = id /\ 0 <= h_size h <= BLOB_DATA_SIZE) dq ->
  exists q, queue_retransmits w maybe_leader dq false = Ret (w, false, q).
Proof.
  intros Hdq. destruct maybe_leader as [l|]; [|by exists []]. simpl.
  enough (Hq : forall q, exists q',
    ofold (fun q b => add_block_to_retransmit_queue b (ni_id l) q) q dq = Ret q').
  { destruct (Hq []) as [q ->]. by exists q. }
  induction Hdq as [|b dq (Hb & h & Hsh & _ & Hz) _ IH]; intros q; [by exists q|].
  cbn [ofold]. assert (exists q1, add_block_to_retransmit_queue b (ni_id l) q = Ret q1) as [q1 ->].
  { unfold add_block_to_retransmit_queue. pose proof Hsh as (_ & -> & _).
    cbn [mbind outcome_bind unwrap_result]. destruct (bool_decide (h_id h = ni_id l)); [|by eexists].
    destruct (copy_blob_returns b h Hb Hsh Hz) as [nv ->]. by eexists. }
  apply IH.
Qed.

(** Copies of the leader's blobs, received in any order and with repeats; a
    service that is to stop at [max_ix] ignores those beyond it. *)
Lemma carried_delivers_upto bt es id start max_ix interval first more :
  max_ix = 0 \/ max_ix = start + Z.of_nat (length es) - 1 ->
  bt_ok bt -> interval <> 0 -> 0 <= start -> start + Z.of_nat (2 * WINDOW_SIZE) <= u64_max ->
  (length es <= WINDOW_SIZE)%nat ->
  (forall c, start <= c < start + Z.of_nat (length es) -> ~ leads_at bt interval c) ->
  Forall (fun b => exists j e, carries start id j e b /\ (es !! j = Some e \/ max_ix <> 0 /\ max_ix < start + Z.of_nat j))
    (first ++ concat more) ->
  (forall j e, es !! j = Some e -> exists b, b ∈ first ++ concat more /\ carries start id j e b) ->
  exists s' q, recv_window (service_start default_window start false) bt max_ix interval (Ok first) more true true =
      Some (Ret (s', Ok (mk_sent es q))) /\
    sv_consumed s' = start + Z.of_nat (length es) /\ (max_ix <> 0 -> es <> [] -> sv_done s' = true).
Proof.
  intros Hupto Hbt Hi Hs Hu Hlen Hturn Hdq Hall. set (dq := first ++ concat more) in *.
  set (B := fun j b => exists e, es !! j = Some e /\ carries start id j e b).
  assert (Hbs : forall j b, B j b -> exists e, es !! j = Some e /\ blob_of start j e b).
  { intros j b (e & He & Hc). exists e. split; [done|]. by eapply carries_blob_of. }
  assert (exists l, leader_data bt = Ret l) as [l Hld].
  { unfold leader_data. destruct (my_data_returns bt Hbt) as [me ->]. simpl. case_bool_decide; eauto. }
  destruct (retransmits_return dq default_window l id) as [q Hq].
  { eapply Forall_impl; [done|]. intros b (j & e & (Hb & Hsh & _ & _ & Hz) & _). split; [done|]. eexists.
    split; [done|]. simpl. split; [done|]. unfold serialized_size in *. lia. }
  assert (Hdq' : Forall (fun b => (exists j, B j b) \/ beyond max_ix b) dq).
  { eapply Forall_impl; [done|]. intros b (j & e & Hc & [He|[Hm0 Hgt]]); [left; by exists j, e|right]. split; [done|].
    exists (start + Z.of_nat j). split; [|done]. by destruct Hc as (_ & (Hix & _) & _). }
  destruct (recv_blobs_progress bt interval start max_ix es B) with
    (dq := dq) (s := service_start default_window start false) (queue := @nil Entry) (seen := (∅ : gset nat))
    (unknown := bool_decide (l = None)) as (s' & q' & seen & Er & Hpg & _ & Hseen); try done.
  { by apply (progress_start bt interval). }
  destruct (progress_complete start max_ix es B) with (s := s') (queue := q') (seen := seen) as (-> & Hc & Hdone); try done.
  { intros j Hj. destruct (lookup_lt_is_Some_2 es j Hj) as [e He]. destruct (Hall j e He) as (b & Hin & Hb).
    apply (Hseen b j); [done|by exists e]. }
  exists s', q. split; [|done]. unfold recv_window. fold dq. rewrite Hld, bind_Ret.
  unfold retransmit_all_leader_blocks. simpl sv_window. simpl sv_pending_retransmits. rewrite Hq.
  cbn [mbind outcome_bind]. rewrite orb_true_r.
  change (sv_set_window default_window false (service_start default_window start false))
    with (service_start default_window start false).
  rewrite Er. by rewrite orb_true_r.
Qed.

Lemma carried_delivers bt es id start interval first more :
  bt_ok bt -> interval <> 0 -> 0 <= start -> start + Z.of_nat (2 * WINDOW_SIZE) <= u64_max ->
  (length es <= WINDOW_SIZE)%nat ->
  (forall c, start <= c < start + Z.of_nat (length es) -> ~ leads_at bt interval c) ->
  Forall (fun b => exists j e, es !! j = Some e /\ carries start id j e b) (first ++ concat more) ->
  (forall j e, es !! j = Some e -> exists b, b ∈ first ++ concat more /\ carries start id j e b) ->
  exists s' q, recv_window (service_start default_window start false) bt 0 interval (Ok first) more true true =
      Some (Ret (s', Ok (mk_sent es q))) /\
    sv_consumed s' = start + Z.of_nat (length es).
Proof.
  intros Hbt Hi Hs Hu Hlen Hturn Hdq Hall.
  destruct (carried_delivers_upto bt es id start 0 interval first more) as (s' & q & E & Hc & _); try done; [by left| |by exists s', q].
  eapply Forall_impl; [exact Hdq|]. intros b (j & e & He & Hb). exists j, e. auto.
Qed.

(** C10: a validator that starts at [start] and receives the blobs a leader
    made of a block, in any order, over one or several messages and with any
    of them repeated, passes on exactly the leader's entries, in order, and
    has consumed all of them, unless its own turn to lead comes within the
    block. *)
Theorem window_delivers_any_order : forall bt es id start addr bs first more interval,
  bt_ok bt -> interval <> 0 -> wf id -> 0 <= start -> start + Z.of_nat (2 * WINDOW_SIZE) <= u64_max ->
  (length es <= WINDOW_SIZE)%nat -> Forall wf es ->
  Forall (fun e => serialized_size e <= BLOB_DATA_SIZE) es ->
  to_blobs_with_id es id start addr = Ret bs ->
  (forall c, start <= c < start + Z.of_nat (length es) -> ~ leads_at bt interval c) ->
  (forall b, b ∈ first ++ concat more <-> b ∈ bs) ->
  exists s' q, recv_window (service_start default_window start false) bt 0 interval (Ok first) more true true =
      Some (Ret (s', Ok (mk_sent es q))) /\
    sv_consumed s' = start + Z.of_nat (length es).
Proof.
  intros bt es id start addr bs first more interval Hbt Hi Hid Hs Hu Hlen Hw Hz Hb Hturn Hdq.
  destruct (broadcasted id start addr es bs) as [Hl Hlk]; [done|done|apply in_u64_iff; lia|done..|].
  apply (carried_delivers bt es id); [done..| |].
  - apply Forall_forall. intros b Hin. apply Hdq, list_elem_of_lookup in Hin as [j Hj]. exists j. eauto.
  - intros j e He. destruct (lookup_lt_is_Some_2 bs j) as [b Hj]; [apply lookup_lt_Some in He; lia|].
    exists b. split; [apply Hdq; by eapply list_elem_of_lookup_2|].
    destruct (Hlk j b Hj) as (e' & He' & Hc). by simplify_eq.
Qed.
End Broadcasted.

(** ** Witnesses *)

Module WindowWitness.
Import Toy EntryCodec EntryWitness.
#[local] Existing Instances sha entry_bincode entry_ok entry_wire FinPlanCodec.instruction_bincode
  PacketWitness.le PacketWitness.le_ok PacketWitness.pk PacketWitness.pk_ok.
#[local] Instance wrapping : Profile := false.
Definition bt : BlockThread := BlockThreadWitness.a0.
Definition here : SocketAddr := V4 [Byte.x7f; Byte.x00; Byte.x00; Byte.x01] 8000.
Definition tick : Entry := Entry_new_tick 3 (next_id start 3 []).

Lemma bt_is_ok : bt_ok bt.
Proof. by apply (bt_new_ok (BlockThreadWitness.node Byte.x01)). Qed.

Lemma chain_sizes : Forall (fun e => serialized_size e <= BLOB_DATA_SIZE) chain.
Proof. repeat constructor; vm_compute; discriminate. Qed.

Lemma default_window_ok c : win_ok default_window c.
Proof.
  split; [apply length_replicate|]. intros i s Hs. apply lookup_replicate in Hs as [-> _]. by split.
Qed.

(** The first blob of the chain, taken by an empty window. *)
Lemma process_blob_delivers_witness :
  exists blob, Entry_to_blob tick (Some 10) (Some (key 7)) (Some here) = Ret blob /\
  exists w' es consumed' pending',
    process_blob default_window bt blob 10 [] 10 false false 100 =
      Some (Ret (w', [] ++ es, consumed', pending')) /\
    win_ok w' consumed' /\ 10 <= consumed' <= 10 + Z.of_nat WINDOW_SIZE /\
    run_of (with_blob default_window blob 10 false) 10 consumed' es /\
    (duplicate default_window 10 false -> consumed' = 10 /\ pending' = false) /\
    (~ duplicate default_window 10 false -> pending' = true /\
       stops_at bt (with_blob default_window blob 10 false) 100 consumed') /\
    (same_data w' (with_blob default_window blob 10 false) \/
     undecodable_at (with_blob default_window blob 10 false) consumed').
Proof.
  assert (Hz : serialized_size tick <= BLOB_DATA_SIZE) by (vm_compute; discriminate).
  assert (Ht : wf tick) by apply (Forall_inv chain_wf).
  destruct (Entry_to_blob_spec tick 10 (key 7) here) as (b & Eb & Hb & Hsh & Hp); [reflexivity|reflexivity|done|].
  exists b. split; [done|]. pose proof WINDOW_SIZE_Z.
  apply process_blob_delivers; [apply bt_is_ok|done|apply default_window_ok| |apply Hsh| |lia|unfold u64_max; lia].
  - destruct Hsh as (_ & _ & Hf & _). unfold is_coding. by rewrite Hf.
  - erewrite reconstruct_cons by done. by eexists.
Defined.

(** The two blobs of the chain, received backwards and then once more. *)
Lemma window_delivers_witness :
  exists bs, to_blobs_with_id chain (key 7) 10 here = Ret bs /\
  exists s' q, recv_window (service_start default_window 10 false) bt 0 100 (Ok (reverse bs)) [bs] true true =
      Some (Ret (s', Ok (mk_sent chain q))) /\
    sv_consumed s' = 10 + Z.of_nat (length chain).
Proof.
  destruct (blobs_from_spec 0 (key 7) 10 here chain) as (bs & Eb & _);
    [reflexivity|lia|reflexivity|apply chain_wf|apply chain_sizes|].
  exists bs. split; [done|]. pose proof WINDOW_SIZE_Z.
  apply (window_delivers_any_order bt chain (key 7) 10 here bs);
    [apply bt_is_ok|done|reflexivity|lia|unfold u64_max; lia|simpl; lia|apply chain_wf|apply chain_sizes|done| |].
  - intros c Hc (_ & Hm & _). simpl in Hc. rewrite Z.mod_small in Hm by lia. lia.
  - intros b. simpl. rewrite app_nil_r, elem_of_app, elem_of_reverse. tauto.
Defined.
End WindowWitness.
