(* ===== verification/TransactionStage.v ===== *)
(** * The leader's transaction stage

    [src/transaction_processoring_stage.rs]: decoding the packets that were
    received and checked, executing the transactions in chunks that fit an
    entry, recording the accepted ones; and the ticks of the other thread.
    The properties relate the leader to a node that replays its entries.

    The recorder holds the processor ([PodRecorder]'s [pr_tp]), as the source's
    recorder and stage share one. *)

From S2P Require Import Prelude.
From S2P Require Import Types.
From S2P Require Import Codec.
From S2P Require Import Packet.
From S2P Require Import FinPlan.
From S2P Require Import FinPlanProgram.
From S2P Require Import SystemProgram.
From S2P Require Import Transactions.
From S2P Require Import Entry.
From S2P Require Import Block.
From S2P Require Import Processor.
From S2P Require Import ProcessorLaws.
From S2P Require Import Replay.
From S2P Require Import ProcessorRuns.

(** A packet: a buffer and its metadata. *)
Record Packet := mk_packet { p_data : bytes; p_meta : Meta }.

Inductive StageError := StageSendError.

Section Stage.
Context `{Profile} `{Libloading} `{!Games} `{Sha256} `{Bincode Entry} `{Bincode Transaction}
  `{Bincode SystemInstruction} `{Bincode Instruction} `{Bincode FinPlanState} `{Bincode U64}
  `{Bincode StorageInstruction}.

(** [deserialize(&x.data[0..x.meta.size])] for every packet. *)
Fixpoint deserialize_transactions (packets : list Packet) : outcome (list (option (Transaction * SocketAddr))) :=
  match packets with
  | [] => Ret []
  | x :: rest =>
      d ← slice (p_data x) 0 (Z.to_nat (m_size (p_meta x)));
      r ← (match deserialize (A := Transaction) d with
           | Some req => addr ← Meta_get_addr (p_meta x); Ret (Some (req, addr))
           | None => Ret None
           end);
      rs ← deserialize_transactions rest;
      Ret (r :: rs)
  end.

(** The accepted transactions: [results[i]] for the [i]-th. *)
Fixpoint accepted (txs : list Transaction) (results : list (Res unit)) : outcome (list Transaction) :=
  match txs, results with
  | [], _ => Ret []
  | _ :: _, [] => Panic
  | tx :: txs', r :: results' =>
      rest ← accepted txs' results'; Ret (if is_ok r then tx :: rest else rest)
  end.

(** One turn of [process_transactions]'s loop, for the chunk [txs]. *)
Definition process_chunk (pr : PodRecorder) (txs : list Transaction) (now : Z)
    : outcome (result unit StageError * PodRecorder) :=
  '(results, tp) ← Processor.process_transactions (pr_tp pr) txs;
  let pr1 := mk_recorder (pr_pod pr) tp (pr_sent pr) (pr_open pr) in
  processed ← accepted txs results;
  if bool_decide (processed = []) then Ret (Ok tt, pr1)
  else
    '(sent, pr2) ← pr_record pr1 (transactions_hash processed) processed now;
    Ret (if (sent : bool) then Ok tt else Err StageSendError, pr2).

(** [process_transactions]: [clock] is read once per chunk.  [None] when the
    loop has not ended within the fuel. *)
Fixpoint stage_transactions (fuel : nat) (clock : nat -> Z) (pr : PodRecorder) (txs : list Transaction)
    : option (outcome (result unit StageError * PodRecorder)) :=
  match fuel with
  | O => None
  | S fuel' =>
      if bool_decide (txs = []) then Some (Ret (Ok tt, pr))
      else
        match num_will_fit txs with
        | None => None
        | Some n =>
            match process_chunk pr (take n txs) (clock O) with
            | Panic => Some Panic
            | Ret (Err e, pr') => Some (Ret (Err e, pr'))
            | Ret (Ok _, pr') => stage_transactions fuel' (fun i => clock (S i)) pr' (drop n txs)
            end
        end
  end.

(** The transactions of a batch that decode, have a valid plan and were found
    to be signed. *)
Fixpoint verified_transactions (txs : list (option (Transaction * SocketAddr))) (vers : list Z)
    : outcome (list Transaction) :=
  match txs, vers with
  | tx :: txs', ver :: vers' =>
      keep ← (match tx with
              | None => Ret None
              | Some (tx, _) => ok ← verify_plan tx; Ret (if (ok : bool) && negb (ver =? 0) then Some tx else None)
              end);
      rest ← verified_transactions txs' vers';
      Ret (match keep with Some tx => tx :: rest | None => rest end)
  | _, _ => Ret []
  end.

(** [process_packets] on the batches received. *)
Fixpoint process_packets (clock : nat -> nat -> Z) (pr : PodRecorder) (mms : list (list Packet * list Z))
    : option (outcome (result unit StageError * PodRecorder)) :=
  match mms with
  | [] => Some (Ret (Ok tt, pr))
  | (msgs, vers) :: rest =>
      match (ts ← deserialize_transactions msgs; verified_transactions ts vers) with
      | Panic => Some Panic
      | Ret txs =>
          match stage_transactions (S (length txs)) (clock O) pr txs with
          | None => None
          | Some Panic => Some Panic
          | Some (Ret (Err e, pr')) => Some (Ret (Err e, pr'))
          | Some (Ret (Ok _, pr')) => process_packets (fun i => clock (S i)) pr' rest
          end
      end
  end.

(** One turn of [tick_producer] with [Config::Tick(num)] ([Config::Sleep] is
    [num = 0]). *)
Fixpoint pod_hashes (num : nat) (pr : PodRecorder) : outcome PodRecorder :=
  match num with O => Ret pr | S n => pr' ← pr_hash pr; pod_hashes n pr' end.
Definition tick_turn (num : nat) (pr : PodRecorder) (now : Z) : outcome (bool * PodRecorder) :=
  pr' ← pod_hashes num pr; pr_tick pr' now.
End Stage.

(** ** A replica follows the leader *)

(** The elements of [l] that [keep] marks. *)
Fixpoint sel {A} (keep : list bool) (l : list A) : list A :=
  match keep, l with
  | true :: keep', x :: l' => x :: sel keep' l'
  | false :: keep', _ :: l' => sel keep' l'
  | _, _ => []
  end.

(** A system transaction that loads a native program. *)
Definition is_load `{Bincode SystemInstruction} (tx : Transaction) : bool :=
  System_check_id (tx_program_id tx) &&
  match deserialize (A := SystemInstruction) (tx_userdata tx) with Some (Load _ _) => true | _ => false end.

Section Followers.
Context `{Profile} `{Libloading} `{!Games} `{Bincode SystemInstruction} `{Bincode Instruction}
  `{Bincode FinPlanState} `{Bincode U64} `{Bincode StorageInstruction}.

(** [V] knows the entry ids [L] does, and no signature [L] does not. *)
Definition knows_less (L V : TransactionProcessor) : Prop :=
  (forall h, is_Some (tp_last_ids_sigs V !! h) <-> is_Some (tp_last_ids_sigs L !! h)) /\
  (forall p, seen V p -> seen L p).

(** The replica [V] of [L]: the same accounts, programs, ids and count.  They
    may differ in the signatures of rejected transactions, in the recorded
    times and in who is leader. *)
Record follows (L V : TransactionProcessor) : Prop := {
  fo_accounts : tp_accounts V = tp_accounts L;
  fo_contracts : tp_loaded_contracts V = tp_loaded_contracts L;
  fo_ids : tp_last_ids V = tp_last_ids L;
  fo_count : tp_transaction_count V = tp_transaction_count L;
  fo_u64 : in_u64 (tp_transaction_count L) = true;
  fo_sigs : knows_less L V }.

Lemma knows_less_remembers L L' V : knows_less L V -> remembers L L' -> knows_less L' V.
Proof. intros [Hk Hs] [Hs' Hk']. split; [|auto]. intros h. by rewrite Hk, Hk'. Qed.

(** Writing the signatures under a known id. *)
Lemma knows_less_insert L V id sg mL tL mV tV rL rV :
  knows_less L V -> tp_last_ids_sigs L !! id = Some (mL, tL) -> tp_last_ids_sigs V !! id = Some (mV, tV) ->
  knows_less (set_sigs (<[id := (<[sg := rL]> mL, tL)]> (tp_last_ids_sigs L)) L)
             (set_sigs (<[id := (<[sg := rV]> mV, tV)]> (tp_last_ids_sigs V)) V).
Proof.
  intros [Hk Hs] HL HV. split.
  - intros h. simpl. destruct (decide (id = h)) as [->|]; [|by rewrite !lookup_insert_ne].
    rewrite !lookup_insert_eq. by split; eauto.
  - intros [h s]. unfold seen. simpl. destruct (decide (id = h)) as [->|].
    + rewrite !lookup_insert_eq. intros (e & [= <-] & Hs'). eexists. split; [done|]. simpl in *.
      destruct (decide (sg = s)) as [->|]; [rewrite lookup_insert_eq; eauto|].
      rewrite lookup_insert_ne in * by done. destruct (Hs (h, s)) as (e & He & Hse).
      { exists (mV, tV). by split. }
      simpl in *. by simplify_eq/=.
    + rewrite !lookup_insert_ne by done. apply (Hs (h, s)).
Qed.

Lemma reserve_follows L V sg id L' : knows_less L V ->
  reserve_signature_with_last_id L sg id = (L', Ok tt) ->
  exists V', reserve_signature_with_last_id V sg id = (V', Ok tt) /\ knows_less L' V' /\ sigs_only V V'.
Proof.
  intros Hkn Hr. pose proof (reserve_remembers _ _ _ _ _ Hr) as [_ Hok]. destruct (Hok eq_refl) as [Hns _].
  unfold reserve_signature_with_last_id, reserve_signature in *.
  destruct (tp_last_ids_sigs L !! id) as [[mL tL]|] eqn:HL; [|done].
  destruct (mL !! sg) eqn:HsL; [done|]. simplify_eq/=.
  destruct (proj2 (proj1 Hkn id)) as [[mV tV] HV]; [eauto|]. rewrite HV.
  destruct (mV !! sg) as [x|] eqn:HsV.
  { exfalso. apply Hns, (proj2 Hkn). exists (mV, tV). simpl. rewrite HsV. eauto. }
  eexists. split; [done|]. split; [|done]. by apply knows_less_insert.
Qed.

Lemma load_account_follows L V tx m ec ecV accs L' ec' : knows_less L V ->
  load_account L tx m ec = Ret (Ok accs, L', ec') ->
  exists V' ecV', load_account V tx m ecV = Ret (Ok accs, V', ecV') /\ knows_less L' V' /\ sigs_only V V'.
Proof.
  intros Hkn. unfold load_account. destruct (index (tx_keys tx) 0) as [k0|]; [|done]. rewrite !bind_Ret.
  destruct (m !! k0) as [a0|]; [|intros Hl; by run Hl].
  destruct (tokens a0 <? tx_fee tx); [by intros Hl; run Hl|].
  destruct (reserve_signature_with_last_id L _ _) as [L1 [[]|e]] eqn:Hr; [|by intros Hl; run Hl].
  destruct (reserve_follows _ _ _ _ _ Hkn Hr) as (V1 & -> & Hkn1 & Hso). intros Hl.
  apply bind_Ret_inv in Hl as (c0 & -> & Hl). apply bind_Ret_inv in Hl as (t & Ht & Hl). 
  apply bind_Ret_inv in Hl as (cs & Hcs & Hl). simplify_eq. rewrite bind_Ret, Ht, bind_Ret, Hcs, bind_Ret.
  eauto 10.
Qed.

Lemma load_accounts_follows keep L V txs m ec ecV rs L' ec' : knows_less L V ->
  load_accounts L txs m ec = Ret (rs, L', ec') -> Forall2 (fun k r => k = true -> is_ok r = true) keep rs ->
  exists V' ecV', load_accounts V (sel keep txs) m ecV = Ret (sel keep rs, V', ecV') /\ knows_less L' V' /\
    sigs_only V V'.
Proof.
  revert keep L V ec ecV rs. induction txs as [|tx txs IH]; intros keep L V ec ecV rs Hkn Hl Hk; simpl in Hl.
  { simplify_eq. apply Forall2_nil_inv_r in Hk as ->. exists V, ecV. split_and!; [done..|].
    unfold sigs_only. by rewrite set_sigs_same. }
  apply bind_Ret_inv in Hl as ([[r L1] ec1] & Hl1 & Hl). apply bind_Ret_inv in Hl as ([[rs' L2] ec2] & Hl2 & Hl).
  simplify_eq/=. apply Forall2_cons_inv_r in Hk as (k & keep' & Hk1 & Hk & ->).
  destruct k; cbn [sel load_accounts].
  - destruct r as [accs|]; [|by specialize (Hk1 eq_refl)].
    destruct (load_account_follows _ _ _ _ _ ecV _ _ _ Hkn Hl1) as (V1 & ecV1 & -> & Hkn1 & Hso1).
    destruct (IH keep' L1 V1 ec1 ecV1 rs') as (V2 & ecV2 & E2 & Hkn2 & Hso2); [done..|].
    rewrite bind_Ret, E2, bind_Ret. exists V2, ecV2. split_and!; [done..|]. unfold sigs_only in *.
    by rewrite Hso2, Hso1.
  - apply (IH keep' L1 V ec1 ecV rs'); [|done..]. eapply knows_less_remembers; [done|].
    by apply load_account_remembers in Hl1 as [? _].
Qed.

(** A rejected transaction leaves the loaded programs alone. *)
Lemma system_process_programs tx accs lp accs' lp' :
  match deserialize (A := SystemInstruction) (tx_userdata tx) with Some (Load _ _) => False | _ => True end ->
  system_process tx accs lp = Ret (accs', lp') -> lp' = lp.
Proof.
  unfold system_process. intros Hn Hs.
  destruct (deserialize (tx_userdata tx)) as [[n space pid|pid|n|pid name]|]; [by run Hs..|done|by run Hs].
Qed.

Lemma execute_programs tx accs lp accs' lp' r : is_load tx = false ->
  execute_transaction tx accs lp = Ret (accs', lp', r) -> lp' = lp.
Proof.
  unfold execute_transaction, is_load, dispatch. intros Hn He.
  apply bind_Ret_inv in He as (pre & _ & He). apply bind_Ret_inv in He as ([[a1 l1] r1] & Hd & He).
  assert (lp' = l1) as -> by (by run He). clear He.
  destruct (System_check_id (tx_program_id tx)) eqn:Esys; [|by run Hd; repeat case_match; simplify_eq].
  apply bind_Ret_inv in Hd as ([a2 l2] & Hs & Hd). simplify_eq/=.
  eapply system_process_programs; [|done].
  by destruct (deserialize (tx_userdata tx)) as [[]|].
Qed.

Lemma execute_all_follows txs loaded lp loaded' res lp' : Forall (fun tx => is_load tx = false) txs ->
  length txs = length loaded -> execute_all txs loaded lp = Ret (loaded', res, lp') ->
  let keep := is_ok <$> res in
  length res = length txs /\ length loaded' = length txs /\
  execute_all (sel keep txs) (sel keep loaded) lp = Ret (sel keep loaded', sel keep res, lp') /\
  Forall2 (fun k (r : Res (list Account)) => k = true -> is_ok r = true) keep loaded.
Proof.
  intros Hn. revert loaded lp loaded' res. induction Hn as [|tx txs Htx Hn IH];
    intros [|acc loaded] lp loaded' res Hlen He; try discriminate.
  { simpl in He. simplify_eq. split_and!; done || constructor. }
  cbn [execute_all] in He. apply bind_Ret_inv in He as ([[acc' r] lp1] & Hx & He).
  apply bind_Ret_inv in He as ([[accs rs] lp2] & Hx2 & He). simplify_eq/=.
  destruct (IH loaded lp1 accs rs) as (Hl1 & Hl2 & Hrest & Hk); [lia|done|]. split_and!; [lia|lia| |].
  - destruct acc as [as0|e].
    + apply bind_Ret_inv in Hx as ([[as1 lp1'] r1] & Hex & Hx). simplify_eq/=.
      destruct r as [[]|e]; cbn [is_ok sel execute_all].
      * by rewrite Hex, !bind_Ret, Hrest.
      * by rewrite <- (execute_programs _ _ _ _ _ _ Htx Hex).
    + by simplify_eq/=.
  - constructor; [|done]. destruct acc; [done|by simplify_eq/=].
Qed.

Lemma store_accounts_follows txs res loaded m m' : length res = length txs -> length loaded = length txs ->
  store_accounts txs res loaded m = Ret m' ->
  let keep := is_ok <$> res in store_accounts (sel keep txs) (sel keep res) (sel keep loaded) m = Ret m'.
Proof.
  revert res loaded m. induction txs as [|tx txs IH]; intros [|r res] [|l loaded] m Hl1 Hl2 Hs; try discriminate;
    [done|]. injection Hl1 as Hl1. injection Hl2 as Hl2. cbn [store_accounts] in Hs.
  destruct r as [[]|e]; [destruct l as [accs|e]|]; cbn; by apply IH.
Qed.

Lemma update_statuses_follows L V txs res L' : knows_less L V -> length res = length txs ->
  update_transaction_statuses L txs res = Ret L' ->
  let keep := is_ok <$> res in
  exists V', update_transaction_statuses V (sel keep txs) (sel keep res) = Ret V' /\ knows_less L' V' /\
    sigs_only V V'.
Proof.
  revert L V res. induction txs as [|tx txs IH]; intros L V [|r res] Hkn Hlen Hu; try discriminate; simpl in Hu.
  { simplify_eq. exists V. split_and!; try done. unfold sigs_only. by rewrite set_sigs_same. }
  injection Hlen as Hlen. set (L1 := update_signature_status_with_last_id L _ _ _) in Hu.
  assert (HL1 : remembers L L1).
  { apply (update_statuses_remembers L [tx] [r]). done. }
  destruct r as [u|e]; cbn [fmap list_fmap is_ok sel update_transaction_statuses].
  - set (V1 := update_signature_status_with_last_id V (tx_signature tx) (Ok u) (tx_last_id tx)).
    assert (knows_less L1 V1 /\ sigs_only V V1) as [Hkn1 Hso1].
    { unfold L1, V1, update_signature_status_with_last_id, update_signature_status.
      destruct (tp_last_ids_sigs L !! tx_last_id tx) as [[mL tL]|] eqn:EL.
      - destruct (proj2 (proj1 Hkn (tx_last_id tx))) as [[mV tV] EV]; [eauto|]. rewrite EV.
        split; [by apply knows_less_insert|done].
      - destruct (tp_last_ids_sigs V !! tx_last_id tx) as [e|] eqn:EV.
        + destruct (proj1 (proj1 Hkn (tx_last_id tx))) as [? ?]; [eauto|congruence].
        + split; [done|]. unfold sigs_only. by rewrite set_sigs_same. }
    destruct (IH L1 V1 res Hkn1 Hlen Hu) as (V' & E & ? & Hso). exists V'. split_and!; [done..|].
    unfold sigs_only in *. by rewrite Hso, Hso1.
  - apply (IH L1); [by eapply knows_less_remembers|done|done].
Qed.

Lemma accepted_sel txs res : length res = length txs -> accepted txs res = Ret (sel (is_ok <$> res) txs).
Proof.
  revert res. induction txs as [|tx txs IH]; intros [|r res] Hl; try discriminate; [done|].
  cbn [accepted]. rewrite IH by (by injection Hl). by destruct r.
Qed.

Lemma sel_ok (res : list (Res unit)) : Forall (fun r => r = Ok tt) (sel (is_ok <$> res) res).
Proof. induction res as [|[[]|e] res IH]; cbn; [constructor|by constructor|done]. Qed.

Lemma sel_count (res : list (Res unit)) :
  filter (fun r => is_ok r = true) (sel (is_ok <$> res) res) = filter (fun r => is_ok r = true) res.
Proof.
  induction res as [|[[]|e] res IH]; cbn [fmap list_fmap is_ok sel]; [done| |].
  - rewrite !filter_cons_True by done. by rewrite IH.
  - by rewrite filter_cons_False.
Qed.

(** The batch of the transactions [L] accepted, on a replica. *)
Lemma process_transactions_follows L V txs res L' : follows L V -> Forall (fun tx => is_load tx = false) txs ->
  process_transactions L txs = Ret (res, L') ->
  length res = length txs /\
  exists res' V', process_transactions V (sel (is_ok <$> res) txs) = Ret (res', V') /\
    Forall (fun r => r = Ok tt) res' /\ follows L' V'.
Proof.
  intros [Ha Hc Hi Hn Hu64 Hk] Hload Hp. unfold process_transactions in Hp.
  apply bind_Ret_inv in Hp as ([[loaded L1] ec] & Hl & Hp).
  pose proof (load_accounts_spec _ _ _ _ _ _ _ Hl) as [HL1 Hl2]. apply Forall2_length in Hl2.
  apply bind_Ret_inv in Hp as ([[loaded' res'] lp] & He & Hp).
  destruct (execute_all_follows _ _ _ _ _ _ Hload Hl2 He) as (Hr & Hl' & HeV & Hkeep).
  apply bind_Ret_inv in Hp as (m & Hm & Hp). apply bind_Ret_inv in Hp as (L2 & Hu & Hp).
  apply bind_Ret_inv in Hp as (n & Hadd & Hp). injection Hp as <- <-.
  split; [done|]. set (keep := is_ok <$> res') in *.
  destruct (load_accounts_follows keep L V txs (tp_accounts L) _ ErrorCounters_default _ _ _ Hk Hl Hkeep)
    as (V1 & ecV & ElV & Hkn1 & Hso1).
  assert (HV1 : tp_accounts V1 = tp_accounts V /\ tp_loaded_contracts V1 = tp_loaded_contracts V)
    by (by rewrite Hso1). destruct HV1 as [HVa HVc].
  assert (HLa : tp_accounts L1 = tp_accounts L /\ tp_loaded_contracts L1 = tp_loaded_contracts L)
    by (by rewrite HL1). destruct HLa as [HLa HLc].
  destruct (update_statuses_follows (set_accounts m (set_contracts lp L1)) (set_accounts m (set_contracts lp V1))
    txs res' L2) as (V2 & EuV & Hkn2 & Hso2); [done|done|done|].
  apply update_statuses_spec in Hu.
  assert (HcV : tp_transaction_count V2 = tp_transaction_count L2).
  { rewrite Hso2, Hu. simpl. rewrite Hso1, HL1. done. }
  unfold process_transactions. rewrite Ha, ElV, bind_Ret. cbv beta iota.
  rewrite HVc, Hc, <- HLc, HeV, bind_Ret. cbv beta iota.
  pose proof (store_accounts_follows _ _ _ _ _ Hr Hl' Hm) as HsV. cbv zeta in HsV. fold keep in HsV.
  rewrite HVa, Ha, <- HLa, HsV, bind_Ret.
  fold keep in EuV. rewrite EuV, bind_Ret. unfold keep. rewrite sel_count, HcV, Hadd, bind_Ret.
  eexists _, _. split_and!; [done|apply sel_ok|]. split; simpl; [|by rewrite Hso2, Hu| |done|apply wrap_u64_in|done].
  - by rewrite Hso2, Hu.
  - rewrite Hso2, Hu. simpl. by rewrite Hso1, HL1.
Qed.

Lemma register_fields (tp : TransactionProcessor) id now :
  tp_accounts (register_entry_id tp id now) = tp_accounts tp /\
  tp_loaded_contracts (register_entry_id tp id now) = tp_loaded_contracts tp /\
  tp_transaction_count (register_entry_id tp id now) = tp_transaction_count tp /\
  tp_last_ids (register_entry_id tp id now) =
    (if (MAX_ENTRY_IDS <=? length (tp_last_ids tp))%nat then tail (tp_last_ids tp) else tp_last_ids tp) ++ [id].
Proof.
  unfold register_entry_id. destruct (_ <=? _)%nat; [|done]. by destruct (tp_last_ids tp) as [|f rest].
Qed.

Lemma register_follows L V id nowL nowV : follows L V ->
  follows (register_entry_id L id nowL) (register_entry_id V id nowV).
Proof.
  intros [Ha Hc Hi Hn Hu64 [Hk Hs]].
  assert (Hsig : forall tp (now : Z) h, is_Some (tp_last_ids_sigs (register_entry_id tp id now) !! h) <->
    h = id \/ ~ ((MAX_ENTRY_IDS <= length (tp_last_ids tp))%nat /\ head (tp_last_ids tp) = Some h) /\
              is_Some (tp_last_ids_sigs tp !! h)).
  { intros tp now h. rewrite register_sigs. repeat case_decide; naive_solver. }
  destruct (register_fields L id nowL) as (HLa & HLc & HLn & HLi).
  destruct (register_fields V id nowV) as (HVa & HVc & HVn & HVi).
  split; [congruence|congruence|by rewrite HVi, HLi, Hi|congruence|congruence|]. split.
  - intros h. rewrite !Hsig, Hi, Hk. done.
  - intros [h sg] (e & He & Hsg). simpl in *. unfold seen. simpl. rewrite register_sigs in *. rewrite <- Hi.
    repeat case_decide; [by simplify_eq/=; rewrite lookup_empty in Hsg; destruct Hsg|done|].
    apply (Hs (h, sg)). by exists e.
Qed.
End Followers.

(** ** The leader's runs *)

Lemma fit_search_range fits fuel num upper lower r : (lower <= num <= upper)%nat ->
  fit_search fits fuel num upper lower = Some r -> (lower <= r <= upper)%nat.
Proof.
  revert num upper lower. induction fuel as [|fuel IH]; intros num upper lower Hr Hs; [done|].
  pose proof (Nat.div_mod_eq (upper + num) 2). pose proof (Nat.mod_upper_bound (upper + num) 2).
  pose proof (Nat.div_mod_eq (lower + num) 2). pose proof (Nat.mod_upper_bound (lower + num) 2).
  cbn [fit_search] in Hs. destruct (fits num); destruct (_ =? num)%nat; simplify_eq; [done| |done|];
    apply IH in Hs; lia.
Qed.

Section LeaderRuns.
Context `{Profile} `{Libloading} `{!Games} `{Sha256} `{Bincode Entry} `{Bincode Transaction}
  `{Bincode SystemInstruction} `{Bincode Instruction} `{Bincode FinPlanState} `{Bincode U64}
  `{Bincode StorageInstruction}.

Lemma num_will_fit_range txs : txs <> [] -> exists n, num_will_fit txs = Some n /\ (1 <= n <= length txs)%nat.
Proof.
  intros Hne. unfold num_will_fit. rewrite bool_decide_false by done.
  assert (1 <= length txs)%nat by (destruct txs; simpl; [done|lia]).
  destruct (fit_search_terminates (fun n => will_fit (take n txs)) (search_fuel (length txs))
    (length txs) (length txs) 1) as [n Hn]; [lia| |].
  { unfold search_measure, search_fuel. repeat case_decide; lia. }
  exists n. split; [done|]. apply fit_search_range in Hn; lia.
Qed.

Lemma stage_ends fuel clock pr txs : (length txs < fuel)%nat -> is_Some (stage_transactions fuel clock pr txs).
Proof.
  revert clock pr txs. induction fuel as [|fuel IH]; intros clock pr txs Hf; [lia|]. cbn [stage_transactions].
  case_bool_decide as Hne; [eauto|]. destruct (num_will_fit_range txs Hne) as (n & -> & Hn).
  destruct (process_chunk pr (take n txs) (clock O)) as [[[] pr']|]; [|eauto|eauto].
  apply IH. rewrite length_drop. lia.
Qed.

(** What the threads of the stage do: hash and tick, or process a batch. *)
Inductive leader_op := LTick (num : nat) (now : Z) | LTxs (txs : list Transaction) (clock : nat -> Z).

Definition leader_step (pr : PodRecorder) (o : leader_op) : option (outcome PodRecorder) :=
  match o with
  | LTick num now => Some ('(_, pr') ← tick_turn num pr now; Ret pr')
  | LTxs txs clock =>
      match stage_transactions (S (length txs)) clock pr txs with
      | None => None
      | Some r => Some ('(_, pr') ← r; Ret pr')
      end
  end.
Fixpoint leader_run (pr : PodRecorder) (ops : list leader_op) : option (outcome PodRecorder) :=
  match ops with
  | [] => Some (Ret pr)
  | o :: rest =>
      match leader_step pr o with
      | None => None
      | Some Panic => Some Panic
      | Some (Ret pr') => leader_run pr' rest
      end
  end.

Definition loads_nothing (o : leader_op) : Prop :=
  match o with LTick _ _ => True | LTxs txs _ => Forall (fun tx => is_load tx = false) txs end.

(** The entries sent between [pr] and [pr'] take a replica of the one to a
    replica of the other. *)
Definition mirrored (pr pr' : PodRecorder) : Prop :=
  pr_open pr = true -> pr_open pr' = true /\ exists new, pr_sent pr' = pr_sent pr ++ new /\
    forall clock t V, follows (pr_tp pr) V ->
    exists V', process_entries clock t V (concat new) = Ret (Ok tt, V') /\ follows (pr_tp pr') V'.

Lemma process_entries_app clock t tp es1 es2 tp1 : process_entries clock t tp es1 = Ret (Ok tt, tp1) ->
  process_entries clock t tp (es1 ++ es2) = process_entries clock (t + length es1) tp1 es2.
Proof.
  revert t tp. induction es1 as [|e es1 IH]; intros t tp Hp; cbn [process_entries app length] in *.
  { simplify_eq. by rewrite Nat.add_0_r. }
  apply bind_Ret_inv in Hp as ([r tp2] & -> & Hp). rewrite bind_Ret. destruct r as [u|err]; [|by simplify_eq].
  rewrite IH by done. by rewrite Nat.add_succ_comm.
Qed.

#[local] Instance mirrored_preorder : PreOrder mirrored.
Proof.
  split.
  - intros pr Ho. split; [done|]. exists []. rewrite app_nil_r. split; [done|]. intros clock t V HV. by exists V.
  - intros p1 p2 p3 H12 H23 Ho. destruct (H12 Ho) as (Ho2 & n1 & Hs1 & Hf1).
    destruct (H23 Ho2) as (Ho3 & n2 & Hs2 & Hf2). split; [done|]. exists (n1 ++ n2).
    rewrite Hs2, Hs1, app_assoc. split; [done|]. intros clock t V HV.
    destruct (Hf1 clock t V HV) as (V1 & E1 & HV1). rewrite concat_app.
    rewrite (process_entries_app _ _ _ _ _ _ E1). by apply Hf2.
Qed.

(** The chain moves, and nothing else. *)
Lemma mirrored_pod pr pr' : pr_tp pr' = pr_tp pr -> pr_sent pr' = pr_sent pr -> pr_open pr' = pr_open pr ->
  mirrored pr pr'.
Proof.
  intros Ht Hs Ho Hop. split; [congruence|]. exists []. rewrite app_nil_r. split; [done|].
  intros clock t V HV. exists V. by rewrite Ht.
Qed.

Lemma process_nothing (tp : TransactionProcessor) : in_u64 (tp_transaction_count tp) = true ->
  process_transactions tp [] = Ret ([], tp).
Proof.
  intros Hu. unfold process_transactions. cbn -[u64_add wrap_u64]. change (Z.of_nat 0) with 0.
  rewrite Z.add_0_r, u64_add_exact by (by rewrite Z.add_0_r). rewrite bind_Ret.
  apply in_u64_iff in Hu. unfold wrap_u64. rewrite Z.mod_small by (unfold u64_max in *; lia).
  by destruct tp.
Qed.

Lemma first_error_ok res : Forall (fun r => r = Ok tt) res -> first_error res = Ok tt.
Proof. by induction 1 as [|r res -> _ IH]. Qed.

(** One entry whose transactions are all accepted. *)
Lemma process_entries_one clock t V e V1 :
  (e_transactions e = [] /\ V1 = V \/
   exists res, e_transactions e <> [] /\ process_transactions V (e_transactions e) = Ret (res, V1) /\
     Forall (fun r => r = Ok tt) res) ->
  process_entries clock t V [e] = Ret (Ok tt, register_entry_id V1 (e_id e) (clock t)).
Proof.
  cbn [process_entries]. unfold process_entry. intros [[-> ->]|(res & Hne & -> & Hok)]; [done|].
  rewrite bool_decide_false by done. rewrite !bind_Ret, (first_error_ok _ Hok). done.
Qed.

Lemma tick_mirrored num pr now b pr' : tick_turn num pr now = Ret (b, pr') -> mirrored pr pr'.
Proof.
  unfold tick_turn. intros Ht. apply bind_Ret_inv in Ht as (p1 & Hh & Ht). transitivity p1.
  - revert pr Hh. induction num as [|num IH]; intros pr Hh; cbn [pod_hashes] in Hh; [by simplify_eq|].
    apply bind_Ret_inv in Hh as (p2 & Hp & Hh). transitivity p2; [|by apply IH].
    unfold pr_hash in Hp. apply bind_Ret_inv in Hp as (pod & _ & Hp). simplify_eq. by apply mirrored_pod.
  - unfold pr_tick in Ht. apply bind_Ret_inv in Ht as ([tick pod] & _ & Ht).
    injection Ht as Ht. unfold pr_send in Ht. intros Ho. rewrite Ho in Ht. injection Ht as _ <-.
    split; [done|]. eexists. split; [done|]. intros clock t V HV. cbn [concat app].
    rewrite (process_entries_one _ _ _ _ V) by (by left). eexists. split; [done|]. by apply register_follows.
Qed.

Lemma chunk_mirrored pr txs now r pr' : Forall (fun tx => is_load tx = false) txs ->
  process_chunk pr txs now = Ret (r, pr') -> mirrored pr pr'.
Proof.
  intros Hload Hp Ho. unfold process_chunk in Hp. apply bind_Ret_inv in Hp as ([res L'] & HL & Hp).
  assert (Hlen : length res = length txs).
  { apply process_transactions_spec in HL as (outs & Hc & -> & _). rewrite length_fmap.
    symmetry. by eapply Forall2_length. }
  rewrite (accepted_sel _ _ Hlen), bind_Ret in Hp. set (done := sel (is_ok <$> res) txs) in *.
  assert (HV : forall V, follows (pr_tp pr) V -> exists res' V', process_transactions V done = Ret (res', V') /\
    Forall (fun r => r = Ok tt) res' /\ follows L' V').
  { intros V HV. by destruct (process_transactions_follows _ _ _ _ _ HV Hload HL) as [_ ?]. }
  destruct (bool_decide (done = [])) eqn:Ed; bool_prop.
  { simplify_eq/=. split; [done|]. exists []. rewrite app_nil_r. split; [done|]. intros clock t V Hf.
    exists V. split; [done|]. destruct (HV V Hf) as (res' & V' & Hp & _ & Hf').
    rewrite Ed, process_nothing in Hp by (destruct Hf as [? ? ? -> ? ?]; done). by simplify_eq. }
  apply bind_Ret_inv in Hp as ([sent pr2] & Hr & Hp). unfold pr_record in Hr.
  apply bind_Ret_inv in Hr as ([tick pod] & _ & Hr). injection Hp as _ <-. injection Hr as Hr.
  unfold pr_send in Hr. cbn [pr_open pr_tp pr_sent] in Hr. rewrite Ho in Hr. injection Hr as <- <-.
  split; [done|]. eexists. split; [done|]. intros clock t V Hf.
  destruct (HV V Hf) as (res' & V' & Hp & Hok & Hf'). cbn [concat app].
  rewrite (process_entries_one _ _ _ _ V') by (right; by exists res').
  eexists. split; [done|]. simpl. by apply register_follows.
Qed.

Lemma stage_mirrored fuel clock pr txs r pr' : Forall (fun tx => is_load tx = false) txs ->
  stage_transactions fuel clock pr txs = Some (Ret (r, pr')) -> mirrored pr pr'.
Proof.
  revert clock pr txs. induction fuel as [|fuel IH]; intros clock pr txs Hload Hs; [done|].
  cbn [stage_transactions] in Hs. case_bool_decide; [by simplify_eq|].
  destruct (num_will_fit txs) as [n|]; [|done].
  destruct (process_chunk pr (take n txs) (clock O)) as [[rc p1]|] eqn:Hc; [|done].
  assert (Hm : mirrored pr p1) by (eapply chunk_mirrored; [by apply Forall_take|done]).
  destruct rc; [|by simplify_eq]. transitivity p1; [done|]. eapply IH; [|done]. by apply Forall_drop.
Qed.

Lemma leader_step_mirrored pr o pr' : loads_nothing o -> leader_step pr o = Some (Ret pr') -> mirrored pr pr'.
Proof.
  intros Hl Hs. destruct o as [num now|txs clock]; cbn [leader_step] in Hs.
  - destruct (tick_turn num pr now) as [[b p]|] eqn:Ht; [|done]. simplify_eq/=. by eapply tick_mirrored.
  - destruct (stage_transactions (S (length txs)) clock pr txs) as [[[r p]|]|] eqn:Ht; [|done|done].
    cbn [mbind outcome_bind] in Hs. injection Hs as <-. by eapply stage_mirrored.
Qed.

Lemma leader_run_mirrored ops pr pr' : Forall loads_nothing ops -> leader_run pr ops = Some (Ret pr') ->
  mirrored pr pr'.
Proof.
  intros Hl. revert pr. induction Hl as [|o ops Ho Hl IH]; intros pr Hr; cbn [leader_run] in Hr; [by simplify_eq|].
  destruct (leader_step pr o) as [[p1|]|] eqn:Hs; [|done|done].
  transitivity p1; [by eapply leader_step_mirrored|by apply IH].
Qed.


(** C35: processing a batch of transactions always ends: a chunk takes at least
    one transaction, also when it is too large for an entry. *)
Theorem stage_terminates : forall clock pr txs, is_Some (stage_transactions (S (length txs)) clock pr txs).
Proof. intros. apply stage_ends. lia. Qed.
End LeaderRuns.

(** ** A race

    The stage executes a batch and then records it, and the thread that ticks
    may run in between.  The tick registers an id, which evicts the oldest; a
    replica sees the tick first, and refuses a transaction of the batch that
    named the evicted id. *)
Lemma tick_evicts_batch `{Profile} `{Libloading} `{Bincode Instruction} (V : TransactionProcessor) id now tx k0 ks a0 ec :
  tx_keys tx = k0 :: ks -> tp_accounts V !! k0 = Some a0 -> tx_fee tx <= tokens a0 ->
  (MAX_ENTRY_IDS <= length (tp_last_ids V))%nat -> head (tp_last_ids V) = Some (tx_last_id tx) ->
  id <> tx_last_id tx ->
  exists V', load_account (register_entry_id V id now) tx (tp_accounts V) ec = Ret (Err LastIdNotFound, V', ec).
Proof.
  intros Hk Ha Hf Hlen Hh Hne. unfold load_account. rewrite Hk. simpl. rewrite Ha.
  rewrite (proj2 (Z.ltb_ge _ _)) by done. unfold reserve_signature_with_last_id.
  rewrite register_sigs, decide_False, decide_True by done. eauto.
Qed.

(** ** Witness *)

Module StageWitness.
Import Toy SystemCodec EntryCodec Runs.
Definition V0 : TransactionProcessor :=
  mk_tp _ (tp_accounts tp0) (tp_last_ids tp0) (tp_last_ids_sigs tp0) (tp_transaction_count tp0) false
    (tp_finality_time tp0) (tp_loaded_contracts tp0).

Lemma V0_follows : follows tp0 V0.
Proof. by split. Qed.

(** A batch with a transaction that is refused, between two ticks. *)
Definition lops : list leader_op := [LTick 1 101; LTxs [good; poor] (fun _ => 102); LTick 0 103].
Definition ran (r : option (outcome PodRecorder)) : bool := match r with Some (Ret _) => true | _ => false end.
Definition end_of (r : option (outcome PodRecorder)) : PodRecorder := match r with Some (Ret pr) => pr | _ => pr0 end.
Definition pr_end : PodRecorder := end_of (leader_run pr0 lops).

Lemma ran_end r : ran r = true -> r = Some (Ret (end_of r)).
Proof. by destruct r as [[pr|]|]. Qed.


(** The accounts that run leaves, and the entries it sent. *)
Lemma replicas_run : (length (concat (pr_sent pr_end)), get_balance (pr_tp pr_end) (key 1),
    get_balance (pr_tp pr_end) (key 2), get_balance (pr_tp pr_end) (key 5)) = (3%nat, 6, 3, 0).
Proof. vm_compute. reflexivity. Qed.
End StageWitness.
