(* ===== verification/VoteStage.v ===== *)
(** * Voting

    [src/vote_stage.rs]: the id a leader votes on, the signed vote as a blob,
    and when the leader and a validator send one.  The metrics are left out, but
    for the subtractions made to report them, which trap when the clock has
    gone back. *)

From S2P Require Import Prelude.
From S2P Require Import Types.
From S2P Require Import Codec.
From S2P Require Import Packet.
From S2P Require Import FinPlan.
From S2P Require Import FinPlanProgram.
From S2P Require Import SystemProgram.
From S2P Require Import Transactions.
From S2P Require Import Entry.
From S2P Require Import Block.
From S2P Require Import Processor.
From S2P Require Import BlockThread.
From S2P Require Import ProcessorRuns.

Definition VOTE_TIMEOUT_MS : Z := 1000.

Inductive VoteError := NoValidLastIdsToVoteOn.
Inductive VoteSendError := VoteBlockThread (e : BlockThreadError) | VoteSend.

(** [valid_ids.sort_by(|a, b| a.1.cmp(&b.1))], a stable sort. *)
Definition by_time (a b : nat * Z) : Prop := a.2 <= b.2.
#[export] Instance by_time_dec : RelDecision by_time.
Proof. intros a b. unfold by_time. apply _. Defined.

Section Vote.
Context `{Profile} `{Libloading}.

(** [get_last_id_to_vote_on]: the id and its time, with the new [last_vote]. *)
Definition get_last_id_to_vote_on (tp : TransactionProcessor) (ids : list Hash)
    (now last_vote last_valid_validator_timestamp : Z) : outcome (result (Hash * Z) VoteError * Z) :=
  let valid_ids := count_valid_ids tp ids in
  let super_majority_index := (2 * length ids / 3)%nat in
  if (super_majority_index <? length valid_ids)%nat then
    let sorted := merge_sort by_time valid_ids in
    v ← index sorted super_majority_index;
    last_id ← index ids v.1;
    Ret (Ok (last_id, v.2), now)
  else
    _ ← (if last_valid_validator_timestamp =? 0 then Ret 0 else u64_sub now last_valid_validator_timestamp);
    Ret (Err NoValidLastIdsToVoteOn, last_vote).
End Vote.

Section VoteBlobs.
Context `{Profile} `{Libloading} `{Ed25519} `{Bincode Transaction} `{Bincode (list Pubkey)} `{Bincode Pubkey}
  `{Bincode Hash} `{Bincode I64} `{Bincode bytes} `{Bincode Instruction}.

(** [create_new_signed_vote_blob]: a failed [new_vote] is the caller's error. *)
Definition create_new_signed_vote_blob (last_id : Hash) (keypair : Keypair) (bt : BlockThread) (now : Z)
    : outcome (result Blob BlockThreadError * BlockThread) :=
  '(r, bt') ← new_vote bt last_id now;
  match r with
  | Err e => Ret (Err e, bt')
  | Ok (vote, addr) =>
      tx ← fin_plan_new_vote keypair vote last_id 0;
      let v := serialize tx in
      d ← write_slice (b_data Blob_default) 0 (length v) v;
      Ret (Ok (mk_blob d (set_meta_size (Z.of_nat (length v)) (Meta_set_addr Meta_default addr))), bt')
  end.

(** What the leader's voter keeps between calls. *)
Record voter := mk_voter { vt_last_vote : Z; vt_last_valid : Z }.

(** [send_leader_vote]: what was sent, the voter, the table and the processor;
    [is_open] tells whether the vote's receiver is there. *)
Definition send_leader_vote (keypair : Keypair) (tp : TransactionProcessor) (bt : BlockThread) (is_open : bool)
    (vt : voter) (now : Z)
    : outcome (result (option Blob) VoteSendError * voter * BlockThread * TransactionProcessor) :=
  elapsed ← u64_sub now (vt_last_vote vt);
  if VOTE_TIMEOUT_MS <? elapsed then
    '(r, last_vote) ← get_last_id_to_vote_on tp (valid_last_ids bt) now (vt_last_vote vt) (vt_last_valid vt);
    let vt := mk_voter last_vote (vt_last_valid vt) in
    match r with
    | Err _ => Ret (Ok None, vt, bt, tp)
    | Ok (last_id, super_majority_timestamp) =>
        '(rb, bt') ← create_new_signed_vote_blob last_id keypair bt now;
        match rb with
        | Err _ => Ret (Ok None, vt, bt', tp)
        | Ok blob =>
            if (is_open : bool) then
              finality_ms ← u64_sub now super_majority_timestamp;
              Ret (Ok (Some blob), mk_voter last_vote super_majority_timestamp, bt', set_finality finality_ms tp)
            else Ret (Err VoteSend, vt, bt', tp)
        end
    end
  else Ret (Ok None, vt, bt, tp).

Definition send_validator_vote (tp : TransactionProcessor) (keypair : Keypair) (bt : BlockThread)
    (is_open : bool) (now : Z) : outcome (result (option Blob) VoteSendError * BlockThread) :=
  id ← last_id tp;
  '(rb, bt') ← create_new_signed_vote_blob id keypair bt now;
  match rb with
  | Err _ => Ret (Ok None, bt')
  | Ok blob => Ret (if (is_open : bool) then Ok (Some blob) else Err VoteSend, bt')
  end.
End VoteBlobs.

(** ** The supermajority *)

Section Supermajority.
Context `{Profile} `{Libloading}.

Lemma count_valid_ids_elem (tp : TransactionProcessor) ids i ts : (i, ts) ∈ count_valid_ids tp ids ->
  exists id e, ids !! i = Some id /\ tp_last_ids_sigs tp !! id = Some e /\ e.2 = ts.
Proof.
  unfold count_valid_ids. intros (l & Hp & Hl)%list_elem_of_In%in_concat. 
  apply list_elem_of_In, list_elem_of_lookup in Hp as [j Hj]. rewrite list_lookup_imap in Hj.
  apply fmap_Some in Hj as (id & Hid & ->). destruct (tp_last_ids_sigs tp !! id) as [e|] eqn:E.
  - apply list_elem_of_In, list_elem_of_singleton in Hl. simplify_eq. eauto.
  - by apply list_elem_of_In, not_elem_of_nil in Hl.
Qed.

#[local] Instance by_time_total : Total by_time.
Proof. intros a b. unfold by_time. lia. Qed.
#[local] Instance by_time_trans : Transitive by_time.
Proof. intros a b c. unfold by_time. lia. Qed.

(** In a sorted list, at least [i + 1] elements are no later than the [i]-th. *)
Lemma sorted_prefix_count (l : list (nat * Z)) i x : StronglySorted by_time l -> l !! i = Some x ->
  (i < length (filter (fun v => (v.2 <= x.2)%Z) l))%nat.
Proof.
  intros Hs. revert i. induction Hs as [|a l Hs IH Ha]; intros [|i] Hi; simplify_eq/=.
  - rewrite filter_cons_True by lia. simpl. lia.
  - rewrite filter_cons_True.
    + simpl. specialize (IH i Hi). lia.
    + apply (Forall_lookup_1 _ _ _ _ Ha Hi).
Qed.

(** How many of [ids] the processor registered no later than [ts]. *)
Definition confirmed (tp : TransactionProcessor) (ids : list Hash) (ts : Z) : nat :=
  length (filter (fun v => v.2 <= ts) (count_valid_ids tp ids)).

(** C31: the leader votes exactly when more than two thirds of the ids its
    peers reported are ids it knows; it then votes for one of them, registered
    at the time it reports, such that more than two thirds of the reported ids
    were registered no later.  Otherwise it reports an error and the time of
    its last vote stays. *)
Theorem vote_is_supermajority : forall tp ids now last_vote last_valid r last_vote',
  get_last_id_to_vote_on tp ids now last_vote last_valid = Ret (r, last_vote') ->
  match r with
  | Ok (h, ts) => h ∈ ids /\ (exists sigs, tp_last_ids_sigs tp !! h = Some (sigs, ts)) /\
      (2 * length ids < 3 * confirmed tp ids ts)%nat /\ last_vote' = now
  | Err _ => (3 * length (count_valid_ids tp ids) <= 2 * length ids)%nat /\ last_vote' = last_vote
  end.
Proof.
  intros tp ids now last_vote last_valid r last_vote' Hg. unfold get_last_id_to_vote_on in Hg.
  pose proof (Nat.div_mod_eq (2 * length ids) 3). pose proof (Nat.mod_upper_bound (2 * length ids) 3).
  destruct (_ <? _)%nat eqn:E.
  - apply bind_Ret_inv in Hg as (v & Hv%index_Ret & Hg). apply bind_Ret_inv in Hg as (h & Hh%index_Ret & Hg).
    injection Hg as <- <-. pose proof (merge_sort_Permutation by_time (count_valid_ids tp ids)) as Hperm.
    assert (Hin : (v.1, v.2) ∈ count_valid_ids tp ids).
    { rewrite <- Hperm. destruct v. by eapply list_elem_of_lookup_2. }
    destruct (count_valid_ids_elem _ _ _ _ Hin) as (id & [sigs ts] & Hid & He & Hts). simplify_eq/=.
    split; [by eapply list_elem_of_lookup_2|]. split; [eauto|]. split; [|done].
    pose proof (sorted_prefix_count _ _ _ (StronglySorted_merge_sort by_time _) Hv) as Hc.
    unfold confirmed. rewrite <- Hperm. lia.
  - apply Nat.ltb_ge in E. apply bind_Ret_inv in Hg as (z & _ & Hg). injection Hg as <- <-. lia.
Qed.
End Supermajority.

(** ** A vote reaches the table it is meant for *)

Lemma u64_add_in `{Profile} a b c : u64_add a b = Ret c -> in_u64 c = true.
Proof.
  unfold u64_add, arith. destruct (in_u64 (a + b)) eqn:E; [by intros [= <-]|].
  destruct overflow_checks; [done|]. intros [= <-]. apply wrap_u64_in.
Qed.

Section VoteTrip.
Context `{Profile} `{Ed25519} `{!Ed25519Ok} `{Bincode Transaction} `{!BincodeOk Transaction} `{Bincode (list Pubkey)}
  `{Bincode Pubkey} `{Bincode Hash} `{Bincode I64} `{Bincode bytes} `{Bincode Instruction} `{!BincodeOk Instruction}.
(** bincode encodes a vote in a fixed number of bytes. *)
Hypothesis vote_encoding : forall v, length (serialize (NewVote v)) = 20%nat.

(** A vote that fits a blob is made. *)
Lemma create_vote_returns h keypair bt now vote addr bt' tx : new_vote bt h now = Ret (Ok (vote, addr), bt') ->
  fin_plan_new_vote keypair vote h 0 = Ret tx -> (length (serialize tx) <= BLOB_SIZE)%nat ->
  exists blob, create_new_signed_vote_blob h keypair bt now = Ret (Ok blob, bt').
Proof.
  intros Hv Htx Hl. unfold create_new_signed_vote_blob. rewrite Hv, bind_Ret, Htx, bind_Ret.
  rewrite write_slice_Ret; [|change (length (b_data Blob_default)) with (length (replicate BLOB_SIZE Byte.x00));
    rewrite length_replicate; lia|lia].
  rewrite bind_Ret. by eexists.
Qed.

(** The vote a node makes, and the table it keeps. *)
Lemma new_vote_Ok bt h now vote addr bt' : new_vote bt h now = Ret (Ok (vote, addr), bt') ->
  exists me leader ver, my_data bt = Ret me /\ leader_data bt = Ret (Some leader) /\
    u64_add (ni_version me) 1 = Ret ver /\ vote = mk_vote ver (ci_version (ni_contact_info me)) /\
    addr = ci_tx_creator (ni_contact_info leader).
Proof.
  unfold new_vote. intros Hv. apply bind_Ret_inv in Hv as (me & -> & Hv).
  apply bind_Ret_inv in Hv as ([leader|] & -> & Hv); [|done].
  apply bind_Ret_inv in Hv as (ver & Hver & Hv). apply bind_Ret_inv in Hv as ([z bt1] & _ & Hv).
  simplify_eq/=. eauto 10.
Qed.

(** The transaction that carries a vote. *)
Lemma vote_transaction keypair vote h : wf vote -> wf h -> exists tx,
  fin_plan_new_vote keypair vote h 0 = Ret tx /\ wf tx /\ verify_signature tx = Ret true /\
  tx_vote tx = Ret (Some (keypair_pubkey keypair, vote, h)).
Proof.
  intros Hv Hh. unfold fin_plan_new_vote.
  destruct (Transaction_new_Ret keypair [] FinPlan_id (serialize (NewVote vote)) h 0) as (sg & -> & Hl & Hver).
  eexists. split; [done|]. split_and!.
  - cbv [wf Transaction_wf]. simpl. split_and!; try done.
    + constructor; [apply public_key_length|constructor].
    + unfold vec_wf. by rewrite vote_encoding.
  - unfold verify_signature, Signature_verify. simpl. f_equal. exact Hver.
  - unfold tx_vote, tx_instruction. simpl. by rewrite deserialize_serialize.
Qed.

(** Counting a vote newer than what the table holds. *)
Lemma insert_vote_counts peer k n vote h now : bt_ok peer -> bt_table peer !! k = Some n ->
  ni_version n < vote_version vote -> vote_contact_info_version vote <= ci_version (ni_contact_info n) ->
  in_u64 (bt_update_index peer + 1) = true ->
  exists peer' n', insert_vote peer k vote h now = Ret peer' /\ bt_table peer' !! k = Some n' /\
    ni_last_id n' = h /\ ni_version n' = vote_version vote.
Proof.
  intros Hok Hn Hver Hci Hu. pose proof (ok_ids _ Hok _ _ Hn) as Hid.
  destruct (my_data_returns peer Hok) as [me Hme]. unfold insert_vote.
  rewrite Hn, (proj2 (Z.ltb_ge _ _)), Hme, bind_Ret, (proj2 (Z.leb_gt _ _)) by done.
  set (n' := set_last_id h (set_version (vote_version vote) n)). unfold insert. simpl bt_table.
  replace (ni_id n') with k by (by destruct n). rewrite Hn. simpl ni_version.
  rewrite (proj2 (Z.ltb_lt _ _)) by done. simpl bt_update_index. rewrite u64_add_exact by done. simpl.
  eexists _, n'. split; [done|]. split; [|done]. simpl.
  replace (ni_id n) with k by done. apply lookup_insert_eq.
Qed.

(** A vote sent is a vote counted.  The blob a node makes to vote for
    [h] decodes to a transaction that its key signed and from which exactly
    that vote is read; and a node that knows the voter at an older version, and
    the contact information the vote refers to, records [h] as its last id. *)
Theorem vote_reaches_peers : forall h keypair bt now blob bt' me,
  my_data bt = Ret me -> in_u64 (ci_version (ni_contact_info me)) = true -> wf h ->
  create_new_signed_vote_blob h keypair bt now = Ret (Ok blob, bt') ->
  exists tx vote, deserialize (A := Transaction) (take (Z.to_nat (m_size (b_meta blob))) (b_data blob)) = Some tx /\
    verify_signature tx = Ret true /\ tx_vote tx = Ret (Some (keypair_pubkey keypair, vote, h)) /\
    u64_add (ni_version me) 1 = Ret (vote_version vote) /\
    forall peer n now', bt_ok peer -> bt_table peer !! keypair_pubkey keypair = Some n ->
      ni_version n < vote_version vote -> ci_version (ni_contact_info me) <= ci_version (ni_contact_info n) ->
      in_u64 (bt_update_index peer + 1) = true ->
      exists peer' n', insert_vote peer (keypair_pubkey keypair) vote h now' = Ret peer' /\
        bt_table peer' !! keypair_pubkey keypair = Some n' /\
        ni_last_id n' = h /\ ni_version n' = vote_version vote.
Proof.
  intros h keypair bt now blob bt' me Hme Hci Hh Hc. unfold create_new_signed_vote_blob in Hc.
  apply bind_Ret_inv in Hc as ([[[vote addr]|e] bt1] & Hnv & Hc); [|done].
  apply new_vote_Ok in Hnv as (me' & leader & ver & Hme' & _ & Hver & -> & ->). simplify_eq.
  assert (me' = me) as -> by congruence.
  destruct (vote_transaction keypair (mk_vote ver (ci_version (ni_contact_info me))) h) as (tx & Htx & Hwf & Hs & Hv);
    [split; [by eapply u64_add_in|done]|done|].
  rewrite Htx, bind_Ret in Hc. apply bind_Ret_inv in Hc as (d & Hd & Hc). injection Hc as <- <-.
  exists tx, (mk_vote ver (ci_version (ni_contact_info me))). cbn [b_data b_meta m_size set_meta_size].
  split; [|split_and!; [done|done|done|]].
  - unfold write_slice in Hd. destruct (_ && _)%nat; [|done]. injection Hd as <-.
    rewrite Nat.sub_0_r, (take_ge (serialize tx)), Nat2Z.id by lia. cbn [take app].
    rewrite take_app_length. by apply deserialize_serialize.
  - intros. by apply (insert_vote_counts peer _ n).
Qed.
End VoteTrip.

(** ** Witnesses *)

Module VoteWitness.
Import Toy SystemCodec Runs.
#[local] Existing Instances ed ed_ok keys_bincode pubkey_bincode hash_bincode bytes_bincode tx_bincode
  SystemCodec.i64_bincode FinPlanCodec.instruction_bincode instruction_ok.

(** Two peers, both at an id the leader registered at time 100. *)
Lemma vote_is_supermajority_witness : id0 ∈ [id0; id0] /\
  (exists sigs, tp_last_ids_sigs tp0 !! id0 = Some (sigs, 100)) /\
  (2 * length [id0; id0] < 3 * confirmed tp0 [id0; id0] 100)%nat /\ 2000 = 2000.
Proof.
  apply (vote_is_supermajority tp0 [id0; id0] 2000 0 0 (Ok (id0, 100)) 2000). vm_compute. reflexivity.
Defined.

Lemma tx_codec_ok : BincodeOk Transaction.
Proof. apply codec_bincode_ok. intros t. unfold wf. by rewrite EntryCodec.c_transaction_wf. Qed.

Definition voting : BlockThread := BlockThreadWitness.led.
Definition voting_key : @Keypair ed := Byte.x01.

Definition vote_made : Vote := mk_vote 2 0.
Definition voted : BlockThread :=
  match new_vote voting id0 7 with Ret (_, bt) => bt | Panic => voting end.
Definition vote_tx : Transaction :=
  match fin_plan_new_vote voting_key vote_made id0 0 with Ret tx => tx | Panic => good end.

Lemma vote_size v : length (serialize (NewVote v)) = 20%nat.
Proof. destruct v. reflexivity. Qed.

Lemma vote_fits : (length (serialize vote_tx) <= BLOB_SIZE)%nat.
Proof. assert (length (serialize vote_tx) = 204%nat) as -> by reflexivity. pose proof BLOB_SIZE_Z. lia. Qed.

Lemma vote_reaches_peers_witness : exists blob bt',
  create_new_signed_vote_blob id0 voting_key voting 7 = Ret (Ok blob, bt') /\
  exists tx vote, deserialize (A := Transaction) (take (Z.to_nat (m_size (b_meta blob))) (b_data blob)) = Some tx /\
    verify_signature tx = Ret true /\ tx_vote tx = Ret (Some (keypair_pubkey voting_key, vote, id0)) /\
    u64_add (ni_version BlockThreadWitness.led_me) 1 = Ret (vote_version vote) /\
    forall peer n now', bt_ok peer -> bt_table peer !! keypair_pubkey voting_key = Some n ->
      ni_version n < vote_version vote ->
      ci_version (ni_contact_info BlockThreadWitness.led_me) <= ci_version (ni_contact_info n) ->
      in_u64 (bt_update_index peer + 1) = true ->
      exists peer' n', insert_vote peer (keypair_pubkey voting_key) vote id0 now' = Ret peer' /\
        bt_table peer' !! keypair_pubkey voting_key = Some n' /\
        ni_last_id n' = id0 /\ ni_version n' = vote_version vote.
Proof.
  pose proof tx_codec_ok as Hok.
  destruct (create_vote_returns id0 voting_key voting 7 vote_made (BlockThreadWitness.addr 4) voted vote_tx)
    as [blob Hb]; [vm_compute; reflexivity|reflexivity|apply vote_fits|].
  exists blob, voted. split; [done|].
  apply (vote_reaches_peers vote_size id0 voting_key voting 7 blob voted BlockThreadWitness.led_me);
    [vm_compute; reflexivity|reflexivity|reflexivity|done].
Defined.
End VoteWitness.
