(* ===== verification/WriteStage.v ===== *)
(** * Writing the ledger, and the end of a leader's slot

    [src/write_stage.rs]: entries are cut where another node is to lead, their
    votes counted, and the rest written to the ledger and passed on to the
    broadcast stage. *)

From S2P Require Import Prelude.
From S2P Require Import Types.
From S2P Require Import Codec.
From S2P Require Import Packet.
From S2P Require Import FinPlan.
From S2P Require Import FinPlanProgram.
From S2P Require Import SystemProgram.
From S2P Require Import Transactions.
From S2P Require Import Entry.
From S2P Require Import Block.
From S2P Require Import Processor.
From S2P Require Import Ledger.
From S2P Require Import BlockThread.
From S2P Require Import Window.
From S2P Require Import WindowService.
From S2P Require Import VoteStage.

Inductive WriteStageReturnType := WriteLeaderRotation | ChannelDisconnected.

Inductive WriteError := WriteRecv (e : RecvTimeoutError) | WriteSend.

Section Rotation.
Context `{Profile}.

(** The test of the loop: another node leads from [height] on. *)
Definition rotates_at (bt : BlockThread) (interval height : Z) : outcome bool :=
  r ← u64_rem height interval;
  if r =? 0 then
    me ← my_data bt;
    next_leader ← get_scheduled_leader bt height;
    Ret (bool_decide (next_leader <> Some (ni_id me)))
  else Ret false.

(** The loop of [find_leader_rotation_index]: where it stops, and whether at a
    rotation; [None] when it has not ended within the fuel. *)
Fixpoint rotation_loop (fuel : nat) (bt : BlockThread) (interval entry_height : Z) (len i : nat)
    : option (outcome (nat * bool)) :=
  match fuel with
  | O => None
  | S fuel' =>
      match (height ← u64_add entry_height (Z.of_nat i); rotates_at bt interval height) with
      | Panic => Some Panic
      | Ret true => Some (Ret (i, true))
      | Ret false =>
          if (i =? len)%nat then Some (Ret (i, false))
          else
            match (r ← u64_rem entry_height interval; u64_sub interval r) with
            | Panic => Some Panic
            | Ret until =>
                rotation_loop fuel' bt interval entry_height len (i + Nat.min (Z.to_nat until) (len - i))%nat
            end
      end
  end.

Definition find_leader_rotation_index (bt : BlockThread) (interval entry_height : Z) (new_entries : list Entry)
    : option (outcome (list Entry * bool)) :=
  match rotation_loop (S (length new_entries)) bt interval entry_height (length new_entries) 0 with
  | None => None
  | Some r => Some ('(i, rotation) ← r; Ret (take i new_entries, rotation))
  end.

(** The first loop of [write_and_send_entries]: [more] is what [try_recv] gives
    in turn. *)
Fixpoint collect (bt : BlockThread) (interval entry_height : Z) (received : list Entry) (more : list (list Entry))
    : option (outcome (list (list Entry))) :=
  match find_leader_rotation_index bt interval entry_height received with
  | None => None
  | Some Panic => Some Panic
  | Some (Ret (new_entries, true)) => Some (Ret [new_entries])
  | Some (Ret (new_entries, false)) =>
      match more with
      | [] => Some (Ret [new_entries])
      | n :: more' =>
          match u64_add entry_height (Z.of_nat (length new_entries)) with
          | Panic => Some Panic
          | Ret height =>
              match collect bt interval height n more' with
              | None => None
              | Some r => Some (vs ← r; Ret (new_entries :: vs))
              end
          end
      end
  end.
End Rotation.

Section Write.
Context `{Profile} `{Bincode Entry} `{Bincode U64} `{Bincode Instruction}.

(** What the writer's thread keeps. *)
Record writer := mk_writer {
  wr_bt : BlockThread; wr_ledger : LedgerFiles; wr_height : Z; wr_sent : list (list Entry) }.

(** The second loop: [is_open] tells whether the broadcast stage is there,
    [clock k] is read for the votes of the [k]-th vector. *)
Fixpoint write_and_send (clock : nat -> nat -> Z) (is_open : bool) (w : writer) (ventries : list (list Entry))
    : outcome (result unit WriteError * writer) :=
  match ventries with
  | [] => Ret (Ok tt, w)
  | entries :: rest =>
      votes ← block_votes entries;
      bt ← insert_votes (wr_bt w) votes (clock O) 0;
      ledger ← write_entries (wr_ledger w) entries;
      height ← u64_add (wr_height w) (Z.of_nat (length entries));
      if bool_decide (entries = []) then
        write_and_send (fun k => clock (S k)) is_open (mk_writer bt ledger height (wr_sent w)) rest
      else if (is_open : bool) then
        write_and_send (fun k => clock (S k)) is_open (mk_writer bt ledger height (wr_sent w ++ [entries])) rest
      else Ret (Err WriteSend, mk_writer bt ledger height (wr_sent w))
  end.

Definition write_and_send_entries (clock : nat -> nat -> Z) (is_open : bool) (w : writer) (interval : Z)
    (first : result (list Entry) RecvTimeoutError) (more : list (list Entry))
    : option (outcome (result unit WriteError * writer)) :=
  match first with
  | Err e => Some (Ret (Err (WriteRecv e), w))
  | Ok received =>
      match collect (wr_bt w) interval (wr_height w) received more with
      | None => None
      | Some Panic => Some Panic
      | Some (Ret ventries) => Some (write_and_send clock is_open w ventries)
      end
  end.

(** The turn of a node that leads: what has arrived is written and passed on,
    then the leader may vote; only a closed channel ends the loop, another
    error is logged. *)
Definition leader_turn `{Libloading} `{Ed25519} `{Bincode Transaction} `{Bincode (list Pubkey)} `{Bincode Pubkey}
    `{Bincode Hash} `{Bincode I64} `{Bincode bytes}
    (keypair : Keypair) (clock : nat -> nat -> Z) (is_open vote_open : bool) (now interval : Z)
    (w : writer) (vt : voter) (tp : TransactionProcessor)
    (first : result (list Entry) RecvTimeoutError) (more : list (list Entry))
    : option (outcome (option WriteStageReturnType * writer * voter * TransactionProcessor * option Blob)) :=
  match write_and_send_entries clock is_open w interval first more with
  | None => None
  | Some Panic => Some Panic
  | Some (Ret (Err (WriteRecv Disconnected), w')) => Some (Ret (Some ChannelDisconnected, w', vt, tp, None))
  | Some (Ret (_, w')) =>
      Some ('(r, vt', bt', tp') ← send_leader_vote keypair tp (wr_bt w') vote_open vt now;
            Ret (None, mk_writer bt' (wr_ledger w') (wr_height w') (wr_sent w'), vt', tp',
                 match r with Ok blob => blob | Err _ => None end))
  end.

(** One turn of the writer's loop: it returns when its slot has ended or its
    channel is gone. *)
Definition write_turn `{Libloading} `{Ed25519} `{Bincode Transaction} `{Bincode (list Pubkey)} `{Bincode Pubkey}
    `{Bincode Hash} `{Bincode I64} `{Bincode bytes}
    (keypair : Keypair) (clock : nat -> nat -> Z) (is_open vote_open : bool) (now interval : Z)
    (w : writer) (vt : voter) (tp : TransactionProcessor)
    (first : result (list Entry) RecvTimeoutError) (more : list (list Entry))
    : option (outcome (option WriteStageReturnType * writer * voter * TransactionProcessor * option Blob)) :=
  match rotates_at (wr_bt w) interval (wr_height w) with
  | Panic => Some Panic
  | Ret true => Some (Ret (Some WriteLeaderRotation, w, vt, tp, None))
  | Ret false => leader_turn keypair clock is_open vote_open now interval w vt tp first more
  end.
End Write.

(** ** Where a slot ends *)

(** [entries_until_leader_rotation]. *)
Definition until_rotation (interval entry_height : Z) : Z := interval - entry_height mod interval.

Lemma until_range interval entry_height : 0 < interval -> 0 < until_rotation interval entry_height <= interval.
Proof. intros. unfold until_rotation. pose proof (Z.mod_pos_bound entry_height interval). lia. Qed.

Section RotationLaws.
Context `{Profile}.
Context (bt : BlockThread) (interval entry_height : Z) (len : nat).
Hypothesis (Hbt : bt_ok bt) (Hint : 0 < interval <= u64_max) (Hh : 0 <= entry_height).
Hypothesis (Hmax : entry_height + Z.of_nat len <= u64_max).

Lemma rotates_at_returns h : exists b : bool, rotates_at bt interval h = Ret b /\ (b = true -> h mod interval = 0).
Proof using Hbt Hint.
  clear Hh Hmax len entry_height.
  unfold rotates_at, u64_rem. destruct (interval =? 0) eqn:E; bool_prop; [lia|]. rewrite bind_Ret.
  destruct (h mod interval =? 0) eqn:E0; bool_prop; [|by exists false].
  destruct (my_data_returns bt Hbt) as [me Hme]. rewrite Hme, bind_Ret.
  assert (exists l, get_scheduled_leader bt h = Ret l) as [l ->].
  { unfold get_scheduled_leader. rewrite Hme. destruct (bt_scheduled_leaders bt !! h); eauto. }
  rewrite bind_Ret. eauto.
Qed.

Lemma loop_step fuel i : (i <= len)%nat ->
  rotation_loop (S fuel) bt interval entry_height len i =
  match rotates_at bt interval (entry_height + Z.of_nat i) with
  | Panic => Some Panic
  | Ret true => Some (Ret (i, true))
  | Ret false =>
      if (i =? len)%nat then Some (Ret (i, false))
      else rotation_loop fuel bt interval entry_height len (i + Nat.min (Z.to_nat (until_rotation interval entry_height)) (len - i))%nat
  end.
Proof.
  intros Hi. cbn [rotation_loop]. rewrite u64_add_exact, bind_Ret by (apply in_u64_iff; lia).
  destruct (rotates_at bt interval (entry_height + Z.of_nat i)) as [[]|]; [done| |done].
  destruct (i =? len)%nat; [done|]. unfold u64_rem. destruct (interval =? 0) eqn:E; bool_prop; [lia|].
  rewrite bind_Ret, u64_sub_exact; [done|]. pose proof (until_range interval entry_height (proj1 Hint)). unfold until_rotation in *.
  apply in_u64_iff. lia.
Qed.

(** The loop looks at the multiples of [until_rotation], and at the end. *)
Definition looked_at (j : nat) : Prop := Z.of_nat j mod (until_rotation interval entry_height) = 0 \/ j = len.

Lemma rotation_loop_spec fuel i : (i <= len)%nat -> (len - i < fuel)%nat -> looked_at i ->
  (forall j, (j <= len)%nat -> (entry_height + Z.of_nat j) mod interval = 0 -> looked_at j) ->
  exists k b, rotation_loop fuel bt interval entry_height len i = Some (Ret (k, b)) /\ (i <= k <= len)%nat /\
    rotates_at bt interval (entry_height + Z.of_nat k) = Ret b /\ (b = false -> k = len) /\
    forall j, (i <= j < k)%nat -> rotates_at bt interval (entry_height + Z.of_nat j) = Ret false.
Proof.
  pose proof (until_range interval entry_height (proj1 Hint)) as Hu. intros Hi Hf Hl Hcov. revert i Hi Hf Hl.
  induction fuel as [|fuel IH]; intros i Hi Hf Hl; [lia|]. rewrite loop_step by done.
  destruct (rotates_at_returns (entry_height + Z.of_nat i)) as (b & Eb & _). rewrite Eb. destruct b.
  { exists i, true. split_and!; [done|lia|lia|done|done|lia]. }
  destruct (i =? len)%nat eqn:El.
  { apply Nat.eqb_eq in El. exists i, false. split_and!; [done|lia|lia|done|lia|lia]. }
  apply Nat.eqb_neq in El. set (i' := (i + Nat.min (Z.to_nat (until_rotation interval entry_height)) (len - i))%nat).
  assert (Hgap : forall j, (i < j < i')%nat -> rotates_at bt interval (entry_height + Z.of_nat j) = Ret false).
  { intros j Hj. destruct (rotates_at_returns (entry_height + Z.of_nat j)) as ([] & Ej & Hm); [|done].
    exfalso. destruct Hl as [Hl|Hl]; [|lia]. destruct (Hcov j) as [Hj'|Hj']; [lia|by apply Hm| |lia].
    pose proof (Z.div_mod (Z.of_nat i) (until_rotation interval entry_height)). pose proof (Z.div_mod (Z.of_nat j) (until_rotation interval entry_height)).
    assert (Z.of_nat j < Z.of_nat i + (until_rotation interval entry_height)) by lia.
    assert (Z.of_nat j / (until_rotation interval entry_height) = Z.of_nat i / (until_rotation interval entry_height)) by nia. nia. }
  destruct (IH i') as (k & b & E & Hk & Hrot & Hb & Hall); [lia|lia| |].
  { destruct Hl as [Hl|Hl]; [|lia]. destruct (decide (until_rotation interval entry_height <= Z.of_nat (len - i))); [|right; lia].
    left. replace (Z.of_nat i') with (Z.of_nat i + 1 * (until_rotation interval entry_height)) by lia. by rewrite Z_mod_plus_full. }
  exists k, b. split_and!; [done|lia|lia|done|done|]. intros j Hj.
  destruct (decide (j = i)) as [->|]; [done|]. destruct (decide (j < i')%nat); [apply Hgap; lia|apply Hall; lia].
Qed.

(** Every rotation is looked at when the slot starts at a rotation, or when the
    entries end before the second one. *)
Lemma rotations_looked_at :
  entry_height mod interval = 0 \/ Z.of_nat len < (until_rotation interval entry_height) + interval ->
  forall j, (j <= len)%nat -> (entry_height + Z.of_nat j) mod interval = 0 -> looked_at j.
Proof.
  pose proof (until_range interval entry_height (proj1 Hint)) as Hu. intros Hc j Hj Hm. left. unfold until_rotation in *.
  pose proof (Z.div_mod entry_height interval). pose proof (Z.div_mod (entry_height + Z.of_nat j) interval).
  destruct (decide (entry_height mod interval = 0)) as [E0|E0].
  - rewrite E0, Z.sub_0_r. rewrite <- Zplus_mod_idemp_l, E0 in Hm. done.
  - destruct Hc as [Hc|Hc]; [done|].
    set (m := entry_height mod interval) in *. set (q := entry_height / interval) in *.
    set (q' := (entry_height + Z.of_nat j) / interval) in *.
    assert (Z.of_nat j = (q' - q) * interval - m) as Ej by lia.
    assert (q' - q = 1) as E1 by nia. rewrite Ej, E1, Z.mul_1_l. apply Z_mod_same_full.
Qed.
End RotationLaws.

Section RotationProperties.
Context `{Profile}.

(** A batch is cut at the first height from which another node leads,
    and is kept whole when there is none, provided that it starts at a
    rotation or ends before the second rotation in it; the search ends. *)
Theorem rotation_is_first : forall bt interval entry_height es,
  bt_ok bt -> 0 < interval <= u64_max -> 0 <= entry_height ->
  entry_height + Z.of_nat (length es) <= u64_max ->
  entry_height mod interval = 0 \/ Z.of_nat (length es) < until_rotation interval entry_height + interval ->
  exists k b, find_leader_rotation_index bt interval entry_height es = Some (Ret (take k es, b)) /\
    (k <= length es)%nat /\ (b = false -> k = length es) /\
    rotates_at bt interval (entry_height + Z.of_nat k) = Ret b /\
    forall j, (j < k)%nat -> rotates_at bt interval (entry_height + Z.of_nat j) = Ret false.
Proof.
  intros bt interval eh es Hbt Hi Hh Hm Hc. unfold find_leader_rotation_index.
  destruct (rotation_loop_spec bt interval eh (length es) Hbt Hi Hh Hm (S (length es)) 0)
    as (k & b & -> & Hk & Hrot & Hb & Hall); [lia|lia|left; by rewrite Z.mod_0_l by
      (pose proof (until_range interval eh (proj1 Hi)); lia)|by apply rotations_looked_at|].
  exists k, b. split_and!; [done|lia|done|done|]. intros j Hj. apply Hall. lia.
Qed.

(** Otherwise a rotation can be missed.  The step of the search is the
    distance from the first height to the first rotation, also after it: a
    batch of 20 entries from height 7 with a rotation every 10 is kept whole
    though another node leads from height 20. *)
Theorem rotation_skipped : forall bt es,
  bt_ok bt -> length es = 20%nat -> rotates_at bt 10 10 = Ret false -> rotates_at bt 10 20 = Ret true ->
  find_leader_rotation_index bt 10 7 es = Some (Ret (es, false)).
Proof.
  intros bt es Hbt Hl Hr10 _. unfold find_leader_rotation_index. rewrite Hl.
  assert (Hno : forall h, h mod 10 <> 0 -> rotates_at bt 10 h = Ret false).
  { intros h Hm. destruct (rotates_at_returns bt 10 Hbt ltac:(unfold u64_max; lia) h) as ([] & -> & Ht); [|done].
    by destruct Hm; apply Ht. }
  assert (Hgo : forall fuel i, (i <= 20)%nat -> (21 <= fuel + i)%nat -> (i mod 3 = 0)%nat \/ i = 20%nat ->
    rotation_loop fuel bt 10 7 20 i = Some (Ret (20%nat, false))).
  { induction fuel as [|fuel IH]; intros i Hi Hf Hm; [lia|].
    rewrite loop_step by (done || unfold u64_max; lia).
    assert (rotates_at bt 10 (7 + Z.of_nat i) = Ret false) as ->.
    { assert (i < 21)%nat as Hlt by lia. clear IH Hf Hi Hl.
      do 21 (destruct i as [|i]; [first [by apply Hno | exact Hr10 | exfalso; destruct Hm as [Hm|Hm]; discriminate Hm]|]).
      lia. }
    destruct (i =? 20)%nat eqn:E; [by apply Nat.eqb_eq in E as ->|]. apply Nat.eqb_neq in E.
    change (Z.to_nat (until_rotation 10 7)) with 3%nat.
    pose proof (Nat.div_mod_eq i 3). destruct Hm as [Hm|Hm]; [|lia]. apply IH; [lia|lia|].
    destruct (decide (i + 3 <= 20)%nat); [left|right; lia]. rewrite Nat.min_l by lia.
    rewrite Nat.Div0.add_mod, Hm. done. }
  rewrite Hgo; [|lia|lia|by left]. simpl. by rewrite take_ge by lia.
Qed.
End RotationProperties.

(** ** What is written is what is sent *)

Section WriteLaws.
Context `{Profile} `{Bincode Entry} `{!BincodeFrom Entry} `{!BincodeFromOk Entry}
  `{Bincode U64} `{!BincodeU64Ok} `{!BincodeFrom U64} `{!BincodeFromOk U64} `{Bincode Instruction}.

Lemma rotation_loop_returns fuel bt interval eh len i : bt_ok bt -> 0 < interval <= u64_max -> 0 <= eh ->
  eh + Z.of_nat len <= u64_max -> (i <= len)%nat -> (len - i < fuel)%nat ->
  exists k b, rotation_loop fuel bt interval eh len i = Some (Ret (k, b)) /\ (k <= len)%nat /\
    rotates_at bt interval (eh + Z.of_nat k) = Ret b /\ (b = false -> k = len).
Proof.
  intros Hbt Hi Hh Hm. revert i. induction fuel as [|fuel IH]; intros i Hl Hf; [lia|].
  rewrite loop_step by done. pose proof (until_range interval eh (proj1 Hi)).
  destruct (rotates_at_returns bt interval Hbt Hi (eh + Z.of_nat i)) as ([] & E & _); rewrite E.
  { exists i, true. done. }
  destruct (i =? len)%nat eqn:El; [apply Nat.eqb_eq in El; subst; by exists len, false|].
  apply Nat.eqb_neq in El. apply IH; lia.
Qed.

Lemma find_returns bt interval eh es : bt_ok bt -> 0 < interval <= u64_max -> 0 <= eh ->
  eh + Z.of_nat (length es) <= u64_max ->
  exists k b, find_leader_rotation_index bt interval eh es = Some (Ret (take k es, b)) /\ (k <= length es)%nat /\
    rotates_at bt interval (eh + Z.of_nat k) = Ret b /\ (b = false -> k = length es).
Proof.
  intros Hbt Hi Hh Hm. unfold find_leader_rotation_index.
  destruct (rotation_loop_returns (S (length es)) bt interval eh (length es) 0) as (k & b & -> & Hk);
    [done..|lia|lia|]. exists k, b. by split.
Qed.

Lemma collect_returns bt interval eh received more : bt_ok bt -> 0 < interval <= u64_max -> 0 <= eh ->
  eh + Z.of_nat (length (received ++ concat more)) <= u64_max ->
  exists vs rest, collect bt interval eh received more = Some (Ret vs) /\ received ++ concat more = concat vs ++ rest /\
    (rest <> [] -> rotates_at bt interval (eh + Z.of_nat (length (concat vs))) = Ret true).
Proof.
  intros Hbt Hi. revert eh received. induction more as [|n more IH]; intros eh received Hh Hm;
    rewrite length_app in Hm; cbn [collect];
    destruct (find_returns bt interval eh received Hbt Hi Hh) as (k & b & -> & Hk & Hr & Hb); try lia.
  - exists [take k received], (drop k received). simpl. rewrite !app_nil_r, take_drop, length_take_le by lia.
    split_and!; [by destruct b|done|]. intros Hne. destruct b; [done|].
    by rewrite Hb, drop_all in Hne by done.
  - destruct b.
    + exists [take k received], (drop k received ++ concat (n :: more)).
      split; [done|]. split. { cbn [concat app]. by rewrite app_nil_r, (app_assoc (take k received)), take_drop. }
      intros _. simpl. by rewrite app_nil_r, length_take_le by lia.
    + rewrite (Hb eq_refl), take_ge by lia. cbn [concat] in Hm. rewrite u64_add_exact by (apply in_u64_iff; lia).
      destruct (IH (eh + Z.of_nat (length received)) n) as (vs & rest & -> & E & Hrest);
        [lia|rewrite length_app in *; lia|].
      exists (received :: vs), rest. cbn [mbind outcome_bind concat]. rewrite <- app_assoc, <- E. split_and!; [done..|].
      intros Hne. rewrite length_app, Nat2Z.inj_add, Z.add_assoc. by apply Hrest.
Qed.

Lemma tx_votes_app l1 l2 vs : tx_votes (l1 ++ l2) = Ret vs ->
  exists v1 v2, tx_votes l1 = Ret v1 /\ tx_votes l2 = Ret v2 /\ vs = v1 ++ v2.
Proof.
  revert vs. induction l1 as [|tx l1 IH]; intros vs Hv; cbn [app tx_votes] in *; [by exists [], vs|].
  apply bind_Ret_inv in Hv as (v & -> & Hv). apply bind_Ret_inv in Hv as (ws & Hw & Hv).
  destruct (IH ws Hw) as (v1 & v2 & -> & E2 & ->). injection Hv as <-.
  eexists _, v2. split; [done|]. split; [done|]. by destruct v.
Qed.

Lemma block_votes_app es1 es2 vs : block_votes (es1 ++ es2) = Ret vs ->
  exists v1 v2, block_votes es1 = Ret v1 /\ block_votes es2 = Ret v2 /\ vs = v1 ++ v2.
Proof. unfold block_votes. rewrite fmap_app, concat_app. apply tx_votes_app. Qed.

Lemma insert_vote_returns bt k v h now : bt_ok bt -> 0 <= bt_update_index bt < u64_max ->
  exists bt', insert_vote bt k v h now = Ret bt' /\ bt_ok bt' /\
    bt_update_index bt <= bt_update_index bt' <= bt_update_index bt + 1.
Proof.
  intros Hok Hu.
  assert (exists bt', insert_vote bt k v h now = Ret bt' /\
    bt_update_index bt <= bt_update_index bt' <= bt_update_index bt + 1) as (bt' & E & Hi).
  { unfold insert_vote. destruct (bt_table bt !! k) as [n|]; [|by exists bt; split; [done|lia]].
    destruct (_ <? _); [by exists bt; split; [done|lia]|]. destruct (my_data_returns bt Hok) as [me ->].
    rewrite bind_Ret. destruct (_ <=? _); [by eexists; split; [done|simpl; lia]|].
    unfold insert. destruct (match _ with Some _ => _ | None => _ end); cbn [mbind outcome_bind];
      [|by eexists; split; [done|simpl; lia]].
    simpl bt_update_index at 1. rewrite u64_add_exact by (apply in_u64_iff; lia).
    eexists. split; [done|]. simpl. lia. }
  exists bt'. split_and!; [done|by apply (insert_vote_ok bt k v h now)|lia|lia].
Qed.

Lemma insert_votes_returns votes bt clock i : bt_ok bt -> 0 <= bt_update_index bt ->
  bt_update_index bt + Z.of_nat (length votes) <= u64_max ->
  exists bt', insert_votes bt votes clock i = Ret bt' /\ bt_ok bt' /\
    bt_update_index bt <= bt_update_index bt' <= bt_update_index bt + Z.of_nat (length votes).
Proof.
  revert bt i. induction votes as [|[[k v] h] votes IH]; intros bt i Hok H0' Hu; cbn [insert_votes length] in *.
  { exists bt. split_and!; [done..|lia|lia]. }
  destruct (insert_vote_returns bt k v h (clock i)) as (b1 & -> & Hok1 & Hi1); [done|lia|]. rewrite bind_Ret.
  destruct (IH b1 (S i)) as (b2 & -> & Hok2 & Hi2); [done|lia|lia|]. exists b2. split_and!; [done..|lia|lia].
Qed.

(** Counting votes does not move the slots: the tables agree on who leads when. *)
Definition same_slots (bt bt' : BlockThread) : Prop :=
  bt_id bt' = bt_id bt /\ bt_scheduled_leaders bt' = bt_scheduled_leaders bt /\
  ni_leader_id <$> (bt_table bt' !! bt_id bt) = ni_leader_id <$> (bt_table bt !! bt_id bt).

#[local] Instance same_slots_preorder : PreOrder same_slots.
Proof.
  split; [done|]. intros b1 b2 b3 (E1 & E2 & E3) (F1 & F2 & F3). unfold same_slots.
  rewrite <- E1, <- E2, F1, F2. rewrite E1 in *. by rewrite F3.
Qed.

Lemma insert_vote_slots bt k v h now bt' : bt_ok bt -> insert_vote bt k v h now = Ret bt' -> same_slots bt bt'.
Proof.
  intros Hok Hv. unfold insert_vote in Hv. destruct (bt_table bt !! k) as [data|] eqn:Ek; [|by simplify_eq].
  destruct (_ <? _); [by simplify_eq|]. apply bind_Ret_inv in Hv as (me & _ & Hv).
  destruct (_ <=? _); [by simplify_eq|]. pose proof (ok_ids _ Hok _ _ Ek) as Hid.
  apply bind_Ret_inv in Hv as ([n b] & Hi & [= <-]). unfold insert in Hi.
  destruct (match _ with Some _ => _ | None => _ end); [|by injection Hi as _ <-].
  apply bind_Ret_inv in Hi as (ups & _ & [= _ <-]). split_and!; [done|done|]. simpl. rewrite Hid.
  destruct (decide (k = bt_id bt)) as [->|]; [by rewrite lookup_insert_eq, Ek|by rewrite lookup_insert_ne].
Qed.

Lemma insert_votes_slots votes bt clock i bt' : bt_ok bt -> insert_votes bt votes clock i = Ret bt' -> same_slots bt bt'.
Proof.
  revert bt i. induction votes as [|[[k v] h] votes IH]; intros bt i Hok Hv; cbn [insert_votes] in Hv.
  { by simplify_eq. }
  apply bind_Ret_inv in Hv as (b1 & Hv1 & Hv). etrans; [by eapply insert_vote_slots|].
  eapply IH, Hv. by eapply insert_vote_ok.
Qed.

Lemma rotates_at_slots bt bt' interval height : bt_ok bt -> bt_ok bt' -> same_slots bt bt' ->
  rotates_at bt' interval height = rotates_at bt interval height.
Proof.
  intros Hok Hok' (Ei & Es & El). unfold rotates_at, get_scheduled_leader, my_data. rewrite Es, Ei.
  destruct (bt_table bt !! bt_id bt) as [me|] eqn:Em, (bt_table bt' !! bt_id bt) as [me'|] eqn:Em'; [|done..].
  simpl in El |- *. apply (ok_ids _ Hok) in Em. apply (ok_ids _ Hok') in Em'.
  destruct (u64_rem height interval) as [r|]; [|done]. simpl. destruct (r =? 0); [|done].
  injection El as El. destruct (bt_scheduled_leaders bt !! height); simpl; by rewrite ?El, Em, Em'.
Qed.

(** The writer after [es] were written. *)
Definition wrote (w w' : writer) (es0 es : list Entry) : Prop :=
  wr_ledger w' = files_of (es0 ++ es) /\ concat (wr_sent w') = concat (wr_sent w) ++ es /\
  wr_height w' = wr_height w + Z.of_nat (length es) /\ bt_ok (wr_bt w') /\ same_slots (wr_bt w) (wr_bt w').

Lemma wrote_trans w1 w2 w3 es0 es1 es2 :
  wrote w1 w2 es0 es1 -> wrote w2 w3 (es0 ++ es1) es2 -> wrote w1 w3 es0 (es1 ++ es2).
Proof.
  intros (_ & Hs1 & Hh1 & _ & Hb1) (Hl & Hs & Hh & Hok & Hb). unfold wrote.
  rewrite Hl, Hs, Hh, Hs1, Hh1, length_app, <- !app_assoc. split_and!; [done..|lia|done|by etrans].
Qed.

Lemma write_and_send_wrote vs clock w es0 votes : bt_ok (wr_bt w) -> wr_ledger w = files_of es0 ->
  ledger_ok (es0 ++ concat vs) -> block_votes (concat vs) = Ret votes ->
  0 <= bt_update_index (wr_bt w) -> bt_update_index (wr_bt w) + Z.of_nat (length votes) <= u64_max ->
  0 <= wr_height w -> wr_height w + Z.of_nat (length (concat vs)) <= u64_max ->
  exists w', write_and_send clock true w vs = Ret (Ok tt, w') /\ wrote w w' es0 (concat vs).
Proof.
  revert clock w es0 votes. induction vs as [|es vs IH]; intros clock w es0 votes Hbt Hl Hok Hv Hu0 Hu Hh0 Hh;
    cbn [write_and_send concat] in *.
  { exists w. split; [done|]. unfold wrote. rewrite !app_nil_r. split_and!; [done..|simpl; lia|done|done]. }
  apply block_votes_app in Hv as (v1 & v2 & -> & Hv2 & ->). rewrite !length_app in *. rewrite bind_Ret.
  destruct (insert_votes_returns v1 (wr_bt w) (clock O) 0 Hbt Hu0) as (bt' & Eb & Hbt' & Hi); [lia|].
  rewrite Eb, bind_Ret. apply insert_votes_slots in Eb; [|done].
  rewrite app_assoc in Hok. rewrite Hl, write_entries_files, bind_Ret by (by eapply ledger_ok_app).
  rewrite u64_add_exact, bind_Ret by (apply in_u64_iff; lia).
  assert (Hstep : forall sent, concat sent = concat (wr_sent w) ++ es ->
    exists w', write_and_send (fun k => clock (S k)) true
      (mk_writer bt' (files_of (es0 ++ es)) (wr_height w + Z.of_nat (length es)) sent) vs = Ret (Ok tt, w') /\
      wrote w w' es0 (es ++ concat vs)).
  { intros sent Hs.
    destruct (IH (fun k => clock (S k)) (mk_writer bt' (files_of (es0 ++ es)) (wr_height w + Z.of_nat (length es)) sent)
      (es0 ++ es) v2) as (w' & -> & Hw'); cbn [wr_bt wr_ledger wr_height]; [done..|lia|lia|lia|lia|].
    exists w'. split; [done|]. by eapply wrote_trans, Hw'. }
  case_bool_decide as E.
  - apply Hstep. by rewrite E, app_nil_r.
  - apply Hstep. rewrite concat_app. simpl. by rewrite app_nil_r.
Qed.

(** C22: the writer appends a prefix of what it received to its ledger, sends
    just that prefix on and counts it in its height; what it leaves out starts
    at a height from which another node leads, so that the next turn of its
    loop ends its slot. *)
Theorem write_stage_appends : forall clock w interval es0 received more votes,
  bt_ok (wr_bt w) -> wr_ledger w = files_of es0 -> ledger_ok (es0 ++ received ++ concat more) ->
  block_votes (received ++ concat more) = Ret votes ->
  0 <= bt_update_index (wr_bt w) -> bt_update_index (wr_bt w) + Z.of_nat (length votes) <= u64_max ->
  0 < interval <= u64_max ->
  0 <= wr_height w -> wr_height w + Z.of_nat (length (received ++ concat more)) <= u64_max ->
  exists w' new rest, write_and_send_entries clock true w interval (Ok received) more = Some (Ret (Ok tt, w')) /\
    received ++ concat more = new ++ rest /\ wrote w w' es0 new /\
    (rest <> [] -> rotates_at (wr_bt w') interval (wr_height w') = Ret true).
Proof.
  intros clock w interval es0 received more votes Hbt Hl Hok Hv Hu0 Hu Hi Hh0 Hh. unfold write_and_send_entries.
  destruct (collect_returns (wr_bt w) interval (wr_height w) received more Hbt Hi Hh0 Hh) as (vs & rest & -> & E & Hr).
  rewrite E in *. apply block_votes_app in Hv as (v1 & v2 & Hv1 & _ & ->). rewrite !length_app in *.
  rewrite app_assoc in Hok. apply ledger_ok_app in Hok.
  destruct (write_and_send_wrote vs clock w es0 v1) as (w' & -> & Hw); [done..|lia|lia|lia|].
  exists w', (concat vs), rest. split_and!; [done..|]. destruct Hw as (_ & _ & -> & Hbt' & Hs).
  by rewrite (rotates_at_slots _ _ _ _ Hbt Hbt' Hs).
Qed.
End WriteLaws.

(** ** The hypotheses can hold *)

Module WriteWitness.
Import Toy LedgerWitness.
#[local] Existing Instances EntryCodec.entry_bincode u64_bincode u64_bincode_ok checked entry_from entry_from_ok u64_from u64_from_ok
  FinPlanCodec.instruction_bincode.

(** A node that leads itself, up to height 20. *)
Definition slotted : BlockThread :=
  set_scheduled_leader BlockThreadWitness.led 20 (BlockThreadWitness.key_of Byte.x02).

Lemma slotted_ok : bt_ok slotted.
Proof.
  assert (bt_ok BlockThreadWitness.led) as [? ? ? ?]; [|by split].
  eapply proj1, (set_leader_ok BlockThreadWitness.a0 (BlockThreadWitness.key_of Byte.x01) 5); [|by vm_compute].
  by apply (bt_new_ok (BlockThreadWitness.node Byte.x01)).
Qed.

Definition ticks (n : nat) : list Entry := replicate n (Entry_new_tick 0 Hash_default).

Lemma rotation_is_first_witness : exists k b,
  find_leader_rotation_index slotted 10 18 (ticks 5) = Some (Ret (take k (ticks 5), b)) /\
    (k <= 5)%nat /\ (b = false -> k = 5%nat) /\ rotates_at slotted 10 (18 + Z.of_nat k) = Ret b /\
    forall j, (j < k)%nat -> rotates_at slotted 10 (18 + Z.of_nat j) = Ret false.
Proof.
  apply (rotation_is_first slotted 10 18 (ticks 5)); [apply slotted_ok|by split|done|done|by right].
Defined.

Lemma rotation_skipped_witness : find_leader_rotation_index slotted 10 7 (ticks 20) = Some (Ret (ticks 20, false)).
Proof. apply rotation_skipped; [apply slotted_ok|reflexivity..]. Defined.

Definition w0 : writer := mk_writer slotted (files_of []) 19 [].

(** Only the first of the entries is written: the second is for the next leader. *)
Lemma write_stage_appends_witness : exists w' new rest,
  write_and_send_entries (fun _ _ => 9) true w0 10 (Ok es) [] = Some (Ret (Ok tt, w')) /\
    es ++ concat [] = new ++ rest /\ wrote w0 w' [] new /\
    (rest <> [] -> rotates_at (wr_bt w') 10 (wr_height w') = Ret true).
Proof.
  apply (write_stage_appends (fun _ _ => 9) w0 10 [] es [] []);
    [apply slotted_ok|reflexivity|rewrite app_nil_r; apply es_ok|vm_compute; reflexivity|by vm_compute..].
Defined.
End WriteWitness.
