(* ===== verification/Broadcast.v ===== *)
(** * The leader's broadcast

    [src/broadcast_stage.rs] and [BlockThread::broadcast] in
    [src/blockthread.rs]: entries become blobs, blobs are numbered, kept in the
    window and sent out, each to one of the peers in turn.  The [erasure]
    feature is off.  Whether the socket took the [k]-th datagram is given by a
    function. *)

From S2P Require Import Prelude.
From S2P Require Import Types.
From S2P Require Import Codec.
From S2P Require Import Packet.
From S2P Require Import FinPlan.
From S2P Require Import FinPlanProgram.
From S2P Require Import SystemProgram.
From S2P Require Import Transactions.
From S2P Require Import Entry.
From S2P Require Import Block.
From S2P Require Import Processor.
From S2P Require Import Replay.
From S2P Require Import Ledger.
From S2P Require Import BlockThread.
From S2P Require Import Window.
From S2P Require Import WindowService.
From S2P Require Import WriteStage.

(** [WindowIndex]. *)
Record WindowIndex := mk_windex { wi_data : Z; wi_coding : Z }.

Inductive BroadcastStageReturnType := BroadcastLeaderRotation | BroadcastChannelDisconnected.

Inductive BroadcastError := BroadcastRecv (e : RecvTimeoutError) | BroadcastNoPeers | BroadcastIo.

(** A blob, if the slot has one, and the node to send it to. *)
Abbreviation order := (option Blob * NodeInfo)%type.
(** What is handed to the socket. *)
Abbreviation datagram := (bytes * SocketAddr)%type.

Section BroadcastOps.
Context `{Profile} `{ByteOrder} `{Bincode Pubkey} `{Bincode Entry}.

(** The blob right before a rotation goes to the next leader too. *)
Definition leader_order (bt : BlockThread) (interval : Z) (me : NodeInfo) (table : list NodeInfo)
    (d : option Blob) (idx : Z) : outcome (list order) :=
  entry_height ← u64_add idx 1;
  r ← u64_rem entry_height interval;
  if r =? 0 then
    next_leader_id ← get_scheduled_leader bt entry_height;
    Ret (match next_leader_id with
         | Some k => if bool_decide (k = ni_id me) then []
                     else match list_find (fun n => ni_id n = k) table with Some (_, n) => [(d, n)] | None => [] end
         | None => []
         end)
  else Ret [].

(** The loop over the data blobs: the orders and the next peer. *)
Fixpoint data_orders (bt : BlockThread) (interval : Z) (me : NodeInfo) (table : list NodeInfo) (w : Window)
    (br_idx : nat) (idxs : list Z) : outcome (list order * nat) :=
  match idxs with
  | [] => Ret ([], br_idx)
  | idx :: rest =>
      w_idx ← u64_rem idx (Z.of_nat (length w));
      s ← index w (Z.to_nat w_idx);
      extra ← leader_order bt interval me table (ws_data s) idx;
      n ← index table br_idx;
      '(os, br) ← data_orders bt interval me table w ((br_idx + 1) mod length table)%nat rest;
      Ret (extra ++ (ws_data s, n) :: os, br)
  end.

(** The loop over the coding blobs, which skips empty slots. *)
Fixpoint coding_orders (table : list NodeInfo) (w : Window) (br_idx : nat) (idxs : list Z)
    : outcome (list order) :=
  match idxs with
  | [] => Ret []
  | idx :: rest =>
      w_idx ← u64_rem idx (Z.of_nat (length w));
      s ← index w (Z.to_nat w_idx);
      match ws_coding s with
      | None => coding_orders table w br_idx rest
      | Some b =>
          n ← index table br_idx;
          os ← coding_orders table w ((br_idx + 1) mod length table)%nat rest;
          Ret ((Some b, n) :: os)
      end
  end.

(** One order: only the leader may broadcast, and a slot must not be empty. *)
Definition send_order (me : NodeInfo) (o : order) : outcome datagram :=
  _ ← rassert (bool_decide (ni_leader_id me <> ni_id o.2));
  blob ← unwrap o.1;
  let sz := m_size (b_meta blob) in
  _ ← rassert (sz <=? Z.of_nat BLOB_SIZE);
  d ← slice (b_data blob) 0 (Z.to_nat sz);
  Ret (d, ci_tx_signer (ni_contact_info o.2)).

Fixpoint send_orders (me : NodeInfo) (os : list order) : outcome (list datagram) :=
  match os with
  | [] => Ret []
  | o :: rest => d ← send_order me o; ds ← send_orders me rest; Ret (d :: ds)
  end.

(** The loop over the results of the sends. *)
Fixpoint advance (transmit received : Z) (sent_ok : nat -> bool) (n : nat) : bool * Z :=
  match n with
  | O => (true, transmit)
  | S n' =>
      if sent_ok O then
        advance (if transmit <? received then transmit + 1 else transmit) received (fun k => sent_ok (S k)) n'
      else (false, transmit)
  end.

(** [BlockThread::broadcast]: every datagram is handed to the socket before the
    results are looked at.  [Vec::with_capacity] panics on more than
    [isize::MAX] bytes, of which an order has 16. *)
Definition BlockThread_broadcast (bt : BlockThread) (interval : Z) (me : NodeInfo) (table : list NodeInfo)
    (w : Window) (sent_ok : nat -> bool) (ti : WindowIndex) (received_index : Z)
    : outcome (result unit BroadcastError * WindowIndex * list datagram) :=
  if bool_decide (table = []) then Ret (Err BroadcastNoPeers, ti, [])
  else
    len ← u64_sub received_index (wi_data ti);
    cap ← u64_add len 1;
    _ ← rassert (cap * 16 <=? i64_max);
    let br_idx := Z.to_nat (wi_data ti mod Z.of_nat (length table)) in
    '(os, br_idx') ← data_orders bt interval me table w br_idx (range (wi_data ti) received_index);
    cs ← coding_orders table w br_idx' (range (wi_coding ti) received_index);
    ds ← send_orders me (os ++ cs);
    let '(ok, t) := advance (wi_data ti) received_index sent_ok (length ds) in
    Ret (if ok then (Ok tt, mk_windex t t, ds) else (Err BroadcastIo, mk_windex t (wi_coding ti), ds)).

(** What the broadcaster's thread keeps. *)
Record caster := mk_caster { bc_window : Window; bc_transmit : WindowIndex; bc_receive : Z }.

(** The loop that empties the slots of a chunk. *)
Fixpoint take_slots (w : Window) (blobs : list Blob) : outcome Window :=
  match blobs with
  | [] => Ret w
  | b :: rest =>
      ix ← get_index b;
      w' ← update w (slot_of ix) (fun s => slot_set_coding None (slot_set_data None s));
      take_slots w' rest
  end.

Definition broadcast_chunk (bt : BlockThread) (interval : Z) (me : NodeInfo) (table : list NodeInfo)
    (sent_ok : nat -> bool) (c : caster) (blobs : list Blob)
    : outcome (result unit BroadcastError * caster * list datagram) :=
  bs ← index_blobs (ni_id me) blobs (bc_receive c);
  _ ← rassert (length bs <=? length (bc_window c))%nat;
  w1 ← take_slots (bc_window c) bs;
  w2 ← cache_blobs w1 bs;
  receive ← u64_add (bc_receive c) (Z.of_nat (length blobs));
  '(r, ti, ds) ← BlockThread_broadcast bt interval me table w2 sent_ok (bc_transmit c) receive;
  Ret (r, mk_caster w2 ti receive, ds).

(** The loop over the chunks; [sent_ok i] answers for the [i]-th. *)
Fixpoint broadcast_chunks (bt : BlockThread) (interval : Z) (me : NodeInfo) (table : list NodeInfo)
    (sent_ok : nat -> nat -> bool) (c : caster) (chunks : list (list Blob))
    : outcome (result unit BroadcastError * caster * list datagram) :=
  match chunks with
  | [] => Ret (Ok tt, c, [])
  | blobs :: rest =>
      '(r, c', ds) ← broadcast_chunk bt interval me table (sent_ok O) c blobs;
      match r with
      | Err e => Ret (Err e, c', ds)
      | Ok _ =>
          '(r', c'', ds') ← broadcast_chunks bt interval me table (fun i => sent_ok (S i)) c' rest;
          Ret (r', c'', ds ++ ds')
      end
  end.

(** [flat_map(|p| p.to_blobs())]. *)
Fixpoint all_blobs (ventries : list (list Entry)) : outcome (list Blob) :=
  match ventries with
  | [] => Ret []
  | p :: rest => bs ← block_to_blobs p; more ← all_blobs rest; Ret (bs ++ more)
  end.

(** [broadcast]: [first] is the message waited for, [more] the ones that were
    already there. *)
Definition broadcast (bt : BlockThread) (interval : Z) (me : NodeInfo) (table : list NodeInfo)
    (sent_ok : nat -> nat -> bool) (c : caster)
    (first : result (list Entry) RecvTimeoutError) (more : list (list Entry))
    : outcome (result unit BroadcastError * caster * list datagram) :=
  match first with
  | Err e => Ret (Err (BroadcastRecv e), c, [])
  | Ok entries =>
      blobs ← all_blobs (entries :: more);
      broadcast_chunks bt interval me table sent_ok c (chunks_of (length blobs) WINDOW_SIZE blobs)
  end.

(** One turn of [BroadcastStage::run]'s loop: [me] and [interval] are what it
    read when it started. *)
Definition broadcast_turn (bt : BlockThread) (interval : Z) (me : NodeInfo)
    (sent_ok : nat -> nat -> bool) (c : caster)
    (first : result (list Entry) RecvTimeoutError) (more : list (list Entry))
    : outcome (option BroadcastStageReturnType * caster * list datagram) :=
  rotates ← rotates_at bt interval (wi_data (bc_transmit c));
  if (rotates : bool) then Ret (Some BroadcastLeaderRotation, c, [])
  else
    table ← compute_broadcast_table bt;
    '(r, c', ds) ← broadcast bt interval me table sent_ok c first more;
    Ret (match r with Err (BroadcastRecv Disconnected) => Some BroadcastChannelDisconnected | _ => None end, c', ds).

(** The state [BroadcastStage::run] starts with. *)
Definition caster_start (w : Window) (entry_height : Z) : caster :=
  mk_caster w (mk_windex entry_height entry_height) entry_height.
End BroadcastOps.

(** ** What a call sends *)

Lemma range_cons a b : a < b -> range a b = a :: range (a + 1) b.
Proof.
  intros Hab. unfold range. replace (Z.to_nat (b - a)) with (S (Z.to_nat (b - (a + 1)))) by lia.
  simpl. rewrite Z.add_0_r. f_equal. rewrite <- fmap_S_seq, <- list_fmap_compose.
  apply list_fmap_ext. intros i x _. simpl. lia.
Qed.
Lemma range_nil a b : b <= a -> range a b = [].
Proof. intros. unfold range. by replace (Z.to_nat (b - a)) with O by lia. Qed.
Lemma length_range a b : a <= b -> Z.of_nat (length (range a b)) = b - a.
Proof. intros. unfold range. rewrite length_fmap, length_seq. lia. Qed.

Lemma elem_of_option_list {A} (x : A) o : x ∈ option_list o <-> o = Some x.
Proof. destruct o; simpl; [rewrite list_elem_of_singleton|rewrite elem_of_nil]; naive_solver. Qed.

(** Numbering a list from [t]. *)
Lemma imap_from {A B} (f : Z -> A -> B) t x l :
  imap (fun j a => f (t + Z.of_nat j) a) (x :: l) = f t x :: imap (fun j a => f (t + 1 + Z.of_nat j) a) l.
Proof.
  rewrite imap_cons, Z.add_0_r. f_equal. apply imap_ext. intros j a _. unfold compose. f_equal. lia.
Qed.

(** The bytes of a blob that are sent. *)
Definition payload (b : Blob) : bytes := take (Z.to_nat (m_size (b_meta b))) (b_data b).

Definition sendable (b : Blob) : Prop := wf b /\ 0 <= m_size (b_meta b) <= Z.of_nat BLOB_SIZE.

(** The window has blob [b] for [ix], and no coding blob. *)
Definition holds_at (w : Window) (ix : Z) (b : Blob) : Prop :=
  exists s, w !! slot_of ix = Some s /\ ws_data s = Some b /\ ws_coding s = None.

Section BroadcastLaws.
Context `{Profile}.
Context (bt : BlockThread) (interval : Z) (me : NodeInfo) (table : list NodeInfo).
Hypothesis (Hbt : bt_ok bt) (Hint : interval <> 0).

(** The node that leads from [height] on, if it is another one that is being
    broadcast to. *)
Definition next_leader (height : Z) : option NodeInfo :=
  if height mod interval =? 0 then
    k ← (match bt_scheduled_leaders bt !! height with
         | Some k => Some k
         | None => ni_leader_id <$> (bt_table bt !! bt_id bt)
         end);
    if bool_decide (k = ni_id me) then None else snd <$> list_find (fun n => ni_id n = k) table
  else None.

(** Whom blob [idx] goes to. *)
Definition recipients (idx : Z) : list NodeInfo :=
  option_list (next_leader (idx + 1)) ++ option_list (table !! Z.to_nat (idx mod Z.of_nat (length table))).

(** What is sent of the blobs from [t] on. *)
Definition planned (t : Z) (bs : list Blob) : list datagram :=
  concat (imap (fun j b => (fun n => (payload b, ci_tx_signer (ni_contact_info n))) <$> recipients (t + Z.of_nat j)) bs).

Lemma leader_order_spec d idx : 0 <= idx < u64_max ->
  leader_order bt interval me table d idx = Ret ((fun n => (d, n)) <$> option_list (next_leader (idx + 1))).
Proof using Hbt Hint.
  intros Hi. unfold leader_order, next_leader. rewrite u64_add_exact, bind_Ret by (apply in_u64_iff; lia).
  unfold u64_rem. rewrite (proj2 (Z.eqb_neq _ _) Hint), bind_Ret.
  destruct (_ =? 0); [|done]. unfold get_scheduled_leader, my_data. destruct (ok_self _ Hbt) as [n Hn]. rewrite Hn.
  destruct (bt_scheduled_leaders bt !! (idx + 1)) as [k|]; simpl.
  - case_bool_decide; [done|]. by destruct (list_find _ _) as [[]|].
  - case_bool_decide; [done|]. by destruct (list_find _ _) as [[]|].
Qed.

Hypothesis (Htable : table <> []).

Lemma table_length : (0 < length table)%nat.
Proof using Htable. destruct table; [done|]. simpl. lia. Qed.

Lemma peer_lookup idx : exists n, table !! Z.to_nat (idx mod Z.of_nat (length table)) = Some n.
Proof using Htable.
  apply lookup_lt_is_Some_2. pose proof table_length. pose proof (Z.mod_pos_bound idx (Z.of_nat (length table))). lia.
Qed.

(** The next peer in turn is the index modulo the number of peers. *)
Lemma next_peer t : 0 <= t ->
  ((Z.to_nat (t mod Z.of_nat (length table)) + 1) mod length table)%nat = Z.to_nat ((t + 1) mod Z.of_nat (length table)).
Proof using Htable.
  intros Ht. pose proof table_length. apply Nat2Z.inj. rewrite Nat2Z.inj_mod, Nat2Z.inj_add.
  pose proof (Z.mod_pos_bound t (Z.of_nat (length table))). pose proof (Z.mod_pos_bound (t + 1) (Z.of_nat (length table))).
  rewrite !Z2Nat.id by lia. change (Z.of_nat 1) with 1. by rewrite Zplus_mod_idemp_l.
Qed.

Lemma slot_of_rem (w : Window) idx : length w = WINDOW_SIZE ->
  u64_rem idx (Z.of_nat (length w)) = Ret (idx mod Z.of_nat WINDOW_SIZE).
Proof.
  intros ->. unfold u64_rem. pose proof WINDOW_SIZE_Z. destruct (_ =? 0) eqn:E; bool_prop; [lia|done].
Qed.

Lemma data_orders_spec w bs t : length w = WINDOW_SIZE -> 0 <= t -> t + Z.of_nat (length bs) <= u64_max ->
  (forall j b, bs !! j = Some b -> holds_at w (t + Z.of_nat j) b) ->
  exists br, data_orders bt interval me table w (Z.to_nat (t mod Z.of_nat (length table)))
    (range t (t + Z.of_nat (length bs))) =
    Ret (concat (imap (fun j b => (fun n => (Some b, n)) <$> recipients (t + Z.of_nat j)) bs), br).
Proof using Hbt Hint Htable.
  intros Hw. revert t. induction bs as [|b bs IH]; intros t Ht Hmax Hh.
  { simpl. rewrite Z.add_0_r, range_nil by lia. by eexists. }
  cbn [length] in *. rewrite range_cons by lia. cbn [data_orders].
  rewrite slot_of_rem, bind_Ret by done. fold (slot_of t). destruct (Hh O b eq_refl) as (s & Hs & Hd & _).
  rewrite Z.add_0_r in Hs. rewrite (proj2 (index_Ret _ _ _) Hs), bind_Ret, Hd, leader_order_spec, bind_Ret by lia.
  destruct (peer_lookup t) as [n Hn]. rewrite (proj2 (index_Ret _ _ _) Hn), bind_Ret, next_peer by done.
  destruct (IH (t + 1)) as [br Hbr]; [lia|lia| |].
  { intros j b' Hj. specialize (Hh (S j) b' Hj). by replace (t + 1 + Z.of_nat j) with (t + Z.of_nat (S j)) by lia. }
  replace (t + 1 + Z.of_nat (length bs)) with (t + Z.of_nat (S (length bs))) in Hbr by lia.
  rewrite Hbr. cbn [mbind outcome_bind]. exists br. f_equal. f_equal.
  rewrite (imap_from (fun i b => (fun n => (Some b, n)) <$> recipients i)). cbn [concat].
  unfold recipients at 2. by rewrite Hn, fmap_app, <- app_assoc.
Qed.

Lemma coding_orders_none w br t m : length w = WINDOW_SIZE ->
  (forall idx, t <= idx < t + Z.of_nat m -> exists b, holds_at w idx b) ->
  coding_orders table w br (range t (t + Z.of_nat m)) = Ret [].
Proof.
  intros Hw. revert t. induction m as [|m IH]; intros t Hh; [by rewrite range_nil by lia|].
  rewrite range_cons by lia. cbn [coding_orders]. rewrite slot_of_rem, bind_Ret by done. fold (slot_of t).
  destruct (Hh t) as (b & s & Hs & _ & Hc); [lia|]. rewrite (proj2 (index_Ret _ _ _) Hs), bind_Ret, Hc.
  replace (t + Z.of_nat (S m)) with (t + 1 + Z.of_nat m) by lia. apply IH. intros idx Hi. apply Hh. lia.
Qed.

Lemma send_orders_spec os : Forall (fun o => exists b, o.1 = Some b /\ sendable b /\ ni_leader_id me <> ni_id o.2) os ->
  send_orders me os =
    Ret ((fun o => (default [] (payload <$> o.1), ci_tx_signer (ni_contact_info o.2))) <$> os).
Proof.
  induction 1 as [|[d n] os (b & Hd & [Hwf Hsz] & Hl) _ IH]; [done|]. simpl in *. subst d.
  unfold send_order. rewrite bool_decide_true by done. simpl.
  rewrite (proj2 (Z.leb_le _ _)) by lia. simpl. unfold wf, Blob_wf in Hwf.
  rewrite slice_Ret by lia. simpl. rewrite IH. simpl. unfold payload. by rewrite Nat.sub_0_r, drop_0.
Qed.

Lemma advance_ok t r sent_ok n : t <= r -> (forall k, (k < n)%nat -> sent_ok k = true) ->
  advance t r sent_ok n = (true, Z.min r (t + Z.of_nat n)).
Proof.
  revert t sent_ok. induction n as [|n IH]; intros t sent_ok Ht Hok; cbn [advance]; [f_equal; lia|].
  rewrite Hok by lia. rewrite IH.
  - f_equal. destruct (t <? r) eqn:E; bool_prop; lia.
  - destruct (t <? r) eqn:E; bool_prop; lia.
  - intros k Hk. apply Hok. lia.
Qed.

Lemma planned_cons t b bs : planned t (b :: bs) =
  ((fun n => (payload b, ci_tx_signer (ni_contact_info n))) <$> recipients t) ++ planned (t + 1) bs.
Proof.
  unfold planned. by rewrite (imap_from (fun i b => (fun n => (payload b, ci_tx_signer (ni_contact_info n))) <$> recipients i)).
Qed.

Lemma planned_orders t bs :
  (fun o : order => (default [] (payload <$> o.1), ci_tx_signer (ni_contact_info o.2))) <$>
    concat (imap (fun j b => (fun n => (Some b, n)) <$> recipients (t + Z.of_nat j)) bs) = planned t bs.
Proof.
  revert t. induction bs as [|b bs IH]; intros t; [done|].
  rewrite planned_cons, (imap_from (fun i b => (fun n => (Some b, n)) <$> recipients i)). cbn [concat].
  by rewrite fmap_app, <- list_fmap_compose, IH.
Qed.

Lemma planned_length t bs : (length bs <= length (planned t bs))%nat.
Proof using Htable.
  revert t. induction bs as [|b bs IH]; intros t; [simpl; lia|].
  rewrite planned_cons, length_app, length_fmap. specialize (IH (t + 1)).
  unfold recipients. destruct (peer_lookup t) as [n ->]. rewrite length_app. simpl. lia.
Qed.

Hypothesis (Hleads : Forall (fun n => ni_leader_id me <> ni_id n) table).

Lemma recipients_in idx n : n ∈ recipients idx -> n ∈ table.
Proof.
  unfold recipients. rewrite elem_of_app. intros [Hn|Hn].
  - unfold next_leader in Hn. destruct (_ =? 0); [|by apply elem_of_nil in Hn].
    apply elem_of_option_list, bind_Some in Hn as (k & _ & Hn).
    case_bool_decide; [done|]. apply fmap_Some in Hn as ([i n'] & Hf & ->).
    apply list_find_Some in Hf as (Hi & _). by eapply list_elem_of_lookup_2.
  - apply elem_of_option_list in Hn. by eapply list_elem_of_lookup_2.
Qed.

(** The datagrams of a call are the planned ones, whether or not they arrive;
    what changes with that is how far the index moves. *)
Lemma BlockThread_broadcast_spec w t bs sent_ok : length w = WINDOW_SIZE -> 0 <= t ->
  t + Z.of_nat (length bs) <= u64_max -> (length bs <= WINDOW_SIZE)%nat ->
  (forall j b, bs !! j = Some b -> holds_at w (t + Z.of_nat j) b) -> Forall sendable bs ->
  BlockThread_broadcast bt interval me table w sent_ok (mk_windex t t) (t + Z.of_nat (length bs)) =
    Ret (let '(ok, t') := advance t (t + Z.of_nat (length bs)) sent_ok (length (planned t bs)) in
         if ok then (Ok tt, mk_windex t' t', planned t bs) else (Err BroadcastIo, mk_windex t' t, planned t bs)).
Proof using Hbt Hint Htable Hleads.
  intros Hw Ht Hmax Hfit Hh Hs. pose proof WINDOW_SIZE_Z. unfold BlockThread_broadcast. cbn [wi_data wi_coding].
  rewrite bool_decide_false by done. rewrite u64_sub_exact, bind_Ret by (apply in_u64_iff; unfold u64_max in *; lia).
  rewrite u64_add_exact, bind_Ret by (apply in_u64_iff; unfold u64_max in *; lia).
  rewrite (proj2 (Z.leb_le _ _)) by (unfold i64_max; lia). cbn [rassert]. rewrite bind_Ret.
  destruct (data_orders_spec w bs t) as [br ->]; [done..|]. cbn [mbind outcome_bind].
  rewrite coding_orders_none; [|done|].
  - rewrite bind_Ret, app_nil_r, send_orders_spec.
    + rewrite planned_orders, bind_Ret. by destruct (advance _ _ _ _) as [[] t'].
    + apply Forall_concat, Forall_forall. intros os Hos. apply elem_of_lookup_imap in Hos as (j & b & -> & Hb).
      apply Forall_fmap, Forall_forall. intros n Hn. simpl. exists b. split; [done|].
      split; [by apply (Forall_lookup_1 _ _ _ _ Hs Hb)|].
      apply recipients_in in Hn. by apply (proj1 (Forall_forall _ _) Hleads).
  - intros idx Hi. destruct (lookup_lt_is_Some_2 bs (Z.to_nat (idx - t))) as [b Hb]; [lia|].
    exists b. replace idx with (t + Z.of_nat (Z.to_nat (idx - t))) by lia. by apply Hh.
Qed.
End BroadcastLaws.

(** ** Filling the window *)

Section Caching.
Context `{Profile} `{ByteOrder}.

Definition numbered (start : Z) (bs : list Blob) : Prop :=
  forall j b, bs !! j = Some b -> get_index b = Ret (start + Z.of_nat j).
Definition clear_at (w : Window) (ix : Z) : Prop :=
  exists s, w !! slot_of ix = Some s /\ ws_data s = None /\ ws_coding s = None.

Lemma numbered_cons start b bs : numbered start (b :: bs) -> get_index b = Ret start /\ numbered (start + 1) bs.
Proof.
  intros Hn. split; [by rewrite (Hn O b eq_refl), Z.add_0_r|]. intros j b' Hj.
  rewrite (Hn (S j) b' Hj). f_equal. lia.
Qed.

Lemma update_slot (w : Window) ix f : length w = WINDOW_SIZE ->
  exists s, w !! slot_of ix = Some s /\ update w (slot_of ix) f = Ret (<[slot_of ix := f s]> w).
Proof.
  intros Hw. destruct (lookup_lt_is_Some_2 w (slot_of ix)) as [s Hs]; [rewrite Hw; apply slot_of_lt|].
  exists s. split; [done|]. unfold update. by rewrite Hs.
Qed.

Lemma take_slots_spec bs start w : length w = WINDOW_SIZE -> numbered start bs ->
  exists w', take_slots w bs = Ret w' /\ length w' = WINDOW_SIZE /\
    forall ix, clear_at w ix \/ start <= ix < start + Z.of_nat (length bs) -> clear_at w' ix.
Proof.
  revert start w. induction bs as [|b bs IH]; intros start w Hw Hn; cbn [take_slots length].
  { exists w. split_and!; [done..|]. intros ix [Hc|Hi]; [done|lia]. }
  apply numbered_cons in Hn as [Hb Hn]. rewrite Hb, bind_Ret.
  destruct (update_slot w start (fun s => slot_set_coding None (slot_set_data None s)) Hw) as (s & Hs & ->).
  rewrite bind_Ret. destruct (IH (start + 1) (<[slot_of start := slot_set_coding None (slot_set_data None s)]> w))
    as (w' & Ew & Hl & Hc); [by rewrite length_insert|done|].
  exists w'. split_and!; [done..|]. intros ix Hi. apply Hc.
  destruct (decide (slot_of ix = slot_of start)) as [E|E].
  - left. eexists. rewrite E, list_lookup_insert_eq by (rewrite Hw; apply slot_of_lt). done.
  - destruct Hi as [(s' & Hs' & Hd)|Hi].
    + left. exists s'. by rewrite list_lookup_insert_ne.
    + right. destruct (decide (ix = start)) as [->|]; [done|lia].
Qed.

Lemma cache_blobs_spec bs start w : length w = WINDOW_SIZE -> (length bs <= WINDOW_SIZE)%nat -> 0 <= start ->
  numbered start bs -> (forall ix, start <= ix < start + Z.of_nat (length bs) -> clear_at w ix) ->
  exists w', cache_blobs w bs = Ret w' /\ length w' = WINDOW_SIZE /\
    (forall j b, bs !! j = Some b -> holds_at w' (start + Z.of_nat j) b) /\
    forall i, (forall ix, start <= ix < start + Z.of_nat (length bs) -> slot_of ix <> i) -> w' !! i = w !! i.
Proof.
  revert start w. induction bs as [|b bs IH]; intros start w Hw Hfit H0s Hn Hc; cbn [cache_blobs length] in *.
  { exists w. split_and!; [done..|intros j b Hj; by rewrite lookup_nil in Hj|done]. }
  apply numbered_cons in Hn as [Hb Hn]. rewrite Hb, bind_Ret.
  destruct (update_slot w start (slot_set_data (Some b)) Hw) as (s & Hs & Eu).
  destruct (Hc start) as (s' & Hs' & Hd & Hk); [lia|]. assert (s' = s) as -> by congruence.
  rewrite (proj2 (index_Ret _ _ _) Hs), bind_Ret, Hd. cbn [rassert]. rewrite bind_Ret, Eu, bind_Ret.
  assert (Hdiff : forall ix, start + 1 <= ix < start + 1 + Z.of_nat (length bs) -> slot_of ix <> slot_of start).
  { intros ix Hi E. symmetry in E. apply slot_of_inj in E; lia. }
  destruct (IH (start + 1) (<[slot_of start := slot_set_data (Some b) s]> w)) as (w' & Ew & Hl & Hh & Hf);
    [by rewrite length_insert|lia|lia|done| |].
  { intros ix Hi. destruct (Hc ix) as (s1 & Hs1 & Hd1); [lia|]. exists s1.
    rewrite list_lookup_insert_ne; [done|]. intros E. by apply (Hdiff ix). }
  exists w'. split_and!; [done..| |].
  - intros [|j] b' Hj; simplify_eq/=.
    + rewrite Z.add_0_r. exists (slot_set_data (Some b') s). rewrite Hf by done.
      by rewrite list_lookup_insert_eq by (rewrite Hw; apply slot_of_lt).
    + specialize (Hh j b' Hj). by replace (start + Z.of_nat (S j)) with (start + 1 + Z.of_nat j) by lia.
  - intros i Hi. rewrite Hf by (intros ix Hx; apply Hi; lia).
    rewrite list_lookup_insert_ne; [done|]. apply Hi. lia.
Qed.
End Caching.

(** ** From entries to datagrams *)

Section Stage.
Context `{Profile} `{ByteOrder} `{Hbo : !ByteOrderOk} `{Bincode Pubkey} `{Hpw : !PubkeyWire}
  `{Bincode Entry} `{Hen : !BincodeOk Entry}.

Definition block_ok (es : list Entry) : Prop :=
  Forall wf es /\ Forall (fun e => serialized_size e <= BLOB_DATA_SIZE) es.

Lemma block_ok_app es1 es2 : block_ok (es1 ++ es2) <-> block_ok es1 /\ block_ok es2.
Proof. unfold block_ok. rewrite !Forall_app. tauto. Qed.

(** A blob that holds [e], whatever its index and id. *)
Definition raw (e : Entry) (b : Blob) : Prop := exists id i, carries 0 id i e b.

Lemma block_to_blobs_raw p : block_ok p -> Z.of_nat (length p) <= u64_max ->
  exists bs, block_to_blobs p = Ret bs /\ Forall2 raw p bs.
Proof.
  intros [Hw Hz] Hmax. assert (Hu : in_u64 (0 + Z.of_nat (length p)) = true) by (apply in_u64_iff; lia).
  assert (Hd : wf Pubkey_default) by reflexivity.
  destruct (blobs_from_spec 0 Pubkey_default 0 (V4 [Byte.x00; Byte.x00; Byte.x00; Byte.x00] 0) p)
    as (bs & E & _); [done..|lia|done|done|done|]. exists bs. split; [done|].
  destruct (broadcasted Pubkey_default 0 (V4 [Byte.x00; Byte.x00; Byte.x00; Byte.x00] 0) p bs) as [Hl Hlk]; [done..|].
  apply Forall2_same_length_lookup_2; [done|]. intros j e b He Hb.
  destruct (Hlk j b Hb) as (e' & He' & Hc). simplify_eq. by exists Pubkey_default, j.
Qed.

Lemma all_blobs_raw ventries : block_ok (concat ventries) -> Z.of_nat (length (concat ventries)) <= u64_max ->
  exists bs, all_blobs ventries = Ret bs /\ Forall2 raw (concat ventries) bs.
Proof.
  induction ventries as [|p v IH]; cbn [concat all_blobs]; intros Hok Hmax; [by exists []|].
  apply block_ok_app in Hok as [Hp Hv]. rewrite length_app in Hmax.
  destruct (block_to_blobs_raw p Hp) as (bs & -> & Hbs); [lia|]. destruct (IH Hv) as (bs' & -> & Hbs'); [lia|].
  exists (bs ++ bs'). split; [done|]. by apply Forall2_app.
Qed.

Lemma index_blob_carries id start i e b : raw e b -> wf id -> in_u64 (start + Z.of_nat i) = true ->
  exists b', (b1 ← set_id b id; b2 ← set_index b1 (start + Z.of_nat i); set_flags b2 0) = Ret b' /\
    carries start id i e b'.
Proof.
  intros (id0 & i0 & Hb & (_ & _ & _ & Hs) & [rest Hp] & He & Hz) Hid Hix.
  destruct (set_id_spec b id Hb Hid) as (b1 & -> & Hb1 & Hm1 & Hf1).
  destruct (set_index_spec b1 (start + Z.of_nat i) Hb1) as (b2 & E2 & Hb2 & Hm2 & Hf2).
  destruct (set_flags_spec b2 0 Hb2) as (b3 & E3 & Hb3 & Hm3 & Hf3).
  rewrite bind_Ret, E2, bind_Ret, E3. exists b3. split; [done|].
  split; [done|]. split; [|split; [exists rest; by rewrite Hf3, Hf2, Hf1|done]].
  unfold shows, get_index, get_id, get_flags. cbn [h_index h_id h_flags h_size].
  change (slice (b_data b3) 0 BLOB_INDEX_END) with (field_of FIndex b3).
  change (slice (b_data b3) BLOB_INDEX_END BLOB_ID_END) with (field_of FId b3).
  change (slice (b_data b3) BLOB_ID_END BLOB_FLAGS_END) with (field_of FFlags b3).
  split_and!.
  - rewrite Hf3, Hf2. simpl. by rewrite read_write_u64.
  - rewrite Hf3, Hf2, Hf1. simpl. by rewrite deserialize_serialize.
  - rewrite Hf3. simpl. by rewrite read_write_u32.
  - cbn [h_size] in Hs. rewrite <- Hs. unfold get_size, get_data_size. rewrite Hm3, Hm2, Hm1.
    change (slice (b_data b3) BLOB_FLAGS_END BLOB_SIZE_END) with (field_of FSize b3).
    change (slice (b_data b) BLOB_FLAGS_END BLOB_SIZE_END) with (field_of FSize b).
    by rewrite Hf3, Hf2, Hf1.
Qed.

(** The leader's numbered blobs. *)
Definition leads (start : Z) (id : Pubkey) (es : list Entry) (bs : list Blob) : Prop :=
  length bs = length es /\ forall j b, bs !! j = Some b -> exists e, es !! j = Some e /\ carries start id j e b.

Lemma carries_shift start id i j e b : carries start id (i + j) e b <-> carries (start + Z.of_nat i) id j e b.
Proof. unfold carries. by replace (start + Z.of_nat (i + j)) with (start + Z.of_nat i + Z.of_nat j) by lia. Qed.

Lemma index_blobs_leads id start i es bs : Forall2 raw es bs -> wf id -> 0 <= start ->
  start + Z.of_nat i + Z.of_nat (length es) <= u64_max ->
  exists bs', index_blobs_from i id bs start = Ret bs' /\ leads (start + Z.of_nat i) id es bs'.
Proof.
  intros Hr Hid Hs. revert i. induction Hr as [|e b es bs Hb Hr IH]; intros i Hmax; cbn [index_blobs_from length] in *.
  { exists []. split; [done|]. split; [done|]. intros j b Hj. by rewrite lookup_nil in Hj. }
  assert (Hix : in_u64 (start + Z.of_nat i) = true) by (apply in_u64_iff; lia).
  destruct (index_blob_carries id start i e b Hb Hid Hix) as (b' & Eb & Hc).
  apply bind_Ret_inv in Eb as (b1 & -> & Eb). apply bind_Ret_inv in Eb as (b2 & E2 & Eb).
  rewrite bind_Ret, u64_add_exact, bind_Ret, E2, bind_Ret, Eb, bind_Ret by done.
  destruct (IH (S i)) as (bs' & -> & Hl & Hlk); [lia|]. exists (b' :: bs'). split; [done|].
  split; [simpl; congruence|]. intros [|j] b0 Hj; simplify_eq/=.
  - exists e. split; [done|]. rewrite <- carries_shift. by rewrite Nat.add_0_r.
  - destruct (Hlk j b0 Hj) as (e0 & He0 & Hc0). exists e0. split; [done|].
    rewrite <- carries_shift in *. by replace (i + S j)%nat with (S i + j)%nat by lia.
Qed.

Lemma carries_sendable start id j e b : carries start id j e b -> sendable b.
Proof.
  intros (Hb & Hsh & _ & _ & Hz). split; [done|]. unfold serialized_size in *.
  destruct (shows_size b _ Hsh) as [_ ->]; simpl; [lia|]. rewrite BLOB_DATA_SIZE_eq in Hz.
  pose proof BLOB_SIZE_Z. lia.
Qed.

Lemma leads_numbered start id es bs : leads start id es bs -> numbered start bs /\ Forall sendable bs.
Proof.
  intros [_ Hlk]. split.
  - intros j b Hj. destruct (Hlk j b Hj) as (e & _ & _ & (Hi & _) & _). done.
  - apply Forall_lookup_2. intros j b Hj. destruct (Hlk j b Hj) as (e & _ & Hc). by eapply carries_sendable.
Qed.

Lemma leads_app start id es1 es2 bs1 bs2 : leads start id es1 bs1 ->
  leads (start + Z.of_nat (length es1)) id es2 bs2 -> leads start id (es1 ++ es2) (bs1 ++ bs2).
Proof.
  intros [Hl1 Hk1] [Hl2 Hk2]. split; [rewrite !length_app; lia|]. intros j b Hj.
  apply lookup_app_Some in Hj as [Hj|[Hge Hj]].
  - destruct (Hk1 j b Hj) as (e & He & Hc). exists e. split; [by apply lookup_app_l_Some|done].
  - destruct (Hk2 _ b Hj) as (e & He & Hc). exists e. split; [rewrite lookup_app_r by lia; by rewrite <- Hl1|].
    rewrite <- carries_shift in Hc. by replace (length es1 + (j - length bs1))%nat with j in Hc by lia.
Qed.

(** The broadcaster has sent all it was given. *)
Definition idle (c : caster) : Prop :=
  length (bc_window c) = WINDOW_SIZE /\ bc_transmit c = mk_windex (bc_receive c) (bc_receive c) /\ 0 <= bc_receive c.

Context (bt : BlockThread) (interval : Z) (me : NodeInfo) (table : list NodeInfo).
Hypothesis (Hbt : bt_ok bt) (Hint : interval <> 0) (Htable : table <> []).
Hypothesis (Hleads : Forall (fun n => ni_leader_id me <> ni_id n) table) (Hme : wf (ni_id me)).

Lemma planned_app t bs1 bs2 : planned bt interval me table t (bs1 ++ bs2) =
  planned bt interval me table t bs1 ++ planned bt interval me table (t + Z.of_nat (length bs1)) bs2.
Proof.
  revert t. induction bs1 as [|b bs1 IH]; intros t; [simpl; by rewrite Z.add_0_r|].
  cbn [app length]. rewrite !planned_cons, IH, <- app_assoc. do 3 f_equal. lia.
Qed.

(** A chunk is numbered, cached and handed to [BlockThread_broadcast]. *)
Lemma broadcast_chunk_run sent_ok c es blobs : length (bc_window c) = WINDOW_SIZE -> 0 <= bc_receive c ->
  Forall2 raw es blobs -> (length blobs <= WINDOW_SIZE)%nat ->
  bc_receive c + Z.of_nat (length es) <= u64_max ->
  exists bs w', leads (bc_receive c) (ni_id me) es bs /\ length w' = WINDOW_SIZE /\
    (forall j b, bs !! j = Some b -> holds_at w' (bc_receive c + Z.of_nat j) b) /\
    broadcast_chunk bt interval me table sent_ok c blobs =
      ('(r, ti, ds) ← BlockThread_broadcast bt interval me table w' sent_ok (bc_transmit c)
                        (bc_receive c + Z.of_nat (length bs));
       Ret (r, mk_caster w' ti (bc_receive c + Z.of_nat (length bs)), ds)).
Proof using Hbo Hpw Hen Hme.
  intros Hw H0r Hr Hfit Hmax. pose proof (Forall2_length _ _ _ Hr) as Hlen.
  destruct (index_blobs_leads (ni_id me) (bc_receive c) 0 es blobs Hr Hme H0r) as (bs & Eb & Hls); [simpl; lia|].
  simpl in Hls. rewrite Z.add_0_r in Hls. pose proof Hls as [Hlb _].
  destruct (leads_numbered _ _ _ _ Hls) as [Hn _].
  destruct (take_slots_spec bs (bc_receive c) (bc_window c)) as (w1 & E1 & Hl1 & Hc1); [done..|].
  destruct (cache_blobs_spec bs (bc_receive c) w1) as (w2 & E2 & Hl2 & Hh & _); [done|lia|done|done|by eauto|].
  exists bs, w2. split_and!; [done..|]. unfold broadcast_chunk, index_blobs. rewrite Eb, bind_Ret, Hw.
  rewrite (proj2 (Nat.leb_le _ _)) by lia. cbn [rassert]. rewrite bind_Ret, E1, bind_Ret, E2, bind_Ret.
  rewrite u64_add_exact, bind_Ret by (apply in_u64_iff; lia). by rewrite <- Hlen, <- Hlb.
Qed.

Lemma broadcast_chunk_spec sent_ok c es blobs : idle c -> Forall2 raw es blobs ->
  (length blobs <= WINDOW_SIZE)%nat -> bc_receive c + Z.of_nat (length es) <= u64_max ->
  (forall k, sent_ok k = true) ->
  exists bs c', broadcast_chunk bt interval me table sent_ok c blobs =
      Ret (Ok tt, c', planned bt interval me table (bc_receive c) bs) /\
    idle c' /\ bc_receive c' = bc_receive c + Z.of_nat (length es) /\ leads (bc_receive c) (ni_id me) es bs.
Proof using Hbo Hpw Hen Hbt Hint Htable Hleads Hme.
  intros (Hw & Ht & H0r) Hr Hfit Hmax Hok. pose proof (Forall2_length _ _ _ Hr) as Hlen.
  destruct (broadcast_chunk_run sent_ok c es blobs) as (bs & w' & Hls & Hw' & Hh & ->); [done..|].
  pose proof Hls as [Hlb _]. destruct (leads_numbered _ _ _ _ Hls) as [_ Hs].
  rewrite Ht, BlockThread_broadcast_spec; [|done..|lia|lia|done|done].
  rewrite advance_ok by (done || lia).
  pose proof (planned_length bt interval me table Htable (bc_receive c) bs).
  rewrite Z.min_l by lia. cbn [mbind outcome_bind]. eexists bs, _. split; [done|].
  split; [unfold idle; simpl; split_and!; [done|done|lia]|]. split; [simpl; lia|done].
Qed.

Lemma broadcast_chunks_spec chunks sent_ok c es : idle c -> Forall2 raw es (concat chunks) ->
  Forall (fun ch => (length ch <= WINDOW_SIZE)%nat) chunks -> bc_receive c + Z.of_nat (length es) <= u64_max ->
  (forall i k, sent_ok i k = true) ->
  exists bs c', broadcast_chunks bt interval me table sent_ok c chunks =
      Ret (Ok tt, c', planned bt interval me table (bc_receive c) bs) /\
    idle c' /\ bc_receive c' = bc_receive c + Z.of_nat (length es) /\ leads (bc_receive c) (ni_id me) es bs.
Proof using Hbo Hpw Hen Hbt Hint Htable Hleads Hme.
  revert sent_ok c es. induction chunks as [|ch chunks IH]; intros sent_ok c es Hc Hr Hfit Hmax Hok;
    cbn [concat broadcast_chunks] in *.
  { apply Forall2_nil_inv_r in Hr as ->. exists [], c. simpl. split_and!; [done..|lia|].
    split; [done|]. intros j b Hj. by rewrite lookup_nil in Hj. }
  apply Forall2_app_inv_r in Hr as (es1 & es2 & Hr1 & Hr2 & ->). apply Forall_cons in Hfit as [Hf1 Hf2].
  rewrite length_app in Hmax.
  destruct (broadcast_chunk_spec (sent_ok O) c es1 ch Hc Hr1 Hf1) as (bs1 & c1 & -> & Hc1 & Er1 & Hl1); [lia|done|].
  cbn [mbind outcome_bind].
  destruct (IH (fun i => sent_ok (S i)) c1 es2 Hc1 Hr2 Hf2) as (bs2 & c2 & -> & Hc2 & Er2 & Hl2); [lia|done|].
  cbn [mbind outcome_bind]. exists (bs1 ++ bs2), c2. rewrite Er1 in *.
  rewrite planned_app, (proj1 Hl1). split_and!; [done..|rewrite length_app; lia|by apply leads_app].
Qed.

Lemma chunks_of_bound {A} fuel n (l : list A) : Forall (fun ch => (length ch <= n)%nat) (chunks_of fuel n l).
Proof.
  revert l. induction fuel as [|fuel IH]; intros [|x l]; [constructor..|].
  cbn [chunks_of]. constructor; [rewrite length_take; lia|apply IH].
Qed.

Lemma broadcast_spec sent_ok c first more : idle c -> block_ok (first ++ concat more) ->
  bc_receive c + Z.of_nat (length (first ++ concat more)) <= u64_max -> (forall i k, sent_ok i k = true) ->
  exists bs c', broadcast bt interval me table sent_ok c (Ok first) more =
      Ret (Ok tt, c', planned bt interval me table (bc_receive c) bs) /\
    idle c' /\ bc_receive c' = bc_receive c + Z.of_nat (length (first ++ concat more)) /\
    leads (bc_receive c) (ni_id me) (first ++ concat more) bs.
Proof using Hbo Hpw Hen Hbt Hint Htable Hleads Hme.
  intros Hc Hb Hmax Hok. unfold broadcast.
  destruct (all_blobs_raw (first :: more) Hb) as (blobs & -> & Hr); [simpl; destruct Hc as (_ & _ & ?); lia|].
  rewrite bind_Ret. pose proof WINDOW_SIZE_pos. apply broadcast_chunks_spec; [done| |apply chunks_of_bound|done|done].
  by rewrite concat_chunks_of by lia.
Qed.
End Stage.

(** ** From datagrams to a validator *)

(** [Blob::recv_blob]: a datagram read into the blob [r]. *)
Definition Blob_recv_blob (r : Blob) (d : bytes) (from : SocketAddr) : Blob :=
  let read := take (length (b_data r)) d in
  mk_blob (read ++ drop (length read) (b_data r))
    (Meta_set_addr (set_meta_size (Z.of_nat (length read)) (b_meta r)) from).

(** [Blob::recv_from]: a fresh blob for each datagram. *)
Definition Blob_recv_from (arrived : list datagram) : list Blob :=
  (fun p => Blob_recv_blob Blob_default p.1 p.2) <$> arrived.

Section Received.
Context `{Profile} `{ByteOrder} `{!ByteOrderOk} `{Bincode Pubkey} `{!PubkeyWire}
  `{Bincode Entry} `{!BincodeOk Entry}.

Lemma slice_prefix (d rest : bytes) n lo hi : (n <= length d)%nat -> (lo <= hi <= n)%nat ->
  slice (take n d ++ rest) lo hi = slice d lo hi.
Proof.
  intros Hn Hh. rewrite !slice_Ret by (rewrite ?length_app, ?length_take; lia). f_equal.
  rewrite drop_app_le by (rewrite length_take; lia). rewrite take_app_le by (rewrite length_drop, length_take; lia).
  rewrite skipn_firstn_comm, take_take. f_equal. lia.
Qed.

(** A blob that was sent is received as a copy of it. *)
Lemma received_carries start id j e b from : carries start id j e b ->
  carries start id j e (Blob_recv_blob Blob_default (payload b) from).
Proof.
  intros (Hb & Hsh & [rest Hp] & He & Hz).
  destruct (shows_size b _ Hsh) as [Hds Hm]; [simpl; unfold serialized_size in *; lia|]. cbn [h_size] in Hds, Hm.
  pose proof BLOB_SIZE_Z. rewrite BLOB_DATA_SIZE_eq in Hz. unfold serialized_size in *.
  set (n := (length (serialize e) + 64)%nat). assert (Hn : Z.to_nat (m_size (b_meta b)) = n) by lia.
  assert (Hlen : length (b_data b) = BLOB_SIZE) by done.
  assert (Hlp : length (payload b) = n) by (unfold payload; rewrite length_take; lia).
  unfold Blob_recv_blob. rewrite (take_ge (payload b)) by (simpl; rewrite length_replicate; lia). rewrite Hlp.
  set (tail := drop n (b_data Blob_default)).
  assert (Hbytes : forall lo hi, (lo <= hi <= n)%nat -> slice (payload b ++ tail) lo hi = slice (b_data b) lo hi).
  { intros lo hi Hh. unfold payload. rewrite Hn. apply slice_prefix; lia. }
  assert (Hlt : length (payload b ++ tail) = BLOB_SIZE).
  { unfold tail. simpl. rewrite length_app, length_drop, length_replicate. lia. }
  destruct Hsh as (Hix & Hid & Hfl & Hsz). cbn [h_index h_id h_flags h_size] in *.
  split; [done|]. split; [|split; [|split; [done|unfold serialized_size; rewrite BLOB_DATA_SIZE_eq; lia]]].
  - unfold shows, get_index, get_id, get_flags, get_size, get_data_size in *. cbn [b_data h_index h_id h_flags h_size].
    rewrite !Hbytes by (unfold BLOB_SIZE_END, BLOB_FLAGS_END, BLOB_ID_END, BLOB_INDEX_END; lia).
    split_and!; [done..|]. rewrite Hds. cbn [mbind outcome_bind].
    replace (m_size _) with (Z.of_nat (length (serialize e)) + 64) by (destruct from; simpl; lia).
    rewrite Z.eqb_refl. rewrite Hds, Hm in Hsz. cbn [mbind outcome_bind] in Hsz. by rewrite Z.eqb_refl in Hsz.
  - exists tail. unfold field_of in *. cbn [b_data field_lo field_hi] in *. rewrite slice_Ret in Hp by lia.
    rewrite slice_Ret by lia. injection Hp as Hp. rewrite take_ge in Hp by (rewrite length_drop; lia).
    rewrite take_ge by (rewrite length_drop; lia). f_equal.
    rewrite drop_app_le by lia. f_equal. unfold payload. rewrite Hn, skipn_firstn_comm, Hp.
    by rewrite take_app_length' by lia.
Qed.

(** Every recipient planned for is sent its blob, and nothing else is sent. *)
Lemma planned_elem bt interval me table t bs d a : (d, a) ∈ planned bt interval me table t bs <->
  exists j b n, bs !! j = Some b /\ d = payload b /\ n ∈ recipients bt interval me table (t + Z.of_nat j) /\
    a = ci_tx_signer (ni_contact_info n).
Proof.
  revert t. induction bs as [|b bs IH]; intros t.
  { split; [intros Hin; by apply elem_of_nil in Hin|]. intros (j & b & n & Hj & _). by rewrite lookup_nil in Hj. }
  rewrite planned_cons, elem_of_app, IH, list_elem_of_fmap. split.
  - intros [(n & Heq & Hn)|(j & b' & n & Hj & -> & Hn & ->)].
    + simplify_eq. exists O, b, n. by rewrite Z.add_0_r.
    + exists (S j), b', n. by replace (t + Z.of_nat (S j)) with (t + 1 + Z.of_nat j) by lia.
  - intros ([|j] & b' & n & Hj & -> & Hn & ->); simplify_eq/=.
    + left. exists n. by rewrite Z.add_0_r in Hn.
    + right. exists j, b', n. by replace (t + 1 + Z.of_nat j) with (t + Z.of_nat (S j)) by lia.
Qed.

(** C27: when no send fails, one call of [BlockThread::broadcast] sends each
    blob that is due to exactly the peer that its index selects in rotation
    and, right before another node's slot, also to that node if it is a peer;
    nothing else is sent, and nothing is left due. *)
Theorem broadcast_round_robin : forall bt interval me table w t bs sent_ok,
  bt_ok bt -> interval <> 0 -> table <> [] -> Forall (fun n => ni_leader_id me <> ni_id n) table ->
  length w = WINDOW_SIZE -> 0 <= t -> t + Z.of_nat (length bs) <= u64_max -> (length bs <= WINDOW_SIZE)%nat ->
  (forall j b, bs !! j = Some b -> holds_at w (t + Z.of_nat j) b) -> Forall sendable bs ->
  (forall k, sent_ok k = true) ->
  let r := t + Z.of_nat (length bs) in
  BlockThread_broadcast bt interval me table w sent_ok (mk_windex t t) r =
    Ret (Ok tt, mk_windex r r, planned bt interval me table t bs).
Proof.
  intros bt interval me table w t bs sent_ok Hbt Hi Ht Hl Hw H0t Hmax Hfit Hh Hs Hok r.
  subst r. rewrite BlockThread_broadcast_spec by done. rewrite advance_ok by (done || lia).
  pose proof (planned_length bt interval me table Ht t bs). by rewrite Z.min_l by lia.
Qed.

(** C5: leader to validator.  When no send fails, a call of the broadcast
    stage on entries that fill at most a window sends datagrams from which a
    validator at the leader's height recovers exactly these entries, in
    order, whatever order, repetition and addresses they arrive with, unless
    its own turn to lead comes within them; the leader's height has advanced
    past them. *)
Theorem broadcast_reaches_validators : forall bt interval me table c first more sent_ok es,
  bt_ok bt -> interval <> 0 -> table <> [] -> Forall (fun n => ni_leader_id me <> ni_id n) table ->
  wf (ni_id me) -> idle c -> es = first ++ concat more -> block_ok es -> (length es <= WINDOW_SIZE)%nat ->
  bc_receive c + Z.of_nat (2 * WINDOW_SIZE) <= u64_max -> (forall i k, sent_ok i k = true) ->
  exists c' ds, broadcast bt interval me table sent_ok c (Ok first) more = Ret (Ok tt, c', ds) /\
    idle c' /\ bc_receive c' = bc_receive c + Z.of_nat (length es) /\
    forall bt' interval' arrived, bt_ok bt' -> interval' <> 0 ->
      (forall h, bc_receive c <= h < bc_receive c' -> ~ leads_at bt' interval' h) ->
      (forall d, d ∈ arrived.*1 <-> d ∈ ds.*1) ->
      exists s q, recv_window (service_start default_window (bc_receive c) false) bt' 0 interval'
          (Ok (Blob_recv_from arrived)) [] true true = Some (Ret (s, Ok (mk_sent es q))) /\
        sv_consumed s = bc_receive c'.
Proof.
  intros bt interval me table c first more sent_ok es Hbt Hi Ht Hl Hid Hc Hes Hb Hfit Hmax Hok. pose proof Hc as (_ & _ & H0c).
  destruct (broadcast_spec bt interval me table Hbt Hi Ht Hl Hid sent_ok c first more)
    as (bs & c' & E & Hc' & Hr & Hlen & Hlk); [done|congruence|rewrite <- Hes; lia|done|].
  rewrite <- Hes in *. exists c', (planned bt interval me table (bc_receive c) bs). split_and!; [done..|].
  intros bt' interval' arrived Hbt' Hi' Hturn Harr. rewrite Hr in *.
  apply (carried_delivers bt' es (ni_id me)); [done..| |]; rewrite app_nil_r.
  - apply Forall_fmap, Forall_forall. intros [d from] Hin.
    assert (Hd : d ∈ (planned bt interval me table (bc_receive c) bs).*1).
    { apply Harr, list_elem_of_fmap. by exists (d, from). }
    apply list_elem_of_fmap in Hd as ([d' a] & -> & (j & b & n & Hj & -> & _)%planned_elem).
    destruct (Hlk j b Hj) as (e & He & Hca). exists j, e. split; [done|]. by apply received_carries.
  - intros j e He. destruct (lookup_lt_is_Some_2 bs j) as [b Hj]; [apply lookup_lt_Some in He; lia|].
    destruct (Hlk j b Hj) as (e' & He' & Hca). simplify_eq.
    destruct (peer_lookup table Ht (bc_receive c + Z.of_nat j)) as [n Hn].
    assert (Hd : payload b ∈ arrived.*1).
    { apply Harr, list_elem_of_fmap. exists (payload b, ci_tx_signer (ni_contact_info n)). split; [done|].
      apply planned_elem. exists j, b, n. split_and!; [done..| |done].
      unfold recipients. rewrite Hn, elem_of_app. right. by apply elem_of_option_list. }
    apply list_elem_of_fmap in Hd as ([d from] & Hd & Hin). simpl in Hd. subst d.
    exists (Blob_recv_blob Blob_default (payload b) from). split; [|by apply received_carries].
    apply list_elem_of_fmap. by exists (payload b, from).
Qed.

(** The index counts datagrams, not blobs.  When the blob before a
    rotation reaches the next leader and the send to its own peer fails, the
    index has moved past the blob all the same: the next call starts after
    it, and its peer is never sent it. *)
Theorem broadcast_skips_blob : forall bt interval me table w t b rest sent_ok nl n,
  bt_ok bt -> interval <> 0 -> Forall (fun n => ni_leader_id me <> ni_id n) table ->
  length w = WINDOW_SIZE -> 0 <= t -> t + Z.of_nat (length (b :: rest)) <= u64_max ->
  (length (b :: rest) <= WINDOW_SIZE)%nat ->
  (forall j b', (b :: rest) !! j = Some b' -> holds_at w (t + Z.of_nat j) b') -> Forall sendable (b :: rest) ->
  next_leader bt interval me table (t + 1) = Some nl ->
  table !! Z.to_nat (t mod Z.of_nat (length table)) = Some n ->
  sent_ok 0%nat = true -> sent_ok 1%nat = false ->
  exists ds, BlockThread_broadcast bt interval me table w sent_ok (mk_windex t t) (t + Z.of_nat (length (b :: rest))) =
      Ret (Err BroadcastIo, mk_windex (t + 1) t,
           (payload b, ci_tx_signer (ni_contact_info nl)) :: (payload b, ci_tx_signer (ni_contact_info n)) :: ds).
Proof.
  intros bt interval me table w t b rest sent_ok nl n Hbt Hi Hl Hw Ht Hmax Hfit Hh Hs Hnl Hn H0ok H1fail.
  assert (Htable : table <> []) by (intros ->; done).
  rewrite BlockThread_broadcast_spec by done. rewrite planned_cons. unfold recipients. rewrite Hnl, Hn. simpl.
  rewrite H0ok, H1fail. rewrite (proj2 (Z.ltb_lt _ _)) by lia. by eexists.
Qed.

(** With no peer yet, what does not fit in the window is dropped: its entries
    are never numbered, and the entries after them get their heights. *)
Lemma no_peers_drops bt interval me c first more sent_ok : wf (ni_id me) -> length (bc_window c) = WINDOW_SIZE ->
  0 <= bc_receive c -> bc_receive c + Z.of_nat (length (first ++ concat more)) <= u64_max ->
  block_ok (first ++ concat more) -> (WINDOW_SIZE < length (first ++ concat more))%nat ->
  exists w', broadcast bt interval me [] sent_ok c (Ok first) more =
    Ret (Err BroadcastNoPeers, mk_caster w' (bc_transmit c) (bc_receive c + Z.of_nat WINDOW_SIZE), []).
Proof.
  intros Hid Hw H0c Hmax Hb Hlen. unfold broadcast.
  destruct (all_blobs_raw (first :: more) Hb) as (blobs & -> & Hr); [simpl; lia|]. rewrite bind_Ret. simpl in Hr.
  pose proof (Forall2_length _ _ _ Hr) as Hl. destruct blobs as [|b0 blobs]; [simpl in Hl; lia|].
  set (bl := b0 :: blobs) in *. change (chunks_of (length bl) WINDOW_SIZE bl) with
    (take WINDOW_SIZE bl :: chunks_of (length blobs) WINDOW_SIZE (drop WINDOW_SIZE bl)). cbn [broadcast_chunks].
  destruct (broadcast_chunk_run bt interval me [] Hid (sent_ok O) c (take WINDOW_SIZE (first ++ concat more))
    (take WINDOW_SIZE bl)) as (bs & w' & [Hbs _] & _ & _ & ->);
    [done|done|by apply Forall2_take|rewrite length_take; lia|rewrite length_take; lia|].
  rewrite length_take in Hbs. exists w'. simpl. do 3 f_equal. f_equal. lia.
Qed.
End Received.

(** ** The hypotheses can hold *)

Module BroadcastWitness.
Import Toy EntryCodec EntryWitness WindowWitness.
#[local] Existing Instances sha entry_bincode entry_ok entry_wire FinPlanCodec.instruction_bincode
  PacketWitness.le PacketWitness.le_ok PacketWitness.pk PacketWitness.pk_ok wrapping.

(** A leader with two peers, one of which leads from height 12 on. *)
Definition slots : BlockThread := set_scheduled_leader bt 12 (BlockThreadWitness.key_of Byte.x03).
Definition me : NodeInfo := BlockThreadWitness.node Byte.x01.
Definition peers : list NodeInfo := [BlockThreadWitness.node Byte.x03; BlockThreadWitness.node Byte.x02].

Lemma slots_ok : bt_ok slots.
Proof. destruct bt_is_ok. by split. Qed.

Lemma peers_follow : Forall (fun n => ni_leader_id me <> ni_id n) peers.
Proof. repeat constructor; discriminate. Qed.

Definition c0 : caster := caster_start default_window 10.
Lemma c0_idle : idle c0.
Proof. split_and!; [apply length_replicate|done|done]. Qed.

Lemma chain_ok : block_ok chain.
Proof. split; [apply chain_wf|apply chain_sizes]. Qed.

Lemma chain_fits : (length chain <= WINDOW_SIZE)%nat.
Proof. pose proof WINDOW_SIZE_Z. simpl. lia. Qed.

Lemma broadcast_reaches_validators_witness :
  exists c' ds, broadcast slots 4 me peers (fun _ _ => true) c0 (Ok chain) [] = Ret (Ok tt, c', ds) /\
    idle c' /\ bc_receive c' = bc_receive c0 + Z.of_nat (length chain) /\
    forall bt' interval' arrived, bt_ok bt' -> interval' <> 0 ->
      (forall h, bc_receive c0 <= h < bc_receive c' -> ~ leads_at bt' interval' h) ->
      (forall d, d ∈ arrived.*1 <-> d ∈ ds.*1) ->
      exists s q, recv_window (service_start default_window (bc_receive c0) false) bt' 0 interval'
          (Ok (Blob_recv_from arrived)) [] true true = Some (Ret (s, Ok (mk_sent chain q))) /\
        sv_consumed s = bc_receive c'.
Proof.
  apply (broadcast_reaches_validators slots 4 me peers c0 chain [] (fun _ _ => true) chain);
    [apply slots_ok|done|done|apply peers_follow|reflexivity|apply c0_idle|reflexivity|apply chain_ok|
     apply chain_fits|simpl; pose proof WINDOW_SIZE_Z; unfold u64_max; lia|done].
Defined.

(** Two blobs cached at heights 10 and 11. *)
Definition two : list Blob := [Blob_default; Blob_default].
Definition w0 : Window :=
  <[slot_of 11 := mk_slot (Some Blob_default) None false]>
    (<[slot_of 10 := mk_slot (Some Blob_default) None false]> default_window).

Lemma w0_length : length w0 = WINDOW_SIZE.
Proof. unfold w0. rewrite !length_insert. apply length_replicate. Qed.

Lemma w0_holds j b : two !! j = Some b -> holds_at w0 (10 + Z.of_nat j) b.
Proof.
  assert (slot_of 11 <> slot_of 10) as Hne by (unfold slot_of; rewrite WINDOW_SIZE_Z; discriminate).
  assert (forall ix, (slot_of ix < length default_window)%nat) as Hlt.
  { intros ix. unfold default_window. rewrite length_replicate. apply slot_of_lt. }
  intros Hj. exists (mk_slot (Some Blob_default) None false). unfold w0. destruct j as [|[|j]]; simplify_eq/=.
  - rewrite list_lookup_insert_ne, list_lookup_insert_eq by done. done.
  - rewrite list_lookup_insert_eq by (rewrite length_insert; apply Hlt). done.
Qed.

Lemma two_sendable : Forall sendable two.
Proof. repeat constructor; simpl; try apply length_replicate; rewrite ?BLOB_SIZE_Z; lia. Qed.

Lemma broadcast_round_robin_witness :
  BlockThread_broadcast slots 4 me peers w0 (fun _ => true) (mk_windex 10 10) (10 + Z.of_nat (length two)) =
    Ret (Ok tt, mk_windex (10 + Z.of_nat (length two)) (10 + Z.of_nat (length two)), planned slots 4 me peers 10 two).
Proof.
  apply (broadcast_round_robin slots 4 me peers w0 10 two (fun _ => true));
    [apply slots_ok|done|done|apply peers_follow|apply w0_length|done|done|simpl; pose proof WINDOW_SIZE_pos; lia|
     apply w0_holds|apply two_sendable|done].
Defined.

(** The blob of height 11 is the last before the slot that starts at 12. *)
Lemma broadcast_skips_blob_witness : exists ds,
  BlockThread_broadcast slots 4 me peers w0 (fun k => (k =? 0)%nat) (mk_windex 11 11) (11 + Z.of_nat (length [Blob_default])) =
    Ret (Err BroadcastIo, mk_windex (11 + 1) 11,
      (payload Blob_default, BlockThreadWitness.addr 2) :: (payload Blob_default, BlockThreadWitness.addr 2) :: ds).
Proof.
  apply (broadcast_skips_blob slots 4 me peers w0 11 Blob_default [] (fun k => (k =? 0)%nat)
    (BlockThreadWitness.node Byte.x03) (BlockThreadWitness.node Byte.x02));
    [apply slots_ok|done|apply peers_follow|apply w0_length|done|done|simpl; pose proof WINDOW_SIZE_pos; lia| |
     |reflexivity|reflexivity|done|done].
  - intros [|j] b Hj; [|done]. apply (w0_holds 1). by simplify_eq/=.
  - pose proof two_sendable as Hs. by apply Forall_cons in Hs as [_ Hs].
Defined.
End BroadcastWitness.
