(* ===== verification/Serving.v ===== *)
(** * Answering and sending gossip, repair and retransmission

    The message handlers of [src/blockthread.rs] ([run_gossip], [gossip],
    [run_window_request], [handle_protocol], [handle_blob], [run_listen],
    [retransmit]) and the retransmitter of [src/retransmit_stage.rs].  [now] is
    what [timestamp()] returned; a ledger that can be looked into is given by
    its files. *)

From S2P Require Import Prelude.
From S2P Require Import Types.
From S2P Require Import Codec.
From S2P Require Import Packet.
From S2P Require Import FinPlan.
From S2P Require Import FinPlanProgram.
From S2P Require Import SystemProgram.
From S2P Require Import Transactions.
From S2P Require Import Entry.
From S2P Require Import Block.
From S2P Require Import Ledger.
From S2P Require Import BlockThread.
From S2P Require Import Window.
From S2P Require Import WindowService.
From S2P Require Import WriteStage.
From S2P Require Import Broadcast.

Inductive GossipError := GossipPeers (e : BlockThreadError) | GossipSend.
Inductive ListenError := ListenRecv (e : RecvTimeoutError) | ListenSend.
Inductive RetransmitError := RetransmitRecv (e : RecvTimeoutError) | RetransmitIo.

(** [u64::is_power_of_two]. *)
Definition is_power_of_two (n : Z) : bool := negb (n =? 0) && (Z.land n (n - 1) =? 0).

Section ServingOps.
Context `{Profile} `{ByteOrder} `{Bincode Pubkey} `{Bincode Entry} `{!BincodeFrom Entry}
  `{Bincode U64} `{!BincodeFrom U64} `{Bincode Protocol}.

(** [run_gossip]: the blob put on the channel. *)
Definition run_gossip (bt : BlockThread) (choose : list NodeInfo -> option NodeInfo) (is_open : bool)
    : outcome (result Blob GossipError) :=
  r ← gossip_request bt choose;
  match r with
  | Err e => Ret (Err (GossipPeers e))
  | Ok (addr, req) => b ← to_blob req addr; Ret (if (is_open : bool) then Ok b else Err GossipSend)
  end.

(** One turn of [gossip]'s loop, without its pause; [leave] is the exit flag,
    [order] the order in which [top_leader] walks its counts. *)
Definition gossip_turn (bt : BlockThread) (choose : list NodeInfo -> option NodeInfo) (is_open leave : bool)
    (now : Z) (order : BlockThread -> list Pubkey) (now' : Z) : outcome (option Blob * BlockThread) :=
  r ← run_gossip bt choose is_open;
  if (leave : bool) then Ret (ok r, bt)
  else
    bt1 ← purge bt now;
    bt2 ← update_leader bt1 (order bt1) now';
    Ret (ok r, bt2).

(** The copy of a cached blob that answers a request. *)
Definition answer_copy (b : Blob) (from_addr : SocketAddr) (sender_id : Pubkey) : outcome Blob :=
  let sz := m_size (b_meta b) in
  src ← slice (b_data b) 0 (Z.to_nat sz);
  d ← write_slice (b_data Blob_default) 0 (Z.to_nat sz) src;
  set_id (mk_blob d (Meta_set_addr (set_meta_size sz Meta_default) from_addr)) sender_id.

(** The answer from the ledger. *)
Definition answer_from_ledger (ledger : option LedgerFiles) (me : NodeInfo) (ix : Z) (from_addr : SocketAddr)
    : outcome (option Blob) :=
  match ledger with
  | None => Ret None
  | Some lf =>
      r ← get_entry lf ix;
      match r with
      | Ok entry => out ← Entry_to_blob entry (Some ix) (Some (ni_id me)) (Some from_addr); Ret (Some out)
      | Err _ => Ret None
      end
  end.

(** Whose blob the answer appears to be. *)
Definition answer_sender (me from : NodeInfo) (num_retransmits : Z) : Pubkey :=
  if bool_decide (ni_leader_id me = ni_id me) && ((num_retransmits =? 0) || is_power_of_two num_retransmits)
  then ni_id me else ni_id from.

(** [run_window_request]: the answer, and the window with the request counted. *)
Definition run_window_request (from : NodeInfo) (from_addr : SocketAddr) (w : Window) (ledger : option LedgerFiles)
    (me : NodeInfo) (ix : Z) : outcome (option Blob * Window) :=
  pos ← u64_rem ix (Z.of_nat (length w));
  s ← index w (Z.to_nat pos);
  match ws_data s with
  | None => r ← answer_from_ledger ledger me ix from_addr; Ret (r, w)
  | Some b =>
      blob_ix ← get_index b;
      if blob_ix =? ix then
        let num_retransmits := m_num_retransmits (b_meta b) in
        n ← u64_add num_retransmits 1;
        let b' := set_meta (set_num_retransmits n (b_meta b)) b in
        out ← answer_copy b' from_addr (answer_sender me from num_retransmits);
        w' ← update w (Z.to_nat pos) (slot_set_data (Some b'));
        Ret (Some out, w')
      else r ← answer_from_ledger ledger me ix from_addr; Ret (r, w)
  end.

(** [handle_protocol]: the answer, the table and the window. *)
Definition handle_protocol (bt : BlockThread) (from_addr : SocketAddr) (request : Protocol) (w : Window)
    (ledger : option LedgerFiles) (clock : nat -> Z) : outcome (option Blob * BlockThread * Window) :=
  match request with
  | RequestUpdates version from =>
      '(r, bt') ← handle_request_updates bt from_addr version from (clock O);
      match r with
      | None => Ret (None, bt', w)
      | Some (rsp, addr) => b ← to_blob rsp addr; Ret (Some b, bt', w)
      end
  | ReceiveUpdates from update_index data external_liveness =>
      bt' ← handle_receive_updates bt from update_index data external_liveness clock; Ret (None, bt', w)
  | RequestWindowIndex from ix =>
      if bool_decide (ni_id from = bt_id bt) then Ret (None, bt, w)
      else
        '(_, bt') ← insert bt from (clock O);
        me ← my_data bt';
        '(r, w') ← run_window_request from from_addr w ledger me ix;
        Ret (r, bt', w')
  end.

(** [handle_blob]: what does not decode is dropped. *)
Definition handle_blob (bt : BlockThread) (w : Window) (ledger : option LedgerFiles) (blob : Blob) (clock : nat -> Z)
    : outcome (option Blob * BlockThread * Window) :=
  d ← slice (b_data blob) 0 (Z.to_nat (m_size (b_meta blob)));
  match deserialize (A := Protocol) d with
  | Some request => addr ← Meta_get_addr (b_meta blob); handle_protocol bt addr request w ledger clock
  | None => Ret (None, bt, w)
  end.

(** The loop of [run_listen]; [clock i] is read while the [i]-th is handled. *)
Fixpoint handle_blobs (bt : BlockThread) (w : Window) (ledger : option LedgerFiles) (reqs : list Blob)
    (clock : nat -> nat -> Z) : outcome (list Blob * BlockThread * Window) :=
  match reqs with
  | [] => Ret ([], bt, w)
  | req :: rest =>
      '(r, bt1, w1) ← handle_blob bt w ledger req (clock O);
      '(rs, bt2, w2) ← handle_blobs bt1 w1 ledger rest (fun i => clock (S i));
      Ret (option_list r ++ rs, bt2, w2)
  end.
Definition run_listen (bt : BlockThread) (w : Window) (ledger : option LedgerFiles)
    (first : result (list Blob) RecvTimeoutError) (more : list (list Blob)) (is_open : bool) (clock : nat -> nat -> Z)
    : outcome (result (list Blob) ListenError * BlockThread * Window) :=
  match first with
  | Err e => Ret (Err (ListenRecv e), bt, w)
  | Ok reqs =>
      '(resps, bt', w') ← handle_blobs bt w ledger (reqs ++ concat more) clock;
      Ret (if (is_open : bool) then Ok resps else Err ListenSend, bt', w')
  end.

(** [BlockThread::retransmit]: the blob, now under this node's id, and the
    datagrams handed to the socket; [sent_ok k] tells whether it took the [k]-th. *)
Fixpoint retransmit_sends (blob : Blob) (orders : list NodeInfo) : outcome (list datagram) :=
  match orders with
  | [] => Ret []
  | v :: rest =>
      _ ← rassert (m_size (b_meta blob) <=? Z.of_nat BLOB_SIZE);
      d ← slice (b_data blob) 0 (Z.to_nat (m_size (b_meta blob)));
      ds ← retransmit_sends blob rest;
      Ret ((d, ci_tx_signer (ni_contact_info v)) :: ds)
  end.
Definition BlockThread_retransmit (bt : BlockThread) (blob : Blob) (sent_ok : nat -> bool)
    : outcome (result unit RetransmitError * list datagram) :=
  me ← my_data bt;
  b ← set_id blob (ni_id me);
  orders ← retransmit_orders bt;
  ds ← retransmit_sends b orders;
  Ret (if forallb sent_ok (seq 0 (length ds)) then Ok tt else Err RetransmitIo, ds).

(** [retransmit]: the queue is passed on blob by blob, up to the first error. *)
Fixpoint retransmit_all (bt : BlockThread) (dq : list Blob) (sent_ok : nat -> nat -> bool)
    : outcome (result unit RetransmitError * list datagram) :=
  match dq with
  | [] => Ret (Ok tt, [])
  | b :: rest =>
      '(r, ds) ← BlockThread_retransmit bt b (sent_ok O);
      match r with
      | Err e => Ret (Err e, ds)
      | Ok _ => '(r', ds') ← retransmit_all bt rest (fun i => sent_ok (S i)); Ret (r', ds ++ ds')
      end
  end.
Definition retransmit (bt : BlockThread) (first : result (list Blob) RecvTimeoutError) (more : list (list Blob))
    (sent_ok : nat -> nat -> bool) : outcome (result unit RetransmitError * list datagram) :=
  match first with
  | Err e => Ret (Err (RetransmitRecv e), [])
  | Ok dq => retransmit_all bt (dq ++ concat more) sent_ok
  end.
End ServingOps.

(** ** Repair *)

Section RepairLaws.
Context `{Profile} `{ByteOrder} `{!ByteOrderOk} `{Bincode Pubkey} `{!PubkeyWire}
  `{Bincode Entry} `{!BincodeOk Entry} `{!BincodeFrom Entry} `{!BincodeFromOk Entry}
  `{Bincode U64} `{!BincodeU64Ok} `{!BincodeFrom U64} `{!BincodeFromOk U64} `{Bincode Protocol}.

(** Another sender's id on a copy of a blob. *)
Lemma set_id_carries start id id' j e b : carries start id j e b -> wf id' ->
  exists b', set_id b id' = Ret b' /\ b_meta b' = b_meta b /\ carries start id' j e b'.
Proof.
  intros (Hb & (Hix & _ & Hfl & Hsz) & [rest Hp] & He & Hz) Hid. cbn [h_index h_flags h_size] in *.
  destruct (set_id_spec b id' Hb Hid) as (b' & -> & Hb' & Hm & Hf). exists b'. split_and!; [done..|].
  split; [done|]. split; [|split; [exists rest; by rewrite Hf|done]].
  unfold shows, get_index, get_id, get_flags, get_size, get_data_size in *. cbn [h_index h_id h_flags h_size].
  change (slice (b_data b') 0 BLOB_INDEX_END) with (field_of FIndex b').
  change (slice (b_data b') BLOB_INDEX_END BLOB_ID_END) with (field_of FId b').
  change (slice (b_data b') BLOB_ID_END BLOB_FLAGS_END) with (field_of FFlags b').
  change (slice (b_data b') BLOB_FLAGS_END BLOB_SIZE_END) with (field_of FSize b').
  rewrite !Hf, Hm. split_and!; [done| |done|done]. simpl. by rewrite deserialize_serialize.
Qed.

Lemma answer_copy_carries start id j e b from_addr sender : carries start id j e b -> wf sender ->
  exists out, answer_copy b from_addr sender = Ret out /\ carries start sender j e out /\
    b_meta out = Meta_set_addr (set_meta_size (m_size (b_meta b)) Meta_default) from_addr.
Proof.
  intros Hc Hs. pose proof (carries_sendable _ _ _ _ _ Hc) as [Hb Hsz]. unfold wf, Blob_wf in Hb.
  pose proof (received_carries _ _ _ _ _ from_addr Hc) as Hr. unfold answer_copy, Blob_recv_blob, payload in *.
  assert (length (b_data Blob_default) = BLOB_SIZE) as Hd by apply length_replicate.
  rewrite slice_Ret, bind_Ret by lia. rewrite Nat.sub_0_r, drop_0.
  rewrite write_slice_Ret, bind_Ret by (rewrite ?length_take; lia). rewrite take_0, app_nil_l.
  change (b_meta Blob_default) with Meta_default in Hr.
  rewrite take_take, Hd in Hr. rewrite Nat.min_r in Hr by lia. rewrite length_take_le, Z2Nat.id in Hr by lia.
  destruct (set_id_carries _ _ sender _ _ _ Hr Hs) as (out & -> & Hm & Ho).
  exists out. split; [reflexivity|]. split; [exact Ho|exact Hm].
Qed.

(** What the window says of blob [ix] is not against the ledger: a blob with
    that index carries the entry. *)
Definition honest (w : Window) (ix : nat) (e : Entry) : Prop :=
  forall s b, w !! slot_of (Z.of_nat ix) = Some s -> ws_data s = Some b ->
    exists k, get_index b = Ret k /\
      (k = Z.of_nat ix -> (exists id, carries 0 id ix e b) /\ 0 <= m_num_retransmits (b_meta b) < u64_max).

Lemma answer_ledger_carries es i e me from_addr : ledger_ok es -> es !! i = Some e -> wf (ni_id me) ->
  in_u64 (Z.of_nat i) = true -> serialized_size e <= BLOB_DATA_SIZE ->
  exists out, answer_from_ledger (Some (files_of es)) me (Z.of_nat i) from_addr = Ret (Some out) /\
    carries 0 (ni_id me) i e out.
Proof.
  intros Hok Hi Hme Hu Hz. unfold answer_from_ledger. rewrite (get_entry_files es i e) by done. rewrite bind_Ret.
  destruct (Entry_to_blob_spec e (Z.of_nat i) (ni_id me) from_addr) as (out & -> & Hb & Hsh & Hp); [done..|].
  exists out. split; [done|]. split_and!; [done..| |done].
  apply (proj1 (Forall_lookup _ _) (proj1 Hok)) in Hi. by destruct Hi.
Qed.

Lemma run_window_request_carries from from_addr w es me i e : length w = WINDOW_SIZE -> ledger_ok es ->
  es !! i = Some e -> in_u64 (Z.of_nat i) = true -> serialized_size e <= BLOB_DATA_SIZE -> honest w i e ->
  wf (ni_id me) -> wf (ni_id from) ->
  exists out w' sender, run_window_request from from_addr w (Some (files_of es)) me (Z.of_nat i) = Ret (Some out, w') /\
    carries 0 sender i e out.
Proof.
  intros Hw Hok Hi Hu Hz Hh Hme Hfrom. unfold run_window_request. rewrite slot_of_rem, bind_Ret by done.
  fold (slot_of (Z.of_nat i)).
  destruct (lookup_lt_is_Some_2 w (slot_of (Z.of_nat i))) as [s Hs]; [rewrite Hw; apply slot_of_lt|].
  rewrite (proj2 (index_Ret _ _ _) Hs), bind_Ret.
  destruct (answer_ledger_carries es i e me from_addr) as (outl & El & Hcl); [done..|].
  destruct (ws_data s) as [b|] eqn:Ed; [|rewrite El, bind_Ret; by eexists _, _, _].
  destruct (Hh s b Hs Ed) as (k & -> & Hk). rewrite bind_Ret.
  destruct (k =? Z.of_nat i) eqn:Ek; [|rewrite El, bind_Ret; by eexists _, _, _]. bool_prop.
  destruct (Hk Ek) as [[id Hc] Hn]. rewrite u64_add_exact, bind_Ret by (apply in_u64_iff; lia).
  destruct (answer_copy_carries 0 id i e (set_meta (set_num_retransmits (m_num_retransmits (b_meta b) + 1) (b_meta b)) b)
    from_addr (answer_sender me from (m_num_retransmits (b_meta b)))) as (out & -> & Ho & _).
  { done. }
  { unfold answer_sender. by destruct (_ && _). }
  rewrite bind_Ret. unfold update. rewrite Hs. by eexists _, _, _.
Qed.

Lemma insert_returns bt v now : 0 <= bt_update_index bt < u64_max -> exists n bt', insert bt v now = Ret (n, bt').
Proof.
  intros Hu. unfold insert. destruct (match _ with Some _ => _ | None => _ end); [|by eexists _, _].
  rewrite u64_add_exact, bind_Ret by (apply in_u64_iff; lia). by eexists _, _.
Qed.

(** C19: repair works.  A node that asks a peer for the blob it is missing is
    answered with the entry of that height, from the peer's window or its
    ledger; taking the answer, it delivers that entry and moves past the gap,
    unless its own turn to lead has come. *)
Theorem repair_fills_gap : forall peer from from_addr w es i e clock bt win queue interval unknown pending reply_addr,
  bt_ok peer -> 0 <= bt_update_index peer < u64_max -> ni_id from <> bt_id peer ->
  wf (ni_id from) -> wf (bt_id peer) ->
  length w = WINDOW_SIZE -> ledger_ok es -> es !! i = Some e -> serialized_size e <= BLOB_DATA_SIZE -> honest w i e ->
  bt_ok bt -> interval <> 0 -> win_ok win (Z.of_nat i) -> missing_at win (Z.of_nat i) ->
  Z.of_nat i + Z.of_nat WINDOW_SIZE <= u64_max -> ~ leads_at bt interval (Z.of_nat i) ->
  exists out peer' w', handle_protocol peer from_addr (RequestWindowIndex from (Z.of_nat i)) w
      (Some (files_of es)) clock = Ret (Some out, peer', w') /\ bt_ok peer' /\
    exists win' more c, process_blob win bt (Blob_recv_blob Blob_default (payload out) reply_addr) (Z.of_nat i) queue
        (Z.of_nat i) unknown pending interval = Some (Ret (win', queue ++ e :: more, c, true)) /\ Z.of_nat i < c.
Proof.
  intros peer from from_addr w es i e clock bt win queue interval unknown pending reply_addr Hp Hui Hne Hfw Hpw Hw Hok Hi
    Hz Hh Hbt Hint Hwin Hmiss Hmax Hnl. pose proof WINDOW_SIZE_pos.
  assert (in_u64 (Z.of_nat i) = true) as Hu by (apply in_u64_iff; lia).
  unfold handle_protocol. rewrite bool_decide_false by done.
  destruct (insert_returns peer from (clock O) Hui) as (n & peer' & E). rewrite E. cbn [mbind outcome_bind].
  apply insert_ok in E as [Hp' Hid]; [|done]. destruct (ok_self _ Hp') as [me Hme]. pose proof (ok_ids _ Hp' _ _ Hme) as Hmi.
  unfold my_data. rewrite Hme. cbn [unwrap mbind outcome_bind].
  destruct (run_window_request_carries from from_addr w es me i e) as (out & w' & sender & -> & Hc);
    [done..|by rewrite Hmi, Hid|done|]. cbn [mbind outcome_bind]. exists out, peer', w'. split_and!; [done..|].
  apply received_carries with (from := reply_addr) in Hc. apply carries_blob_of in Hc as [Hix Hco Hent].
  rewrite Z.add_0_l in Hix. set (b := Blob_recv_blob Blob_default (payload out) reply_addr) in *.
  destruct (process_blob_spec win bt b (Z.of_nat i) queue (Z.of_nat i) unknown pending interval false)
    as (win' & del & c & p' & -> & Hd); [done..|by eexists|lia|lia|].
  destruct Hd as (_ & _ & Hrun & _ & Hnew & _).
  assert (Hnd : ~ duplicate win (Z.of_nat i) false).
  { intros (b0 & Ho & Hb0). unfold old_blob in Ho. apply bind_Some in Ho as (s & Hs & Hds). by apply (Hmiss s b0). }
  destruct (Hnew Hnd) as [-> Hstop].
  destruct (win_ok_slot win (Z.of_nat i) (Z.of_nat i) Hwin) as (s & Hs & _).
  assert (Hslot : with_blob win b (Z.of_nat i) false !! slot_of (Z.of_nat i) = Some (slot_set_data (Some b) s)).
  { unfold with_blob. by rewrite list_lookup_alter_eq, Hs. }
  inversion Hrun as [|c1 c2 s1 b1 es1 rest Hs1 Hb1 _ He1 Hrest]; subst.
  - exfalso. destruct Hstop as [Hl|[Hm|(s1 & b1 & err & Hs1 & Hb1 & He1)]]; [done| |].
    + by apply (Hm (slot_set_data (Some b) s) b Hslot).
    + rewrite Hslot in Hs1. simplify_eq/=. congruence.
  - rewrite Hslot in Hs1. simplify_eq/=. assert (es1 = [e]) as -> by congruence.
    exists win', rest, c. split; [done|]. clear -Hrest. enough (Z.of_nat i + 1 <= c) by lia.
    revert Hrest. generalize (Z.of_nat i + 1). intros z Hr. induction Hr; lia.
Qed.

(** The height asked for is not checked before it is multiplied by the
    size of an index record.  For a height 2^61 above that of a stored entry,
    a build that traps overflow panics in the listener; one that wraps
    answers with the lower entry, numbered with the height asked for. *)
Theorem huge_index_answered : forall es i e me from_addr, ledger_ok es -> es !! i = Some e -> wf (ni_id me) ->
  in_u64 (2 ^ 61 + Z.of_nat i) = true -> serialized_size e <= BLOB_DATA_SIZE ->
  match answer_from_ledger (Some (files_of es)) me (2 ^ 61 + Z.of_nat i) from_addr with
  | Panic => overflow_checks = true
  | Ret r => overflow_checks = false /\ exists out, r = Some out /\ carries (2 ^ 61) (ni_id me) i e out
  end.
Proof.
  intros es i e me from_addr Hok Hi Hme Hu Hz.
  assert (Hge : get_entry (files_of es) (2 ^ 61 + Z.of_nat i) =
    if overflow_checks then Panic else get_entry (files_of es) (Z.of_nat i)).
  { unfold get_entry, u64_mul, arith, SIZEOF_U64. apply lookup_lt_Some in Hi as Hlt.
    assert (in_u64 ((2 ^ 61 + Z.of_nat i) * 8) = false) as -> by (unfold in_u64, u64_max; lia).
    destruct overflow_checks; [done|]. cbn [mbind outcome_bind].
    assert (in_u64 (Z.of_nat i * 8) = true) as Hs.
    { destruct Hok as [Hst Hd]. pose proof (data_covers_index es Hst). rewrite in_u64_iff in *. lia. }
    rewrite Hs. cbn [mbind outcome_bind]. unfold wrap_u64. apply in_u64_iff in Hs. unfold u64_max in Hs.
    replace ((2 ^ 61 + Z.of_nat i) * 8) with (Z.of_nat i * 8 + 1 * 2 ^ 64) by lia.
    by rewrite Z.mod_add, Z.mod_small by lia. }
  unfold answer_from_ledger. rewrite Hge. destruct overflow_checks; [done|].
  rewrite (get_entry_files es i e) by done. rewrite bind_Ret.
  destruct (Entry_to_blob_spec e (2 ^ 61 + Z.of_nat i) (ni_id me) from_addr) as (out & -> & Hb & Hsh & Hp); [done..|].
  cbn [mbind outcome_bind]. split; [done|]. exists out. split; [done|]. split_and!; [done..| |done].
  apply (proj1 (Forall_lookup _ _) (proj1 Hok)) in Hi. by destruct Hi.
Qed.

(** A listener with an empty window, as [poll_gossip_for_leader] starts one,
    panics on any repair request. *)
Lemma empty_window_panics from from_addr ledger me ix : run_window_request from from_addr [] ledger me ix = Panic.
Proof. done. Qed.

(** An answer that does not fit a blob is a panic of the listener. *)
Lemma big_answer_panics bt from_addr version from w ledger clock rsp addr bt' :
  handle_request_updates bt from_addr version from (clock O) = Ret (Some (rsp, addr), bt') ->
  (BLOB_SIZE < length (serialize rsp))%nat ->
  handle_protocol bt from_addr (RequestUpdates version from) w ledger clock = Panic.
Proof.
  intros Hr Hl. unfold handle_protocol. rewrite Hr. cbn [mbind outcome_bind]. unfold to_blob.
  by rewrite (proj2 (Nat.leb_gt _ _) Hl).
Qed.
End RepairLaws.

(** ** Retransmission *)

Section RetransmitLaws.
Context `{Profile} `{ByteOrder} `{!ByteOrderOk} `{Bincode Pubkey} `{!PubkeyWire}
  `{Bincode Entry} `{!BincodeOk Entry}.

Lemma retransmit_sends_spec b orders : sendable b ->
  retransmit_sends b orders = Ret ((fun v => (payload b, ci_tx_signer (ni_contact_info v))) <$> orders).
Proof.
  intros [Hb Hsz]. unfold wf, Blob_wf in Hb. induction orders as [|v orders IH]; [done|].
  cbn [retransmit_sends]. rewrite (proj2 (Z.leb_le _ _)) by lia. cbn [rassert]. rewrite bind_Ret.
  rewrite slice_Ret, bind_Ret, IH by lia. cbn [mbind outcome_bind fmap list_fmap]. unfold payload.
  by rewrite Nat.sub_0_r, drop_0.
Qed.

Lemma not_requeued start id j e b leader q : carries start id j e b -> leader <> id ->
  add_block_to_retransmit_queue b leader q = Ret q.
Proof.
  intros (_ & (_ & Hid & _) & _) Hne. unfold add_block_to_retransmit_queue. rewrite Hid.
  cbn [mbind outcome_bind unwrap_result h_id]. by rewrite bool_decide_false.
Qed.

(** C28: a blob that is passed on goes to every node of the table that listens,
    but not to this node and not to its leader; it still carries its entry,
    under this node's id, so that a receiver that follows another leader
    does not pass it on again. *)
Theorem retransmit_once : forall bt me blob start id j e sent_ok,
  bt_ok bt -> my_data bt = Ret me -> wf (ni_id me) -> carries start id j e blob ->
  exists r ds, BlockThread_retransmit bt blob sent_ok = Ret (r, ds) /\
    (forall a, a ∈ ds.*2 <-> exists n, bt_table bt !! ni_id n = Some n /\ ni_id me <> ni_id n /\
       ni_leader_id me <> ni_id n /\ is_valid_address (ci_tx_signer (ni_contact_info n)) = true /\
       a = ci_tx_signer (ni_contact_info n)) /\
    forall d from leader q, d ∈ ds.*1 ->
      carries start (ni_id me) j e (Blob_recv_blob Blob_default d from) /\
      (leader <> ni_id me -> add_block_to_retransmit_queue (Blob_recv_blob Blob_default d from) leader q = Ret q).
Proof.
  intros bt me blob start id j e sent_ok Hbt Hme Hid Hc. unfold BlockThread_retransmit, retransmit_orders.
  rewrite !Hme, bind_Ret. destruct (set_id_carries start id (ni_id me) j e blob Hc Hid) as (b & -> & _ & Hb).
  rewrite !bind_Ret, retransmit_sends_spec, bind_Ret by (by eapply carries_sendable).
  eexists _, _. split; [reflexivity|]. split.
  - intros a. rewrite <- list_fmap_compose, list_elem_of_fmap. split.
    + intros (n & -> & Hn). apply list_elem_of_filter in Hn as [(? & ? & ?) Hn].
      apply table_values_elem in Hn; [|done]. by exists n.
    + intros (n & Hn & ? & ? & ? & ->). exists n. split; [done|]. apply list_elem_of_filter.
      split; [done|]. by apply table_values_elem.
  - intros d from leader q Hd. rewrite <- list_fmap_compose in Hd. apply list_elem_of_fmap in Hd as (n & -> & _).
    cbn [compose fst]. pose proof (received_carries _ _ _ _ _ from Hb) as Hr. split; [exact Hr|].
    intros Hne. by eapply not_requeued.
Qed.
End RetransmitLaws.

(** ** The hypotheses can hold *)

Module ServingWitness.
Import Toy EntryCodec LedgerWitness.
#[local] Existing Instances entry_bincode entry_ok entry_from entry_from_ok u64_bincode u64_bincode_ok u64_from u64_from_ok
  PacketWitness.le PacketWitness.le_ok PacketWitness.pk PacketWitness.pk_ok WindowWitness.wrapping.

(** Any encoding of the messages will do. *)
#[local] Instance protocol_bincode : Bincode Protocol := {| serialize _ := []; deserialize _ := None |}.

Lemma es_0 : exists e, es !! 0%nat = Some e /\ serialized_size e <= BLOB_DATA_SIZE.
Proof. eexists. split; [reflexivity|]. vm_compute. discriminate. Qed.

(** A fresh node asks a peer whose window is empty for entry 0. *)
Lemma repair_fills_gap_witness : exists e out peer' w',
  handle_protocol BlockThreadWitness.b0 WindowWitness.here (RequestWindowIndex (BlockThreadWitness.node Byte.x01) (Z.of_nat 0))
    default_window (Some (files_of es)) (fun _ => 5) = Ret (Some out, peer', w') /\ bt_ok peer' /\
  exists win' more c, process_blob default_window WindowWitness.bt
      (Blob_recv_blob Blob_default (payload out) WindowWitness.here) (Z.of_nat 0) [] (Z.of_nat 0) false false 100 =
      Some (Ret (win', [] ++ e :: more, c, true)) /\ Z.of_nat 0 < c.
Proof.
  destruct es_0 as (e & He & Hz). exists e.
  apply (repair_fills_gap BlockThreadWitness.b0 (BlockThreadWitness.node Byte.x01) WindowWitness.here default_window es
    0 e (fun _ => 5) WindowWitness.bt default_window [] 100 false false WindowWitness.here);
    [by apply (bt_new_ok (BlockThreadWitness.node Byte.x02))|by vm_compute|discriminate|reflexivity|reflexivity
     |apply length_replicate|apply es_ok|exact He|exact Hz| |apply WindowWitness.bt_is_ok|done
     |apply WindowWitness.default_window_ok| | |].
  - intros s b Hs Hd. apply lookup_replicate in Hs as [-> _]. done.
  - intros s b Hs Hd. apply lookup_replicate in Hs as [-> _]. done.
  - pose proof WINDOW_SIZE_Z. unfold u64_max. lia.
  - intros (Hc & _). done.
Defined.

Lemma huge_index_witness : exists e, es !! 0%nat = Some e /\
  match answer_from_ledger (Some (files_of es)) (BlockThreadWitness.node Byte.x01) (2 ^ 61 + Z.of_nat 0) WindowWitness.here with
  | Panic => overflow_checks = true
  | Ret r => overflow_checks = false /\ exists out, r = Some out /\
      carries (2 ^ 61) (ni_id (BlockThreadWitness.node Byte.x01)) 0 e out
  end.
Proof.
  destruct es_0 as (e & He & Hz). exists e. split; [exact He|].
  apply (huge_index_answered es 0 e (BlockThreadWitness.node Byte.x01) WindowWitness.here);
    [apply es_ok|exact He|reflexivity|reflexivity|exact Hz].
Defined.

Lemma retransmit_once_witness : exists e blob,
  Entry_to_blob e (Some 0) (Some (BlockThreadWitness.key_of Byte.x09)) (Some WindowWitness.here) = Ret blob /\
  exists r ds, BlockThread_retransmit BlockThreadWitness.b1 blob (fun _ => true) = Ret (r, ds) /\
    (forall a, a ∈ ds.*2 <-> exists n, bt_table BlockThreadWitness.b1 !! ni_id n = Some n /\
       ni_id (BlockThreadWitness.node Byte.x02) <> ni_id n /\ ni_leader_id (BlockThreadWitness.node Byte.x02) <> ni_id n /\
       is_valid_address (ci_tx_signer (ni_contact_info n)) = true /\ a = ci_tx_signer (ni_contact_info n)) /\
    forall d from leader q, d ∈ ds.*1 ->
      carries 0 (BlockThreadWitness.key_of Byte.x02) 0 e (Blob_recv_blob Blob_default d from) /\
      (leader <> BlockThreadWitness.key_of Byte.x02 ->
         add_block_to_retransmit_queue (Blob_recv_blob Blob_default d from) leader q = Ret q).
Proof.
  destruct es_0 as (e & He & Hz). exists e.
  destruct (Entry_to_blob_spec e 0 (BlockThreadWitness.key_of Byte.x09) WindowWitness.here)
    as (b & Eb & Hb & Hsh & Hp); [reflexivity|reflexivity|exact Hz|]. exists b. split; [exact Eb|].
  apply (retransmit_once BlockThreadWitness.b1 (BlockThreadWitness.node Byte.x02) b 0
    (BlockThreadWitness.key_of Byte.x09) 0 e (fun _ => true)); [|by vm_compute|reflexivity|].
  - eapply proj1, (insert_ok BlockThreadWitness.b0 (BlockThreadWitness.node Byte.x03) 7); [|by vm_compute].
    by apply (bt_new_ok (BlockThreadWitness.node Byte.x02)).
  - split; [exact Hb|]. split; [exact Hsh|]. split; [exact Hp|]. split; [|exact Hz].
    apply (proj1 (Forall_lookup _ _) (proj1 es_ok)) in He. by destruct He.
Defined.
End ServingWitness.
