(* ===== verification/Replicate.v ===== *)
(** * Replaying and storing what the window delivers

    [src/replicate_stage.rs]: a validator replays the entries it received,
    votes, counts their votes and writes them to its ledger.
    [src/store_ledger_stage.rs]: a replicator only stores them.
    [src/entry_writer.rs]: entries as a stream of length-prefixed records. *)

From S2P Require Import Prelude.
From S2P Require Import Types.
From S2P Require Import Codec.
From S2P Require Import Packet.
From S2P Require Import FinPlan.
From S2P Require Import FinPlanProgram.
From S2P Require Import SystemProgram.
From S2P Require Import Transactions.
From S2P Require Import Entry.
From S2P Require Import Block.
From S2P Require Import Processor.
From S2P Require Import ProcessorLaws.
From S2P Require Import Replay.
From S2P Require Import ProcessorRuns.
From S2P Require Import Ledger.
From S2P Require Import BlockThread.
From S2P Require Import Window.
From S2P Require Import WindowService.
From S2P Require Import TransactionStage.
From S2P Require Import VoteStage.
From S2P Require Import WriteStage.

Inductive ReplicateError :=
  | ReplicateRecv (e : RecvTimeoutError)
  | ReplicateVote (e : VoteSendError)
  | ReplicateProcess (e : TransactionProcessorError).

Inductive StoreError := StoreRecv (e : RecvTimeoutError).

Section ReplicateOps.
Context `{Profile} `{Libloading} `{!Games} `{Sha256} `{Ed25519} `{Bincode Entry} `{Bincode U64}
  `{Bincode Transaction} `{Bincode (list Pubkey)} `{Bincode Pubkey} `{Bincode Hash} `{Bincode I64} `{Bincode bytes}
  `{Bincode SystemInstruction} `{Bincode Instruction} `{Bincode FinPlanState} `{Bincode StorageInstruction}.

(** What the replicator's thread keeps. *)
Record replica := mk_replica { rp_tp : TransactionProcessor; rp_bt : BlockThread; rp_ledger : option LedgerFiles }.

(** The times read during one call: by the replay, the vote and the table. *)
Record times := mk_times { tm_replay : nat -> Z; tm_vote : Z; tm_table : nat -> Z }.

(** [send_validator_vote], when it is time to vote: [vote_sender] tells whether
    the vote's receiver is there. *)
Definition maybe_vote (rp : replica) (tp : TransactionProcessor) (keypair : Keypair) (vote_sender : option bool) (now : Z)
    : outcome (result (option Blob) VoteSendError * BlockThread) :=
  match vote_sender with
  | Some is_open => send_validator_vote tp keypair (rp_bt rp) is_open now
  | None => Ret (Ok None, rp_bt rp)
  end.

Definition write_ledger (ledger : option LedgerFiles) (entries : list Entry) : outcome (option LedgerFiles) :=
  match ledger with
  | Some lf => lf' ← write_entries lf entries; Ret (Some lf')
  | None => Ret None
  end.

(** [replicate_requests]: the result, the vote that was sent and the new state.
    The replay's error is returned last. *)
Definition replicate_requests (rp : replica) (keypair : Keypair) (vote_sender : option bool)
    (first : result (list Entry) RecvTimeoutError) (more : list (list Entry)) (tm : times)
    : outcome (result unit ReplicateError * option Blob * replica) :=
  match first with
  | Err e => Ret (Err (ReplicateRecv e), None, rp)
  | Ok entries =>
      let entries := entries ++ concat more in
      '(res, tp) ← process_entries (tm_replay tm) 0 (rp_tp rp) entries;
      '(v, bt) ← maybe_vote rp tp keypair vote_sender (tm_vote tm);
      match v with
      | Err e => Ret (Err (ReplicateVote e), None, mk_replica tp bt (rp_ledger rp))
      | Ok vote =>
          votes ← block_votes entries;
          bt' ← insert_votes bt votes (tm_table tm) 0;
          ledger ← write_ledger (rp_ledger rp) entries;
          Ret (match res with Ok _ => Ok tt | Err e => Err (ReplicateProcess e) end, vote, mk_replica tp bt' ledger)
      end
  end.

(** One turn of the loop, [elapsed] seconds after the start: it votes at most
    once a second, and ends when the channel is gone. *)
Definition replicate_turn (rp : replica) (keypair : Keypair) (is_open : bool) (elapsed next_vote_secs : Z)
    (first : result (list Entry) RecvTimeoutError) (more : list (list Entry)) (tm : times)
    : outcome (bool * option Blob * replica * Z) :=
  let vote := next_vote_secs <? elapsed in
  next ← (if vote then u64_add next_vote_secs 1 else Ret next_vote_secs);
  '(r, blob, rp') ← replicate_requests rp keypair (if vote then Some is_open else None) first more tm;
  Ret (match r with Err (ReplicateRecv Disconnected) => true | _ => false end, blob, rp', next).

(** [store_requests]. *)
Definition store_requests (ledger : option LedgerFiles)
    (first : result (list Entry) RecvTimeoutError) (more : list (list Entry))
    : outcome (result unit StoreError * option LedgerFiles) :=
  match first with
  | Err e => Ret (Err (StoreRecv e), ledger)
  | Ok entries => ledger' ← write_ledger ledger (entries ++ concat more); Ret (Ok tt, ledger')
  end.
End ReplicateOps.

(** ** Entry streams *)

Inductive ReadError := UnexpectedEof | ReadBincode.

(** [EntryReader]: the stream and the buffer it reuses. *)
Record EntryReader := mk_reader { er_reader : bytes; er_entry_bytes : bytes }.

Section EntryStreams.
Context `{Profile} `{Bincode Entry} `{Bincode U64}.

(** [EntryWriter::write_entry], [write_entries], appending to a writer. *)
Definition ew_write_entry (w : bytes) (e : Entry) : bytes :=
  let entry_bytes := serialize e in
  w ++ serialize (mk_u64 (Z.of_nat (length entry_bytes))) ++ entry_bytes.
Definition ew_write_entries (w : bytes) (es : list Entry) : bytes := fold_left ew_write_entry es w.

(** [write_and_register_entries]: each entry is registered, then written. *)
Fixpoint write_and_register_entries `{Libloading} (tp : TransactionProcessor) (w : bytes) (es : list Entry)
    (clock : nat -> Z) (t : nat) : TransactionProcessor * bytes :=
  match es with
  | [] => (tp, w)
  | e :: rest =>
      write_and_register_entries (register_entry_id tp (e_id e) (clock t)) (ew_write_entry w e) rest clock (S t)
  end.

(** [EntryReader::next]: the buffer only grows, and is decoded as a whole.  A
    [read_exact] that fails has read all there was; [resize] panics beyond
    [isize::MAX] bytes. *)
Definition er_next (r : EntryReader) : outcome (option (result Entry ReadError) * EntryReader) :=
  if (length (er_reader r) <? 8)%nat then Ret (None, mk_reader [] (er_entry_bytes r))
  else
    n ← unwrap (deserialize (A := U64) (take 8 (er_reader r)));
    let rest := drop 8 (er_reader r) in
    let entry_len := Z.to_nat (u64_val n) in
    buf ← (if Z.of_nat (length (er_entry_bytes r)) <? u64_val n
           then _ ← rassert (u64_val n <=? i64_max);
                Ret (er_entry_bytes r ++ replicate (entry_len - length (er_entry_bytes r)) Byte.x00)
           else Ret (er_entry_bytes r));
    if Z.of_nat (length rest) <? u64_val n then Ret (Some (Err UnexpectedEof), mk_reader [] buf)
    else
      let buf' := take entry_len rest ++ drop entry_len buf in
      Ret (Some (match deserialize (A := Entry) buf' with Some e => Ok e | None => Err ReadBincode end),
           mk_reader (drop entry_len rest) buf').

(** The items of the iterator; every item takes at least 8 bytes. *)
Fixpoint er_items (fuel : nat) (r : EntryReader) : option (outcome (list (result Entry ReadError))) :=
  match fuel with
  | O => None
  | S fuel' =>
      match er_next r with
      | Panic => Some Panic
      | Ret (None, _) => Some (Ret [])
      | Ret (Some x, r') =>
          match er_items fuel' r' with
          | None => None
          | Some xs => Some (l ← xs; Ret (x :: l))
          end
      end
  end.
Definition ew_read_entries (reader : bytes) : option (outcome (list (result Entry ReadError))) :=
  er_items (S (length reader)) (mk_reader reader []).
End EntryStreams.

Section EntryStreamLaws.
Context `{Profile} `{Bincode Entry} `{!BincodeTrailing Entry} `{Bincode U64} `{!BincodeU64Ok}.

(** The stream has the format of the ledger's data file. *)
Lemma ew_write_data_file w es : ew_write_entries w es = w ++ data_file es.
Proof.
  unfold ew_write_entries. revert w. induction es as [|e es IH]; intros w; simpl; [by rewrite app_nil_r|].
  rewrite IH, data_file_cons. unfold ew_write_entry, entry_record. by rewrite <- !app_assoc.
Qed.

Definition streamable (e : Entry) : Prop := wf e /\ serialized_size e <= i64_max.

Lemma er_next_record e rest buf : streamable e ->
  exists buf', er_next (mk_reader (entry_record e ++ rest) buf) = Ret (Some (Ok e), mk_reader rest buf').
Proof.
  intros [He Hz]. unfold er_next. cbn [er_reader er_entry_bytes]. unfold serialized_size in *.
  assert (Hu : wf (mk_u64 (Z.of_nat (length (serialize e))))).
  { unfold wf, U64_wf. simpl. apply in_u64_iff. unfold i64_max, u64_max in *. lia. }
  pose proof (u64_size _ Hu) as H8. unfold entry_record, serialized_size. rewrite <- app_assoc.
  rewrite (proj2 (Nat.ltb_ge _ _)) by (rewrite length_app; lia).
  rewrite take_app_length', drop_app_length' by lia.
  rewrite deserialize_serialize by done. cbn [unwrap mbind outcome_bind u64_val]. rewrite Nat2Z.id.
  set (n := length (serialize e)).
  assert (exists buf1, (if Z.of_nat (length buf) <? Z.of_nat n
    then _ ← rassert (Z.of_nat n <=? i64_max); Ret (buf ++ replicate (n - length buf) Byte.x00) else Ret buf) = Ret buf1)
    as [buf1 E].
  { destruct (_ <? _); [|eauto]. rewrite (proj2 (Z.leb_le _ _)) by done. by eexists. }
  unfold mbind in E |- *. rewrite E. cbn [outcome_bind].
  rewrite (proj2 (Z.ltb_ge _ _)) by (rewrite length_app; unfold n; lia).
  rewrite take_app_length', drop_app_length' by done. rewrite deserialize_trailing by done. by eexists.
Qed.

(** What [EntryWriter] writes, [read_entries] reads: the same entries in
    order, then the end, although the reader decodes each record together
    with what longer records before it left in its buffer. *)
Theorem entry_stream_roundtrip : forall es, Forall streamable es ->
  ew_read_entries (ew_write_entries [] es) = Some (Ret (Ok <$> es)).
Proof.
  intros es Hes. unfold ew_read_entries. rewrite ew_write_data_file. cbn [app].
  assert (Hgen : forall fuel buf, (length (data_file es) < fuel)%nat ->
    er_items fuel (mk_reader (data_file es) buf) = Some (Ret (Ok <$> es))); [|apply Hgen; lia].
  induction Hes as [|e es He Hes IH]; intros [|fuel] buf Hf; try lia; [done|].
  rewrite data_file_cons in *. cbn [er_items]. destruct (er_next_record e (data_file es) buf He) as [buf' ->].
  rewrite length_app in Hf. unfold entry_record in Hf. rewrite length_app in Hf.
  assert (Hu : wf (mk_u64 (serialized_size e))).
  { destruct He as [_ Hz]. unfold wf, U64_wf. simpl. apply in_u64_iff. unfold i64_max, u64_max, serialized_size in *. lia. }
  rewrite (u64_size _ Hu) in Hf. by rewrite IH by lia.
Qed.
End EntryStreamLaws.

(** ** A ledger that replays *)

Section ReplicaLaws.
Context `{Profile} `{Libloading} `{!Games} `{Sha256} `{Ed25519} `{Bincode Entry} `{!BincodeFrom Entry} `{!BincodeFromOk Entry}
  `{Bincode U64} `{!BincodeU64Ok} `{!BincodeFrom U64} `{!BincodeFromOk U64}
  `{Bincode Transaction} `{Bincode (list Pubkey)} `{Bincode Pubkey} `{Bincode Hash} `{Bincode I64} `{Bincode bytes}
  `{Bincode SystemInstruction} `{Bincode Instruction} `{Bincode FinPlanState} `{Bincode StorageInstruction}.

Lemma first_error_all res : first_error res = Ok tt -> Forall (fun r => r = Ok tt) res.
Proof. induction res as [|[[]|] res IH]; simpl; intros E; [done|by constructor; [|apply IH]|done]. Qed.

Lemma sel_everything (res : list (Res unit)) (txs : list Transaction) : Forall (fun r => r = Ok tt) res ->
  length res = length txs -> sel (is_ok <$> res) txs = txs.
Proof.
  intros Hr. revert txs. induction Hr as [|r res -> _ IH]; intros [|tx txs] Hl; try done.
  simpl. by rewrite IH by (simpl in Hl; lia).
Qed.

Lemma process_entry_follows clock t clock' t' L V e L' : follows L V ->
  Forall (fun tx => is_load tx = false) (e_transactions e) -> process_entry clock t L e = Ret (Ok tt, L') ->
  exists V', process_entry clock' t' V e = Ret (Ok tt, V') /\ follows L' V'.
Proof.
  intros Hf Hload Hp. unfold process_entry in *. case_bool_decide as He.
  { cbn [mbind outcome_bind] in *. simplify_eq. eexists. split; [done|]. by apply register_follows. }
  apply bind_Ret_inv in Hp as ([r L1] & Hr & Hp). destruct r as [[]|]; [|by simplify_eq]. injection Hp as <-.
  apply bind_Ret_inv in Hr as ([res L2] & HL & Hr). injection Hr as Hok <-. apply first_error_all in Hok.
  destruct (process_transactions_follows _ _ _ _ _ Hf Hload HL) as (Hlen & res' & V1 & HV & Hok' & Hf').
  rewrite sel_everything in HV by done. rewrite HV. cbn [mbind outcome_bind].
  rewrite (first_error_ok _ Hok'). eexists. split; [done|]. by apply register_follows.
Qed.

Definition loads_no_program (es : list Entry) : Prop :=
  Forall (fun e => Forall (fun tx => is_load tx = false) (e_transactions e)) es.

(** A replay does not depend on the clock. *)
Lemma process_entries_follows clock t clock' t' L V es L' : follows L V -> loads_no_program es ->
  process_entries clock t L es = Ret (Ok tt, L') ->
  exists V', process_entries clock' t' V es = Ret (Ok tt, V') /\ follows L' V'.
Proof.
  intros Hf Hl. revert t t' L V Hf. induction Hl as [|e es He Hl IH]; intros t t' L V Hf Hp; cbn [process_entries] in *.
  { simplify_eq. by exists V. }
  apply bind_Ret_inv in Hp as ([r L1] & HL & Hp). destruct r as [[]|]; [|by simplify_eq].
  destruct (process_entry_follows clock t clock' t' L V e L1) as (V1 & -> & Hf1); [done..|]. rewrite bind_Ret.
  by eapply IH.
Qed.

(** The replicator's runs: [es] is what it received in calls that succeeded;
    a call that received nothing changes nothing. *)
Inductive replicated : replica -> list Entry -> replica -> Prop :=
  | replicated_nil rp : replicated rp [] rp
  | replicated_idle rp keypair vote_sender e more tm r vote rp1 es rp2 :
      replicate_requests rp keypair vote_sender (Err e) more tm = Ret (r, vote, rp1) ->
      replicated rp1 es rp2 -> replicated rp es rp2
  | replicated_cons rp keypair vote_sender first more tm vote rp1 es rp2 :
      replicate_requests rp keypair vote_sender (Ok first) more tm = Ret (Ok tt, vote, rp1) ->
      replicated rp1 es rp2 -> replicated rp ((first ++ concat more) ++ es) rp2.

(** What a successful call has done. *)
Lemma replicate_requests_Ok rp keypair vote_sender first more tm vote rp1 es0 :
  rp_ledger rp = Some (files_of es0) -> ledger_ok (es0 ++ first ++ concat more) ->
  replicate_requests rp keypair vote_sender (Ok first) more tm = Ret (Ok tt, vote, rp1) ->
  process_entries (tm_replay tm) 0 (rp_tp rp) (first ++ concat more) = Ret (Ok tt, rp_tp rp1) /\
  rp_ledger rp1 = Some (files_of (es0 ++ first ++ concat more)).
Proof.
  intros Hl Hok Hr. unfold replicate_requests in Hr. apply bind_Ret_inv in Hr as ([res tp] & Hp & Hr).
  apply bind_Ret_inv in Hr as ([v bt] & _ & Hr). destruct v as [v|]; [|done].
  apply bind_Ret_inv in Hr as (votes & _ & Hr). apply bind_Ret_inv in Hr as (bt' & _ & Hr).
  rewrite Hl in Hr. cbn [write_ledger] in Hr. rewrite write_entries_files in Hr by done.
  cbn [mbind outcome_bind] in Hr. destruct res as [[]|]; [|done]. by injection Hr as _ <-.
Qed.

(** What a run of successful calls has done. *)
Lemma replicated_follows rp es rp' es0 : replicated rp es rp' -> rp_ledger rp = Some (files_of es0) ->
  ledger_ok (es0 ++ es) -> loads_no_program es ->
  rp_ledger rp' = Some (files_of (es0 ++ es)) /\ forall V clock t, follows (rp_tp rp) V ->
    exists V', process_entries clock t V es = Ret (Ok tt, V') /\ follows (rp_tp rp') V'.
Proof.
  intros Hrun. revert es0. induction Hrun as [rp|rp keypair vs e more tm r vote rp1 es rp2 Hr _ IH|
    rp keypair vs first more tm vote rp1 es rp2 Hr _ IH]; intros es0 Hl Hok Hload.
  - rewrite app_nil_r. split; [done|]. intros V clock t HV. by exists V.
  - injection Hr as _ _ <-. by apply IH.
  - apply Forall_app in Hload as [Hload1 Hload2]. rewrite app_assoc in Hok. pose proof (ledger_ok_app _ _ Hok) as Hok1.
    destruct (replicate_requests_Ok _ _ _ _ _ _ _ _ _ Hl Hok1 Hr) as [Hp Hl1].
    destruct (IH _ Hl1 Hok Hload2) as [Hl2 Hf]. split; [by rewrite Hl2, <- (app_assoc es0)|]. intros V clock t HV.
    destruct (process_entries_follows _ _ clock t _ _ _ _ HV Hload1 Hp) as (V1 & E1 & HV1).
    rewrite (process_entries_app _ _ _ _ _ _ E1). by apply Hf.
Qed.


(** Entries that the replay rejects are written to the ledger all the
    same, whole batches of them, and the loop goes on: the error is looked
    at last. *)
Theorem rejected_entries_written : forall rp keypair first more tm err tp votes bt es0,
  rp_ledger rp = Some (files_of es0) -> ledger_ok (es0 ++ first ++ concat more) ->
  process_entries (tm_replay tm) 0 (rp_tp rp) (first ++ concat more) = Ret (Err err, tp) ->
  block_votes (first ++ concat more) = Ret votes -> insert_votes (rp_bt rp) votes (tm_table tm) 0 = Ret bt ->
  replicate_requests rp keypair None (Ok first) more tm =
    Ret (Err (ReplicateProcess err), None, mk_replica tp bt (Some (files_of (es0 ++ first ++ concat more)))).
Proof.
  intros rp keypair first more tm err tp votes bt es0 Hl Hok Hp Hv Hb. unfold replicate_requests. rewrite Hp.
  cbn [mbind outcome_bind maybe_vote]. rewrite Hv. cbn [mbind outcome_bind]. rewrite Hb. cbn [mbind outcome_bind].
  rewrite Hl. cbn [write_ledger]. by rewrite write_entries_files.
Qed.

(** A replicator stores what it receives. *)
Lemma store_requests_stores es0 first more : ledger_ok (es0 ++ first ++ concat more) ->
  store_requests (Some (files_of es0)) (Ok first) more = Ret (Ok tt, Some (files_of (es0 ++ first ++ concat more))).
Proof. intros Hok. unfold store_requests. cbn [write_ledger]. by rewrite write_entries_files. Qed.
End ReplicaLaws.

(** ** The hypotheses can hold *)

Module ReplicateWitness.
Import Toy SystemCodec EntryCodec Runs.
#[local] Existing Instances ed keys_bincode pubkey_bincode hash_bincode bytes_bincode tx_bincode SystemCodec.i64_bincode
  u64_bincode_ok LedgerWitness.entry_from LedgerWitness.entry_from_ok LedgerWitness.u64_from LedgerWitness.u64_from_ok.

#[local] Instance entry_trailing : BincodeTrailing Entry.
Proof. apply codec_trailing. apply entry_wf_cwf. Qed.

(** The last record is the shortest. *)
Definition shrinking : list Entry := reverse LedgerWitness.es.

Lemma entry_stream_witness : ew_read_entries (ew_write_entries [] shrinking) = Some (Ret (Ok <$> shrinking)).
Proof.
  apply entry_stream_roundtrip. apply Forall_reverse. pose proof LedgerWitness.es_ok as [Hs _].
  unfold LedgerWitness.es in *.
  repeat match goal with H : Forall _ (_ :: _) |- _ => apply Forall_cons in H as [[? _] H] end.
  repeat constructor; done || (vm_compute; discriminate).
Defined.

(** A payment and a tick, received in two calls. *)
Definition pay : Entry := mk_entry 1 id1 [good].
Definition tick : Entry := mk_entry 2 (hash [Byte.x02]) [].
Definition tm0 : times := mk_times clock 7 clock.
Definition rp0 : replica := mk_replica tp0 BlockThreadWitness.led (Some (files_of [])).
Definition step (rp : replica) (es : list Entry) : replica :=
  match replicate_requests rp VoteWitness.voting_key None (Ok es) [] tm0 with Ret (_, _, rp') => rp' | Panic => rp end.
Definition rp1 : replica := step rp0 [pay].
Definition rp2 : replica := step rp1 [tick].

Lemma stored_ok : ledger_ok ([] ++ ([pay] ++ concat []) ++ ([tick] ++ concat []) ++ []).
Proof.
  split; [|vm_compute; reflexivity].
  repeat constructor; try (vm_compute; reflexivity); try done.
Qed.


(** An entry whose payment is not covered. *)
Definition bad : Entry := mk_entry 1 id1 [poor].

Lemma bad_ok : ledger_ok ([] ++ [bad] ++ concat []).
Proof. split; [|vm_compute; reflexivity]. repeat constructor; try (vm_compute; reflexivity); try done. Qed.

Definition after_bad : TransactionProcessor :=
  match process_entries clock 0 tp0 [bad] with Ret (_, tp) => tp | Panic => tp0 end.

Lemma rejected_witness : replicate_requests rp0 VoteWitness.voting_key None (Ok [bad]) [] tm0 =
  Ret (Err (ReplicateProcess ResultWithNegativeTokens), None,
       mk_replica after_bad BlockThreadWitness.led (Some (files_of ([] ++ [bad] ++ concat [])))).
Proof.
  apply (rejected_entries_written rp0 VoteWitness.voting_key [bad] [] tm0 ResultWithNegativeTokens after_bad []
    BlockThreadWitness.led []); [reflexivity|apply bad_ok|vm_compute; reflexivity|vm_compute; reflexivity|reflexivity].
Defined.
End ReplicateWitness.
