(* ===== verification/Requests.v ===== *)
(** * Queries: the node's answers and a client

    [src/request.rs], [src/request_processor.rs], [src/request_stage.rs]: a node
    answers queries on its state.  [src/thin_client.rs]: a client sends them and
    reads the answers; what its socket delivers is a list of datagrams. *)

From S2P Require Import Prelude.
From S2P Require Import Types.
From S2P Require Import Codec.
From S2P Require Import Packet.
From S2P Require Import FinPlan.
From S2P Require Import FinPlanProgram.
From S2P Require Import SystemProgram.
From S2P Require Import Transactions.
From S2P Require Import Entry.
From S2P Require Import Block.
From S2P Require Import Processor.
From S2P Require Import ProcessorLaws.
From S2P Require Import ProcessorRuns.
From S2P Require Import WindowService.
From S2P Require Import TransactionStage.
From S2P Require Import Broadcast.

Inductive Request :=
  | GetAccount (key : Pubkey) | GetLastId | GetTransactionCount | GetSignature (signature : Signature) | GetFinality.

Inductive Response :=
  | RAccount (key : Pubkey) (account : option Account)
  | RLastId (id : Hash)
  | RTransactionCount (transaction_count : Z)
  | RSignatureStatus (signature_status : bool)
  | RFinality (time : Z).

#[export] Instance Request_wf : Wf Request := fun r =>
  match r with GetAccount k => wf k | GetSignature s => wf s | _ => True end.
#[export] Instance Response_wf : Wf Response := fun r =>
  match r with
  | RAccount k (Some a) => wf k /\ wf a /\ vec_wf (userdata a)
  | RAccount k None => wf k
  | RLastId h => wf h
  | RTransactionCount n => in_u64 n = true
  | RSignatureStatus _ => True
  | RFinality n => in_u64 n = true
  end.

Inductive RequestStageError := RequestRecv (e : RecvTimeoutError) | RequestSend.

Section RequestOps.
Context `{Profile} `{Libloading} `{Bincode Instruction} `{Bincode FinPlanState} `{Bincode U64} `{Bincode Request} `{Bincode Response}.

(** [RequestProcessor::process_request]; [order] is the order in which the
    signatures' map is walked. *)
Definition process_request (tp : TransactionProcessor) (order : list Hash) (msg : Request) (rsp_addr : SocketAddr)
    : outcome (option (Response * SocketAddr)) :=
  match msg with
  | GetAccount key => Ret (Some (RAccount key (get_account tp key), rsp_addr))
  | GetLastId => id ← last_id tp; Ret (Some (RLastId id, rsp_addr))
  | GetTransactionCount => Ret (Some (RTransactionCount (tp_transaction_count tp), rsp_addr))
  | GetSignature signature => Ret (Some (RSignatureStatus (has_signature tp order signature), rsp_addr))
  | GetFinality => Ret (Some (RFinality (finality tp), rsp_addr))
  end.

Fixpoint process_requests (tp : TransactionProcessor) (order : list Hash) (reqs : list (Request * SocketAddr))
    : outcome (list (Response * SocketAddr)) :=
  match reqs with
  | [] => Ret []
  | (req, addr) :: rest =>
      r ← process_request tp order req addr;
      rs ← process_requests tp order rest;
      Ret (option_list r ++ rs)
  end.

(** [deserialize_requests]. *)
Fixpoint deserialize_requests (packets : list Packet) : outcome (list (option (Request * SocketAddr))) :=
  match packets with
  | [] => Ret []
  | x :: rest =>
      d ← slice (p_data x) 0 (Z.to_nat (m_size (p_meta x)));
      r ← (match deserialize (A := Request) d with
           | Some req => addr ← Meta_get_addr (p_meta x); Ret (Some (req, addr))
           | None => Ret None
           end);
      rs ← deserialize_requests rest;
      Ret (r :: rs)
  end.

(** [process_request_packets] on the batch that was received: the answers are
    sent one message at a time; [is_open] tells whether the responder is there. *)
Fixpoint answer_batch (tp : TransactionProcessor) (order : list Hash) (batch : list (list Packet)) (is_open : bool)
    : outcome (result unit RequestStageError * list (list Blob)) :=
  match batch with
  | [] => Ret (Ok tt, [])
  | msgs :: rest =>
      reqs ← deserialize_requests msgs;
      rsps ← process_requests tp order (omap id reqs);
      blobs ← to_blobs rsps;
      if bool_decide (blobs = []) then answer_batch tp order rest is_open
      else if (is_open : bool) then
        '(r, sent) ← answer_batch tp order rest is_open; Ret (r, blobs :: sent)
      else Ret (Err RequestSend, [])
  end.
Definition process_request_packets (tp : TransactionProcessor) (order : list Hash)
    (batch : result (list (list Packet)) RecvTimeoutError) (is_open : bool)
    : outcome (result unit RequestStageError * list (list Blob)) :=
  match batch with
  | Err e => Ret (Err (RequestRecv e), [])
  | Ok batch => answer_batch tp order batch is_open
  end.
End RequestOps.

(** ** The client *)

Inductive ClientError := ClientIo | ClientDeserialize | AccountMissing | SignatureMissing | RetryFailed.

Record ThinClient := mk_client {
  tc_last_id : option Hash;
  tc_transaction_count : Z;
  tc_balances : gmap Pubkey Account;
  tc_signature_status : bool;
  tc_finality : option Z }.

Definition ThinClient_new : ThinClient := mk_client None 0 ∅ false None.

(** The client's receive buffer. *)
Definition RESPONSE_BUFFER : nat := N.to_nat 1024.

Section ClientOps.
Context `{Profile} `{Bincode Instruction} `{Bincode FinPlanState} `{Bincode U64} `{Bincode Response}.

(** [recv_response]: what exceeds the buffer is lost, and the buffer is decoded
    as a whole. *)
Definition recv_response (d : result bytes unit) : result Response ClientError :=
  match d with
  | Err _ => Err ClientIo
  | Ok d =>
      match deserialize (A := Response) (take RESPONSE_BUFFER d ++ replicate (RESPONSE_BUFFER - length d) Byte.x00) with
      | Some r => Ok r
      | None => Err ClientDeserialize
      end
  end.

Definition process_response (c : ThinClient) (resp : Response) : ThinClient :=
  match resp with
  | RAccount key (Some a) =>
      mk_client (tc_last_id c) (tc_transaction_count c) (<[key := a]> (tc_balances c)) (tc_signature_status c) (tc_finality c)
  | RAccount key None =>
      mk_client (tc_last_id c) (tc_transaction_count c) (delete key (tc_balances c)) (tc_signature_status c) (tc_finality c)
  | RLastId id =>
      mk_client (Some id) (tc_transaction_count c) (tc_balances c) (tc_signature_status c) (tc_finality c)
  | RTransactionCount n => mk_client (tc_last_id c) n (tc_balances c) (tc_signature_status c) (tc_finality c)
  | RSignatureStatus b => mk_client (tc_last_id c) (tc_transaction_count c) (tc_balances c) b (tc_finality c)
  | RFinality t => mk_client (tc_last_id c) (tc_transaction_count c) (tc_balances c) (tc_signature_status c) (Some t)
  end.

(** [get_balance]: [None] while the answer has not come.  An error ends it. *)
Fixpoint client_get_balance (c : ThinClient) (pubkey : Pubkey) (socket : list (result bytes unit))
    : option (result Z ClientError * ThinClient) :=
  match socket with
  | [] => None
  | d :: rest =>
      match recv_response d with
      | Err e => Some (Err e, c)
      | Ok resp =>
          let c' := process_response c resp in
          if match resp with RAccount key _ => bool_decide (key = pubkey) | _ => false end
          then Some (match tc_balances c' !! pubkey with Some a => Ok (read_balance a) | None => Err AccountMissing end, c')
          else client_get_balance c' pubkey rest
      end
  end.

(** [get_finality], [get_last_id], [check_signature]: the request is sent again
    until an answer of the kind that was asked for comes. *)
Fixpoint await (answers : Response -> bool) (c : ThinClient) (socket : list (result bytes unit)) : option ThinClient :=
  match socket with
  | [] => None
  | d :: rest =>
      match recv_response d with
      | Ok resp => let c' := process_response c resp in if answers resp then Some c' else await answers c' rest
      | Err _ => await answers c rest
      end
  end.
Definition client_get_finality (c : ThinClient) (socket : list (result bytes unit)) : option (outcome Z * ThinClient) :=
  (fun c' => (unwrap (tc_finality c'), c')) <$> await (fun r => match r with RFinality _ => true | _ => false end) c socket.
Definition client_get_last_id (c : ThinClient) (socket : list (result bytes unit)) : option (outcome Hash * ThinClient) :=
  (fun c' => (unwrap (tc_last_id c'), c')) <$> await (fun r => match r with RLastId _ => true | _ => false end) c socket.
Definition check_signature (c : ThinClient) (signature : Signature) (socket : list (result bytes unit))
    : option (bool * ThinClient) :=
  (fun c' => (tc_signature_status c', c')) <$>
    await (fun r => match r with RSignatureStatus _ => true | _ => false end) c socket.

(** [transaction_count]: five errors end it with what is known. *)
Fixpoint client_transaction_count (tries_left : nat) (c : ThinClient) (socket : list (result bytes unit))
    : option (Z * ThinClient) :=
  match tries_left with
  | O => Some (tc_transaction_count c, c)
  | S tries' =>
      match socket with
      | [] => None
      | d :: rest =>
          match recv_response d with
          | Ok resp =>
              let c' := process_response c resp in
              if match resp with RTransactionCount _ => true | _ => false end then Some (tc_transaction_count c', c')
              else client_transaction_count tries_left c' rest
          | Err _ => client_transaction_count tries' c rest
          end
      end
  end.
End ClientOps.

(** ** A query and its answer *)

Section QueryLaws.
Context `{Profile} `{Libloading} `{Bincode Instruction} `{Bincode FinPlanState} `{Bincode U64}
  `{Bincode Request} `{!BincodeOk Request} `{Bincode Response} `{!BincodeTrailing Response}.

(** A packet that holds a request from [addr]. *)
Definition asks (p : Packet) (req : Request) (addr : SocketAddr) : Prop :=
  wf req /\ Meta_get_addr (p_meta p) = Ret addr /\ m_size (p_meta p) = Z.of_nat (length (serialize req)) /\
  exists pad, p_data p = serialize req ++ pad.

Lemma deserialize_requests_asks ps reqs : Forall2 (fun p r => asks p r.1 r.2) ps reqs ->
  deserialize_requests ps = Ret (Some <$> reqs).
Proof.
  induction 1 as [|p [req addr] ps reqs (Hwf & Ha & Hs & pad & Hd) _ IH]; [done|]. cbn [deserialize_requests fmap list_fmap fst snd] in *.
  rewrite Hs, Nat2Z.id, Hd. rewrite (slice_middle _ [] (serialize req) pad) by done. rewrite bind_Ret.
  rewrite deserialize_serialize by done. rewrite Ha. cbn [mbind outcome_bind]. by rewrite IH.
Qed.

Lemma omap_Some_id {A} (l : list A) : omap id (Some <$> l) = l.
Proof. induction l as [|a l IH]; [done|]. cbn. f_equal. exact IH. Qed.

Lemma process_request_addr tp order req addr s : process_request tp order req addr = Ret (Some s) -> s.2 = addr.
Proof.
  destruct req; cbn [process_request]; intros E; try by simplify_eq.
  apply bind_Ret_inv in E as (id & _ & E). by simplify_eq.
Qed.

Lemma process_requests_spec tp order reqs : is_Some (last (tp_last_ids tp)) ->
  exists rsps, process_requests tp order reqs = Ret rsps /\
    Forall2 (fun r s => process_request tp order r.1 r.2 = Ret (Some s)) reqs rsps.
Proof.
  intros [id Hid]. assert (Hone : forall req addr, exists rsp, process_request tp order req addr = Ret (Some (rsp, addr))).
  { intros [k| | |sg|] addr; try by eexists. unfold process_request, last_id. rewrite Hid. by eexists. }
  induction reqs as [|[req addr] reqs (rsps & E & Hr)]; [by exists []|]. destruct (Hone req addr) as [rsp Er].
  exists ((rsp, addr) :: rsps). cbn [process_requests]. rewrite Er. cbn [mbind outcome_bind]. rewrite E.
  split; [done|]. by constructor.
Qed.

(** A blob that holds an answer to [addr], as the client reads it. *)
Definition answers (b : Blob) (rsp : Response) (addr : SocketAddr) : Prop :=
  b_meta b = Meta_set_addr (set_meta_size (Z.of_nat (length (serialize rsp))) Meta_default) addr /\
  payload b = serialize rsp.

Lemma to_blob_answers (rsp : Response) addr : (length (serialize rsp) <= BLOB_SIZE)%nat ->
  exists b, to_blob rsp addr = Ret b /\ answers b rsp addr.
Proof.
  intros Hl. unfold to_blob. rewrite (proj2 (Nat.leb_le _ _)) by done. cbn [rassert]. rewrite bind_Ret.
  assert (length (b_data Blob_default) = BLOB_SIZE) by apply length_replicate.
  rewrite write_slice_Ret, bind_Ret by lia. eexists. split; [done|]. split; [done|].
  unfold payload. cbn [b_meta b_data]. rewrite take_0, app_nil_l.
  replace (m_size _) with (Z.of_nat (length (serialize rsp))) by (by destruct addr).
  by rewrite Nat2Z.id, take_app_length.
Qed.

Lemma to_blobs_answer (rsps : list (Response * SocketAddr)) :
  Forall (fun s => (length (serialize s.1) <= BLOB_SIZE)%nat) rsps ->
  exists bs, to_blobs rsps = Ret bs /\ Forall2 (fun s b => answers b s.1 s.2) rsps bs.
Proof.
  induction 1 as [|[rsp addr] rsps Hl _ (bs & E & Hb)]; [by exists []|].
  destruct (to_blob_answers rsp addr Hl) as (b & Eb & Ha). exists (b :: bs). cbn [to_blobs].
  rewrite Eb, bind_Ret, E. split; [done|]. by constructor.
Qed.

Lemma recv_response_answers (rsp : Response) : wf rsp -> (length (serialize rsp) <= RESPONSE_BUFFER)%nat ->
  recv_response (Ok (serialize rsp)) = Ok rsp.
Proof. intros Hw Hl. unfold recv_response. rewrite take_ge by lia. by rewrite deserialize_trailing. Qed.


(** The client's view of a balance is the node's, whatever other answers come
    before. *)
Lemma client_balance_agrees tp c key others socket : wf (RAccount key (get_account tp key)) ->
  is_Some (get_account tp key) -> (length (serialize (RAccount key (get_account tp key))) <= RESPONSE_BUFFER)%nat ->
  Forall (fun d => exists rsp, recv_response d = Ok rsp /\ forall a, rsp <> RAccount key a) others ->
  exists c', client_get_balance c key (others ++ Ok (serialize (RAccount key (get_account tp key))) :: socket) =
    Some (Ok (get_balance tp key), c').
Proof.
  intros Hw [a Ha] Hl Ho. revert c. induction Ho as [|d others (rsp & Hd & Hne) _ IH]; intros c; cbn [app client_get_balance].
  - rewrite recv_response_answers by done. rewrite bool_decide_true by done. unfold get_balance. rewrite Ha in *.
    cbn [process_response tc_balances]. rewrite lookup_insert_eq. by eexists.
  - rewrite Hd. destruct rsp as [k o| | | |]; try apply IH. rewrite bool_decide_false; [apply IH|]. intros ->. by eapply Hne.
Qed.

(** An answer to a status query does not say which signature it is about:
    a late answer for another transaction confirms this one. *)
Theorem stale_status_confirms : forall c signature socket, wf (RSignatureStatus true) ->
  (length (serialize (RSignatureStatus true)) <= RESPONSE_BUFFER)%nat ->
  exists c', check_signature c signature (Ok (serialize (RSignatureStatus true)) :: socket) = Some (true, c').
Proof.
  intros c signature socket Hw Hl. unfold check_signature. cbn [await]. rewrite recv_response_answers by done. by eexists.
Qed.
End QueryLaws.

(** ** The hypotheses can hold *)

Module RequestWitness.
Import Toy SystemCodec Runs.

Definition c_account : codec Account := c_iso (c_pair c_i64 (c_pair c_bytes c_pubkey))
  (fun a => (tokens a, (userdata a, program_id a))) (fun '(t, (u, p)) => mk_account t u p)
  ltac:(by intros []) ltac:(by intros (?&?&?)).

Definition c_request : codec Request := c_iso
  (c_enum (v_or c_pubkey (v_or c_unit (v_or c_unit (v_or c_signature (v_last c_unit))))) ltac:(simpl; lia))
  (fun r => match r with
     | GetAccount k => inl k
     | GetLastId => inr (inl tt)
     | GetTransactionCount => inr (inr (inl tt))
     | GetSignature s => inr (inr (inr (inl s)))
     | GetFinality => inr (inr (inr (inr tt)))
     end)
  (fun x => match x with
     | inl k => GetAccount k
     | inr (inl _) => GetLastId
     | inr (inr (inl _)) => GetTransactionCount
     | inr (inr (inr (inl s))) => GetSignature s
     | inr (inr (inr (inr _))) => GetFinality
     end)
  ltac:(by intros []) ltac:(by intros [|[[]|[[]|[|[]]]]]).

Definition c_response : codec Response := c_iso
  (c_enum (v_or (c_pair c_pubkey (c_option c_account)) (v_or c_hash (v_or (c_uint 8) (v_or c_bool (v_last (c_uint 8))))))
    ltac:(simpl; lia))
  (fun r => match r with
     | RAccount k a => inl (k, a)
     | RLastId h => inr (inl h)
     | RTransactionCount n => inr (inr (inl n))
     | RSignatureStatus b => inr (inr (inr (inl b)))
     | RFinality n => inr (inr (inr (inr n)))
     end)
  (fun x => match x with
     | inl (k, a) => RAccount k a
     | inr (inl h) => RLastId h
     | inr (inr (inl n)) => RTransactionCount n
     | inr (inr (inr (inl b))) => RSignatureStatus b
     | inr (inr (inr (inr n))) => RFinality n
     end)
  ltac:(by intros []) ltac:(by intros [[]|[|[|[|]]]]).

#[local] Instance request_bincode : Bincode Request := codec_bincode c_request.
#[local] Instance response_bincode : Bincode Response := codec_bincode c_response.
#[local] Instance request_ok : BincodeOk Request.
Proof. apply codec_bincode_ok. by intros []. Qed.
#[local] Instance response_trailing : BincodeTrailing Response.
Proof.
  apply codec_trailing. intros [k [a|]|h|n|b|n]; [| |done|apply u64_range|done|apply u64_range].
  - change (wf k /\ (in_i64 (tokens a) = true /\ wf (program_id a)) /\ vec_wf (userdata a) <->
      wf k /\ in_i64 (tokens a) = true /\ (Forall (fun _ => True) (userdata a) /\ vec_wf (userdata a)) /\ wf (program_id a)).
    pose proof (Forall_true (fun _ : byte => True) (userdata a) (fun _ => I)). tauto.
  - change (wf k <-> wf k /\ True). tauto.
Qed.

(** A query for the account of key 1 and one for the last id, in one message. *)
Definition home : SocketAddr := V4 [Byte.x7f; Byte.x00; Byte.x00; Byte.x01] 9000.
Definition packet_of (req : Request) : Packet :=
  mk_packet (serialize req ++ [Byte.x00]) (Meta_set_addr (set_meta_size (Z.of_nat (length (serialize req))) Meta_default) home).
Definition asked : list (Request * SocketAddr) := [(GetAccount (key 1), home); (GetLastId, home)].

Lemma asked_fit req addr rsp : (req, addr) ∈ asked -> process_request tp0 [] req addr = Ret (Some (rsp, addr)) ->
  wf rsp /\ (length (serialize rsp) <= BLOB_SIZE)%nat.
Proof.
  pose proof BLOB_SIZE_Z. intros Hin Hr. unfold asked in Hin. rewrite !elem_of_cons, elem_of_nil in Hin.
  destruct Hin as [[= -> ->]|[[= -> ->]|[]]]; vm_compute in Hr; injection Hr as <-.
  - split; [by repeat split|]. match goal with |- (?n <= _)%nat => let m := eval vm_compute in n in change n with m end. lia.
  - split; [by repeat split|]. match goal with |- (?n <= _)%nat => let m := eval vm_compute in n in change n with m end. lia.
Qed.


Lemma stale_status_witness : exists c',
  check_signature ThinClient_new (sig_of Byte.x09) (Ok (serialize (RSignatureStatus true)) :: []) = Some (true, c').
Proof.
  apply (stale_status_confirms ThinClient_new (sig_of Byte.x09) []); [done|].
  unfold RESPONSE_BUFFER. change (length (serialize (RSignatureStatus true))) with 5%nat. lia.
Defined.
End RequestWitness.
