(* ===== verification/SigVerify.v ===== *)
(** * The signature stage

    [src/sigverify.rs] (without the CUDA path), [src/sigverify_stage.rs] and
    [recv_batch] of [src/streamer.rs]: packets are gathered into batches and
    each gets a verdict, which the transaction stage uses to choose what to
    execute. *)

From S2P Require Import Prelude.
From S2P Require Import Types.
From S2P Require Import Codec.
From S2P Require Import Packet.
From S2P Require Import FinPlan.
From S2P Require Import FinPlanProgram.
From S2P Require Import SystemProgram.
From S2P Require Import Transactions.
From S2P Require Import Entry.
From S2P Require Import Block.
From S2P Require Import Processor.
From S2P Require Import WindowService.
From S2P Require Import TransactionStage.

Inductive VerifierError := VerifierRecv (e : RecvTimeoutError) | VerifierSend.

(** [streamer::recv_batch]: messages are taken as long as they are there and at
    most 100000 packets have been seen. *)
Fixpoint recv_more (batch : list (list Packet)) (len : nat) (more : list (list Packet)) : list (list Packet) * nat :=
  match more with
  | [] => (batch, len)
  | m :: rest =>
      let len' := (len + length m)%nat in
      if 100000 <? Z.of_nat len' then (batch ++ [m], len') else recv_more (batch ++ [m]) len' rest
  end.
Definition recv_batch (first : result (list Packet) RecvTimeoutError) (more : list (list Packet))
    : result (list (list Packet) * nat) RecvTimeoutError :=
  match first with
  | Err e => Err e
  | Ok msgs => Ok (recv_more [msgs] (length msgs) more)
  end.

Section Verdicts.
Context `{Ed25519}.

(** The verdicts on one message, and on a batch. *)
Fixpoint verify_packets (packets : list Packet) : outcome (list Z) :=
  match packets with
  | [] => Ret []
  | p :: rest =>
      v ← verify_packet (p_data p) (Z.to_nat (m_size (p_meta p)));
      vs ← verify_packets rest;
      Ret (v :: vs)
  end.
Fixpoint ed25519_verify_cpu (batches : list (list Packet)) : outcome (list (list Z)) :=
  match batches with
  | [] => Ret []
  | b :: rest => v ← verify_packets b; vs ← ed25519_verify_cpu rest; Ret (v :: vs)
  end.

(** [verify_packet_disabled] accepts everything. *)
Definition ed25519_verify_disabled (batches : list (list Packet)) : list (list Z) :=
  (fun b : list Packet => (fun _ => 1) <$> b) <$> batches.

(** [SigVerifyStage::verify_batch]. *)
Definition verify_batch (batch : list (list Packet)) (sigverify_disabled : bool)
    : outcome (list (list Packet * list Z)) :=
  r ← (if (sigverify_disabled : bool) then Ret (ed25519_verify_disabled batch) else ed25519_verify_cpu batch);
  Ret (zip batch r).

(** [SigVerifyStage::verifier]: what was passed on. *)
Definition verifier (first : result (list Packet) RecvTimeoutError) (more : list (list Packet))
    (sigverify_disabled is_open : bool) : outcome (result (list (list Packet * list Z)) VerifierError) :=
  match recv_batch first more with
  | Err e => Ret (Err (VerifierRecv e))
  | Ok (batch, _) =>
      verified ← verify_batch batch sigverify_disabled;
      Ret (if (is_open : bool) then Ok verified else Err VerifierSend)
  end.
End Verdicts.

(** A batch is a prefix of the messages that were there. *)
Lemma recv_more_prefix batch len more : exists rest, batch ++ more = (recv_more batch len more).1 ++ rest.
Proof.
  revert batch len. induction more as [|m more IH]; intros batch len; cbn [recv_more]; [by exists []|].
  destruct (_ <? _); cbn [fst]; [exists more; by rewrite <- app_assoc|].
  destruct (IH (batch ++ [m]) (len + length m)%nat) as [rest Hr]. exists rest. by rewrite <- Hr, <- app_assoc.
Qed.

Section VerdictLaws.
Context `{Profile} `{Ed25519} `{TxLayout} `{!BincodeOk Transaction} `{Bincode Instruction}.

(** Nothing follows a transaction that a packet holds, and it names a payer. *)
Definition canonical (p : Packet) : Prop :=
  (Z.to_nat (m_size (p_meta p)) <= length (p_data p))%nat /\
  forall tx, deserialize (take (Z.to_nat (m_size (p_meta p))) (p_data p)) = Some tx ->
    take (Z.to_nat (m_size (p_meta p))) (p_data p) = serialize tx /\ tx_keys tx <> [].

(** The transaction a packet holds. *)
Definition holds_tx (p : Packet) (tx : Transaction) : Prop :=
  deserialize (take (Z.to_nat (m_size (p_meta p))) (p_data p)) = Some tx.

Lemma verdict_sound p tx v : canonical p -> holds_tx p tx ->
  verify_packet (p_data p) (Z.to_nat (m_size (p_meta p))) = Ret v ->
  (v <> 0 <-> verify_signature tx = Ret true).
Proof.
  intros [Hlen Hc] Ht Hv. destruct (Hc tx Ht) as [Hd Hk]. destruct (tx_keys tx) as [|k keys] eqn:Ek; [done|].
  pose proof (deserialize_wf _ _ Ht) as Hwf. set (n := Z.to_nat (m_size (p_meta p))) in *.
  assert (Hn : n = length (serialize tx)) by (rewrite <- Hd, length_take; lia).
  pose proof (verify_packet_bytes tx k keys [] (drop n (p_data p)) Hwf Ek) as Hb.
  rewrite app_nil_l, !app_nil_r, <- Hn, <- Hd, take_drop in Hb.
  unfold verify_signature, tx_from. rewrite Ek. cbn [index lookup list_lookup unwrap mbind outcome_bind].
  rewrite Hb in Hv. injection Hv as <-. destruct (Signature_verify _ _ _); split; congruence.
Qed.

Lemma verified_exactly msgs : forall vers ts txs, Forall canonical msgs -> verify_packets msgs = Ret vers ->
  deserialize_transactions msgs = Ret ts -> verified_transactions ts vers = Ret txs ->
  forall tx, tx ∈ txs <-> exists p, p ∈ msgs /\ holds_tx p tx /\ verify_signature tx = Ret true /\ verify_plan tx = Ret true.
Proof.
  induction msgs as [|p msgs IH]; intros vers ts txs Hc Hv Hd Ht tx; cbn [verify_packets deserialize_transactions] in *.
  { simplify_eq. cbn in Ht. simplify_eq. rewrite elem_of_nil. split; [done|]. intros (p & Hp & _). by apply elem_of_nil in Hp. }
  apply Forall_cons in Hc as [Hp Hc]. apply bind_Ret_inv in Hv as (v & Hv & Hvs). apply bind_Ret_inv in Hvs as (vs & Hvs & E).
  injection E as <-. apply bind_Ret_inv in Hd as (d & Hsl & Hd). apply bind_Ret_inv in Hd as (r & Hr & Hd).
  apply bind_Ret_inv in Hd as (rs & Hrs & E). injection E as <-. cbn [verified_transactions] in Ht.
  apply bind_Ret_inv in Ht as (keep & Hkeep & Ht). apply bind_Ret_inv in Ht as (rest & Hrest & E). injection E as <-.
  specialize (IH vs rs rest Hc Hvs Hrs Hrest tx).
  rewrite slice_Ret, Nat.sub_0_r, drop_0 in Hsl by (split; [lia|apply Hp]). injection Hsl as <-.
  setoid_rewrite elem_of_cons.
  assert (Hhead : (exists t, keep = Some t /\ t = tx) <-> holds_tx p tx /\ verify_signature tx = Ret true /\ verify_plan tx = Ret true).
  { unfold holds_tx. destruct (deserialize _) as [t|] eqn:Et.
    - apply bind_Ret_inv in Hr as (a & _ & E). injection E as <-. apply bind_Ret_inv in Hkeep as (ok & Hok & E).
      injection E as <-. pose proof (verdict_sound p t v Hp Et Hv) as Hs. split.
      + intros (t' & E & ->). destruct ok; [|done]. destruct (v =? 0) eqn:Ev; [done|]. bool_prop. injection E as <-.
        split; [done|]. split; [by apply Hs|done].
      + intros ([= <-] & Hsig & Hplan). exists t. split; [|done]. rewrite Hok in Hplan. injection Hplan as ->.
        apply Hs in Hsig. by rewrite (proj2 (Z.eqb_neq _ _) Hsig).
    - injection Hr as <-. injection Hkeep as <-. split; [by intros (t & E & _)|by intros [E _]]. }
  destruct keep as [t|].
  - rewrite elem_of_cons, IH. split.
    + intros [->|(q & Hq & Hrest')]; [|exists q; naive_solver]. exists p. split; [by left|]. apply Hhead. by exists t.
    + intros (q & [->|Hq] & Hrest'); [|right; by exists q]. apply Hhead in Hrest' as (t' & [= ->] & ->). by left.
  - rewrite IH. split; [intros (q & Hq & Hrest'); exists q; naive_solver|].
    intros (q & [->|Hq] & Hrest'); [|by exists q]. apply Hhead in Hrest' as (t' & ? & _). done.
Qed.

(** C20: of a message's packets, exactly the transactions that are signed by
    their payer and whose plan is valid reach execution, when each packet
    holds nothing but its transaction. *)
Theorem only_signed_executed : forall msgs vers ts txs,
  Forall canonical msgs -> verify_batch [msgs] false = Ret [(msgs, vers)] ->
  deserialize_transactions msgs = Ret ts -> verified_transactions ts vers = Ret txs ->
  forall tx, tx ∈ txs <-> exists p, p ∈ msgs /\ holds_tx p tx /\ verify_signature tx = Ret true /\ verify_plan tx = Ret true.
Proof.
  intros msgs vers ts txs Hc Hv. unfold verify_batch in Hv. cbn [ed25519_verify_cpu] in Hv.
  apply bind_Ret_inv in Hv as (r & Hr & Hv). apply bind_Ret_inv in Hr as (v & Hvp & Hr). injection Hr as <-.
  injection Hv as ->. by apply verified_exactly.
Qed.

(** A packet with more bytes than its transaction is judged by all of them: a
    signature for the longer text passes, though it is not one for the
    transaction that is decoded and executed. *)
Lemma trailing_bytes_signed tx k keys extra pad : wf tx -> tx_keys tx = k :: keys ->
  Signature_verify (tx_signature tx) (pubkey_bytes k) (get_sign_data tx ++ extra) = true ->
  verify_packet (serialize tx ++ extra ++ pad) (length (serialize tx ++ extra)) = Ret 1.
Proof. intros Hwf Hk Hs. by rewrite (verify_packet_bytes tx k keys extra pad Hwf Hk), Hs. Qed.
End VerdictLaws.

(** ** The hypotheses can hold *)

Module SigVerifyWitness.
Import Toy TransactionsWitness.
#[local] Existing Instances ed ed_ok keys_bincode pubkey_bincode hash_bincode bytes_bincode tx_bincode
  SystemCodec.i64_bincode layout FinPlanCodec.instruction_bincode.
#[local] Instance wrapping : Profile := false.
#[local] Instance tx_ok : BincodeOk Transaction.
Proof. apply codec_bincode_ok. intros t. unfold wf. by rewrite EntryCodec.c_transaction_wf. Qed.

(** A signed transaction, and a packet that does not decode. *)
Definition signed : Packet := mk_packet (serialize tx ++ [Byte.x00]) (set_meta_size (Z.of_nat (length (serialize tx))) Meta_default).
Definition noise : Packet := mk_packet [Byte.x01] (set_meta_size 1 Meta_default).
Definition msgs : list Packet := [signed; noise].

Lemma msgs_canonical : Forall canonical msgs.
Proof.
  assert (Hd : take (Z.to_nat (m_size (p_meta signed))) (p_data signed) = serialize tx).
  { unfold signed. cbn [p_meta p_data m_size set_meta_size]. by rewrite Nat2Z.id, take_app_length. }
  apply Forall_cons. split; [|apply Forall_cons; split; [|constructor]].
  - split; [apply Nat.leb_le; vm_compute; reflexivity|]. intros t. rewrite Hd, (deserialize_serialize tx tx_wf).
    intros [= <-]. split; [done|]. vm_compute. discriminate.
  - split; [apply Nat.leb_le; vm_compute; reflexivity|]. intros t Ht. vm_compute in Ht. discriminate.
Qed.

Lemma only_signed_witness : tx ∈ [tx] <->
  exists p, p ∈ msgs /\ holds_tx p tx /\ verify_signature tx = Ret true /\ verify_plan tx = Ret true.
Proof.
  apply (only_signed_executed msgs [1; 0] [Some (tx, V4 [Byte.x00; Byte.x00; Byte.x00; Byte.x00] 0); None] [tx]);
    [apply msgs_canonical|vm_compute; reflexivity..].
Defined.
End SigVerifyWitness.
