(* ===== verification/Faucet.v ===== *)
(** * The faucet

    [src/faucet.rs]: hands out tokens of the mint, up to a cap per time slice
    ([src/bin/drone.rs] clears the count).  The leader it finds by gossip, the
    last id it is told and the outcome of the transfer are arguments. *)

From S2P Require Import Prelude.
From S2P Require Import Types.
From S2P Require Import Codec.
From S2P Require Import Packet.
From S2P Require Import FinPlan.
From S2P Require Import FinPlanProgram.
From S2P Require Import SystemProgram.
From S2P Require Import Transactions.
From S2P Require Import BlockThread.

Definition TIME_SLICE : Z := 60.
Definition REQUEST_CAP : Z := 500000000.

Inductive DroneRequest := GetAirdrop (airdrop_request_amount : Z) (client_pubkey : Pubkey).

Inductive IpAddr := IpV4 (octets : bytes) | IpV6 (segments : list Z).
#[export] Instance IpAddr_eq_dec : EqDecision IpAddr.
Proof. solve_decision. Defined.

Inductive FaucetError := LeaderNotFound | TokenLimitReached | TransferFailed | FaucetDeserialize.

Section FaucetOps.
Context `{Profile} `{Ed25519} `{Bincode (list Pubkey)} `{Bincode Pubkey} `{Bincode Hash} `{Bincode I64} `{Bincode bytes}
  `{Bincode SystemInstruction} `{Bincode DroneRequest} `{Bincode Signature}.

Record Drone := mk_drone {
  dr_mint_keypair : Keypair;
  dr_ip_cache : list IpAddr;
  dr_network_addr : SocketAddr;
  dr_time_slice : Z;
  dr_request_cap : Z;
  dr_request_current : Z }.

Definition Drone_new (mint_keypair : Keypair) (network_addr : SocketAddr) (time_input request_cap_input : option Z) : Drone :=
  mk_drone mint_keypair [] network_addr (default TIME_SLICE time_input) (default REQUEST_CAP request_cap_input) 0.

Definition set_current (n : Z) (d : Drone) : Drone :=
  mk_drone (dr_mint_keypair d) (dr_ip_cache d) (dr_network_addr d) (dr_time_slice d) (dr_request_cap d) n.
Definition set_ip_cache (l : list IpAddr) (d : Drone) : Drone :=
  mk_drone (dr_mint_keypair d) l (dr_network_addr d) (dr_time_slice d) (dr_request_cap d) (dr_request_current d).

Definition check_request_limit (d : Drone) (request_amount : Z) : outcome bool :=
  t ← u64_add (dr_request_current d) request_amount; Ret (t <=? dr_request_cap d).
Definition clear_request_count (d : Drone) : Drone := set_current 0 d.
Definition add_ip_to_cache (d : Drone) (ip : IpAddr) : Drone := set_ip_cache (dr_ip_cache d ++ [ip]) d.
Definition clear_ip_cache (d : Drone) : Drone := set_ip_cache [] d.
Definition check_rate_limit (d : Drone) (ip : IpAddr) : result IpAddr IpAddr * Drone :=
  if bool_decide (ip ∈ dr_ip_cache d) then (Err ip, d) else (Ok ip, add_ip_to_cache d ip).

(** What happens around one request: the leader found, the last id it reports,
    and what becomes of the transaction that is sent. *)
Record network := mk_network {
  nw_leader : result NodeInfo unit; nw_last_id : Hash; nw_transfer : Transaction -> result Signature unit }.

(** [send_airdrop]: the amount is cast to an [i64] for the transaction. *)
Definition send_airdrop (d : Drone) (req : DroneRequest) (nw : network) : outcome (result Signature FaucetError * Drone) :=
  match nw_leader nw with
  | Err _ => Ret (Err LeaderNotFound, d)
  | Ok _ =>
      let '(GetAirdrop amount client) := req in
      tx ← system_new (dr_mint_keypair d) client (wrap_i64 amount) (nw_last_id nw);
      ok ← check_request_limit d amount;
      if (ok : bool) then
        current ← u64_add (dr_request_current d) amount;
        Ret (match nw_transfer nw tx with Ok s => Ok s | Err _ => Err TransferFailed end, set_current current d)
      else Ret (Err TokenLimitReached, d)
  end.

(** A connection's handler: the bytes it answers with, or the error that closes
    the connection. *)
Definition faucet_handle (d : Drone) (msg : bytes) (nw : network) : outcome (result bytes FaucetError * Drone) :=
  match deserialize (A := DroneRequest) msg with
  | None => Ret (Err FaucetDeserialize, d)
  | Some req =>
      '(r, d') ← send_airdrop d req nw;
      Ret (match r with Ok s => Ok (serialize s) | Err e => Err e end, d')
  end.

(** What happens to a faucet: a request, or the end of a time slice. *)
Inductive faucet_op := Airdrop (req : DroneRequest) (nw : network) | EndOfSlice.

(** Runs of a faucet, with the tokens granted in the current slice; a transfer
    that then fails counts too. *)
Definition granted (req : DroneRequest) (r : result Signature FaucetError) : Z :=
  let '(GetAirdrop amount _) := req in
  match r with Err LeaderNotFound | Err TokenLimitReached => 0 | _ => amount end.
Fixpoint faucet_run (d : Drone) (slice_total : Z) (ops : list faucet_op) : outcome (Drone * Z) :=
  match ops with
  | [] => Ret (d, slice_total)
  | EndOfSlice :: rest => faucet_run (clear_request_count d) 0 rest
  | Airdrop req nw :: rest =>
      '(r, d') ← send_airdrop d req nw; faucet_run d' (slice_total + granted req r) rest
  end.
End FaucetOps.

Section FaucetLaws.
Context `{Profile} `{Ed25519} `{Bincode (list Pubkey)} `{Bincode Pubkey} `{Bincode Hash} `{Bincode I64} `{Bincode bytes}
  `{Bincode SystemInstruction}.

Lemma u64_add_checked a b c : overflow_checks = true -> u64_add a b = Ret c -> c = a + b.
Proof. unfold u64_add, arith. intros ->. destruct (in_u64 (a + b)); congruence. Qed.

Lemma send_airdrop_counts d req nw r d' : overflow_checks = true -> send_airdrop d req nw = Ret (r, d') ->
  dr_request_current d <= dr_request_cap d ->
  dr_request_cap d' = dr_request_cap d /\ dr_request_current d' = dr_request_current d + granted req r /\
  dr_request_current d' <= dr_request_cap d'.
Proof.
  intros Hc Hs Hle. unfold send_airdrop in Hs. destruct (nw_leader nw), req as [amount client]; [|simplify_eq/=; lia].
  apply bind_Ret_inv in Hs as (tx & _ & Hs). apply bind_Ret_inv in Hs as (ok & Hok & Hs).
  unfold check_request_limit in Hok. apply bind_Ret_inv in Hok as (t & Ht & Hok). apply u64_add_checked in Ht; [|done].
  injection Hok as <-. destruct (t <=? _) eqn:E; bool_prop; [|simplify_eq/=; lia].
  apply bind_Ret_inv in Hs as (cur & Hcur & Hs). apply u64_add_checked in Hcur; [|done]. simplify_eq/=.
  destruct (nw_transfer nw tx); simpl; lia.
Qed.

(** C38: a build that traps overflow never grants more than the cap in a time
    slice, however requests, failures of the network and slices follow each
    other. *)
Theorem faucet_within_cap : forall ops d total d' total',
  overflow_checks = true -> total = dr_request_current d -> dr_request_current d <= dr_request_cap d ->
  0 <= dr_request_cap d -> faucet_run d total ops = Ret (d', total') ->
  total' <= dr_request_cap d /\ total' = dr_request_current d' /\ dr_request_cap d' = dr_request_cap d.
Proof.
  intros ops. induction ops as [|[req nw|] ops IH]; intros d total d' total' Hc Ht Hle H0c Hr; cbn [faucet_run] in Hr.
  - simplify_eq. done.
  - apply bind_Ret_inv in Hr as ([r d1] & Hs & Hr).
    destruct (send_airdrop_counts d req nw r d1 Hc Hs Hle) as (Hcap & Hcur & Hle1).
    apply IH in Hr; [|done|lia|lia|lia]. by rewrite <- Hcap.
  - apply IH in Hr; [|done|done|simpl; lia|done]. done.
Qed.

(** A build that wraps can be made to take tokens instead.  After [c]
    tokens were granted, a request for 2^64 - c passes the check, resets the
    count, and the transaction that the mint signs and sends has the amount
    [-c] for an account that the requester names. *)
Theorem faucet_cap_wraps : forall d c client nw tx info,
  overflow_checks = false -> dr_request_current d = c -> 0 < c <= i64_max -> 0 <= dr_request_cap d ->
  nw_leader nw = Ok info -> system_new (dr_mint_keypair d) client (- c) (nw_last_id nw) = Ret tx ->
  exists r, send_airdrop d (GetAirdrop (2 ^ 64 - c) client) nw = Ret (r, set_current 0 d) /\
    r = match nw_transfer nw tx with Ok s => Ok s | Err _ => Err TransferFailed end.
Proof.
  intros d c client nw tx info Hc Hcur Hr Hcap Hl Htx. unfold send_airdrop. rewrite Hl.
  assert (wrap_i64 (2 ^ 64 - c) = - c) as ->.
  { unfold wrap_i64, i64_max in *. replace (2 ^ 64 - c + 2 ^ 63) with ((2 ^ 63 - c) + 1 * 2 ^ 64) by lia.
    rewrite Z.mod_add, Z.mod_small by lia. lia. }
  rewrite Htx. cbn [mbind outcome_bind]. unfold check_request_limit.
  assert (u64_add (dr_request_current d) (2 ^ 64 - c) = Ret 0) as ->.
  { unfold u64_add, arith, in_u64, u64_max. rewrite Hc, Hcur.
    replace (c + (2 ^ 64 - c)) with (2 ^ 64) by lia. done. }
  cbn [mbind outcome_bind]. rewrite (proj2 (Z.leb_le _ _)) by done. by eexists.
Qed.
End FaucetLaws.

(** ** The hypotheses can hold *)

Module FaucetWitness.
Import Toy.
#[local] Existing Instances ed keys_bincode pubkey_bincode hash_bincode bytes_bincode SystemCodec.i64_bincode
  SystemCodec.system_bincode.

Definition up : network := mk_network (Ok (BlockThreadWitness.node Byte.x01)) Hash_default (fun tx => Ok (tx_signature tx)).
Definition down : network := mk_network (Err tt) Hash_default (fun tx => Ok (tx_signature tx)).
Definition drone (current : Z) : Drone := set_current current (Drone_new (Byte.x05 : @Keypair ed) (BlockThreadWitness.addr 1) None (Some 10)).

(** Of three requests in the second slice, one finds no leader and one exceeds
    the cap. *)
Definition ops : list faucet_op :=
  [Airdrop (GetAirdrop 9 (key 2)) up; EndOfSlice; Airdrop (GetAirdrop 7 (key 2)) up;
   Airdrop (GetAirdrop 1 (key 2)) down; Airdrop (GetAirdrop 4 (key 2)) up].

Lemma faucet_within_cap_witness : 7 <= dr_request_cap (drone 0) /\ 7 = dr_request_current (drone 7) /\
  dr_request_cap (drone 7) = dr_request_cap (drone 0).
Proof.
  apply (@faucet_within_cap true ed _ _ _ _ _ _ ops (drone 0) 0 (drone 7) 7); [done|done|by vm_compute|by vm_compute|].
  vm_compute. reflexivity.
Defined.

Lemma faucet_cap_wraps_witness : exists tx, @system_new ed _ _ _ _ _ _ (Byte.x05 : @Keypair ed) (key 2) (- 5) Hash_default = Ret tx /\
  exists r, @send_airdrop false ed _ _ _ _ _ _ (drone 5) (GetAirdrop (2 ^ 64 - 5) (key 2)) up = Ret (r, set_current 0 (drone 5)) /\
    r = match nw_transfer up tx with Ok s => Ok s | Err _ => Err TransferFailed end.
Proof.
  eexists. split; [reflexivity|].
  eapply (@faucet_cap_wraps false ed _ _ _ _ _ _ (drone 5) 5 (key 2) up); [done|done|by vm_compute|by vm_compute|reflexivity|].
  reflexivity.
Defined.
End FaucetWitness.
