(* ===== verification/Erasure.v ===== *)
(** * Erasure coding

    [src/erasure.rs], the [erasure] feature: the leader adds coding blobs to
    each block of [NUM_DATA] blobs of its window, and a validator that misses a
    few blobs of a block restores them from the others.  The arithmetic is the
    C library jerasure's, a parameter here. *)

From S2P Require Import Prelude.
From S2P Require Import Types.
From S2P Require Import Codec.
From S2P Require Import Packet.
From S2P Require Import Window.

Definition NUM_DATA : nat := 16.
Definition NUM_CODING : nat := 4.
Definition JERASURE_ALIGN : Z := 4.
Definition ERASURE_W : Z := 32.

Inductive ErasureError := NotEnoughBlocksToDecode | DecodeError | EncodeError | InvalidBlockSize.

(** The C functions.  Encoding fills the coding blocks; decoding returns a
    status and what the data and coding blocks hold afterwards. *)
Class Jerasure := {
  galois_single_divide : Z -> Z -> Z -> Z;
  jerasure_matrix_encode (k m w : Z) (matrix : list Z) (data : list bytes) (size : Z) : list bytes;
  jerasure_matrix_decode (k m w : Z) (matrix : list Z) (row_k_ones : Z) (erasures : list Z)
    (data coding : list bytes) (size : Z) : Z * list bytes * list bytes }.

(** ** Blocks *)

Section Blocks.
Context `{Jerasure}.

(** [get_matrix], row by row.  The callers have at most [NUM_CODING] rows of
    [NUM_DATA], so that the products are far from the width of [i32]. *)
Definition get_matrix (m k : nat) (w : Z) : list Z :=
  i ← seq 0 m; j ← seq 0 k;
  [galois_single_divide 1 (Z.lxor (Z.of_nat i) (Z.of_nat m + Z.of_nat j)) w].

(** [generate_coding_blocks]: what the coding blocks hold afterwards. *)
Definition generate_coding_blocks (coding data : list bytes) : outcome (result (list bytes) ErasureError) :=
  match data with
  | [] => Ret (Ok coding)
  | first :: _ =>
      let block_len := length first in
      if forallb (fun b => length b =? block_len)%nat data && forallb (fun b => length b =? block_len)%nat coding then
        let m := length coding in
        let k := length data in
        Ret (Ok (jerasure_matrix_encode (Z.of_nat k) (Z.of_nat m) ERASURE_W (get_matrix m k ERASURE_W) data
                   (Z.of_nat block_len)))
      else Ret (Err InvalidBlockSize)
  end.

(** [decode_blocks]: the outcome and what the blocks hold afterwards.  The loop
    that traces the first bytes of the first erased block reads them whether or
    not tracing is on. *)
Definition decode_blocks (data coding : list bytes) (erasures : list Z)
    : outcome (result unit ErasureError * list bytes * list bytes) :=
  match data with
  | [] => Ret (Ok tt, data, coding)
  | first :: _ =>
      let block_len := length first in
      if forallb (fun b => length b =? block_len)%nat coding && forallb (fun b => length b =? block_len)%nat data then
        let '(ret, data', coding') := jerasure_matrix_decode (Z.of_nat (length data)) (Z.of_nat (length coding))
          ERASURE_W (get_matrix (length coding) (length data) ERASURE_W) 0 erasures data coding (Z.of_nat block_len) in
        e ← index erasures 0;
        b ← (if 0 <=? e then index data' (Z.to_nat e) else Panic);
        _ ← slice b 0 8;
        Ret (if ret <? 0 then Err DecodeError else Ok tt, data', coding')
      else Ret (Err InvalidBlockSize, data, coding)
  end.
End Blocks.

(** [for i in lo..hi { d[i] = 0 }]. *)
Definition zero_range (lo hi : nat) (d : bytes) : outcome bytes :=
  if (hi <=? lo)%nat then Ret d
  else if (hi <=? length d)%nat then Ret (take lo d ++ replicate (hi - lo) Byte.x00 ++ drop hi d)
  else Panic.

(** A loop over the slots [i % window.len()], with what it keeps in [acc].  The
    windows have at least [NUM_DATA] slots, so that no slot is met twice. *)
Fixpoint each_slot {A} (f : nat -> A -> WindowSlot -> outcome (A * WindowSlot)) (w : Window) (acc : A) (ps : list nat)
    : outcome (A * Window) :=
  match ps with
  | [] => Ret (acc, w)
  | i :: rest =>
      let n := (i mod length w)%nat in
      s ← index w n;
      '(acc', s') ← f i acc s;
      w' ← update w n (fun _ => s');
      each_slot f w' acc' rest
  end.

Section ErasureOps.
Context `{Profile} `{ByteOrder} `{Bincode Pubkey} `{Jerasure}.

(** The blocks that encoding and decoding work on: a data blob with its header,
    and the payload of a coding blob. *)
Definition data_block (size : nat) (s : WindowSlot) : outcome bytes :=
  b ← unwrap (ws_data s); slice (b_data b) 0 size.
Definition coding_block (size : nat) (s : WindowSlot) : outcome bytes :=
  b ← unwrap (ws_coding s); p ← blob_data b; slice p 0 size.
Fixpoint blocks (f : WindowSlot -> outcome bytes) (w : Window) (ps : list nat) : outcome (list bytes) :=
  match ps with
  | [] => Ret []
  | i :: rest => s ← index w (i mod length w)%nat; b ← f s; bs ← blocks f w rest; Ret (b :: bs)
  end.

(** Writing them back through the same slices. *)
Definition put_data (new : bytes) (b : Blob) : outcome Blob :=
  d ← write_slice (b_data b) 0 (length new) new; Ret (set_data d b).
Definition put_payload (new : bytes) (b : Blob) : outcome Blob :=
  let lo := Z.to_nat BLOB_HEADER_SIZE in
  d ← write_slice (b_data b) lo (lo + length new) new; Ret (set_data d b).

(** ** [generate_coding] *)

(** The largest size in the block, or [None] when a blob is not there. *)
Definition widest (i : nat) (acc : option Z) (s : WindowSlot) : outcome (option Z * WindowSlot) :=
  Ret (match acc, ws_data s with Some m, Some b => Some (Z.max (m_size (b_meta b)) m) | _, _ => None end, s).

Definition zero_tail (size : nat) (i : nat) (acc : unit) (s : WindowSlot) : outcome (unit * WindowSlot) :=
  match ws_data s with
  | None => Ret (acc, s)
  | Some b =>
      d ← zero_range (Z.to_nat (m_size (b_meta b))) size (b_data b);
      Ret (acc, slot_set_data (Some (set_data d b)) s)
  end.

Definition new_coding (size : Z) (i : nat) (acc : unit) (s : WindowSlot) : outcome (unit * WindowSlot) :=
  _ ← rassert (match ws_coding s with None => true | Some _ => false end);
  d ← zero_range 0 (Z.to_nat size) (b_data Blob_default);
  let c0 := set_data d Blob_default in
  c1 ← match ws_data s with
       | None => Ret c0
       | Some data =>
           ix ← get_index data;
           r ← get_id data;
           id ← unwrap_result r;
           c ← set_index c0 ix;
           set_id c id
       end;
  c2 ← set_size c1 size;
  c3 ← set_coding c2;
  Ret (acc, slot_set_coding (Some c3) s).

(** The encoded blocks, stored one by one. *)
Definition store_coding (i : nat) (new : list bytes) (s : WindowSlot) : outcome (list bytes * WindowSlot) :=
  match new with
  | [] => Ret ([], s)
  | p :: rest => c ← unwrap (ws_coding s); c' ← put_payload p c; Ret (rest, slot_set_coding (Some c') s)
  end.

(** One turn of the loop: [None] when a blob of the block is missing. *)
Definition code_block (w : Window) (block_start : nat) : outcome (option (result unit ErasureError * Window)) :=
  let block := seq block_start NUM_DATA in
  let coding_start := (block_start + NUM_DATA - NUM_CODING)%nat in
  let coding_slots := seq coding_start NUM_CODING in
  '(max_data_size, _) ← each_slot widest w (Some 0) block;
  match max_data_size with
  | None => Ret None
  | Some m =>
      let max_data_size := align m JERASURE_ALIGN in
      let size := Z.to_nat max_data_size in
      '(_, w1) ← each_slot (zero_tail size) w tt block;
      '(_, w2) ← each_slot (new_coding max_data_size) w1 tt coding_slots;
      data_ptrs ← blocks (data_block size) w2 block;
      coding_ptrs ← blocks (coding_block size) w2 coding_slots;
      r ← generate_coding_blocks coding_ptrs data_ptrs;
      match r with
      | Err e => Ret (Some (Err e, w2))
      | Ok coding => '(_, w3) ← each_slot store_coding w2 coding coding_slots; Ret (Some (Ok tt, w3))
      end
  end.

(** The loop over the blocks that end by [limit]: the outcome, the window and
    the index to send coding blobs from. *)
Fixpoint coding_loop (fuel : nat) (w : Window) (block_start limit : nat) (coding_index_start transmit_index : Z)
    : option (outcome (result unit ErasureError * Window * Z)) :=
  match fuel with
  | O => None
  | S fuel =>
      let block_end := (block_start + NUM_DATA)%nat in
      if (limit <? block_end)%nat then Some (Ret (Ok tt, w, transmit_index))
      else
        match code_block w block_start with
        | Panic => Some Panic
        | Ret None => Some (Ret (Ok tt, w, transmit_index))
        | Ret (Some (Err e, w')) => Some (Ret (Err e, w', Z.min transmit_index coding_index_start))
        | Ret (Some (Ok _, w')) =>
            coding_loop fuel w' block_end limit coding_index_start (Z.min transmit_index coding_index_start)
        end
  end.

Definition generate_coding (w : Window) (receive_index : Z) (num_blobs : nat) (transmit_index_coding : Z)
    : option (outcome (result unit ErasureError * Window * Z)) :=
  match
    coding_index_start ← u64_add (receive_index - receive_index mod Z.of_nat NUM_DATA) (Z.of_nat (NUM_DATA - NUM_CODING));
    start ← u64_rem receive_index (Z.of_nat (length w));
    Ret (coding_index_start, start)
  with
  | Panic => Some Panic
  | Ret (coding_index_start, start) =>
      let start_idx := Z.to_nat start in
      coding_loop (S num_blobs) w (start_idx - start_idx mod NUM_DATA) (start_idx + num_blobs)
        coding_index_start transmit_index_coding
  end.

(** ** [recover] *)

Definition is_missing (idx : Z) (slot : option Blob) : outcome (bool * option Blob) :=
  match slot with
  | None => Ret (true, None)
  | Some b => blob_idx ← get_index b; Ret (if blob_idx =? idx then (false, Some b) else (true, None))
  end.

(** One turn of the loop of [find_missing]. *)
Definition missing_slot (block_start_idx : Z) (block_start : nat) (i : nat) (acc : nat * nat) (s : WindowSlot)
    : outcome (nat * nat * WindowSlot) :=
  let '(data_missing, coding_missing) := acc in
  idx ← u64_add (Z.of_nat (i - block_start)) block_start_idx;
  '(d, data) ← is_missing idx (ws_data s);
  let data_missing' := if (d : bool) then S data_missing else data_missing in
  let s1 := slot_set_data data s in
  if (block_start + NUM_DATA - NUM_CODING <=? i)%nat then
    '(c, coding) ← is_missing idx (ws_coding s);
    Ret (data_missing', if (c : bool) then S coding_missing else coding_missing, slot_set_coding coding s1)
  else Ret (data_missing', coding_missing, s1).

Definition find_missing (block_start_idx : Z) (block_start : nat) (w : Window) : outcome (nat * nat * Window) :=
  each_slot (missing_slot block_start_idx block_start) w (O, O) (seq block_start NUM_DATA).

(** The blobs there are, with an empty one in place of a missing one, which is
    noted in [erasures]. *)
Definition gather_data (block_start : nat) (i : nat) (acc : list Z * option Meta) (s : WindowSlot)
    : outcome (list Z * option Meta * WindowSlot) :=
  let '(erasures, meta) := acc in
  Ret (match ws_data s with
       | Some b => (erasures, match meta with None => Some (b_meta b) | Some _ => meta end, s)
       | None => (erasures ++ [Z.of_nat (i - block_start)], meta, slot_set_data (Some Blob_default) s)
       end).
Definition gather_coding (coding_start : nat) (i : nat) (acc : list Z * option Z) (s : WindowSlot)
    : outcome (list Z * option Z * WindowSlot) :=
  let '(erasures, size) := acc in
  match ws_coding s with
  | Some b =>
      match size with
      | Some _ => Ret (erasures, size, s)
      | None => n ← u64_sub (m_size (b_meta b)) BLOB_HEADER_SIZE; Ret (erasures, Some n, s)
      end
  | None => Ret (erasures ++ [Z.of_nat (i - coding_start + NUM_DATA)], size, slot_set_coding (Some Blob_default) s)
  end.

(** What decoding left in a data blob, and the header of a restored one: its
    size is read from the restored header, the metadata is another blob's. *)
Definition store_data (i : nat) (new : list bytes) (s : WindowSlot) : outcome (list bytes * WindowSlot) :=
  match new with
  | [] => Ret ([], s)
  | p :: rest => b ← unwrap (ws_data s); b' ← put_data p b; Ret (rest, slot_set_data (Some b') s)
  end.

Definition fix_data (meta : option Meta) (b : Blob) : outcome (bool * Blob) :=
  n ← get_data_size b;
  data_size ← u64_sub n BLOB_HEADER_SIZE;
  m ← unwrap meta;
  b' ← set_size (set_meta m b) data_size;
  Ret (BLOB_DATA_SIZE <? data_size, b').
Definition fix_coding (meta : option Meta) (size idx : Z) (b : Blob) : outcome (bool * Blob) :=
  ix ← u64_sub idx (Z.of_nat NUM_CODING);
  b1 ← set_index b ix;
  n ← u64_sub size BLOB_HEADER_SIZE;
  m ← unwrap meta;
  b2 ← set_size (set_meta m b1) size;
  Ret (BLOB_DATA_SIZE <? n, b2).

(** The loop over the erasures: whether a blob is corrupt. *)
Fixpoint fix_erased (block_start_idx size : Z) (block_start : nat) (meta : option Meta) (w : Window) (erasures : list Z)
    : outcome (bool * Window) :=
  match erasures with
  | [] => Ret (false, w)
  | e :: rest =>
      let n := Z.to_nat e in
      idx ← u64_add e block_start_idx;
      let j := if (n <? NUM_DATA)%nat then ((block_start + n) mod length w)%nat
               else ((block_start + n - NUM_CODING) mod length w)%nat in
      s ← index w j;
      '(corrupt, s') ←
        (if (n <? NUM_DATA)%nat then
           b ← unwrap (ws_data s); '(c, b') ← fix_data meta b; Ret (c, slot_set_data (Some b') s)
         else b ← unwrap (ws_coding s); '(c, b') ← fix_coding meta size idx b; Ret (c, slot_set_coding (Some b') s));
      w' ← update w j (fun _ => s');
      '(corrupt', w'') ← fix_erased block_start_idx size block_start meta w' rest;
      Ret ((corrupt : bool) || corrupt', w'')
  end.

(** The blobs of the block, restored. *)
Definition restore (block_start_idx : Z) (block_start : nat) (w : Window)
    : outcome (result unit ErasureError * Window) :=
  let block := seq block_start NUM_DATA in
  let coding_start := (block_start + NUM_DATA - NUM_CODING)%nat in
  let coding_slots := seq coding_start NUM_CODING in
  '(erasures, meta, w1) ← each_slot (gather_data block_start) w ([], None) block;
  '(erasures, size, w2) ← each_slot (gather_coding coding_start) w1 (erasures, None) coding_slots;
  size ← unwrap size;
  let n := Z.to_nat size in
  '(_, w3) ← each_slot (zero_tail n) w2 tt block;
  data_ptrs ← blocks (data_block n) w3 block;
  coding_ptrs ← blocks (coding_block n) w3 coding_slots;
  '(r, data, coding) ← decode_blocks data_ptrs coding_ptrs (erasures ++ [-1]);
  '(_, w4) ← each_slot store_data w3 data block;
  '(_, w5) ← each_slot store_coding w4 coding coding_slots;
  match r with
  | Err e => Ret (Err e, w5)
  | Ok _ =>
      '(corrupt, w6) ← fix_erased block_start_idx size block_start meta w5 erasures;
      _ ← rassert (negb corrupt);
      Ret (Ok tt, w6)
  end.

Definition recover (w : Window) (start_idx : Z) (start : nat) : outcome (result unit ErasureError * Window) :=
  let block_start := (start - start mod NUM_DATA)%nat in
  let block_start_idx := start_idx - start_idx mod Z.of_nat NUM_DATA in
  '(data_missing, coding_missing, w') ← find_missing block_start_idx block_start w;
  if (data_missing =? 0)%nat then Ret (Ok tt, w')
  else if (NUM_CODING <? data_missing + coding_missing)%nat then Ret (Err NotEnoughBlocksToDecode, w')
  else restore block_start_idx block_start w'.
End ErasureOps.

(** ** Loops over the slots of a block *)

(** The same loop on the slots themselves. *)
Fixpoint run_slots {A} (f : nat -> A -> WindowSlot -> outcome (A * WindowSlot)) (i : nat) (acc : A) (l : list WindowSlot)
    : outcome (A * list WindowSlot) :=
  match l with
  | [] => Ret (acc, [])
  | s :: rest => '(acc1, s') ← f i acc s; '(acc2, rest') ← run_slots f (S i) acc1 rest; Ret (acc2, s' :: rest')
  end.

Lemma middle_mod {A} (pre l post : list A) k : (k < length l)%nat ->
  ((length pre + k) mod length (pre ++ l ++ post) = length pre + k)%nat.
Proof. intros. apply Nat.mod_small. rewrite !length_app. lia. Qed.

Lemma each_slot_run {A} (f : nat -> A -> WindowSlot -> outcome (A * WindowSlot)) pre l post acc :
  each_slot f (pre ++ l ++ post) acc (seq (length pre) (length l)) =
  ('(acc', l') ← run_slots f (length pre) acc l; Ret (acc', pre ++ l' ++ post)).
Proof.
  revert pre acc. induction l as [|s l IH]; intros pre acc; [done|].
  pose proof (middle_mod pre (s :: l) post 0 ltac:(simpl; lia)) as Hm. rewrite Nat.add_0_r in Hm.
  cbn [length seq each_slot run_slots app]. cbn [app] in Hm. rewrite Hm. unfold index, update.
  rewrite list_lookup_middle by done. cbn [unwrap]. rewrite bind_Ret.
  destruct (f (length pre) acc s) as [[acc1 s']|]; [|done].
  rewrite !bind_Ret, insert_app_r_alt, Nat.sub_diag by lia. cbn [list_insert insert app].
  specialize (IH (pre ++ [s']) acc1). rewrite length_app, Nat.add_comm, <- app_assoc in IH. cbn [app length Nat.add] in IH.
  rewrite IH. destruct (run_slots f (S (length pre)) acc1 l) as [[acc2 l']|]; [|done].
  rewrite !bind_Ret, <- app_assoc. done.
Qed.

(** The rule for such a loop: [a k] is what it keeps before slot [k]. *)
Lemma run_slots_rule {A} (f : nat -> A -> WindowSlot -> outcome (A * WindowSlot)) (a : nat -> A)
    (P : nat -> WindowSlot -> Prop) i l :
  (forall k s, l !! k = Some s -> exists s', f (i + k)%nat (a k) s = Ret (a (S k), s') /\ P k s') ->
  exists l', run_slots f i (a O) l = Ret (a (length l), l') /\ length l' = length l /\
    forall k s', l' !! k = Some s' -> P k s'.
Proof.
  revert i a P. induction l as [|s l IH]; intros i a P Hf; cbn [run_slots].
  { exists []. split_and!; [done..|]. intros k s'. by rewrite lookup_nil. }
  destruct (Hf O s eq_refl) as (s' & E & HP). rewrite Nat.add_0_r in E. rewrite E, bind_Ret.
  destruct (IH (S i) (fun k => a (S k)) (fun k => P (S k))) as (l' & -> & Hl & HP').
  { intros k x Hk. destruct (Hf (S k) x Hk) as (x' & Ex & Px). exists x'. by rewrite Nat.add_succ_r in Ex. }
  rewrite bind_Ret. exists (s' :: l'). split_and!; [done|simpl; lia|]. intros [|k] x Hx; simpl in Hx.
  - by simplify_eq.
  - by apply HP'.
Qed.

Lemma each_slot_rule {A} (f : nat -> A -> WindowSlot -> outcome (A * WindowSlot)) (a : nat -> A)
    (P : nat -> WindowSlot -> Prop) pre l post n i :
  i = length pre -> n = length l ->
  (forall k s, l !! k = Some s -> exists s', f (i + k)%nat (a k) s = Ret (a (S k), s') /\ P k s') ->
  exists l', each_slot f (pre ++ l ++ post) (a O) (seq i n) = Ret (a n, pre ++ l' ++ post) /\ length l' = length l /\
    forall k s', l' !! k = Some s' -> P k s'.
Proof.
  intros -> -> Hf. destruct (run_slots_rule f a P (length pre) l Hf) as (l' & E & Hl & HP).
  exists l'. rewrite each_slot_run, E, bind_Ret. done.
Qed.

(** The same for a loop whose effect on a slot is a function. *)
Lemma each_slot_imap {A} (f : nat -> A -> WindowSlot -> outcome (A * WindowSlot)) (a : nat -> A)
    (F : nat -> WindowSlot -> WindowSlot) pre l post n i : i = length pre -> n = length l ->
  (forall k s, l !! k = Some s -> f (i + k)%nat (a k) s = Ret (a (S k), F k s)) ->
  each_slot f (pre ++ l ++ post) (a O) (seq i n) = Ret (a n, pre ++ imap F l ++ post).
Proof.
  intros Hi Hn Hf. destruct (each_slot_rule f a (fun k s' => F k <$> l !! k = Some s') pre l post n i Hi Hn)
    as (l' & -> & Hl & HP).
  { intros k s Hk. exists (F k s). rewrite Hk. auto. }
  do 4 f_equal. apply list_eq. intros k. rewrite list_lookup_imap.
  destruct (l' !! k) as [s'|] eqn:Hk; [by rewrite (HP k s' Hk)|].
  apply lookup_ge_None in Hk. by rewrite lookup_ge_None_2 by lia.
Qed.

(** Reading the slots: [g k] is the block of slot [k]. *)
Lemma blocks_rule (f : WindowSlot -> outcome bytes) (g : nat -> bytes) pre l post i n : i = length pre -> n = length l ->
  (forall k s, l !! k = Some s -> f s = Ret (g k)) ->
  blocks f (pre ++ l ++ post) (seq i n) = Ret (g <$> seq 0 n).
Proof.
  intros -> ->. revert pre g. induction l as [|s l IH]; intros pre g Hf; [done|].
  pose proof (middle_mod pre (s :: l) post 0 ltac:(simpl; lia)) as Hm. rewrite Nat.add_0_r in Hm.
  cbn [length seq blocks fmap list_fmap app]. cbn [app] in Hm. rewrite Hm. unfold index.
  rewrite list_lookup_middle by done. cbn [unwrap]. rewrite bind_Ret, (Hf O s eq_refl), bind_Ret.
  specialize (IH (pre ++ [s]) (fun k => g (S k)) (fun k x Hk => Hf (S k) x Hk)).
  rewrite length_app, Nat.add_comm, <- app_assoc in IH. cbn [app length Nat.add] in IH. rewrite IH, bind_Ret.
  by rewrite <- (fmap_S_seq 0), <- list_fmap_compose.
Qed.

(** The loops over the coding slots see the end of the block. *)
Lemma split_block (l : list WindowSlot) : length l = NUM_DATA -> exists a c, l = a ++ c /\
  length a = (NUM_DATA - NUM_CODING)%nat /\ length c = NUM_CODING.
Proof.
  intros Hl. exists (take (NUM_DATA - NUM_CODING) l), (drop (NUM_DATA - NUM_CODING) l).
  rewrite take_drop, length_take, length_drop, Hl. done.
Qed.

Lemma each_coding_rule {A} (f : nat -> A -> WindowSlot -> outcome (A * WindowSlot)) (a : nat -> A)
    (P : nat -> WindowSlot -> Prop) pre l post : length l = NUM_DATA ->
  (forall k s, l !! (NUM_DATA - NUM_CODING + k)%nat = Some s -> (k < NUM_CODING)%nat ->
    exists s', f (length pre + NUM_DATA - NUM_CODING + k)%nat (a k) s = Ret (a (S k), s') /\ P k s') ->
  exists l', each_slot f (pre ++ l ++ post) (a O) (seq (length pre + NUM_DATA - NUM_CODING) NUM_CODING) =
      Ret (a NUM_CODING, pre ++ l' ++ post) /\ length l' = NUM_DATA /\
    forall k s, l' !! k = Some s ->
      if decide (k < NUM_DATA - NUM_CODING)%nat then l !! k = Some s else P (k - (NUM_DATA - NUM_CODING))%nat s.
Proof.
  intros Hl Hf. destruct (split_block l Hl) as (h & c & -> & Hh & Hc).
  destruct (each_slot_rule f a P (pre ++ h) c post NUM_CODING (length pre + NUM_DATA - NUM_CODING)) as (c' & E & Hc' & HP).
  - rewrite length_app, Hh. unfold NUM_DATA, NUM_CODING. lia.
  - done.
  - intros k s Hk. apply Hf; [by rewrite lookup_app_r, Hh, Nat.add_sub_swap, Nat.sub_diag by lia|].
    apply lookup_lt_Some in Hk. lia.
  - rewrite <- !app_assoc in E. exists (h ++ c'). rewrite <- !app_assoc, E. split; [done|].
    split; [rewrite length_app, Hh, Hc', Hc; done|]. intros k s Hk. case_decide as Hd.
    + rewrite lookup_app_l in Hk |- * by lia. done.
    + rewrite lookup_app_r, Hh in Hk by lia. by apply HP.
Qed.

Lemma blocks_coding_rule (f : WindowSlot -> outcome bytes) (g : nat -> bytes) pre l post : length l = NUM_DATA ->
  (forall k s, l !! (NUM_DATA - NUM_CODING + k)%nat = Some s -> (k < NUM_CODING)%nat -> f s = Ret (g k)) ->
  blocks f (pre ++ l ++ post) (seq (length pre + NUM_DATA - NUM_CODING) NUM_CODING) = Ret (g <$> seq 0 NUM_CODING).
Proof.
  intros Hl Hf. destruct (split_block l Hl) as (h & c & -> & Hh & Hc).
  rewrite <- app_assoc, app_assoc. apply blocks_rule.
  - rewrite length_app, Hh. unfold NUM_DATA, NUM_CODING. lia.
  - done.
  - intros k s Hk. apply Hf; [by rewrite lookup_app_r, Hh, Nat.add_sub_swap, Nat.sub_diag by lia|].
    apply lookup_lt_Some in Hk. lia.
Qed.

Lemma each_coding_imap {A} (f : nat -> A -> WindowSlot -> outcome (A * WindowSlot)) (a : nat -> A)
    (F : nat -> WindowSlot -> WindowSlot) pre l post : length l = NUM_DATA ->
  (forall k s, l !! (NUM_DATA - NUM_CODING + k)%nat = Some s -> (k < NUM_CODING)%nat ->
    f (length pre + NUM_DATA - NUM_CODING + k)%nat (a k) s = Ret (a (S k), F k s)) ->
  each_slot f (pre ++ l ++ post) (a O) (seq (length pre + NUM_DATA - NUM_CODING) NUM_CODING) =
    Ret (a NUM_CODING, pre ++ imap (fun k s => if decide (k < NUM_DATA - NUM_CODING)%nat then s
                                     else F (k - (NUM_DATA - NUM_CODING))%nat s) l ++ post).
Proof.
  intros Hl Hf. destruct (each_coding_rule f a (fun k s' => F k <$> l !! (NUM_DATA - NUM_CODING + k)%nat = Some s') pre l post Hl)
    as (l' & -> & Hl' & HP).
  { intros k s Hk Hlt. exists (F k s). rewrite Hk. auto. }
  do 4 f_equal. apply list_eq. intros k. rewrite list_lookup_imap.
  destruct (l' !! k) as [s'|] eqn:Hk; [|apply lookup_ge_None in Hk; by rewrite lookup_ge_None_2 by lia].
  specialize (HP k s' Hk). case_decide as Hd; [by rewrite HP|].
  by replace (NUM_DATA - NUM_CODING + (k - (NUM_DATA - NUM_CODING)))%nat with k in HP by lia.
Qed.

(** ** Blobs as blocks *)

(** [b'] is what a receiver has of [b]: the same bytes up to its size. *)
Definition copies (b b' : Blob) : Prop :=
  wf b' /\ m_size (b_meta b') = m_size (b_meta b) /\
  take (Z.to_nat (m_size (b_meta b))) (b_data b') = take (Z.to_nat (m_size (b_meta b))) (b_data b).

(** The data of a blob, zero from its size up to [size], and all of it. *)
Definition padded (size : nat) (b : Blob) : bytes :=
  let n := Z.to_nat (m_size (b_meta b)) in take n (b_data b) ++ replicate (size - n) Byte.x00.
Definition pad (size : nat) (b : Blob) : Blob := set_data (padded size b ++ drop size (b_data b)) b.

Lemma align_4 x : 0 <= x -> x <= align x JERASURE_ALIGN < x + 4 /\ align x JERASURE_ALIGN mod 4 = 0.
Proof.
  intros Hx. unfold align, JERASURE_ALIGN. change (4 - 1) with (Z.ones 2).
  rewrite <- Z.ldiff_land, Z.ldiff_ones_r, Z.shiftl_mul_pow2, Z.shiftr_div_pow2 by lia. change (2 ^ 2) with 4.
  rewrite Z.mod_mul by lia. pose proof (Z.div_mod (x + 3) 4 ltac:(lia)). pose proof (Z.mod_pos_bound (x + 3) 4 ltac:(lia)).
  change (Z.ones 2) with 3. lia.
Qed.

Lemma length_padded size b : wf b -> (Z.to_nat (m_size (b_meta b)) <= size <= BLOB_SIZE)%nat ->
  length (padded size b) = size.
Proof. unfold wf, Blob_wf, padded. intros Hb Hs. rewrite length_app, length_take, length_replicate. lia. Qed.

Lemma pad_wf size b : wf b -> (Z.to_nat (m_size (b_meta b)) <= size <= BLOB_SIZE)%nat -> wf (pad size b).
Proof.
  intros Hb Hs. unfold wf, Blob_wf. simpl. rewrite length_app, length_padded, length_drop by done.
  unfold wf, Blob_wf in Hb. lia.
Qed.

Lemma take_pad size b : wf b -> (Z.to_nat (m_size (b_meta b)) <= size <= BLOB_SIZE)%nat ->
  take size (b_data (pad size b)) = padded size b.
Proof. intros. simpl. by rewrite take_app_length' by (by rewrite length_padded). Qed.

Lemma take_le_eq {A} (l l' : list A) n m : (n <= m)%nat -> take m l = take m l' -> take n l = take n l'.
Proof. intros Hn E. rewrite <- (Nat.min_l n m), <- !take_take, E by done. done. Qed.

Lemma take_padded size b : wf b -> (Z.to_nat (m_size (b_meta b)) <= BLOB_SIZE)%nat ->
  take (Z.to_nat (m_size (b_meta b))) (padded size b) = take (Z.to_nat (m_size (b_meta b))) (b_data b).
Proof.
  unfold wf, Blob_wf, padded. intros Hb Hs. apply take_app_length'. rewrite length_take. lia.
Qed.

Lemma pad_copies size b : wf b -> (Z.to_nat (m_size (b_meta b)) <= size <= BLOB_SIZE)%nat -> copies b (pad size b).
Proof.
  intros Hb Hs. split_and!; [by apply pad_wf|done|]. rewrite <- (take_padded size b Hb) by lia.
  rewrite <- (take_pad size b) by done. by rewrite take_take, Nat.min_l by lia.
Qed.

Lemma copies_trans b1 b2 b3 : copies b1 b2 -> copies b2 b3 -> copies b1 b3.
Proof. intros (W2 & S2 & D2) (W3 & S3 & D3). split_and!; [done|congruence|]. rewrite S2 in D3. congruence. Qed.

Lemma padded_copies size b b' : copies b b' -> padded size b' = padded size b.
Proof. intros (_ & Hs & Hd). unfold padded. by rewrite Hs, Hd. Qed.

Lemma zero_tail_pad size i acc s b : wf b -> (Z.to_nat (m_size (b_meta b)) <= size <= BLOB_SIZE)%nat ->
  ws_data s = Some b -> zero_tail size i acc s = Ret (acc, slot_set_data (Some (pad size b)) s).
Proof.
  intros Hb Hs Hd. unfold zero_tail. rewrite Hd. unfold zero_range, pad, padded. unfold wf, Blob_wf in Hb.
  destruct (size <=? Z.to_nat (m_size (b_meta b)))%nat eqn:E.
  - apply Nat.leb_le in E. replace (Z.to_nat (m_size (b_meta b))) with size by lia.
    rewrite Nat.sub_diag, app_nil_r, take_drop. by destruct b.
  - rewrite (proj2 (Nat.leb_le size _)) by lia. by rewrite app_assoc.
Qed.

(** What lies in the header survives copying. *)
Lemma slice_take_eq {A} (d d' : list A) n lo hi : length d = length d' -> (hi <= n)%nat -> take n d = take n d' ->
  slice d lo hi = slice d' lo hi.
Proof.
  intros Hl Hn E. unfold slice. rewrite <- Hl. destruct (lo <=? hi)%nat eqn:Elo; [|done].
  destruct (hi <=? length d)%nat eqn:Ehi; [|done]. apply Nat.leb_le in Elo, Ehi. cbn [andb]. f_equal.
  apply (take_le_eq _ _ hi) in E; [|done]. rewrite !take_drop_commute.
  replace (lo + (hi - lo))%nat with hi by lia. by rewrite E.
Qed.

Lemma copies_slice b b' lo hi : wf b -> copies b b' -> 64 <= m_size (b_meta b) -> (hi <= 64)%nat ->
  slice (b_data b') lo hi = slice (b_data b) lo hi.
Proof.
  intros Hb (Hb' & _ & E) Hm Hh. eapply slice_take_eq; [unfold wf, Blob_wf in *; congruence| |done]. lia.
Qed.

Lemma copies_index `{ByteOrder} b b' : wf b -> copies b b' -> 64 <= m_size (b_meta b) -> get_index b' = get_index b.
Proof. intros Hb Hc Hm. unfold get_index. by rewrite (copies_slice b b' _ _ Hb Hc Hm) by (unfold BLOB_INDEX_END; lia). Qed.

(** Storing bytes over what is there. *)
Lemma put_data_Ret new b : wf b -> (length new <= BLOB_SIZE)%nat ->
  put_data new b = Ret (set_data (new ++ drop (length new) (b_data b)) b).
Proof.
  intros Hb Hn. unfold put_data, wf, Blob_wf in *. rewrite write_slice_Ret by lia. done.
Qed.

Definition with_payload (p : bytes) (b : Blob) : Blob :=
  set_data (take 64 (b_data b) ++ p ++ drop (64 + length p) (b_data b)) b.

Lemma put_payload_Ret p b : wf b -> (64 + length p <= BLOB_SIZE)%nat -> put_payload p b = Ret (with_payload p b).
Proof.
  intros Hb Hn. unfold put_payload, wf, Blob_wf in *. change (Z.to_nat BLOB_HEADER_SIZE) with 64%nat.
  by rewrite write_slice_Ret by lia.
Qed.

Lemma with_payload_spec p b : wf b -> (64 + length p <= BLOB_SIZE)%nat ->
  wf (with_payload p b) /\ slice (b_data (with_payload p b)) 64 (64 + length p) = Ret p /\
  forall lo hi, (hi <= 64)%nat -> slice (b_data (with_payload p b)) lo hi = slice (b_data b) lo hi.
Proof.
  intros Hb Hn. unfold wf, Blob_wf, with_payload in *. cbn [b_data set_data]. split_and!.
  - rewrite length_put by lia. done.
  - eapply slice_middle; [done|rewrite length_take; lia..].
  - intros lo hi Hh. eapply slice_take_eq; [rewrite length_put by lia; done|exact Hh|].
    rewrite take_app_length' by (rewrite length_take; lia). done.
Qed.

(** *** The passes over a block *)

Definition padded_slot (size : nat) (s : WindowSlot) : WindowSlot := slot_set_data (pad size <$> ws_data s) s.
Definition coded_slot (p : bytes) (s : WindowSlot) : WindowSlot := slot_set_coding (with_payload p <$> ws_coding s) s.

Definition has_data (s : WindowSlot) (b : Blob) : Prop := ws_data s = Some b /\ wf b.
Definition has_coding (s : WindowSlot) (c : Blob) : Prop := ws_coding s = Some c /\ wf c.

Lemma pad_slots size pre l post : length l = NUM_DATA ->
  (forall k s, l !! k = Some s -> exists b, has_data s b /\ (Z.to_nat (m_size (b_meta b)) <= size <= BLOB_SIZE)%nat) ->
  each_slot (zero_tail size) (pre ++ l ++ post) tt (seq (length pre) NUM_DATA) =
    Ret (tt, pre ++ imap (fun _ => padded_slot size) l ++ post).
Proof.
  intros Hl Hs. apply (each_slot_imap _ (fun _ => tt)); [done..|]. intros k s Hk.
  destruct (Hs k s Hk) as (b & [Hd Hb] & Hf). rewrite (zero_tail_pad size _ tt s b Hb Hf Hd).
  unfold padded_slot. by rewrite Hd.
Qed.

Lemma read_data size (g : nat -> bytes) pre l post : length l = NUM_DATA -> (size <= BLOB_SIZE)%nat ->
  (forall k s, l !! k = Some s -> exists b, has_data s b /\ take size (b_data b) = g k) ->
  blocks (data_block size) (pre ++ l ++ post) (seq (length pre) NUM_DATA) = Ret (g <$> seq 0 NUM_DATA).
Proof.
  intros Hl Hsz Hs. apply blocks_rule; [done..|]. intros k s Hk. destruct (Hs k s Hk) as (b & [Hd Hb] & <-).
  unfold data_block. rewrite Hd. cbn [unwrap]. rewrite bind_Ret. unfold wf, Blob_wf in Hb.
  by rewrite slice_Ret, Nat.sub_0_r, drop_0 by lia.
Qed.

Lemma read_coding size (g : nat -> bytes) pre l post : length l = NUM_DATA -> (64 + size <= BLOB_SIZE)%nat ->
  (forall k s, l !! (NUM_DATA - NUM_CODING + k)%nat = Some s -> (k < NUM_CODING)%nat ->
    exists c, has_coding s c /\ slice (b_data c) 64 (64 + size) = Ret (g k)) ->
  blocks (coding_block size) (pre ++ l ++ post) (seq (length pre + NUM_DATA - NUM_CODING) NUM_CODING) =
    Ret (g <$> seq 0 NUM_CODING).
Proof.
  intros Hl Hsz Hs. apply blocks_coding_rule; [done|]. intros k s Hk Hlt. destruct (Hs k s Hk Hlt) as (c & [Hc Wc] & Hg).
  unfold coding_block. rewrite Hc. cbn [unwrap]. rewrite bind_Ret, blob_data_field by done.
  unfold field_of, wf, Blob_wf in *. cbn [field_lo field_hi].
  rewrite slice_Ret in Hg |- * by lia. rewrite bind_Ret. rewrite slice_Ret by (rewrite length_take, length_drop; lia).
  rewrite <- Hg. f_equal. rewrite drop_0, Nat.sub_0_r, take_take. f_equal. lia.
Qed.

Lemma store_code (code : list bytes) size pre l post : length l = NUM_DATA -> length code = NUM_CODING ->
  Forall (fun p => length p = size) code -> (64 + size <= BLOB_SIZE)%nat ->
  (forall k s, l !! (NUM_DATA - NUM_CODING + k)%nat = Some s -> (k < NUM_CODING)%nat -> exists c, has_coding s c) ->
  exists rest, each_slot store_coding (pre ++ l ++ post) code (seq (length pre + NUM_DATA - NUM_CODING) NUM_CODING) =
    Ret (rest, pre ++ imap (fun k s => if decide (k < NUM_DATA - NUM_CODING)%nat then s
                              else coded_slot (nth (k - (NUM_DATA - NUM_CODING)) code []) s) l ++ post).
Proof.
  intros Hl Hn Hf Hsz Hs. exists (drop NUM_CODING code).
  apply (each_coding_imap store_coding (fun k => drop k code) (fun k => coded_slot (nth k code [])) pre l post Hl).
  intros k s Hk Hlt. destruct (Hs k s Hk Hlt) as (c & Hc & Wc). destruct (lookup_lt_is_Some_2 code k) as [p Hp]; [lia|].
  rewrite Forall_lookup in Hf. specialize (Hf k p Hp). unfold store_coding, coded_slot.
  rewrite (drop_S _ _ _ Hp), Hc, (nth_lookup_Some _ _ _ _ Hp). cbn [unwrap fmap option_fmap option_map]. rewrite bind_Ret.
  by rewrite put_payload_Ret by (done || lia).
Qed.

(** ** The leader's block *)

(** What the code relies on in jerasure, for blocks of a size it accepts:
    encoding fills [NUM_CODING] blocks of that size, and decoding puts back the
    blocks of a set of erasures that it [decodes], from the others.  For the
    Cauchy matrix of [get_matrix] these are the sets of at most [NUM_CODING]. *)
Definition encoded `{Jerasure} (size : nat) (data : list bytes) : list bytes :=
  jerasure_matrix_encode (Z.of_nat NUM_DATA) (Z.of_nat NUM_CODING) ERASURE_W
    (get_matrix NUM_CODING NUM_DATA ERASURE_W) data (Z.of_nat size).

Definition sized (n size : nat) (bs : list bytes) : Prop := length bs = n /\ Forall (fun b => length b = size) bs.

Lemma sized_all n size bs : sized n size bs -> forallb (fun b => length b =? size)%nat bs = true.
Proof.
  intros [_ Hs]. apply forallb_forall. intros b Hb. apply Nat.eqb_eq. rewrite Forall_forall in Hs.
  apply Hs. by apply list_elem_of_In.
Qed.

Class JerasureOk `{Jerasure} := {
  decodes : list nat -> Prop;
  encode_sized : forall size data, Z.of_nat size mod 4 = 0 -> sized NUM_DATA size data ->
    sized NUM_CODING size (encoded size data);
  decode_restores : forall size data data' coding' erased, Z.of_nat size mod 4 = 0 ->
    sized NUM_DATA size data -> sized NUM_DATA size data' -> sized NUM_CODING size coding' ->
    (forall k, k ∉ erased -> (data' ++ coding') !! k = (data ++ encoded size data) !! k) -> decodes erased ->
    jerasure_matrix_decode (Z.of_nat NUM_DATA) (Z.of_nat NUM_CODING) ERASURE_W
      (get_matrix NUM_CODING NUM_DATA ERASURE_W) 0 ((Z.of_nat <$> erased) ++ [-1]) data' coding' (Z.of_nat size) =
    (0, data, encoded size data) }.

(** A data blob as the leader makes it: its header holds its index, its
    sender's id and its size. *)
Definition data_ok `{ByteOrder} `{Bincode Pubkey} (idx : Z) (b : Blob) : Prop :=
  wf b /\ get_index b = Ret idx /\ (exists id, wf id /\ get_id b = Ret (Ok id)) /\
  field_of FSize b = Ret (write_u64 (m_size (b_meta b))) /\ 64 <= m_size (b_meta b) <= BLOB_DATA_SIZE + 64.

(** The size of the blocks of [D 0 .. D 15]. *)
Fixpoint widest_of (D : nat -> Blob) (k : nat) : Z :=
  match k with O => 0 | S k' => Z.max (m_size (b_meta (D k'))) (widest_of D k') end.
Definition block_size (D : nat -> Blob) : nat := Z.to_nat (align (widest_of D NUM_DATA) JERASURE_ALIGN).
Definition data_blocks (D : nat -> Blob) : list bytes := (fun k => padded (block_size D) (D k)) <$> seq 0 NUM_DATA.
Definition code (D : nat -> Blob) `{Jerasure} : list bytes := encoded (block_size D) (data_blocks D).

(** The coding blob in slot [k] of the block at [ix]. *)
Definition coding_ok `{ByteOrder} `{Jerasure} (D : nat -> Blob) (ix : Z) (k : nat) (c : Blob) : Prop :=
  wf c /\ m_size (b_meta c) = Z.of_nat (block_size D) + 64 /\ get_index c = Ret (ix + Z.of_nat k) /\
  slice (b_data c) 64 (64 + block_size D) = Ret (nth (k - (NUM_DATA - NUM_CODING)) (code D) []).

Section LeaderBlock.
Context `{Profile} `{ByteOrder} `{!ByteOrderOk} `{Bincode Pubkey} `{!PubkeyWire} `{Jerasure} `{!JerasureOk}.
Context (D : nat -> Blob) (ix : Z).
Context (HD : forall k, (k < NUM_DATA)%nat -> data_ok (ix + Z.of_nat k) (D k)).

Lemma widest_bounds n : (n <= NUM_DATA)%nat -> 0 <= widest_of D n <= 65344 /\
  forall k, (k < n)%nat -> m_size (b_meta (D k)) <= widest_of D n.
Proof.
  induction n as [|n IH]; intros Hn; cbn [widest_of]; [split; [lia|intros; lia]|].
  destruct (IH ltac:(lia)) as [Hb Hk]. destruct (HD n ltac:(lia)) as (_ & _ & _ & _ & Hm).
  rewrite BLOB_DATA_SIZE_eq in Hm. split; [lia|]. intros k Hlt.
  destruct (decide (k = n)) as [->|]; [lia|]. specialize (Hk k ltac:(lia)). lia.
Qed.

Lemma block_size_bounds : Z.of_nat (block_size D) = align (widest_of D NUM_DATA) JERASURE_ALIGN /\
  Z.of_nat (block_size D) mod 4 = 0 /\ 64 <= Z.of_nat (block_size D) <= 65344 /\
  forall k, (k < NUM_DATA)%nat -> (64 <= Z.to_nat (m_size (b_meta (D k))) <= block_size D)%nat.
Proof.
  destruct (widest_bounds NUM_DATA ltac:(lia)) as [Hb Hk]. destruct (align_4 (widest_of D NUM_DATA)) as [Ha Hm]; [lia|].
  assert (Ez : Z.of_nat (block_size D) = align (widest_of D NUM_DATA) JERASURE_ALIGN) by (unfold block_size; lia).
  assert (Hall : forall k, (k < NUM_DATA)%nat -> (64 <= Z.to_nat (m_size (b_meta (D k))) <= block_size D)%nat).
  { intros k Hlt. destruct (HD k Hlt) as (_ & _ & _ & _ & Hs). specialize (Hk k Hlt). lia. }
  split_and!; [done|congruence| | |done].
  - pose proof (Hall O ltac:(unfold NUM_DATA; lia)). lia.
  - pose proof (Z.div_mod (align (widest_of D NUM_DATA) JERASURE_ALIGN) 4 ltac:(lia)). lia.
Qed.

Lemma fits k : (k < NUM_DATA)%nat -> (Z.to_nat (m_size (b_meta (D k))) <= block_size D <= BLOB_SIZE)%nat.
Proof.
  intros Hk. destruct block_size_bounds as (_ & _ & Hb & Hall). specialize (Hall k Hk). pose proof BLOB_SIZE_Z. lia.
Qed.

Lemma payload_fits : (64 + block_size D <= BLOB_SIZE)%nat.
Proof. destruct block_size_bounds as (_ & _ & Hb & _). pose proof BLOB_SIZE_Z. lia. Qed.

Lemma data_blocks_sized : sized NUM_DATA (block_size D) (data_blocks D).
Proof.
  split; [done|]. apply Forall_fmap, Forall_seq. intros k Hk. apply length_padded; [by destruct (HD k ltac:(lia))|].
  apply fits. lia.
Qed.

Lemma code_sized : sized NUM_CODING (block_size D) (code D).
Proof. apply encode_sized; [by apply block_size_bounds|apply data_blocks_sized]. Qed.

(** A new coding blob takes index and id from the data blob of its slot. *)
Lemma new_coding_spec i s b idx : ws_data s = Some b -> ws_coding s = None -> wf b -> get_index b = Ret idx ->
  (exists id, wf id /\ get_id b = Ret (Ok id)) -> in_u64 idx = true ->
  exists c, new_coding (Z.of_nat (block_size D)) i tt s = Ret (tt, slot_set_coding (Some c) s) /\
    wf c /\ m_size (b_meta c) = Z.of_nat (block_size D) + 64 /\ get_index c = Ret idx.
Proof.
  intros Hd Hc Hb Hix (id & Hid & Eid) Hu. destruct block_size_bounds as (_ & _ & Hs & _). pose proof payload_fits.
  unfold new_coding. rewrite Hc, Hd. cbn [rassert]. rewrite bind_Ret. unfold zero_range.
  assert (Hdef : wf Blob_default) by apply length_replicate.
  assert (exists d, (if (Z.to_nat (Z.of_nat (block_size D)) <=? 0)%nat then Ret (b_data Blob_default)
    else if (Z.to_nat (Z.of_nat (block_size D)) <=? length (b_data Blob_default))%nat
    then Ret (take 0 (b_data Blob_default) ++ replicate (Z.to_nat (Z.of_nat (block_size D)) - 0) Byte.x00 ++
      drop (Z.to_nat (Z.of_nat (block_size D))) (b_data Blob_default)) else Panic) = Ret d /\ length d = BLOB_SIZE)
    as (d & -> & Hl).
  { unfold wf, Blob_wf in Hdef. rewrite Hdef, Nat2Z.id, (proj2 (Nat.leb_gt _ _)), (proj2 (Nat.leb_le _ _)) by lia.
    eexists. split; [done|]. rewrite !length_app, length_replicate, length_drop, Hdef. simpl. lia. }
  rewrite !bind_Ret, Hix, bind_Ret, Eid, bind_Ret. cbn [unwrap_result]. rewrite bind_Ret.
  destruct (set_index_spec (set_data d Blob_default) idx Hl) as (c1 & -> & W1 & M1 & F1). rewrite bind_Ret.
  destruct (set_id_spec c1 id W1 Hid) as (c2 & -> & W2 & M2 & F2). rewrite bind_Ret.
  destruct (set_size_spec c2 (Z.of_nat (block_size D)) W2) as (c3 & -> & W3 & M3 & F3); [apply in_u64_iff; unfold u64_max; lia|].
  rewrite bind_Ret. unfold set_coding, get_flags. pose proof (field_bounds FFlags c3 W3) as Hf.
  rewrite slice_Ret by exact Hf. rewrite !bind_Ret.
  edestruct (set_flags_spec c3) as (c4 & -> & W4 & M4 & F4); [done|]. rewrite bind_Ret.
  exists c4. split_and!; [done|done|by rewrite M4, M3|].
  unfold get_index. change (slice (b_data c4) 0 BLOB_INDEX_END) with (field_of FIndex c4).
  rewrite F4, F3, F2, F1. simpl. by rewrite read_write_u64.
Qed.
Lemma data_blocks_head : exists b bs, data_blocks D = b :: bs /\ length b = block_size D.
Proof.
  destruct data_blocks_sized as [_ Hs]. unfold data_blocks in *. cbn [seq NUM_DATA fmap list_fmap] in *.
  eexists _, _. split; [done|]. by inversion Hs.
Qed.

Lemma code_lookup k : (k < NUM_CODING)%nat -> code D !! k = Some (nth k (code D) []).
Proof.
  intros Hk. destruct code_sized as [Hl _]. destruct (lookup_lt_is_Some_2 (code D) k) as [p Hp]; [lia|].
  by rewrite Hp, (nth_lookup_Some _ _ _ _ Hp).
Qed.

Lemma code_length k : (k < NUM_CODING)%nat -> length (nth k (code D) []) = block_size D.
Proof.
  intros Hk. destruct code_sized as [_ Hf]. rewrite Forall_lookup in Hf. eapply Hf. by apply code_lookup.
Qed.

Lemma generate_code coding : sized NUM_CODING (block_size D) coding ->
  generate_coding_blocks coding (data_blocks D) = Ret (Ok (code D)).
Proof.
  intros Hs. unfold generate_coding_blocks. destruct data_blocks_head as (b & bs & Eb & Lb).
  pose proof (sized_all _ _ _ Hs) as E1. pose proof (sized_all _ _ _ data_blocks_sized) as E2.
  pose proof (proj1 data_blocks_sized) as E3. rewrite Eb in *. rewrite Lb, E1, E2, E3. unfold code, encoded.
  by rewrite (proj1 Hs), Eb.
Qed.

(** The pass that makes the coding blobs. *)
Lemma new_slots pre l post : length l = NUM_DATA -> 0 <= ix -> ix + 20 <= u64_max ->
  (forall k s, l !! k = Some s -> ws_data s = Some (D k) /\ ws_coding s = None) ->
  exists l', each_slot (new_coding (Z.of_nat (block_size D))) (pre ++ imap (fun _ => padded_slot (block_size D)) l ++ post)
      tt (seq (length pre + NUM_DATA - NUM_CODING) NUM_CODING) = Ret (tt, pre ++ l' ++ post) /\ length l' = NUM_DATA /\
    forall k s, l' !! k = Some s -> ws_data s = Some (pad (block_size D) (D k)) /\
      ((NUM_DATA - NUM_CODING <= k)%nat -> exists c, has_coding s c /\ m_size (b_meta c) = Z.of_nat (block_size D) + 64 /\
        get_index c = Ret (ix + Z.of_nat k)).
Proof.
  intros Hl Hix0 Hix Hw. set (l1 := imap (fun _ => padded_slot (block_size D)) l).
  assert (Hl1 : forall k s, l1 !! k = Some s -> ws_data s = Some (pad (block_size D) (D k)) /\ ws_coding s = None).
  { intros k s Hk. unfold l1 in Hk. rewrite list_lookup_imap in Hk.
    destruct (l !! k) as [s0|] eqn:E0; [|done]. destruct (Hw k s0 E0) as [Hd Hc]. simplify_eq/=.
    unfold padded_slot. by rewrite Hd. }
  destruct (each_coding_rule (new_coding (Z.of_nat (block_size D))) (fun _ => tt)
    (fun k s => ws_data s = Some (pad (block_size D) (D (NUM_DATA - NUM_CODING + k)%nat)) /\
      exists c, has_coding s c /\ m_size (b_meta c) = Z.of_nat (block_size D) + 64 /\
        get_index c = Ret (ix + Z.of_nat (NUM_DATA - NUM_CODING + k)))
    pre l1 post) as (l2 & -> & Hl2 & P2); [by unfold l1; rewrite length_imap| |].
  - intros k s Hk Hlt. destruct (Hl1 _ s Hk) as [Hd Hc]. assert (Hk16 : (NUM_DATA - NUM_CODING + k < NUM_DATA)%nat).
    { unfold NUM_DATA, NUM_CODING in *. lia. }
    destruct (HD _ Hk16) as (Wk & Ek & (id & Wid & Eid) & _ & Hmk).
    assert (Hpad : copies (D (NUM_DATA - NUM_CODING + k)) (pad (block_size D) (D (NUM_DATA - NUM_CODING + k)))).
    { apply pad_copies; [done|by apply fits]. }
    edestruct (new_coding_spec (length pre + NUM_DATA - NUM_CODING + k) s _ (ix + Z.of_nat (NUM_DATA - NUM_CODING + k)) Hd Hc)
      as (c & E & Wc & Mc & Ic).
    + by destruct Hpad.
    + rewrite (copies_index _ _ Wk Hpad); [done|lia].
    + exists id. split; [done|]. unfold get_id in *. rewrite (copies_slice _ _ _ _ Wk Hpad); [done|lia|].
      unfold BLOB_ID_END, BLOB_INDEX_END. lia.
    + apply in_u64_iff. unfold NUM_DATA, NUM_CODING in *. lia.
    + exists (slot_set_coding (Some c) s). split; [exact E|]. split; [done|]. by exists c.
  - exists l2. split_and!; [done..|]. intros k s Hk. specialize (P2 k s Hk). case_decide as Hd.
    + destruct (Hl1 k s P2). split; [done|lia].
    + replace (NUM_DATA - NUM_CODING + (k - (NUM_DATA - NUM_CODING)))%nat with k in P2 by lia. by destruct P2.
Qed.

(** Coding a full block keeps its data and adds the coding blobs. *)
Lemma code_block_spec pre l post : length l = NUM_DATA -> 0 <= ix -> ix + 20 <= u64_max ->
  (forall k s, l !! k = Some s -> ws_data s = Some (D k) /\ ws_coding s = None) ->
  exists l', code_block (pre ++ l ++ post) (length pre) = Ret (Some (Ok tt, pre ++ l' ++ post)) /\
    length l' = NUM_DATA /\ forall k s, l' !! k = Some s -> ws_data s = Some (pad (block_size D) (D k)) /\
      ((NUM_DATA - NUM_CODING <= k)%nat -> exists c, ws_coding s = Some c /\ coding_ok D ix k c).
Proof.
  intros Hl Hix0 Hix Hw. destruct block_size_bounds as (Hz & Hm4 & Hsb & _). pose proof payload_fits as HB.
  destruct code_sized as [Hcl Hcf]. unfold code_block. change (Some 0) with (Some (widest_of D O)).
  rewrite (each_slot_imap widest (fun k => Some (widest_of D k)) (fun _ s => s) pre l post NUM_DATA (length pre)); [|done..|].
  2: { intros k s Hk. destruct (Hw k s Hk) as [Hd _]. unfold widest. by rewrite Hd. }
  rewrite bind_Ret, <- Hz, Nat2Z.id, (pad_slots (block_size D) pre l post Hl).
  2: { intros k s Hk. destruct (Hw k s Hk) as [Hd Hc]. apply lookup_lt_Some in Hk as Hlt. rewrite Hl in Hlt.
    destruct (HD k Hlt) as (Wk & _). exists (D k). split; [done|by apply fits]. }
  rewrite bind_Ret. destruct (new_slots pre l post Hl Hix0 Hix Hw) as (l2 & -> & Hl2 & P2). rewrite bind_Ret.
  rewrite (read_data (block_size D) (fun k => padded (block_size D) (D k)) pre l2 post Hl2); [|lia|].
  2: { intros k s Hk. destruct (P2 k s Hk) as [Hd _]. apply lookup_lt_Some in Hk. rewrite Hl2 in Hk.
    destruct (HD k Hk) as (Wk & _). pose proof (fits k Hk) as Hf. exists (pad (block_size D) (D k)).
    split; [split; [done|by apply pad_wf]|by apply take_pad]. }
  rewrite bind_Ret. fold (data_blocks D).
  set (g := fun k => match l2 !! (NUM_DATA - NUM_CODING + k)%nat ≫= ws_coding with
    | Some c => take (block_size D) (drop 64 (b_data c)) | None => [] end).
  assert (Hg : forall k s, l2 !! (NUM_DATA - NUM_CODING + k)%nat = Some s -> (k < NUM_CODING)%nat ->
    exists c, has_coding s c /\ slice (b_data c) 64 (64 + block_size D) = Ret (g k) /\ length (g k) = block_size D).
  { intros k s Hk Hlt. destruct (P2 _ s Hk) as [_ P2c]. destruct P2c as (c & Hc & _); [lia|]. exists c. split; [done|].
    unfold g. rewrite Hk. cbn [mbind option_bind]. destruct Hc as [-> Wc]. unfold wf, Blob_wf in Wc.
    rewrite slice_Ret, Nat.add_sub_swap, Nat.sub_diag, length_take, length_drop by lia. split; [done|]. lia. }
  rewrite (read_coding (block_size D) g pre l2 post Hl2); [|lia|].
  2: { intros k s Hk Hlt. destruct (Hg k s Hk Hlt) as (c & Hc & Hs & _). by exists c. }
  rewrite bind_Ret.
  assert (Hgs : sized NUM_CODING (block_size D) (g <$> seq 0 NUM_CODING)).
  { split; [done|]. apply Forall_fmap, Forall_seq. intros k Hk.
    destruct (lookup_lt_is_Some_2 l2 (NUM_DATA - NUM_CODING + k)%nat) as [s Hs]; [rewrite Hl2; unfold NUM_DATA, NUM_CODING in *; lia|].
    destruct (Hg k s Hs) as (c & _ & _ & Hlen); [lia|done]. }
  rewrite (generate_code _ Hgs), bind_Ret.
  destruct (store_code (code D) (block_size D) pre l2 post Hl2 Hcl Hcf) as (rest & ->); [lia| |].
  { intros k s Hk Hlt. destruct (Hg k s Hk Hlt) as (c & Hc & _). by exists c. }
  rewrite bind_Ret. eexists. split; [done|]. split; [by rewrite length_imap|]. intros k s Hk. rewrite list_lookup_imap in Hk.
  destruct (l2 !! k) as [s2|] eqn:E2; [|done]. apply lookup_lt_Some in E2 as Hlt. destruct (P2 k s2 E2) as [Hd Hc].
  cbn [fmap option_fmap option_map] in Hk. injection Hk as <-. case_decide as Hdk; [split; [done|unfold NUM_DATA, NUM_CODING; lia]|]. split; [done|]. intros _.
  destruct Hc as (c & [Hc Wc] & Mc & Ic); [unfold NUM_DATA, NUM_CODING; lia|]. unfold coded_slot. rewrite Hc. eexists. split; [done|].
  assert (Hk4 : (k - (NUM_DATA - NUM_CODING) < NUM_CODING)%nat) by (unfold NUM_DATA, NUM_CODING in *; lia).
  pose proof (code_length _ Hk4) as Hlen.
  destruct (with_payload_spec (nth (k - (NUM_DATA - NUM_CODING)) (code D) []) c Wc) as (W & S64 & Sl); [lia|].
  rewrite Hlen in S64. split_and!; [done|done| |done]. unfold get_index in *. by rewrite Sl by (unfold BLOB_INDEX_END; lia).
Qed.
End LeaderBlock.

(** ** The receiver's block *)

(** What is missing is not there, or is there from another time. *)
Definition stale `{ByteOrder} (idx : Z) (o : option Blob) : Prop :=
  forall b, o = Some b -> exists i, get_index b = Ret i /\ i <> idx.

(** The erasures among [n] blobs from the [i]-th on. *)
Definition erased (lost : nat -> bool) (i n : nat) : list nat := filter (fun k => lost k = true) (seq i n).

Lemma erased_S lost i n : erased lost i (S n) = erased lost i n ++ (if lost (i + n)%nat then [(i + n)%nat] else []).
Proof.
  unfold erased. rewrite seq_S, filter_app. f_equal. rewrite filter_cons. by destruct (lost (i + n)%nat).
Qed.

Lemma elem_of_erased lost i n k : k ∈ erased lost i n <-> (i <= k < i + n)%nat /\ lost k = true.
Proof. unfold erased. rewrite list_elem_of_filter, elem_of_seq. naive_solver. Qed.

Lemma erased_full lost i n : (length (erased lost i n) < n)%nat -> exists k, (i <= k < i + n)%nat /\ lost k = false.
Proof.
  induction n as [|n IH]; [lia|]. rewrite erased_S, length_app. intros Hl.
  destruct (lost (i + n)%nat) eqn:E; [|exists (i + n)%nat; split; [lia|done]].
  destruct IH as (k & Hk & Hf); [simpl in Hl; lia|]. exists k. split; [lia|done].
Qed.

Lemma plus_one_if {A} (b : bool) (n : nat) (x : A) : (if b then S n else n) = (n + length (if b then [x] else []))%nat.
Proof. destruct b; cbn [length]; lia. Qed.

Section Receiver.
Context `{Profile} `{ByteOrder} `{!ByteOrderOk} `{Bincode Pubkey} `{!PubkeyWire} `{Jerasure} `{!JerasureOk}.
Context (D : nat -> Blob) (ix : Z) (lost : nat -> bool).
Context (HD : forall k, (k < NUM_DATA)%nat -> data_ok (ix + Z.of_nat k) (D k)).
Context (Hix0 : 0 <= ix) (Hix : ix + 20 <= u64_max).

(** A block of which the blobs that are [lost] (data blobs 0 to 15, coding
    blobs 16 to 19) did not arrive. *)
Definition arrived (k : nat) (s : WindowSlot) : Prop :=
  (if lost k then stale (ix + Z.of_nat k) (ws_data s) else exists b, ws_data s = Some b /\ copies (D k) b) /\
  ((NUM_DATA - NUM_CODING <= k)%nat ->
    if lost (k + NUM_CODING)%nat then stale (ix + Z.of_nat k) (ws_coding s)
    else exists c, ws_coding s = Some c /\ coding_ok D ix k c).

Lemma is_missing_stale idx o : stale idx o -> is_missing idx o = Ret (true, None).
Proof.
  intros Hs. destruct o as [b|]; [|done]. destruct (Hs b eq_refl) as (i & E & Hne). unfold is_missing.
  rewrite E, bind_Ret. by rewrite (proj2 (Z.eqb_neq _ _)).
Qed.

Lemma is_missing_there idx b : get_index b = Ret idx -> is_missing idx (Some b) = Ret (false, Some b).
Proof. intros E. unfold is_missing. by rewrite E, bind_Ret, Z.eqb_refl. Qed.

(** The passes over the block, with what holds in slot [k] after each. *)
Definition cleared (k : nat) (s : WindowSlot) : Prop :=
  (if lost k then ws_data s = None else exists b, ws_data s = Some b /\ copies (D k) b) /\
  ((NUM_DATA - NUM_CODING <= k)%nat ->
    if lost (k + NUM_CODING)%nat then ws_coding s = None else exists c, ws_coding s = Some c /\ coding_ok D ix k c).

Definition missing_before (k : nat) : nat * nat :=
  (length (erased lost 0 k), length (erased lost NUM_DATA (k - (NUM_DATA - NUM_CODING)))).

Lemma find_missing_spec pre v post : length v = NUM_DATA -> (forall k s, v !! k = Some s -> arrived k s) ->
  exists v1, find_missing ix (length pre) (pre ++ v ++ post) = Ret (missing_before NUM_DATA, pre ++ v1 ++ post) /\
    length v1 = NUM_DATA /\ forall k s, v1 !! k = Some s -> cleared k s.
Proof.
  intros Hv Ha. unfold find_missing. change (O, O) with (missing_before O).
  destruct (each_slot_rule (missing_slot ix (length pre)) missing_before cleared pre v post NUM_DATA (length pre))
    as (v1 & E & Hl & HP); [done..| |exists v1; rewrite Hl; done].
  intros k s Hk. apply lookup_lt_Some in Hk as Hlt. rewrite Hv in Hlt. destruct (Ha k s Hk) as [Hd Hc].
  destruct (HD k Hlt) as (Wk & Ek & _ & _ & Hmk).
  unfold missing_slot, missing_before. replace (length pre + k - length pre)%nat with k by lia.
  rewrite u64_add_exact by (apply in_u64_iff; unfold NUM_DATA in *; lia). rewrite bind_Ret, (Z.add_comm _ ix).
  assert (is_missing (ix + Z.of_nat k) (ws_data s) = Ret (lost k, if lost k then None else ws_data s)) as ->.
  { destruct (lost k); [by apply is_missing_stale|]. destruct Hd as (b & -> & Hb). apply is_missing_there.
    rewrite (copies_index _ _ Wk Hb); [done|lia]. }
  rewrite bind_Ret, erased_S, Nat.add_0_l, length_app.
  destruct (length pre + NUM_DATA - NUM_CODING <=? length pre + k)%nat eqn:Ecod.
  - apply Nat.leb_le in Ecod. assert (Hck : (NUM_DATA - NUM_CODING <= k)%nat) by (unfold NUM_DATA, NUM_CODING in *; lia).
    specialize (Hc Hck).
    assert (is_missing (ix + Z.of_nat k) (ws_coding s) =
      Ret (lost (k + NUM_CODING)%nat, if lost (k + NUM_CODING)%nat then None else ws_coding s)) as ->.
    { destruct (lost (k + NUM_CODING)%nat); [by apply is_missing_stale|]. destruct Hc as (c & -> & Hc).
      by apply is_missing_there, Hc. }
    rewrite bind_Ret. replace (S k - (NUM_DATA - NUM_CODING))%nat with (S (k - (NUM_DATA - NUM_CODING))) by lia.
    rewrite erased_S, length_app. replace (NUM_DATA + (k - (NUM_DATA - NUM_CODING)))%nat with (k + NUM_CODING)%nat
      by (unfold NUM_DATA, NUM_CODING in *; lia).
    eexists. split; [repeat f_equal; apply plus_one_if|].
    split; [by destruct (lost k)|intros _; by destruct (lost (k + NUM_CODING)%nat)].
  - apply Nat.leb_gt in Ecod. replace (S k - (NUM_DATA - NUM_CODING))%nat with (k - (NUM_DATA - NUM_CODING))%nat
      by (unfold NUM_DATA, NUM_CODING in *; lia).
    eexists. split; [repeat f_equal; apply plus_one_if|].
    split; [by destruct (lost k)|unfold NUM_DATA, NUM_CODING in *; lia].
Qed.

Definition filled (k : nat) (s : WindowSlot) : Prop :=
  (exists b, has_data s b /\ if lost k then b = Blob_default else copies (D k) b) /\
  ((NUM_DATA - NUM_CODING <= k)%nat -> exists c, has_coding s c /\
    if lost (k + NUM_CODING)%nat then c = Blob_default else coding_ok D ix k c).

Definition first_meta (l : list WindowSlot) : option Meta := head (omap (fun s => b_meta <$> ws_data s) l).

Lemma first_meta_snoc l s : first_meta (l ++ [s]) =
  match first_meta l with Some m => Some m | None => b_meta <$> ws_data s end.
Proof.
  unfold first_meta. rewrite omap_app. destruct (omap _ l); [|done]. cbn. by destruct (ws_data s).
Qed.

(** The size of a block is known from the first coding blob that is there. *)
Definition size_before (k : nat) : option Z :=
  if bool_decide (length (erased lost NUM_DATA k) = k) then None else Some (Z.of_nat (block_size D)).

Lemma erased_length i n : (length (erased lost i n) <= n)%nat.
Proof. unfold erased. rewrite <- (length_seq n i) at 2. apply length_filter. Qed.

Lemma size_before_S k : size_before (S k) = match size_before k with
  | Some z => Some z | None => if lost (NUM_DATA + k)%nat then None else Some (Z.of_nat (block_size D)) end.
Proof.
  unfold size_before. rewrite erased_S, length_app. pose proof (erased_length NUM_DATA k).
  destruct (lost (NUM_DATA + k)%nat); cbn [length]; repeat case_bool_decide; done || lia.
Qed.

Lemma gather_data_spec pre v post : length v = NUM_DATA -> (forall k s, v !! k = Some s -> cleared k s) ->
  exists v', each_slot (gather_data (length pre)) (pre ++ v ++ post) ([], None) (seq (length pre) NUM_DATA) =
    Ret (Z.of_nat <$> erased lost 0 NUM_DATA, first_meta v, pre ++ v' ++ post) /\ length v' = NUM_DATA /\
    forall k s, v' !! k = Some s -> (exists b, has_data s b /\ if lost k then b = Blob_default else copies (D k) b) /\
      exists s0, v !! k = Some s0 /\ ws_coding s = ws_coding s0.
Proof.
  intros Hv Hc.
  destruct (each_slot_rule (gather_data (length pre)) (fun k => (Z.of_nat <$> erased lost 0 k, first_meta (take k v)))
    (fun k s => (exists b, has_data s b /\ if lost k then b = Blob_default else copies (D k) b) /\
      exists s0, v !! k = Some s0 /\ ws_coding s = ws_coding s0)
    pre v post NUM_DATA (length pre)) as (v' & E & Hl & HP); [done..| |].
  - intros k s Hk. destruct (Hc k s Hk) as [Hd _]. unfold gather_data.
    rewrite erased_S, (take_S_r _ _ _ Hk), first_meta_snoc, fmap_app, Nat.add_0_l. destruct (lost k).
    + rewrite Hd. replace (length pre + k - length pre)%nat with k by lia. eexists. split.
      * cbn [fmap list_fmap option_fmap option_map]. by destruct (first_meta (take k v)).
      * split; [|by exists s]. exists Blob_default. split; [|done]. split; [done|apply length_replicate].
    + destruct Hd as (b & Hd & Hb). rewrite Hd, app_nil_r. exists s. split.
      * cbn [fmap option_fmap option_map]. by destruct (first_meta (take k v)).
      * split; [|by exists s]. exists b. split; [|done]. split; [done|by destruct Hb].
  - rewrite (take_ge v NUM_DATA) in E by lia. exists v'. by rewrite Hl.
Qed.

Lemma gather_coding_spec pre v v1 post : length v1 = NUM_DATA -> length v = NUM_DATA ->
  (forall k s, v !! k = Some s -> cleared k s) ->
  (forall k s, v1 !! k = Some s -> (exists b, has_data s b /\ if lost k then b = Blob_default else copies (D k) b) /\
      exists s0, v !! k = Some s0 /\ ws_coding s = ws_coding s0) ->
  exists v', each_slot (gather_coding (length pre + NUM_DATA - NUM_CODING)) (pre ++ v1 ++ post)
      (Z.of_nat <$> erased lost 0 NUM_DATA, None) (seq (length pre + NUM_DATA - NUM_CODING) NUM_CODING) =
    Ret ((Z.of_nat <$> erased lost 0 NUM_DATA) ++ (Z.of_nat <$> erased lost NUM_DATA NUM_CODING), size_before NUM_CODING,
      pre ++ v' ++ post) /\ length v' = NUM_DATA /\ forall k s, v' !! k = Some s -> filled k s.
Proof.
  intros Hv1 Hv Hc H1c. destruct (block_size_bounds D ix HD) as (_ & _ & Hsb & _).
  assert (Hcod : forall k s, v1 !! k = Some s -> (NUM_DATA - NUM_CODING <= k)%nat ->
    if lost (k + NUM_CODING)%nat then ws_coding s = None else exists c, ws_coding s = Some c /\ coding_ok D ix k c).
  { intros k s Hk Hlt. destruct (H1c k s Hk) as (_ & s0 & H0' & ->). by apply (Hc k s0). }
  destruct (each_coding_rule (gather_coding (length pre + NUM_DATA - NUM_CODING))
    (fun k => ((Z.of_nat <$> erased lost 0 NUM_DATA) ++ (Z.of_nat <$> erased lost NUM_DATA k), size_before k))
    (fun k s => filled (NUM_DATA - NUM_CODING + k) s) pre v1 post Hv1) as (v' & E & Hl & HP).
  - intros k s Hk Hlt. destruct (H1c _ s Hk) as [Hd _]. specialize (Hcod _ s Hk ltac:(lia)). unfold gather_coding.
    rewrite size_before_S, erased_S, fmap_app, app_assoc.
    replace (NUM_DATA - NUM_CODING + k + NUM_CODING)%nat with (NUM_DATA + k)%nat in Hcod by (unfold NUM_DATA, NUM_CODING; lia).
    assert (Hf : forall s' c, has_coding s' c -> ws_data s' = ws_data s ->
      (if lost (NUM_DATA + k)%nat then c = Blob_default else coding_ok D ix (NUM_DATA - NUM_CODING + k) c) ->
      filled (NUM_DATA - NUM_CODING + k) s').
    { intros s' c Hs' Hds Hl'. destruct Hd as (b & [Hb Wb] & Hb'). split; [exists b; split; [split; congruence|done]|].
      intros _. exists c. split; [done|].
      by replace (NUM_DATA - NUM_CODING + k + NUM_CODING)%nat with (NUM_DATA + k)%nat by (unfold NUM_DATA, NUM_CODING; lia). }
    destruct (lost (NUM_DATA + k)%nat) eqn:El.
    + rewrite Hcod. eexists. split.
      * replace (length pre + NUM_DATA - NUM_CODING + k - (length pre + NUM_DATA - NUM_CODING) + NUM_DATA)%nat
          with (NUM_DATA + k)%nat by lia. by destruct (size_before k).
      * eapply (Hf _ Blob_default); [|done..]. split; [done|apply length_replicate].
    + destruct Hcod as (c & Hc1 & Hc2). rewrite Hc1, app_nil_r. exists s. split; [|eapply (Hf s c); [|done..]; split; [done|apply Hc2]].
      destruct (size_before k); [done|]. destruct Hc2 as (_ & -> & _). rewrite u64_sub_exact, bind_Ret; [|apply in_u64_iff];
        rewrite BLOB_HEADER_SIZE_eq; [by rewrite Z.add_simpl_r|unfold u64_max; lia].
  - change (erased lost NUM_DATA 0) with (@nil nat) in E. rewrite fmap_nil, app_nil_r in E. exists v'. split_and!; [exact E|done|]. intros k s Hk. specialize (HP k s Hk).
    case_decide as Hd; [|by replace (NUM_DATA - NUM_CODING + (k - (NUM_DATA - NUM_CODING)))%nat with k in HP by lia].
    destruct (H1c k s HP) as [Hb _]. split; [done|lia].
Qed.

(** *** Decoding *)

Definition got (k : nat) : bytes :=
  if lost k then replicate (block_size D) Byte.x00 else padded (block_size D) (D k).
Definition got_code (k : nat) : bytes :=
  if lost (NUM_DATA + k)%nat then replicate (block_size D) Byte.x00 else nth k (code D) [].

Lemma erased_split : erased lost 0 (NUM_DATA + NUM_CODING) = erased lost 0 NUM_DATA ++ erased lost NUM_DATA NUM_CODING.
Proof. unfold erased. by rewrite seq_app, filter_app. Qed.

Lemma got_sized : sized NUM_DATA (block_size D) (got <$> seq 0 NUM_DATA) /\
  sized NUM_CODING (block_size D) (got_code <$> seq 0 NUM_CODING).
Proof.
  split; (split; [done|]); apply Forall_fmap, Forall_seq; intros k Hk; cbn; unfold got, got_code.
  - destruct (lost k); [apply length_replicate|]. apply length_padded; [by destruct (HD k ltac:(lia))|].
    apply (fits D ix HD). lia.
  - destruct (lost _); [apply length_replicate|]. apply (code_length D ix HD). lia.
Qed.

Lemma got_survives k : k ∉ erased lost 0 (NUM_DATA + NUM_CODING) ->
  ((got <$> seq 0 NUM_DATA) ++ (got_code <$> seq 0 NUM_CODING)) !! k = (data_blocks D ++ code D) !! k.
Proof.
  intros Hk. destruct (code_sized D ix HD) as [Hcl _]. unfold data_blocks. destruct (decide (k < NUM_DATA)%nat) as [Hlt|Hge].
  - rewrite !lookup_app_l by (rewrite length_fmap, length_seq; lia). rewrite !list_lookup_fmap, lookup_seq_lt by lia. cbn.
    unfold got. destruct (lost k) eqn:E; [|done]. destruct Hk. apply elem_of_erased. split; [lia|done].
  - rewrite !lookup_app_r by (rewrite length_fmap, length_seq; lia). rewrite !length_fmap, !length_seq.
    destruct (decide (k < NUM_DATA + NUM_CODING)%nat) as [Hlt|Hge'].
    + rewrite list_lookup_fmap, lookup_seq_lt by lia. cbn [fmap option_fmap option_map]. unfold got_code.
      replace (NUM_DATA + (0 + (k - NUM_DATA)))%nat with k by lia. destruct (lost k) eqn:E.
      { destruct Hk. apply elem_of_erased. split; [lia|done]. }
      symmetry. apply (code_lookup D ix HD). lia.
    + rewrite !lookup_ge_None_2; [done|rewrite Hcl; lia|rewrite length_fmap, length_seq; lia].
Qed.

Lemma decode_got : erased lost 0 NUM_DATA <> [] -> decodes (erased lost 0 (NUM_DATA + NUM_CODING)) ->
  decode_blocks (got <$> seq 0 NUM_DATA) (got_code <$> seq 0 NUM_CODING)
    ((Z.of_nat <$> erased lost 0 (NUM_DATA + NUM_CODING)) ++ [-1]) = Ret (Ok tt, data_blocks D, code D).
Proof.
  intros Hne Hdec. destruct got_sized as [Hgs Hcs]. destruct (block_size_bounds D ix HD) as (_ & Hm4 & Hsb & _).
  pose proof (data_blocks_sized D ix HD) as Hds.
  pose proof (decode_restores _ _ _ _ _ Hm4 Hds Hgs Hcs got_survives Hdec) as Hd. fold (code D) in Hd.
  pose proof (sized_all _ _ _ Hgs) as E1. pose proof (sized_all _ _ _ Hcs) as E2.
  unfold decode_blocks. destruct (got <$> seq 0 NUM_DATA) as [|b bs] eqn:Eg; [done|].
  assert (Lb : length b = block_size D) by (destruct Hgs as [_ Hf]; by inversion Hf).
  rewrite Lb, E1, E2. cbn [andb]. rewrite (proj1 Hgs), (proj1 Hcs), Hd.
  rewrite erased_split. destruct (erased lost 0 NUM_DATA) as [|e es] eqn:Ee; [done|].
  assert (He : (e < NUM_DATA)%nat).
  { assert (He : e ∈ erased lost 0 NUM_DATA) by (rewrite Ee; apply list_elem_of_here). apply elem_of_erased in He. lia. }
  cbn [fmap list_fmap app index unwrap lookup list_lookup]. rewrite bind_Ret, (proj2 (Z.leb_le 0 _)), Nat2Z.id by lia.
  destruct Hds as [Hdl Hdf]. destruct (lookup_lt_is_Some_2 (data_blocks D) e) as [x Hx]; [lia|].
  rewrite (proj2 (index_Ret _ _ _) Hx), bind_Ret. rewrite Forall_lookup in Hdf. specialize (Hdf e x Hx). cbn in Hdf.
  rewrite slice_Ret by lia. done.
Qed.

(** *** Headers of restored blobs *)

Definition restored (k : nat) (b : Blob) : Prop :=
  wf b /\ take (Z.to_nat (m_size (b_meta (D k)))) (b_data b) = take (Z.to_nat (m_size (b_meta (D k)))) (b_data (D k)).

Definition fixed (es : list nat) (k : nat) (s : WindowSlot) : Prop :=
  (exists b, ws_data s = Some b /\ restored k b /\ (k ∉ es -> m_size (b_meta b) = m_size (b_meta (D k)))) /\
  ((NUM_DATA - NUM_CODING <= k)%nat -> exists c, has_coding s c).

Lemma put_same {A} (d w : list A) lo hi : (lo <= hi)%nat -> slice d lo hi = Ret w -> take lo d ++ w ++ drop hi d = d.
Proof.
  intros Hlo. unfold slice. rewrite (proj2 (Nat.leb_le lo hi)) by done. destruct (hi <=? length d)%nat; [|done].
  intros [= <-]. rewrite <- (take_drop lo d) at 4. f_equal. rewrite <- (take_drop (hi - lo) (drop lo d)) at 2.
  f_equal. rewrite drop_drop. f_equal. lia.
Qed.

Lemma fix_data_spec k m b : (k < NUM_DATA)%nat -> restored k b -> exists b', fix_data (Some m) b = Ret (false, b') /\
  restored k b' /\ m_size (b_meta b') = m_size (b_meta (D k)).
Proof.
  intros Hk [Wb Hb]. destruct (HD k Hk) as (Wk & _ & _ & Fk & Hm). rewrite BLOB_DATA_SIZE_eq in Hm.
  assert (Hu : in_u64 (m_size (b_meta (D k))) = true) by (apply in_u64_iff; unfold u64_max; lia).
  assert (Hf : field_of FSize b = Ret (write_u64 (m_size (b_meta (D k))))).
  { rewrite <- Fk. unfold field_of. eapply slice_take_eq; [unfold wf, Blob_wf in *; congruence| |exact Hb].
    cbn [field_hi]. lia. }
  unfold fix_data, get_data_size. change (slice (b_data b) BLOB_FLAGS_END BLOB_SIZE_END) with (field_of FSize b).
  rewrite Hf, !bind_Ret, read_write_u64, BLOB_HEADER_SIZE_eq by done.
  rewrite u64_sub_exact, bind_Ret by (apply in_u64_iff; unfold u64_max; lia). cbn [unwrap]. rewrite bind_Ret.
  unfold set_size. rewrite BLOB_HEADER_SIZE_eq, u64_add_exact, bind_Ret, Z.sub_add by (by rewrite Z.sub_add).
  unfold set_data_size. pose proof (field_bounds FSize b Wb) as Hfb.
  rewrite put_Ret by (done || by rewrite write_u64_length). rewrite bind_Ret. eexists. split.
  { rewrite BLOB_DATA_SIZE_eq, (proj2 (Z.ltb_ge _ _)) by lia. done. }
  cbn [b_data b_meta set_data set_meta set_meta_size m_size]. split; [|done].
  assert (Hsame : take BLOB_FLAGS_END (b_data b) ++ write_u64 (m_size (b_meta (D k))) ++ drop BLOB_SIZE_END (b_data b) = b_data b).
  { apply put_same; [apply Nat.leb_le; reflexivity|exact Hf]. }
  unfold restored, wf, Blob_wf. cbn [b_data set_data set_meta]. by rewrite Hsame.
Qed.

Lemma fix_coding_spec k m c : (NUM_DATA <= k < NUM_DATA + NUM_CODING)%nat -> wf c ->
  exists c', fix_coding (Some m) (Z.of_nat (block_size D)) (Z.of_nat k + ix) c = Ret (false, c') /\ wf c'.
Proof.
  intros Hk Wc. destruct (block_size_bounds D ix HD) as (_ & _ & Hsb & _). unfold NUM_DATA, NUM_CODING in Hk.
  unfold fix_coding. rewrite (u64_sub_exact (Z.of_nat k + ix)), bind_Ret by (apply in_u64_iff; unfold NUM_CODING; lia).
  edestruct (set_index_spec c) as (c1 & -> & W1 & _ & _); [done|]. rewrite bind_Ret, BLOB_HEADER_SIZE_eq.
  rewrite u64_sub_exact, bind_Ret by (apply in_u64_iff; unfold u64_max; lia). cbn [unwrap]. rewrite bind_Ret.
  edestruct (set_size_spec (set_meta m c1) (Z.of_nat (block_size D))) as (c2 & -> & W2 & _ & _);
    [done|apply in_u64_iff; unfold u64_max; lia|].
  rewrite bind_Ret. exists c2. split; [|done]. by rewrite BLOB_DATA_SIZE_eq, (proj2 (Z.ltb_ge _ _)) by lia.
Qed.

Lemma slot_middle (pre v post : Window) e s (f : WindowSlot -> WindowSlot) : v !! e = Some s ->
  index (pre ++ v ++ post) ((length pre + e) mod length (pre ++ v ++ post))%nat = Ret s /\
  update (pre ++ v ++ post) ((length pre + e) mod length (pre ++ v ++ post))%nat f = Ret (pre ++ <[e := f s]> v ++ post).
Proof.
  intros He. apply lookup_lt_Some in He as Hlt. rewrite middle_mod by done. unfold index, update.
  rewrite lookup_app_r, Nat.add_comm, Nat.add_sub, lookup_app_l, He by lia. split; [done|]. f_equal.
  by rewrite insert_app_r_alt, Nat.add_sub, insert_app_l by lia.
Qed.

(** The slot that an erasure is repaired in. *)
Definition slot_for (e : nat) : nat := if (e <? NUM_DATA)%nat then e else (e - NUM_CODING)%nat.

Lemma fix_erased_spec m pre post es v : length v = NUM_DATA -> Forall (fun e => (e < NUM_DATA + NUM_CODING)%nat) es ->
  (forall k s, v !! k = Some s -> fixed es k s) ->
  exists v', fix_erased ix (Z.of_nat (block_size D)) (length pre) (Some m) (pre ++ v ++ post) (Z.of_nat <$> es) =
    Ret (false, pre ++ v' ++ post) /\ length v' = NUM_DATA /\ forall k s, v' !! k = Some s -> fixed [] k s.
Proof.
  revert v. induction es as [|e es IH]; intros v Hv Hes Hf; [by exists v|].
  inversion Hes as [|? ? He Hes']; subst. cbn [fmap list_fmap fix_erased]. rewrite Nat2Z.id.
  unfold NUM_DATA, NUM_CODING in He. rewrite u64_add_exact, bind_Ret by (apply in_u64_iff; lia).
  assert (exists s, v !! slot_for e = Some s) as [s Hs].
  { apply lookup_lt_is_Some_2. rewrite Hv. unfold slot_for, NUM_DATA, NUM_CODING. destruct (Nat.ltb_spec e 16); lia. }
  destruct (slot_middle pre v post _ s (fun _ => s) Hs) as [Ei _]. destruct (Hf _ s Hs) as [(b & Hd & Hb & Hm) Hc].
  assert (Hnext : forall s', fixed es (slot_for e) s' ->
    forall k x, <[slot_for e := s']> v !! k = Some x -> fixed es k x).
  { intros s' Hs' k x Hx. destruct (decide (k = slot_for e)) as [->|Hne].
    - rewrite list_lookup_insert_eq in Hx by (by eapply lookup_lt_Some). by simplify_eq.
    - rewrite list_lookup_insert_ne in Hx by done. destruct (Hf k x Hx) as [(b0 & Hd0 & Hb0 & Hm0) Hc0]. split; [|done].
      exists b0. split_and!; [done|done|]. intros Hk. apply Hm0. intros [->|]%elem_of_cons; [|done].
      apply Hne. unfold slot_for. rewrite (proj2 (Nat.ltb_lt _ _)); [done|]. apply lookup_lt_Some in Hx. lia. }
  unfold slot_for in *. destruct (e <? NUM_DATA)%nat eqn:E16.
  - apply Nat.ltb_lt in E16. rewrite Ei, bind_Ret, Hd. cbn [unwrap]. rewrite bind_Ret.
    destruct (fix_data_spec e m b E16 Hb) as (b' & -> & Hb' & Hm'). rewrite !bind_Ret.
    rewrite (proj2 (slot_middle pre v post e s (fun _ => slot_set_data (Some b') s) Hs)), bind_Ret.
    destruct (IH (<[e := slot_set_data (Some b') s]> v)) as (v' & -> & Hv' & HP); [by rewrite length_insert|done| |by exists v'].
    apply Hnext. split; [by exists b'|done].
  - apply Nat.ltb_ge in E16. destruct Hc as (c & Hc & Wc); [unfold NUM_DATA, NUM_CODING in *; lia|].
    replace (length pre + e - NUM_CODING)%nat with (length pre + (e - NUM_CODING))%nat by (unfold NUM_DATA, NUM_CODING in *; lia).
    rewrite Ei, bind_Ret, Hc. cbn [unwrap]. rewrite bind_Ret.
    destruct (fix_coding_spec e m c) as (c' & -> & Wc'); [unfold NUM_DATA, NUM_CODING in *; lia|done|]. rewrite !bind_Ret.
    rewrite (proj2 (slot_middle pre v post _ s (fun _ => slot_set_coding (Some c') s) Hs)), bind_Ret.
    destruct (IH (<[(e - NUM_CODING)%nat := slot_set_coding (Some c') s]> v)) as (v' & -> & Hv' & HP);
      [by rewrite length_insert|done| |by exists v'].
    apply Hnext. split; [|by exists c']. exists b. split_and!; [done|done|].
    intros Hk. apply Hm. intros [Heq|]%elem_of_cons; [|done]. unfold NUM_DATA, NUM_CODING in *. lia.
Qed.

(** *** The whole block *)

Lemma filled_padded k s : (k < NUM_DATA)%nat -> filled k s -> exists b, has_data s b /\
  (Z.to_nat (m_size (b_meta b)) <= block_size D <= BLOB_SIZE)%nat /\ padded (block_size D) b = got k /\
  (lost k = false -> m_size (b_meta b) = m_size (b_meta (D k))).
Proof.
  intros Hk [(b & Hb & Hl) _]. pose proof (fits D ix HD k Hk) as Hf. exists b. split; [done|]. unfold got.
  destruct (lost k).
  - subst b. split_and!; [cbn; lia|lia| |done]. unfold padded. change (Z.to_nat (m_size (b_meta Blob_default))) with O. by rewrite Nat.sub_0_r.
  - pose proof Hl as (_ & Hm & _). split_and!; [rewrite Hm; lia|lia| |done]. by apply padded_copies.
Qed.

Lemma filled_code k s : (k < NUM_CODING)%nat -> filled (NUM_DATA - NUM_CODING + k) s ->
  exists c, has_coding s c /\ slice (b_data c) 64 (64 + block_size D) = Ret (got_code k).
Proof.
  intros Hk [_ Hc]. destruct Hc as (c & Hc & Hl); [lia|]. exists c. split; [done|]. unfold got_code.
  replace (NUM_DATA - NUM_CODING + k + NUM_CODING)%nat with (NUM_DATA + k)%nat in Hl by (unfold NUM_DATA, NUM_CODING; lia).
  destruct (lost (NUM_DATA + k)%nat).
  - subst c. destruct (block_size_bounds D ix HD) as (_ & _ & Hsb & _). pose proof (payload_fits D ix HD).
    cbn [b_data Blob_default]. rewrite slice_Ret by (rewrite length_replicate; lia).
    rewrite drop_replicate, take_replicate. do 2 f_equal. lia.
  - destruct Hl as (_ & _ & _ & Hs). rewrite Hs. do 2 f_equal. lia.
Qed.

Lemma stored_data (pre v post : Window) : length v = NUM_DATA ->
  (forall k s, v !! k = Some s -> exists b, has_data s b) ->
  exists rest, each_slot store_data (pre ++ v ++ post) (data_blocks D) (seq (length pre) NUM_DATA) =
    Ret (rest, pre ++ imap (fun k s => slot_set_data
      ((fun b => set_data (padded (block_size D) (D k) ++ drop (block_size D) (b_data b)) b) <$> ws_data s) s) v ++ post).
Proof.
  intros Hv Hs. exists (drop NUM_DATA (data_blocks D)). destruct (data_blocks_sized D ix HD) as [Hl _].
  apply (each_slot_imap store_data (fun k => drop k (data_blocks D))); [done..|].
  intros k s Hk. destruct (Hs k s Hk) as (b & Hd & Wb). apply lookup_lt_Some in Hk. rewrite Hv in Hk.
  destruct (HD k Hk) as (Wk & _). pose proof (fits D ix HD k Hk) as Hf.
  assert (Hp : data_blocks D !! k = Some (padded (block_size D) (D k))).
  { unfold data_blocks. by rewrite list_lookup_fmap, lookup_seq_lt. }
  unfold store_data. rewrite (drop_S _ _ _ Hp), Hd. cbn [unwrap fmap option_fmap option_map]. rewrite bind_Ret.
  by rewrite put_data_Ret, bind_Ret, length_padded by (done || rewrite length_padded; done || lia).
Qed.

(** What decoding reads, once the tails are zero. *)
Definition readable (k : nat) (s : WindowSlot) : Prop :=
  (exists b, has_data s b /\ take (block_size D) (b_data b) = got k /\
    (lost k = false -> m_size (b_meta b) = m_size (b_meta (D k)))) /\
  ((NUM_DATA - NUM_CODING <= k)%nat -> exists c, has_coding s c /\
    slice (b_data c) 64 (64 + block_size D) = Ret (got_code (k - (NUM_DATA - NUM_CODING)))).

Lemma padded_block pre v post : length v = NUM_DATA -> (forall k s, v !! k = Some s -> filled k s) ->
  exists v', each_slot (zero_tail (block_size D)) (pre ++ v ++ post) tt (seq (length pre) NUM_DATA) =
    Ret (tt, pre ++ v' ++ post) /\ length v' = NUM_DATA /\ forall k s, v' !! k = Some s -> readable k s.
Proof.
  intros Hv Hf. assert (Hp : forall k s, v !! k = Some s -> exists b, has_data s b /\
    (Z.to_nat (m_size (b_meta b)) <= block_size D <= BLOB_SIZE)%nat /\ padded (block_size D) b = got k /\
    (lost k = false -> m_size (b_meta b) = m_size (b_meta (D k)))).
  { intros k s Hk. apply filled_padded; [|by apply Hf]. apply lookup_lt_Some in Hk. lia. }
  rewrite (pad_slots (block_size D) pre v post Hv).
  2: { intros k s Hk. destruct (Hp k s Hk) as (b & Hb & Hfit & _). by exists b. }
  eexists. split; [done|]. split; [by rewrite length_imap|]. intros k s Hk.
  rewrite list_lookup_imap in Hk. destruct (v !! k) as [s2|] eqn:E2; [|done].
  cbn [fmap option_fmap option_map] in Hk. injection Hk as <-.
  destruct (Hp k s2 E2) as (b & [Hb Wb] & Hfit & Hg & Hm). unfold padded_slot. rewrite Hb. split.
  - exists (pad (block_size D) b). split_and!; [split; [done|by apply pad_wf]|by rewrite take_pad|done].
  - intros Hk. destruct (filled_code (k - (NUM_DATA - NUM_CODING)) s2) as (c & Hc & Hs).
    + apply lookup_lt_Some in E2. unfold NUM_DATA, NUM_CODING in *. lia.
    + replace (NUM_DATA - NUM_CODING + (k - (NUM_DATA - NUM_CODING)))%nat with k by lia. by apply Hf.
    + by exists c.
Qed.

(** What the blocks decoded are stored to. *)
Lemma stored_block pre v post : length v = NUM_DATA -> (forall k s, v !! k = Some s -> readable k s) ->
  exists r1 w1 r2 v', each_slot store_data (pre ++ v ++ post) (data_blocks D) (seq (length pre) NUM_DATA) = Ret (r1, w1) /\
    each_slot store_coding w1 (code D) (seq (length pre + NUM_DATA - NUM_CODING) NUM_CODING) =
      Ret (r2, pre ++ v' ++ post) /\ length v' = NUM_DATA /\
    forall k s, v' !! k = Some s -> fixed (erased lost 0 (NUM_DATA + NUM_CODING)) k s.
Proof.
  intros Hv Hr. destruct (code_sized D ix HD) as [Hcl Hcf]. destruct (block_size_bounds D ix HD) as (_ & _ & Hsb & _).
  pose proof (payload_fits D ix HD) as HB.
  destruct (stored_data pre v post Hv) as (r1 & E1).
  { intros k s Hk. destruct (Hr k s Hk) as [(b & Hb & _) _]. by exists b. }
  match type of E1 with _ = Ret (_, _ ++ ?l ++ _) => set (v1 := l) in E1 end.
  destruct (store_code (code D) (block_size D) pre v1 post) as (r2 & E2); [by unfold v1; rewrite length_imap|done|done|lia| |].
  { intros k s Hk Hlt. unfold v1 in Hk. rewrite list_lookup_imap in Hk. destruct (v !! _) as [s0|] eqn:E0; [|done].
    cbn [fmap option_fmap option_map] in Hk. injection Hk as <-. destruct (Hr _ s0 E0) as [_ Hc].
    destruct Hc as (c & Hc & _); [lia|]. by exists c. }
  eexists r1, _, r2, _. split; [exact E1|]. split; [exact E2|]. split; [by unfold v1; rewrite !length_imap|].
  intros k s Hk. unfold v1 in Hk. rewrite !list_lookup_imap in Hk. destruct (v !! k) as [s0|] eqn:E0; [|done].
  cbn [fmap option_fmap option_map] in Hk. injection Hk as <-. apply lookup_lt_Some in E0 as Hlt. rewrite Hv in Hlt.
  destruct (Hr k s0 E0) as [(b & [Hd Wb] & Hg & Hm) Hc]. destruct (HD k Hlt) as (Wk & _). pose proof (fits D ix HD k Hlt) as Hf.
  set (b1 := set_data (padded (block_size D) (D k) ++ drop (block_size D) (b_data b)) b).
  assert (Hres : restored k b1).
  { unfold restored, wf, Blob_wf, b1. cbn [b_data set_data]. split.
    - rewrite length_app, length_padded, length_drop by done. unfold wf, Blob_wf in Wb. lia.
    - rewrite take_app_le by (rewrite length_padded; done || lia). apply take_padded; [done|lia]. }
  assert (Hmb : k ∉ erased lost 0 (NUM_DATA + NUM_CODING) -> m_size (b_meta b1) = m_size (b_meta (D k))).
  { intros Hk. apply Hm. destruct (lost k) eqn:El; [|done]. destruct Hk. apply elem_of_erased. split; [lia|done]. }
  rewrite Hd. case_decide as Hdk.
  - split; [exists b1; exact (conj eq_refl (conj Hres Hmb))|unfold NUM_DATA, NUM_CODING; lia].
  - split; [exists b1; exact (conj eq_refl (conj Hres Hmb))|]. intros _. destruct Hc as (c & [Hc Wc] & _); [unfold NUM_DATA, NUM_CODING in *; lia|].
    unfold coded_slot, slot_set_data. cbn [ws_coding]. rewrite Hc. eexists. split; [done|].
    apply with_payload_spec; [done|]. rewrite (code_length D ix HD) by (unfold NUM_DATA, NUM_CODING in *; lia). lia.
Qed.

Lemma restore_spec pre v post : length v = NUM_DATA -> (forall k s, v !! k = Some s -> cleared k s) ->
  erased lost 0 NUM_DATA <> [] -> (length (erased lost 0 (NUM_DATA + NUM_CODING)) <= NUM_CODING)%nat ->
  decodes (erased lost 0 (NUM_DATA + NUM_CODING)) ->
  exists v', restore ix (length pre) (pre ++ v ++ post) = Ret (Ok tt, pre ++ v' ++ post) /\ length v' = NUM_DATA /\
    forall k s, v' !! k = Some s -> fixed [] k s.
Proof.
  intros Hv Hc Hne Hle Hdec. rewrite erased_split in Hle. rewrite length_app in Hle.
  destruct (block_size_bounds D ix HD) as (_ & _ & Hsb & _). pose proof (payload_fits D ix HD) as HB. unfold restore.
  destruct (gather_data_spec pre v post Hv Hc) as (v1 & -> & Hv1 & P1). rewrite bind_Ret.
  destruct (gather_coding_spec pre v v1 post Hv1 Hv Hc P1) as (v2 & -> & Hv2 & P2). rewrite bind_Ret.
  assert (size_before NUM_CODING = Some (Z.of_nat (block_size D))) as ->.
  { unfold size_before. rewrite bool_decide_false; [done|]. destruct (erased lost 0 NUM_DATA); [done|]. cbn [length] in Hle. lia. }
  cbn [unwrap]. rewrite bind_Ret, Nat2Z.id. destruct (padded_block pre v2 post Hv2 P2) as (v3 & -> & Hv3 & P3).
  rewrite bind_Ret, (read_data (block_size D) got pre v3 post Hv3); [|lia|].
  2: { intros k s Hk. destruct (P3 k s Hk) as [(b & Hb & Hg & _) _]. by exists b. }
  rewrite bind_Ret, (read_coding (block_size D) got_code pre v3 post Hv3); [|lia|].
  2: { intros k s Hk Hlt. destruct (P3 _ s Hk) as [_ Hcd]. destruct Hcd as (c & Hcc & Hs); [lia|]. exists c. split; [done|].
    rewrite Hs. do 2 f_equal. lia. }
  rewrite bind_Ret, <- fmap_app, <- erased_split, decode_got, bind_Ret by done.
  destruct (stored_block pre v3 post Hv3 P3) as (r1 & w1 & r2 & v4 & -> & E2 & Hv4 & P4). rewrite bind_Ret, E2, bind_Ret.
  assert (exists m, first_meta v = Some m) as [m ->].
  { destruct (erased_full lost 0 NUM_DATA) as (k & Hk & Hl); [unfold NUM_DATA, NUM_CODING in *; lia|].
    destruct (lookup_lt_is_Some_2 v k) as [s Hs]; [lia|]. destruct (Hc k s Hs) as [Hd _]. rewrite Hl in Hd.
    destruct Hd as (b & Hd & _). unfold first_meta. destruct (omap _ v) eqn:Eo; [|by eexists].
    exfalso. assert (Hin : b_meta b ∈ omap (fun s => b_meta <$> ws_data s) v).
    { apply list_elem_of_omap. exists s. split; [by eapply list_elem_of_lookup_2|]. by rewrite Hd. }
    rewrite Eo in Hin. by apply not_elem_of_nil in Hin. }
  assert (Hes : Forall (fun e => (e < NUM_DATA + NUM_CODING)%nat) (erased lost 0 (NUM_DATA + NUM_CODING))).
  { apply Forall_forall. intros e [He _]%elem_of_erased. lia. }
  destruct (fix_erased_spec m pre post _ v4 Hv4 Hes P4) as (v5 & -> & Hv5 & P5).
  rewrite bind_Ret. cbn [negb rassert]. rewrite bind_Ret. by exists v5.
Qed.
End Receiver.

(** ** Blocks of a window *)

Definition block_pos (w : Window) (ix : Z) : nat := Z.to_nat (ix mod Z.of_nat (length w)).

(** Windows of whole blocks, and the index of a block's first blob. *)
Definition block_index (w : Window) (ix : Z) : Prop :=
  (exists n, length w = (NUM_DATA * S n)%nat) /\ 0 <= ix /\ ix mod Z.of_nat NUM_DATA = 0 /\ ix + 20 <= u64_max.

Lemma block_pos_spec w ix c : block_index w ix -> ix <= c < ix + Z.of_nat NUM_DATA ->
  let start := Z.to_nat (c mod Z.of_nat (length w)) in
  (block_pos w ix + NUM_DATA <= length w)%nat /\ (start - start mod NUM_DATA)%nat = block_pos w ix /\
  c - c mod Z.of_nat NUM_DATA = ix.
Proof.
  intros ((n & Hn) & H0 & H16 & _) Hc. unfold block_pos, NUM_DATA in *. rewrite Hn in *.
  change (Z.of_nat 16) with 16 in *. set (N := Z.of_nat (S n)). assert (HN : 0 < N) by lia.
  assert (EL : Z.of_nat (16 * S n) = 16 * N) by lia. rewrite !EL.
  pose proof (Z.div_mod ix 16 ltac:(lia)) as Eq. rewrite H16, Z.add_0_r in Eq. set (q := ix / 16) in *.
  pose proof (Z.mod_pos_bound q N HN) as Hq. pose proof (Z.div_mod q N ltac:(lia)) as Eqn.
  assert (E1 : ix mod (16 * N) = 16 * (q mod N)) by (symmetry; apply (Z.mod_unique _ _ (q / N)); [left; lia|lia]).
  assert (E2 : c mod (16 * N) = 16 * (q mod N) + (c - ix))
    by (symmetry; apply (Z.mod_unique _ _ (q / N)); [left; lia|lia]).
  rewrite E1, E2. split_and!; [lia| |].
  - replace (Z.to_nat (16 * (q mod N) + (c - ix))) with (Z.to_nat (c - ix) + Z.to_nat (q mod N) * 16)%nat by lia.
    rewrite Nat.Div0.mod_add, Nat.mod_small by lia. lia.
  - replace (c mod 16) with (c - ix); [lia|]. apply (Z.mod_unique _ _ q); [left; lia|lia].
Qed.

Lemma block_split (w : Window) p : (p + NUM_DATA <= length w)%nat ->
  exists pre l post, w = pre ++ l ++ post /\ length pre = p /\ length l = NUM_DATA /\
    forall k, (k < NUM_DATA)%nat -> w !! (p + k)%nat = l !! k.
Proof.
  intros Hp. exists (take p w), (take NUM_DATA (drop p w)), (drop NUM_DATA (drop p w)).
  rewrite take_drop, take_drop, !length_take, length_drop. split_and!; [done|lia|lia|].
  intros k Hk. by rewrite lookup_take_lt, lookup_drop by done.
Qed.

Lemma lookup_block (pre l post : Window) p k : length pre = p -> (k < length l)%nat ->
  (pre ++ l ++ post) !! (p + k)%nat = l !! k.
Proof. intros <- Hk. by rewrite lookup_app_r, Nat.add_comm, Nat.add_sub, lookup_app_l by lia. Qed.

Section Erasures.
Context `{Profile} `{ByteOrder} `{!ByteOrderOk} `{Bincode Pubkey} `{!PubkeyWire} `{Jerasure} `{!JerasureOk}.

Lemma copies_coding D ix k c c' : coding_ok D ix k c -> copies c c' -> coding_ok D ix k c'.
Proof.
  intros (Wc & Mc & Ic & Sc) Hc. pose proof Hc as (Wc' & Mc' & Tc). rewrite Mc in Tc. split_and!; [done|congruence| |].
  - rewrite <- Ic. apply copies_index; [done..|lia].
  - rewrite <- Sc. eapply slice_take_eq; [unfold wf, Blob_wf in *; congruence| |exact Tc]. lia.
Qed.

(** The block after [find_missing], and what [recover] does with it. *)
Lemma recover_cleared D ix lost v c : (forall k, (k < NUM_DATA)%nat -> data_ok (ix + Z.of_nat k) (D k)) ->
  block_index v ix -> ix <= c < ix + Z.of_nat NUM_DATA ->
  (forall k, (k < NUM_DATA)%nat -> exists s, v !! (block_pos v ix + k)%nat = Some s /\ arrived D ix lost k s) ->
  exists pre l post, length pre = block_pos v ix /\ length l = NUM_DATA /\
    (forall k s, l !! k = Some s -> cleared D ix lost k s) /\
    recover v c (Z.to_nat (c mod Z.of_nat (length v))) =
      if decide (erased lost 0 NUM_DATA = []) then Ret (Ok tt, pre ++ l ++ post)
      else if decide (NUM_CODING < length (erased lost 0 (NUM_DATA + NUM_CODING)))%nat
      then Ret (Err NotEnoughBlocksToDecode, pre ++ l ++ post)
      else restore ix (length pre) (pre ++ l ++ post).
Proof.
  intros HD Hbi Hc Hv. pose proof Hbi as (_ & H0ix & _ & Hu). destruct (block_pos_spec v ix c Hbi Hc) as (Hp & Es & Ec).
  destruct (block_split v _ Hp) as (pre & l & post & Ev & Hpre & Hl & Hlk).
  destruct (find_missing_spec D ix lost HD H0ix Hu pre l post Hl) as (l1 & E1 & Hl1 & P1).
  { intros k s Hk. apply lookup_lt_Some in Hk as Hlt. rewrite Hl in Hlt. destruct (Hv k Hlt) as (s' & Hs' & Ha).
    rewrite Hlk, Hk in Hs' by done. by simplify_eq. }
  exists pre, l1, post. split_and!; [done..|]. unfold recover. rewrite Es, Ec, <- Hpre, Ev, E1, bind_Ret.
  unfold missing_before. rewrite erased_split, length_app.
  replace (NUM_DATA - (NUM_DATA - NUM_CODING))%nat with NUM_CODING by reflexivity.
  destruct (Nat.eqb_spec (length (erased lost 0 NUM_DATA)) 0) as [Hz|Hnz].
  - by rewrite decide_True by (by apply length_zero_iff_nil).
  - rewrite decide_False by (by intros E; rewrite E in Hnz).
    destruct (Nat.ltb_spec NUM_CODING (length (erased lost 0 NUM_DATA) + length (erased lost NUM_DATA NUM_CODING)));
      [by rewrite decide_True|by rewrite decide_False by lia].
Qed.

Lemma recover_spec D ix lost v c : (forall k, (k < NUM_DATA)%nat -> data_ok (ix + Z.of_nat k) (D k)) ->
  block_index v ix -> ix <= c < ix + Z.of_nat NUM_DATA ->
  (forall k, (k < NUM_DATA)%nat -> exists s, v !! (block_pos v ix + k)%nat = Some s /\ arrived D ix lost k s) ->
  (length (erased lost 0 (NUM_DATA + NUM_CODING)) <= NUM_CODING)%nat -> decodes (erased lost 0 (NUM_DATA + NUM_CODING)) ->
  exists v', recover v c (Z.to_nat (c mod Z.of_nat (length v))) = Ret (Ok tt, v') /\
    forall k, (k < NUM_DATA)%nat -> exists s b, v' !! (block_pos v ix + k)%nat = Some s /\ ws_data s = Some b /\ copies (D k) b.
Proof.
  intros HD Hbi Hc Hv Hle Hdec. pose proof Hbi as (_ & H0ix & _ & Hu).
  destruct (recover_cleared D ix lost v c HD Hbi Hc Hv) as (pre & l & post & <- & Hl & Pl & ->).
  case_decide as Hz.
  - eexists. split; [done|]. intros k Hk. rewrite lookup_block by (done || lia).
    destruct (lookup_lt_is_Some_2 l k) as [s Hs]; [lia|]. destruct (Pl k s Hs) as [Hd _]. destruct (lost k) eqn:El.
    + exfalso. assert (Hin : k ∈ erased lost 0 NUM_DATA) by (apply elem_of_erased; split; [lia|done]).
      rewrite Hz in Hin. by apply not_elem_of_nil in Hin.
    + destruct Hd as (b & Hd & Hb). by exists s, b.
  - rewrite decide_False by lia. destruct (restore_spec D ix lost HD H0ix Hu pre l post Hl Pl Hz Hle Hdec) as (l2 & -> & Hl2 & P2).
    eexists. split; [done|]. intros k Hk. rewrite lookup_block by (done || lia).
    destruct (lookup_lt_is_Some_2 l2 k) as [s Hs]; [lia|]. destruct (P2 k s Hs) as [(b & Hd & [Wb Hb] & Hm) _].
    exists s, b. split; [done|]. split; [done|]. split_and!; [done|apply Hm, not_elem_of_nil|done].
Qed.

(** What a receiver has of slot [k] of the leader's block when [lost] tells
    which blobs it did not get. *)
Definition delivered (w v : Window) (ix : Z) (lost : nat -> bool) (k : nat) : Prop :=
  exists s1 s, w !! (block_pos w ix + k)%nat = Some s1 /\ v !! (block_pos w ix + k)%nat = Some s /\
    (if lost k then stale (ix + Z.of_nat k) (ws_data s)
     else exists b1 b, ws_data s1 = Some b1 /\ ws_data s = Some b /\ copies b1 b) /\
    ((NUM_DATA - NUM_CODING <= k)%nat ->
      if lost (k + NUM_CODING)%nat then stale (ix + Z.of_nat k) (ws_coding s)
      else exists c1 c, ws_coding s1 = Some c1 /\ ws_coding s = Some c /\ copies c1 c).

(** C11: erasure coding works.  The leader codes a full block of its window: its
    data stays and the coding blobs are added.  Then a receiver that has
    any of the block's data and coding blobs but for [NUM_CODING] that jerasure
    can restore, and in place of the missing ones nothing or older blobs,
    recovers every data blob of the block, whichever of its indices it asks
    from: header, payload and size. *)
Theorem erasure_recovers : forall w ix D transmit,
  block_index w ix -> (forall k, (k < NUM_DATA)%nat -> data_ok (ix + Z.of_nat k) (D k)) ->
  (forall k, (k < NUM_DATA)%nat -> exists s, w !! (block_pos w ix + k)%nat = Some s /\
    ws_data s = Some (D k) /\ ws_coding s = None) ->
  exists w1, generate_coding w ix NUM_DATA transmit = Some (Ret (Ok tt, w1, Z.min transmit (ix + 12))) /\
    length w1 = length w /\ (forall k, (k < NUM_DATA)%nat -> exists s b, w1 !! (block_pos w ix + k)%nat = Some s /\ ws_data s = Some b /\
      copies (D k) b /\ ((NUM_DATA - NUM_CODING <= k)%nat -> exists c, has_coding s c)) /\
    forall v lost c, length v = length w -> (forall k, (k < NUM_DATA)%nat -> delivered w1 v ix lost k) ->
      (length (erased lost 0 (NUM_DATA + NUM_CODING)) <= NUM_CODING)%nat ->
      decodes (erased lost 0 (NUM_DATA + NUM_CODING)) -> ix <= c < ix + Z.of_nat NUM_DATA ->
      exists v', recover v c (Z.to_nat (c mod Z.of_nat (length v))) = Ret (Ok tt, v') /\
        forall k, (k < NUM_DATA)%nat -> exists s b, v' !! (block_pos v ix + k)%nat = Some s /\ ws_data s = Some b /\ copies (D k) b.
Proof.
  intros w ix D transmit Hbi HD Hw. pose proof Hbi as (Hn & H0ix & H16 & Hu).
  destruct (block_pos_spec w ix ix Hbi) as (Hp & Es & _); [unfold NUM_DATA; lia|].
  destruct (block_split w _ Hp) as (pre & l & post & Ew & Hpre & Hl & Hlk).
  destruct (code_block_spec D ix HD pre l post Hl H0ix Hu) as (l1 & E1 & Hl1 & P1).
  { intros k s Hk. apply lookup_lt_Some in Hk as Hlt. rewrite Hl in Hlt. destruct (Hw k Hlt) as (s' & Hs' & Hd).
    rewrite Hlk, Hk in Hs' by done. by simplify_eq. }
  assert (Hlw : length (pre ++ l1 ++ post) = length w) by (rewrite Ew, !length_app, Hl1, Hl; done).
  assert (Hpad : forall k, (k < NUM_DATA)%nat -> copies (D k) (pad (block_size D) (D k))).
  { intros k Hk. destruct (HD k Hk) as (Wk & _). apply pad_copies; [done|by apply (fits D ix HD)]. }
  exists (pre ++ l1 ++ post). split_and!.
  - unfold generate_coding. rewrite H16, Z.sub_0_r, u64_add_exact, bind_Ret by (apply in_u64_iff; cbn; lia).
    unfold u64_rem. destruct Hn as [n Hn]. rewrite (proj2 (Z.eqb_neq _ _)), !bind_Ret by (rewrite Hn; unfold NUM_DATA; lia).
    rewrite Es. fold (block_pos w ix). change (S NUM_DATA) with (S (S 15)). cbn [coding_loop].
    rewrite (proj2 (Nat.ltb_ge _ _)) by lia.
    rewrite <- Hpre, Ew, E1. cbn [coding_loop]. rewrite (proj2 (Nat.ltb_lt _ _)) by (unfold NUM_DATA; lia). done.
  - done.
  - intros k Hk. rewrite <- Hpre, lookup_block by (done || lia). destruct (lookup_lt_is_Some_2 l1 k) as [s Hs]; [lia|].
    destruct (P1 k s Hs) as [Hd Hc]. exists s, (pad (block_size D) (D k)). split_and!; [done|done|by apply Hpad|].
    intros Hk12. destruct (Hc Hk12) as (c & Hcc & Hok & _). by exists c.
  - intros v lost c Hlv Hdel Hle Hdec Hc.
    assert (Hpv : block_pos v ix = block_pos w ix) by (unfold block_pos; by rewrite Hlv).
    assert (Hpw : block_pos (pre ++ l1 ++ post) ix = block_pos w ix) by (unfold block_pos; by rewrite Hlw).
    apply (recover_spec D ix lost v c HD); [|done| |done..].
    { split_and!; [by rewrite Hlv|done..]. }
    intros k Hk. destruct (Hdel k Hk) as (s1 & s & Hs1 & Hs & Hd & Hcod). rewrite Hpw in Hs1, Hs. rewrite Hpv.
    rewrite <- Hpre in Hs1. rewrite lookup_block in Hs1 by (done || lia). destruct (P1 k s1 Hs1) as [Hd1 Hc1].
    exists s. split; [done|]. split.
    + destruct (lost k); [done|]. destruct Hd as (b1 & b & Hb1 & Hb & Hcp). exists b. split; [done|]. simplify_eq.
      eapply copies_trans; [by apply Hpad|exact Hcp].
    + intros Hk12. specialize (Hcod Hk12). destruct (lost (k + NUM_CODING)%nat); [done|].
      destruct Hcod as (c1 & c' & Hcc & Hc' & Hcp). exists c'. split; [done|]. destruct (Hc1 Hk12) as (c2 & Hc2 & Hok).
      simplify_eq. by eapply copies_coding.
Qed.

(** With more blobs missing than there are coding blobs, recovery gives up:
    only older blobs are dropped. *)
Lemma recover_gives_up D ix lost v c : (forall k, (k < NUM_DATA)%nat -> data_ok (ix + Z.of_nat k) (D k)) ->
  block_index v ix -> ix <= c < ix + Z.of_nat NUM_DATA ->
  (forall k, (k < NUM_DATA)%nat -> exists s, v !! (block_pos v ix + k)%nat = Some s /\ arrived D ix lost k s) ->
  erased lost 0 NUM_DATA <> [] -> (NUM_CODING < length (erased lost 0 (NUM_DATA + NUM_CODING)))%nat ->
  exists v', recover v c (Z.to_nat (c mod Z.of_nat (length v))) = Ret (Err NotEnoughBlocksToDecode, v') /\
    forall k, (k < NUM_DATA)%nat -> exists s, v' !! (block_pos v ix + k)%nat = Some s /\ cleared D ix lost k s.
Proof.
  intros HD Hbi Hc Hv Hne Hlt. destruct (recover_cleared D ix lost v c HD Hbi Hc Hv) as (pre & l & post & <- & Hl & Pl & ->).
  rewrite decide_False, decide_True by done. eexists. split; [done|]. intros k Hk. rewrite lookup_block by (done || lia).
  destruct (lookup_lt_is_Some_2 l k) as [s Hs]; [lia|]. exists s. auto.
Qed.

(** Coding ends: a turn moves a whole block. *)
Lemma coding_loop_ends fuel w start limit ci ti : (start <= limit < start + NUM_DATA * fuel)%nat ->
  is_Some (coding_loop fuel w start limit ci ti).
Proof.
  unfold NUM_DATA. revert w start ti. induction fuel as [|fuel IH]; intros w start ti Hf; [lia|]. cbn [coding_loop].
  destruct (Nat.ltb_spec limit (start + NUM_DATA)) as [|Hge]; [eauto|]. unfold NUM_DATA in *.
  destruct (code_block w start) as [[[[u|e] w']|]|]; [|eauto..]. apply IH. lia.
Qed.

Lemma generate_coding_ends w receive_index num_blobs ti : is_Some (generate_coding w receive_index num_blobs ti).
Proof.
  unfold generate_coding. destruct (_ ≫= _) as [[ci start]|]; [|eauto]. apply coding_loop_ends.
  pose proof (Nat.mod_upper_bound (Z.to_nat start) NUM_DATA ltac:(done)). unfold NUM_DATA in *. lia.
Qed.

(** A coding blob that is put back is not marked as one: decoding starts from
    an empty blob, and only its index and size are written. *)
Lemma restored_coding_unmarked meta size idx p b c corrupt : in_u64 (size + 64) = true ->
  (64 + length p <= BLOB_SIZE)%nat -> put_payload p Blob_default = Ret b ->
  fix_coding meta size idx b = Ret (corrupt, c) -> is_coding c = is_coding Blob_default.
Proof.
  intros Hs Hp Hb Hf. assert (Hdef : wf Blob_default) by apply length_replicate. rewrite put_payload_Ret in Hb by done. injection Hb as <-.
  destruct (with_payload_spec p Blob_default Hdef Hp) as (W & _ & Sl). unfold fix_coding in Hf.
  apply bind_Ret_inv in Hf as (i & _ & Hf). destruct (set_index_spec (with_payload p Blob_default) i W) as (b1 & E1 & W1 & _ & F1).
  rewrite E1, bind_Ret in Hf. apply bind_Ret_inv in Hf as (n & _ & Hf). apply bind_Ret_inv in Hf as (m & _ & Hf).
  destruct (set_size_spec (set_meta m b1) size W1 Hs) as (b2 & E2 & _ & _ & F2). rewrite E2, bind_Ret in Hf.
  apply (f_equal (fun o => match o with Ret (_, x) => x | Panic => b2 end)) in Hf. cbv beta iota in Hf. subst c.
  unfold is_coding, get_flags. change (slice (b_data b2) BLOB_ID_END BLOB_FLAGS_END) with (field_of FFlags b2).
  rewrite F2. simpl. rewrite field_of_set_meta, F1. simpl. unfold field_of. cbn [field_lo field_hi].
  by rewrite Sl by lia.
Qed.
End Erasures.

(** ** A code with one parity block *)

Module ErasureWitness.
#[local] Existing Instance PacketWitness.le.
#[local] Existing Instance PacketWitness.le_ok.
#[local] Existing Instance PacketWitness.pk.
#[local] Existing Instance PacketWitness.pk_ok.
#[local] Instance traps : Profile := true.

Definition bxor (a b : byte) : byte :=
  let '(a0, (a1, (a2, (a3, (a4, (a5, (a6, a7))))))) := Byte.to_bits a in
  let '(b0, (b1, (b2, (b3, (b4, (b5, (b6, b7))))))) := Byte.to_bits b in
  Byte.of_bits (xorb a0 b0, (xorb a1 b1, (xorb a2 b2, (xorb a3 b3, (xorb a4 b4, (xorb a5 b5, (xorb a6 b6, xorb a7 b7))))))).

Lemma bxor_comm a b : bxor a b = bxor b a.
Proof.
  unfold bxor. destruct (Byte.to_bits a) as (?&?&?&?&?&?&?&?), (Byte.to_bits b) as (?&?&?&?&?&?&?&?).
  f_equal. repeat (apply (f_equal2 pair); [apply xorb_comm|]). apply xorb_comm.
Qed.

Lemma bxor_assoc a b c : bxor a (bxor b c) = bxor (bxor a b) c.
Proof.
  unfold bxor. destruct (Byte.to_bits a) as (?&?&?&?&?&?&?&?), (Byte.to_bits b) as (?&?&?&?&?&?&?&?),
    (Byte.to_bits c) as (?&?&?&?&?&?&?&?).
  rewrite !Byte.to_bits_of_bits. by rewrite !xorb_assoc.
Qed.

Lemma bxor_cancel a b : bxor a (bxor a b) = b.
Proof.
  rewrite <- (Byte.of_bits_to_bits b) at 2. unfold bxor.
  destruct (Byte.to_bits a) as (?&?&?&?&?&?&?&?), (Byte.to_bits b) as (?&?&?&?&?&?&?&?).
  rewrite Byte.to_bits_of_bits. by rewrite <- !xorb_assoc, !xorb_nilpotent, !xorb_false_l.
Qed.

Lemma bxor_0 a : bxor a Byte.x00 = a.
Proof.
  rewrite <- (Byte.of_bits_to_bits a) at 2. unfold bxor. destruct (Byte.to_bits a) as (?&?&?&?&?&?&?&?). cbn.
  by rewrite !xorb_false_r.
Qed.

Abbreviation mix := (zip_with bxor).

Lemma mix_comm x y : mix x y = mix y x.
Proof. revert y. induction x as [|a x IH]; intros [|b y]; cbn; [done..|]. by rewrite bxor_comm, IH. Qed.
Lemma mix_assoc x y z : mix x (mix y z) = mix (mix x y) z.
Proof. revert y z. induction x as [|a x IH]; intros [|b y] [|c z]; cbn; [done..|]. by rewrite bxor_assoc, IH. Qed.
Lemma mix_cancel x y : length x = length y -> mix x (mix x y) = y.
Proof. revert y. induction x as [|a x IH]; intros [|b y] Hl; cbn in *; [done..|]. by rewrite bxor_cancel, IH by lia. Qed.
Lemma mix_0 x n : length x = n -> mix x (replicate n Byte.x00) = x.
Proof. intros <-. induction x as [|a x IH]; cbn; [done|]. by rewrite bxor_0, IH. Qed.

Definition parity (size : nat) (bs : list bytes) : bytes := foldr (zip_with bxor) (replicate size Byte.x00) bs.

Lemma length_parity size bs : Forall (fun b => length b = size) bs -> length (parity size bs) = size.
Proof.
  induction 1 as [|b bs Hb _ IH]; cbn; [apply length_replicate|]. rewrite length_zip_with. fold (parity size bs). lia.
Qed.

Lemma parity_delete size bs e b : bs !! e = Some b -> parity size bs = mix b (parity size (delete e bs)).
Proof.
  revert e. induction bs as [|b0 bs IH]; intros [|e] He; cbn in *; simplify_eq; [done|].
  fold (parity size bs). rewrite (IH e He). fold (parity size (delete e bs)). by rewrite !mix_assoc, (mix_comm b0).
Qed.

Lemma parity_snoc size bs b : length b = size -> parity size (bs ++ [b]) = mix b (parity size bs).
Proof.
  intros Hb. induction bs as [|b0 bs IH]; [done|]. cbn. fold (parity size (bs ++ [b])) (parity size bs).
  by rewrite IH, !mix_assoc, (mix_comm b0).
Qed.

Definition restore_block (size e : nat) (data coding : list bytes) : bytes :=
  parity size (delete e data ++ [nth 0 coding []]).

(** Every coding block is the parity of the data, and one lost data block can
    be restored. *)
#[local] Instance xor_code : Jerasure := {|
  galois_single_divide _ _ _ := 1;
  jerasure_matrix_encode k m w matrix data size := replicate (Z.to_nat m) (parity (Z.to_nat size) data);
  jerasure_matrix_decode k m w matrix row_k_ones erasures data coding size :=
    match erasures with
    | [e; _] => (0, <[Z.to_nat e := restore_block (Z.to_nat size) (Z.to_nat e) data coding]> data, coding)
    | _ => (-1, data, coding)
    end |}.

Lemma encoded_parity size data : encoded size data = replicate NUM_CODING (parity size data).
Proof. unfold encoded. cbn [jerasure_matrix_encode xor_code]. by rewrite !Nat2Z.id. Qed.

Lemma xor_encode size data : Z.of_nat size mod 4 = 0 -> sized NUM_DATA size data ->
  sized NUM_CODING size (encoded size data).
Proof.
  intros _ [_ Hd]. rewrite encoded_parity. split; [apply length_replicate|].
  apply Forall_replicate. by apply length_parity.
Qed.

Lemma xor_decode size data data' coding' es : Z.of_nat size mod 4 = 0 ->
  sized NUM_DATA size data -> sized NUM_DATA size data' -> sized NUM_CODING size coding' ->
  (forall k, k ∉ es -> (data' ++ coding') !! k = (data ++ encoded size data) !! k) ->
  (exists e, es = [e] /\ (e < NUM_DATA)%nat) ->
  jerasure_matrix_decode (Z.of_nat NUM_DATA) (Z.of_nat NUM_CODING) ERASURE_W
  (get_matrix NUM_CODING NUM_DATA ERASURE_W) 0 ((Z.of_nat <$> es) ++ [-1]) data' coding' (Z.of_nat size) =
  (0, data, encoded size data).
Proof.
  intros _ [Hl Hd] [Hl' Hd'] [Hc Hcf] Hsame (e & -> & He).
  assert (Hcod : coding' = encoded size data).
  { apply list_eq. intros k. specialize (Hsame (NUM_DATA + k)%nat). rewrite !lookup_app_r in Hsame by lia.
    rewrite Hl, Hl', Nat.add_comm, Nat.add_sub in Hsame. apply Hsame. rewrite list_elem_of_singleton. lia. }
  assert (Hdel : forall j, j <> e -> data' !! j = data !! j).
  { intros j Hj. destruct (decide (j < NUM_DATA)%nat); [|by rewrite !lookup_ge_None_2 by lia].
    specialize (Hsame j). rewrite !lookup_app_l in Hsame by lia. apply Hsame. by rewrite list_elem_of_singleton. }
  destruct (lookup_lt_is_Some_2 data e) as [b Hb]; [lia|].
  assert (Edel : delete e data' = delete e data).
  { apply list_eq. intros j. destruct (decide (j < e)%nat).
    - rewrite !list_lookup_delete_lt by done. apply Hdel. lia.
    - rewrite !list_lookup_delete_ge by lia. apply Hdel. lia. }
  assert (Hlb : length b = size) by (rewrite Forall_lookup in Hd; by eapply Hd).
  assert (Hdd : Forall (fun b => length b = size) (delete e data)) by (by apply Forall_delete).
  cbn [jerasure_matrix_decode xor_code fmap list_fmap app]. rewrite !Nat2Z.id.
  assert (restore_block size e data' coding' = b) as ->.
  { unfold restore_block. rewrite Edel, Hcod, encoded_parity. cbn [replicate NUM_CODING nth].
    rewrite parity_snoc by (by apply length_parity). rewrite (parity_delete size data e b Hb), mix_comm, (mix_comm b), mix_cancel;
      [done|rewrite length_parity; done]. }
  rewrite Hcod. do 2 f_equal. apply list_eq. intros j. destruct (decide (j = e)) as [->|Hj].
  + by rewrite list_lookup_insert_eq by lia.
  + rewrite list_lookup_insert_ne by done. by apply Hdel.
Qed.

#[local] Instance xor_code_ok : JerasureOk := {|
  decodes es := exists e, es = [e] /\ (e < NUM_DATA)%nat; encode_sized := xor_encode; decode_restores := xor_decode |}.

(** A block of 16 blobs with one byte of payload each; the fourth is lost. *)
Definition sent (k : nat) : Blob :=
  mk_blob (le_bytes 8 (Z.of_nat k) ++ replicate 32 Byte.x00 ++ replicate 4 Byte.x00 ++ le_bytes 8 65 ++
           replicate (BLOB_SIZE - 52) Byte.x01) (set_meta_size 65 Meta_default).
Definition leader_window : Window := (fun k => mk_slot (Some (sent k)) None false) <$> seq 0 NUM_DATA.
Definition fourth (k : nat) : bool := (k =? 3)%nat.

Lemma sent_ok k : (k < NUM_DATA)%nat -> data_ok (0 + Z.of_nat k) (sent k).
Proof.
  intros Hk. unfold NUM_DATA in Hk. pose proof BLOB_SIZE_ge as HB. split_and!.
  - unfold wf, Blob_wf, sent. cbn [b_data]. rewrite !length_app, !length_le_bytes, !length_replicate. lia.
  - unfold get_index, sent. cbn [b_data]. erewrite (slice_middle _ [] (le_bytes 8 (Z.of_nat k))) by reflexivity. rewrite bind_Ret.
    cbn [read_u64 PacketWitness.le]. by rewrite le_val_le_bytes by lia.
  - exists Pubkey_default. split; [done|]. unfold get_id, sent. cbn [b_data].
    by erewrite (slice_middle _ (le_bytes 8 (Z.of_nat k)) (replicate 32 Byte.x00)) by reflexivity.
  - unfold field_of, sent. cbn [b_data]. apply (slice_middle _ (le_bytes 8 (Z.of_nat k) ++ replicate 32 Byte.x00 ++
      replicate 4 Byte.x00) _ (replicate (BLOB_SIZE - 52) Byte.x01)); [by rewrite <- !app_assoc|done..].
  - cbn. lia.
  - rewrite BLOB_DATA_SIZE_eq. cbn. lia.
Qed.

Lemma leader_lookup k : (k < NUM_DATA)%nat ->
  exists s, leader_window !! (block_pos leader_window 0 + k)%nat = Some s /\ ws_data s = Some (sent k) /\ ws_coding s = None.
Proof.
  intros Hk. unfold leader_window. rewrite list_lookup_fmap. change (block_pos _ 0) with O.
  rewrite lookup_seq_lt by done. cbn [fmap option_fmap option_map]. by eexists.
Qed.

(** What is left of the coded block. *)
Lemma fourth_lost w1 : length w1 = NUM_DATA ->
  (forall k, (k < NUM_DATA)%nat -> exists s b, w1 !! k = Some s /\ ws_data s = Some b /\ copies (sent k) b /\
    ((NUM_DATA - NUM_CODING <= k)%nat -> exists c, has_coding s c)) ->
  forall k, (k < NUM_DATA)%nat -> delivered w1 (alter (slot_set_data None) 3%nat w1) 0 fourth k.
Proof.
  intros Hlen Hw1 k Hk. destruct (Hw1 k Hk) as (s & b & Hs & Hd & Hc & Hcod). unfold delivered.
  assert (block_pos w1 0 = O) as -> by (unfold block_pos; by rewrite Hlen). cbn [Nat.add]. unfold fourth.
  exists s, (if fourth k then slot_set_data None s else s). unfold fourth. split_and!; [done| | |].
  - destruct (Nat.eqb_spec k 3) as [->|Hne]; [by rewrite list_lookup_alter_eq, Hs|by rewrite list_lookup_alter_ne by done].
  - destruct (Nat.eqb_spec k 3); [done|]. exists b, b. split_and!; [done..|]. by destruct Hc.
  - intros Hk12. destruct (Hcod Hk12) as (c & Hcc & Wc). rewrite (proj2 (Nat.eqb_neq (k + NUM_CODING) 3)) by (unfold NUM_CODING; lia).
    exists c, c. by destruct (Nat.eqb_spec k 3).
Qed.

Lemma erasure_recovers_witness : exists w1 v',
  generate_coding leader_window 0 NUM_DATA 0 = Some (Ret (Ok tt, w1, 0)) /\
  recover (alter (slot_set_data None) 3%nat w1) 5 5 = Ret (Ok tt, v') /\
  exists s b, v' !! 3%nat = Some s /\ ws_data s = Some b /\ copies (sent 3) b.
Proof.
  destruct (erasure_recovers leader_window 0 sent 0) as (w1 & E1 & Hlen & Hw1 & Hrec).
  - split_and!; [by exists O|done..].
  - apply sent_ok.
  - apply leader_lookup.
  - assert (Hl : length (alter (slot_set_data None) 3%nat w1) = NUM_DATA) by (by rewrite length_alter).
    destruct (Hrec (alter (slot_set_data None) 3%nat w1) fourth 5) as (v' & Ev & Hv').
    + exact Hl.
    + apply fourth_lost; [done|exact Hw1].
    + by apply Nat.leb_le.
    + exists 3%nat. split; [reflexivity|unfold NUM_DATA; lia].
    + unfold NUM_DATA. lia.
    + exists w1, v'. split; [exact E1|]. unfold block_pos in Hv'. rewrite Hl in Ev, Hv'. split; [exact Ev|].
      apply (Hv' 3%nat). unfold NUM_DATA. lia.
Defined.
End ErasureWitness.
