(* ===== verification/Fullnode.v ===== *)
(** * The node and its roles

    [src/fullnode.rs], with the constructors and the [join]s of
    [src/tx_creator.rs], [src/tx_signer.rs], [src/retransmit_stage.rs] and
    [src/rpu.rs]: a node starts from its ledger as a leader or as a validator
    and changes its role when a slot ends.

    The transaction processor is an [Arc] that the services of a node share and
    that a node replaces when it steps down, so the processors of a node live
    in a store and a service holds the reference it was given. *)

From S2P Require Import Prelude.
From S2P Require Import Types.
From S2P Require Import Codec.
From S2P Require Import Packet.
From S2P Require Import FinPlan.
From S2P Require Import FinPlanProgram.
From S2P Require Import SystemProgram.
From S2P Require Import Transactions.
From S2P Require Import Entry.
From S2P Require Import Block.
From S2P Require Import Processor.
From S2P Require Import ProcessorLaws.
From S2P Require Import Replay.
From S2P Require Import ProcessorRuns.
From S2P Require Import Ledger.
From S2P Require Import BlockThread.
From S2P Require Import Window.
From S2P Require Import WindowService.
From S2P Require Import TransactionStage.
From S2P Require Import VoteStage.
From S2P Require Import WriteStage.
From S2P Require Import Broadcast.
From S2P Require Import Serving.
From S2P Require Import Replicate.

(** ** Joining threads *)

(** [thread::Result]: the value a thread returned, or that it panicked. *)
Inductive ThreadPanic := Panicked.
Definition thread_result (A : Type) : Type := result A ThreadPanic.

(** [handle.join()?], and the handles of a vector in turn. *)
Definition and_then {A B} (r : thread_result A) (k : A -> thread_result B) : thread_result B :=
  match r with Ok a => k a | Err e => Err e end.
Fixpoint join_all (hdls : list (thread_result unit)) : thread_result unit :=
  match hdls with
  | [] => Ok tt
  | h :: rest => and_then h (fun _ => join_all rest)
  end.

Inductive TxCreatorReturnType := TxCreatorLeaderRotation.
Inductive TxSignerReturnType := TxSignerLeaderRotation (height : Z).
Inductive RetransmitStageReturnType := RetransmitLeaderRotation (height : Z).
Inductive FullnodeReturnType := FullnodeLeaderRotation.

(** What the threads of a leader's stages return: [lt_voting] and [lt_writing]
    are the two parts of the write stage. *)
Record leader_threads := mk_lthreads {
  lt_broadcast : thread_result BroadcastStageReturnType;
  lt_fetch : list (thread_result unit);
  lt_sigverify : list (thread_result unit);
  lt_stage : list (thread_result unit);
  lt_voting : list (thread_result unit);
  lt_writing : thread_result WriteStageReturnType }.

Record validator_threads := mk_vthreads {
  vt_replicate : list (thread_result unit);
  vt_fetch : list (thread_result unit);
  vt_retransmit : thread_result unit;
  vt_window : thread_result (option WindowServiceReturnType) }.

Definition WriteStage_join (t : leader_threads) : thread_result WriteStageReturnType :=
  and_then (join_all (lt_voting t)) (fun _ => lt_writing t).

Definition TxCreator_join (t : leader_threads) : thread_result (option TxCreatorReturnType) :=
  and_then (join_all (lt_fetch t)) (fun _ =>
  and_then (join_all (lt_sigverify t)) (fun _ =>
  and_then (join_all (lt_stage t)) (fun _ =>
  and_then (WriteStage_join t) (fun r =>
  Ok (match r with WriteLeaderRotation => Some TxCreatorLeaderRotation | _ => None end))))).

Definition RetransmitStage_join (t : validator_threads) : thread_result (option RetransmitStageReturnType) :=
  and_then (vt_retransmit t) (fun _ =>
  and_then (vt_window t) (fun r =>
  Ok (match r with Some (LeaderRotation h) => Some (RetransmitLeaderRotation h) | None => None end))).

Definition TxSigner_join (t : validator_threads) : thread_result (option TxSignerReturnType) :=
  and_then (join_all (vt_replicate t)) (fun _ =>
  and_then (join_all (vt_fetch t)) (fun _ =>
  and_then (RetransmitStage_join t) (fun r =>
  Ok (match r with Some (RetransmitLeaderRotation h) => Some (TxSignerLeaderRotation h) | None => None end)))).

Definition LeaderServices_join (t : leader_threads) : thread_result (option TxCreatorReturnType) :=
  and_then (lt_broadcast t) (fun _ => TxCreator_join t).

Definition ValidatorServices_join (t : validator_threads) : thread_result (option TxSignerReturnType) :=
  TxSigner_join t.

(** [Rpu::join]: its two socket threads and the request stage. *)
Record rpu_threads := mk_rthreads { rt_hdls : list (thread_result unit); rt_stage : thread_result unit }.
Definition Rpu_join (t : rpu_threads) : thread_result unit :=
  and_then (join_all (rt_hdls t)) (fun _ => and_then (rt_stage t) (fun _ => Ok tt)).

(** ** The services a node runs *)

(** A reference to a processor of the store. *)
Definition tp_ref : Type := nat.

(** The services: the processor and the height they were started with, and
    whether they were told to exit. *)
Record TxCreator := mk_creator { tc_processor : tp_ref; tc_sigverify_disabled : bool; tc_entry_height : Z; tc_exit : bool }.
Record BroadcastStage := mk_bstage { bs_caster : caster }.
Record LeaderServices := mk_leader { ls_tx_creator : TxCreator; ls_broadcast_stage : BroadcastStage }.
Record TxSigner := mk_signer { tg_processor : tp_ref; tg_service : service; tg_ledger : bool; tg_exit : bool }.
Record ValidatorServices := mk_validator { va_tx_signer : TxSigner }.
Inductive NodeRole := Leader (s : LeaderServices) | Validator (s : ValidatorServices).
Record Rpu := mk_rpu { rpu_processor : tp_ref; rpu_exit : bool }.

Definition LeaderServices_exit (s : LeaderServices) : LeaderServices :=
  let c := ls_tx_creator s in
  mk_leader (mk_creator (tc_processor c) (tc_sigverify_disabled c) (tc_entry_height c) true) (ls_broadcast_stage s).
Definition ValidatorServices_exit (s : ValidatorServices) : ValidatorServices :=
  let g := va_tx_signer s in mk_validator (mk_signer (tg_processor g) (tg_service g) (tg_ledger g) true).
Definition Rpu_do_exit (r : Rpu) : Rpu := mk_rpu (rpu_processor r) true.

Section Node.
Context `{Profile} `{Libloading} `{!Games} `{Sha256} `{Ed25519} `{ByteOrder} `{Bincode Entry} `{!BincodeFrom Entry} `{Bincode U64} `{!BincodeFrom U64}
  `{Bincode Pubkey} `{Bincode SystemInstruction} `{Bincode Instruction} `{Bincode FinPlanState} `{Bincode StorageInstruction}.

Record Fullnode := mk_fullnode {
  node_role : option NodeRole;
  fn_keypair : Keypair;
  fn_exit : bool;
  fn_rpu : option Rpu;
  fn_rpc_service : tp_ref;
  fn_store : list TransactionProcessor;
  fn_processor : tp_ref;
  fn_blockthread : BlockThread;
  fn_ledger : LedgerFiles;
  fn_sigverify_disabled : bool;
  fn_shared_window : Window }.

(** The processor a reference stands for. *)
Definition deref (fn : Fullnode) (r : tp_ref) : outcome TransactionProcessor := unwrap (fn_store fn !! r).

(** [new_transaction_processor_from_ledger], with the files as the recovery
    leaves them. *)
Definition new_transaction_processor_from_ledger (clock : nat -> Z) (lf : LedgerFiles)
    : outcome (TransactionProcessor * Z * list Entry * LedgerFiles) :=
  r ← read_ledger lf true;
  entries ← unwrap (ok r);
  '(_, lf') ← recover_ledger lf;
  '(res, tp) ← process_ledger clock (new_default false) entries;
  '(entry_height, ledger_tail) ← unwrap (ok res);
  Ret (tp, entry_height, ledger_tail, lf').

(** [TxCreator::new] and [BroadcastStage::new] for a leader at a height;
    [TxSigner::new] for a validator, whose window service starts there. *)
Definition start_leader (r : tp_ref) (sigverify_disabled : bool) (w : Window) (entry_height : Z) : LeaderServices :=
  mk_leader (mk_creator r sigverify_disabled entry_height false) (mk_bstage (caster_start w entry_height)).
Definition start_validator (r : tp_ref) (w : Window) (entry_height : Z) : ValidatorServices :=
  mk_validator (mk_signer r (service_start w entry_height false) true false).

(** [NodeInfo::new_entry_point]. *)
Definition new_entry_point (gossip_addr : SocketAddr) : NodeInfo :=
  let daddr := V4 [Byte.x00; Byte.x00; Byte.x00; Byte.x00] 0 in
  NodeInfo_new Pubkey_default gossip_addr daddr daddr daddr daddr.

(** [now] is the time [insert] reads. *)
Definition new_with_transaction_processor (keypair : Keypair) (tp : TransactionProcessor) (entry_height : Z)
    (ledger_tail : list Entry) (info : NodeInfo) (leader_info : option NodeInfo) (ledger : LedgerFiles)
    (sigverify_disabled : bool) (leader_rotation_interval : option Z) (now : Z) : outcome Fullnode :=
  let info := match leader_info with None => set_leader_id (ni_id info) info | Some _ => info end in
  let store := [tp] in
  w ← new_window_from_entries ledger_tail entry_height (ni_id info);
  bt ← unwrap (ok (bt_new info));
  let bt := match leader_rotation_interval with Some n => set_leader_rotation_interval bt n | None => bt end in
  match leader_info with
  | Some leader =>
      '(_, bt') ← insert bt leader now;
      Ret (mk_fullnode (Some (Validator (start_validator O w entry_height))) keypair false (Some (mk_rpu O false)) O
             store O bt' ledger sigverify_disabled w)
  | None =>
      Ret (mk_fullnode (Some (Leader (start_leader O sigverify_disabled w entry_height))) keypair false
             (Some (mk_rpu O false)) O store O bt ledger sigverify_disabled w)
  end.

Definition Fullnode_new (clock : nat -> Z) (info : NodeInfo) (ledger : LedgerFiles) (keypair : Keypair)
    (leader_addr : option SocketAddr) (sigverify_disabled : bool) (leader_rotation_interval : option Z) (now : Z)
    : outcome Fullnode :=
  '(tp, entry_height, ledger_tail, ledger') ← new_transaction_processor_from_ledger clock ledger;
  new_with_transaction_processor keypair tp entry_height ledger_tail info (new_entry_point <$> leader_addr) ledger'
    sigverify_disabled leader_rotation_interval now.

(** [rpu_end]: what the threads of the old [Rpu] return when it is closed. *)
Definition leader_to_validator (clock : nat -> Z) (now : Z) (rpu_end : rpu_threads) (fn : Fullnode)
    : outcome (thread_result unit * Fullnode) :=
  '(tp, entry_height, _, ledger) ← new_transaction_processor_from_ledger clock (fn_ledger fn);
  let store := fn_store fn ++ [tp] in
  let r := length (fn_store fn) in
  scheduled_leader ← get_scheduled_leader (fn_blockthread fn) entry_height;
  bt ← (match scheduled_leader with
        | None => Ret (fn_blockthread fn)
        | Some leader_id => set_leader (fn_blockthread fn) leader_id now
        end);
  let stepped (role : option NodeRole) (rpu : option Rpu) : Fullnode :=
    mk_fullnode role (fn_keypair fn) (fn_exit fn) rpu (fn_rpc_service fn) store r bt ledger
      (fn_sigverify_disabled fn) (fn_shared_window fn) in
  let role := Some (Validator (start_validator r (fn_shared_window fn) entry_height)) in
  match fn_rpu fn with
  | Some _ =>
      match Rpu_join rpu_end with
      | Err e => Ret (Err e, stepped (node_role fn) None)
      | Ok _ => Ret (Ok tt, stepped role (Some (mk_rpu r false)))
      end
  | None => Ret (Ok tt, stepped role None)
  end.

Definition validator_to_leader (now : Z) (fn : Fullnode) (entry_height : Z) : outcome Fullnode :=
  bt ← set_leader (fn_blockthread fn) (keypair_pubkey (fn_keypair fn)) now;
  Ret (mk_fullnode
         (Some (Leader (start_leader (fn_processor fn) (fn_sigverify_disabled fn) (fn_shared_window fn) entry_height)))
         (fn_keypair fn) (fn_exit fn) (fn_rpu fn) (fn_rpc_service fn) (fn_store fn) (fn_processor fn) bt (fn_ledger fn)
         (fn_sigverify_disabled fn) (fn_shared_window fn)).

(** [self.node_role.take()]. *)
Definition without_role (fn : Fullnode) : Fullnode :=
  mk_fullnode None (fn_keypair fn) (fn_exit fn) (fn_rpu fn) (fn_rpc_service fn) (fn_store fn) (fn_processor fn)
    (fn_blockthread fn) (fn_ledger fn) (fn_sigverify_disabled fn) (fn_shared_window fn).

Definition handle_role_transition (clock : nat -> Z) (now : Z) (rpu_end : rpu_threads)
    (lend : leader_threads) (vend : validator_threads) (fn : Fullnode)
    : outcome (thread_result (option FullnodeReturnType) * Fullnode) :=
  let fn1 := without_role fn in
  match node_role fn with
  | Some (Leader _) =>
      match LeaderServices_join lend with
      | Err e => Ret (Err e, fn1)
      | Ok (Some TxCreatorLeaderRotation) =>
          '(r, fn2) ← leader_to_validator clock now rpu_end fn1;
          Ret (match r with Ok _ => Ok (Some FullnodeLeaderRotation) | Err e => Err e end, fn2)
      | Ok None => Ret (Ok None, fn1)
      end
  | Some (Validator _) =>
      match ValidatorServices_join vend with
      | Err e => Ret (Err e, fn1)
      | Ok (Some (TxSignerLeaderRotation entry_height)) =>
          fn2 ← validator_to_leader now fn1 entry_height; Ret (Ok (Some FullnodeLeaderRotation), fn2)
      | Ok None => Ret (Ok None, fn1)
      end
  | None => Ret (Ok None, fn1)
  end.

Definition Fullnode_exit (fn : Fullnode) : Fullnode :=
  mk_fullnode
    (match node_role fn with
     | Some (Leader s) => Some (Leader (LeaderServices_exit s))
     | Some (Validator s) => Some (Validator (ValidatorServices_exit s))
     | None => None
     end)
    (fn_keypair fn) true (Rpu_do_exit <$> fn_rpu fn) (fn_rpc_service fn) (fn_store fn) (fn_processor fn)
    (fn_blockthread fn) (fn_ledger fn) (fn_sigverify_disabled fn) (fn_shared_window fn).

(** [join]: the request server, gossip, RPC and then the stages of the role. *)
Definition Fullnode_join (fn : Fullnode) (rpu_end : rpu_threads) (ncp_end : list (thread_result unit))
    (rpc_end : thread_result unit) (lend : leader_threads) (vend : validator_threads)
    : thread_result (option FullnodeReturnType) :=
  and_then (match fn_rpu fn with Some _ => Rpu_join rpu_end | None => Ok tt end) (fun _ =>
  and_then (join_all ncp_end) (fun _ =>
  and_then rpc_end (fun _ =>
  match node_role fn with
  | Some (Validator _) =>
      and_then (ValidatorServices_join vend) (fun r =>
      Ok (match r with Some (TxSignerLeaderRotation _) => Some FullnodeLeaderRotation | None => None end))
  | Some (Leader _) =>
      and_then (LeaderServices_join lend) (fun r =>
      Ok (match r with Some TxCreatorLeaderRotation => Some FullnodeLeaderRotation | None => None end))
  | None => Ok None
  end))).

Definition Fullnode_set_scheduled_leader (fn : Fullnode) (leader_id : Pubkey) (entry_height : Z) : Fullnode :=
  mk_fullnode (node_role fn) (fn_keypair fn) (fn_exit fn) (fn_rpu fn) (fn_rpc_service fn) (fn_store fn) (fn_processor fn)
    (set_scheduled_leader (fn_blockthread fn) entry_height leader_id) (fn_ledger fn) (fn_sigverify_disabled fn)
    (fn_shared_window fn).
End Node.

(** ** A ledger that grows *)

Section Growth.
Context `{Profile} `{Libloading} `{!Games} `{Sha256} `{Bincode Entry} `{Bincode SystemInstruction}
  `{Bincode Instruction} `{Bincode FinPlanState} `{Bincode U64} `{Bincode StorageInstruction}.

Lemma process_entries_prefix clock t tp es1 es2 tp' : process_entries clock t tp (es1 ++ es2) = Ret (Ok tt, tp') ->
  exists tp1, process_entries clock t tp es1 = Ret (Ok tt, tp1) /\
    process_entries clock (t + length es1) tp1 es2 = Ret (Ok tt, tp').
Proof.
  revert t tp. induction es1 as [|e es1 IH]; intros t tp Hp; cbn [process_entries app length] in *.
  { exists tp. by rewrite Nat.add_0_r. }
  apply bind_Ret_inv in Hp as ([r tp2] & -> & Hp). rewrite bind_Ret. destruct r as [u|err]; [|by simplify_eq].
  rewrite <- Nat.add_succ_comm. by apply IH.
Qed.

(** The replay with a buffer of the last entries is the replay. *)
Lemma tail_is_replay clock t tp es tail idx n : 0 <= n -> in_u64 (n + Z.of_nat (length es)) = true ->
  forall tp', (exists out, process_entries_tail clock t tp es tail idx n = Ret (Ok out, tp')) <->
    process_entries clock t tp es = Ret (Ok tt, tp').
Proof.
  revert t tp tail idx n. induction es as [|e es IH]; intros t tp tail idx n Hn Hu tp'; simpl.
  { split; [by intros [out [= _ ->]]|]. intros [= ->]. eauto. }
  destruct (tail_push tail idx e) as [tail1 idx1]. cbn [length] in Hu. apply in_u64_iff in Hu as Hu'.
  rewrite u64_add_exact, bind_Ret by (apply in_u64_iff; lia).
  destruct (process_entry clock t tp e) as [[[[]|err] tp1]|]; rewrite ?bind_Ret;
    [|split; [by intros [??]|done]|split; [by intros [??]|done]].
  apply IH; [lia|apply in_u64_iff; lia].
Qed.

Lemma process_entries_tail_count clock t tp es tail idx n m tl ix tp' : 0 <= n ->
  in_u64 (n + Z.of_nat (length es)) = true ->
  process_entries_tail clock t tp es tail idx n = Ret (Ok (m, tl, ix), tp') -> m = n + Z.of_nat (length es).
Proof.
  revert t tp tail idx n. induction es as [|e es IH]; intros t tp tail idx n Hn Hu Hp; simpl in Hp.
  { simplify_eq/=. lia. }
  destruct (tail_push tail idx e) as [tail1 idx1]. cbn [length] in *. apply in_u64_iff in Hu as Hu'.
  rewrite u64_add_exact, bind_Ret in Hp by (apply in_u64_iff; lia).
  apply bind_Ret_inv in Hp as ([[[]|] tp1] & _ & Hp); [|done].
  apply IH in Hp; [lia|lia|apply in_u64_iff; lia].
Qed.

Lemma blocks_are_replay clock t tp id blocks tail idx n : Forall (fun b => b <> []) blocks -> 0 <= n ->
  in_u64 (n + Z.of_nat (length (concat blocks))) = true ->
  forall tp', (exists out, process_blocks clock t tp id blocks tail idx n = Ret (Ok out, tp')) <->
    block_verify (concat blocks) id = Ret true /\ process_entries clock t tp (concat blocks) = Ret (Ok tt, tp').
Proof.
  intros Hb. revert t tp id tail idx n. induction Hb as [|b blocks Hne Hb IH];
    intros t tp id tail idx n Hn Hu tp'; cbn [process_blocks concat].
  { simpl. split; [by intros [out [= _ ->]]|]. intros [_ [= ->]]. eauto. }
  cbn in Hu. rewrite length_app, Nat2Z.inj_add in Hu. apply in_u64_iff in Hu as Hu'.
  pose proof (tail_is_replay clock t tp b tail idx 0 ltac:(lia) ltac:(apply in_u64_iff; lia)) as Ht.
  destruct (last b) as [e|] eqn:El; [|by apply last_None in El]. rewrite block_verify_app, (end_hash_last _ _ _ El).
  split.
  - intros [out Hp]. apply bind_Ret_inv in Hp as ([] & Hv & Hp); [|done]. cbn [negb unwrap mbind outcome_bind] in Hp.
    apply bind_Ret_inv in Hp as ([[[[m tl] ix]|] tp1] & E & Hp); [|done].
    apply bind_Ret_inv in Hp as (cnt & Ec & Hp). rewrite Hv, bind_Ret.
    apply process_entries_tail_count in E as Em; [|lia|apply in_u64_iff; lia].
    rewrite Em, Z.add_0_l in Ec. rewrite u64_add_exact in Ec by (apply in_u64_iff; lia). injection Ec as <-.
    destruct (proj1 (IH (t + length b)%nat tp1 (e_id e) tl ix (n + Z.of_nat (length b)) ltac:(lia)
      ltac:(apply in_u64_iff; lia) tp') (ex_intro _ out Hp)) as [Hv2 Hp2]. split; [done|].
    by rewrite (process_entries_app _ _ _ _ _ tp1) by (apply Ht; eauto).
  - intros [Hv Hp]. apply bind_Ret_inv in Hv as ([] & -> & Hv); [|done]. cbn [negb unwrap mbind outcome_bind].
    apply process_entries_prefix in Hp as (tp1 & E1 & E2). apply Ht in E1 as [[[m tl] ix] E1]. rewrite E1, bind_Ret.
    apply process_entries_tail_count in E1 as Em; [|lia|apply in_u64_iff; lia].
    rewrite Em, Z.add_0_l, u64_add_exact, bind_Ret by (apply in_u64_iff; lia).
    apply IH; [lia|apply in_u64_iff; lia|done].
Qed.

Lemma chunks_nonempty {A} fuel n (l : list A) : (0 < n)%nat -> Forall (fun b => b <> []) (chunks_of fuel n l).
Proof.
  intros Hn. revert l. induction fuel as [|fuel IH]; intros [|x l]; cbn [chunks_of]; constructor; [|apply IH].
  destruct n; [lia|done].
Qed.

(** A ledger replays when what follows the genesis entries chains and is
    accepted. *)
Lemma ledger_replays clock tp e0 e1 rest : in_u64 (Z.of_nat (length (e0 :: e1 :: rest))) = true ->
  forall tp', process_ledger clock tp (e0 :: e1 :: rest) =
      Ret (Ok (Z.of_nat (length (e0 :: e1 :: rest)), last_window (e0 :: e1 :: rest)), tp') <->
    exists g, opened clock tp e0 e1 = Ret g /\ block_verify rest (e_id e1) = Ret true /\
      process_entries clock 2 g rest = Ret (Ok tt, tp').
Proof.
  intros Hu tp'. rewrite process_ledger_opened. apply in_u64_iff in Hu as Hu'. cbn [length] in Hu'.
  assert (Hc : concat (chunks_of (length rest) VERIFY_BLOCK_SIZE rest) = rest)
    by (apply concat_chunks_of; unfold VERIFY_BLOCK_SIZE; lia).
  pose proof (fun g => blocks_are_replay clock 2 g (e_id e1) (chunks_of (length rest) VERIFY_BLOCK_SIZE rest) [e0; e1] 2 2
    (chunks_nonempty (length rest) VERIFY_BLOCK_SIZE rest ltac:(unfold VERIFY_BLOCK_SIZE; lia)) ltac:(lia)) as Hiff.
  setoid_rewrite Hc in Hiff.
  assert (Hu2 : in_u64 (2 + Z.of_nat (length rest)) = true) by (apply in_u64_iff; lia). split.
  - intros Hp. apply bind_Ret_inv in Hp as (g & Hg & Hp). apply bind_Ret_inv in Hp as ([r tp4] & Hb & Hp).
    destruct r as [[[cnt tl] ix]|]; [|done]. assert (tp4 = tp') as -> by (by injection Hp).
    exists g. split; [done|]. apply Hiff; [done|]. by eexists.
  - intros (g & Hg & Hv). apply (Hiff g Hu2 tp') in Hv as [[[cnt tl] ix] Hb]. rewrite Hg, bind_Ret, Hb, bind_Ret.
    apply opened_last_id in Hg. destruct (ledger_blocks _ _ _ _ _ _ _ _ _ Hg Hu Hb) as (-> & -> & _). done.
Qed.

(** The genesis entries, with two clocks. *)
Lemma opened_follows clock clock' e0 e1 g : opened clock (new_default false) e0 e1 = Ret g ->
  exists g', opened clock' (new_default false) e0 e1 = Ret g' /\ follows g g'.
Proof.
  unfold opened. intros Hg. do 6 (apply bind_Ret_inv in Hg as (? & -> & Hg); rewrite bind_Ret).
  injection Hg as <-. eexists. split; [done|]. do 2 apply register_follows. by split.
Qed.
End Growth.

(** ** The state of a ledger *)

Section States.
Context `{Profile} `{Libloading} `{!Games} `{Sha256} `{Ed25519} `{Bincode Entry} `{!BincodeFrom Entry} `{!BincodeFromOk Entry}
  `{Bincode U64} `{!BincodeU64Ok} `{!BincodeFrom U64} `{!BincodeFromOk U64}
  `{Bincode Transaction} `{Bincode (list Pubkey)} `{Bincode Pubkey} `{Bincode Hash} `{Bincode I64} `{Bincode bytes}
  `{Bincode SystemInstruction} `{Bincode Instruction} `{Bincode FinPlanState} `{Bincode StorageInstruction}.

(** [tp] is the state of the ledger [es]: whenever the ledger is replayed, it
    is accepted, and the processor that comes out is a replica of [tp]. *)
Definition state_of (es : list Entry) (tp : TransactionProcessor) : Prop :=
  loads_no_program es /\ last_id tp = Ret (end_hash es Hash_default) /\
  forall clock, exists V, follows tp V /\
    process_ledger clock (new_default false) es = Ret (Ok (Z.of_nat (length es), last_window es), V).

Definition fits (es : list Entry) : Prop := in_u64 (Z.of_nat (length es)) = true.

Lemma replay_state clock es tp : loads_no_program es -> fits es ->
  process_ledger clock (new_default false) es = Ret (Ok (Z.of_nat (length es), last_window es), tp) -> state_of es tp.
Proof.
  intros Hl Hu Hp. destruct es as [|e0 [|e1 rest]]; [done|done|].
  pose proof (proj1 (ledger_replays clock _ _ _ _ Hu tp) Hp) as (g & Hg & Hv & He).
  split; [done|]. split.
  { rewrite process_ledger_opened, Hg, bind_Ret in Hp. apply bind_Ret_inv in Hp as ([r tp4] & Hb & Hp).
    destruct r as [[[cnt tl] ix]|]; [|done]. assert (tp4 = tp) as -> by (by injection Hp).
    destruct (ledger_blocks _ _ _ _ _ _ _ _ _ (opened_last_id _ _ _ _ _ Hg) Hu Hb) as (_ & _ & _ & ->).
    by rewrite !end_hash_cons. }
  intros clock'. destruct (opened_follows _ clock' _ _ _ Hg) as (g' & Hg' & Hf).
  do 2 (apply Forall_cons in Hl as [_ Hl]).
  destruct (process_entries_follows _ _ clock' 2 _ _ _ _ Hf Hl He) as (V & HV & Hf').
  exists V. split; [done|]. apply ledger_replays; [done|]. eauto.
Qed.

(** Entries that chain from the end of a ledger and that take the replicas of
    its state to those of [tp']. *)
Lemma state_grows es new tp tp' : state_of es tp -> loads_no_program new -> fits (es ++ new) ->
  block_verify new (end_hash es Hash_default) = Ret true ->
  (forall V clock t, follows tp V -> exists V', process_entries clock t V new = Ret (Ok tt, V') /\ follows tp' V') ->
  state_of (es ++ new) tp'.
Proof.
  intros (Hl & Hid & Hst) Hln Hu Hv Hp.
  assert (Hlast : forall V clock t, follows tp V -> exists V', process_entries clock t V new = Ret (Ok tt, V') /\
    follows tp' V' /\ last_id tp' = Ret (end_hash (es ++ new) Hash_default)).
  { intros V clock t HV. destruct (Hp V clock t HV) as (V' & E & HV'). exists V'. split_and!; [done..|].
    assert (last_id tp' = last_id V') as -> by (unfold last_id; by rewrite (fo_ids _ _ HV')).
    destruct new as [|e new _] using rev_ind.
    { simplify_eq/=. rewrite app_nil_r, <- Hid. unfold last_id. by rewrite (fo_ids _ _ HV). }
    apply process_entries_prefix in E as (tp1 & _ & E). rewrite app_assoc, end_hash_snoc.
    cbn [process_entries] in E. apply bind_Ret_inv in E as ([[[]|] tp2] & He & E); [|done].
    injection E as <-. by eapply process_entry_last_id. }
  split; [by apply Forall_app|]. split.
  { destruct (Hst (fun _ => 0)) as (V & HV & _). by destruct (Hlast V (fun _ => 0) O HV) as (_ & _ & _ & ?). }
  intros clock. destruct (Hst clock) as (V & HV & Hr). destruct (Hp V clock (length es) HV) as (V' & HV' & Hf).
  exists V'. split; [done|]. destruct es as [|e0 [|e1 rest]]; [done|done|]. cbn [app] in *.
  assert (Hu1 : fits (e0 :: e1 :: rest)).
  { unfold fits in *. apply in_u64_iff in Hu. apply in_u64_iff. cbn [length] in *. rewrite length_app in Hu. lia. }
  apply (ledger_replays _ _ _ _ _ Hu1) in Hr as (g & Hg & Hvg & He). apply (ledger_replays _ _ _ _ _ Hu).
  exists g. split; [done|]. rewrite block_verify_app, Hvg, bind_Ret, (process_entries_app _ _ _ _ _ _ He).
  rewrite !end_hash_cons in Hv. by split.
Qed.

(** Two processors that are the state of one ledger. *)
Lemma state_unique es tp1 tp2 : state_of es tp1 -> state_of es tp2 ->
  tp_accounts tp1 = tp_accounts tp2 /\ tp_loaded_contracts tp1 = tp_loaded_contracts tp2 /\
  tp_last_ids tp1 = tp_last_ids tp2 /\ tp_transaction_count tp1 = tp_transaction_count tp2.
Proof.
  intros (_ & _ & H1') (_ & _ & H2'). destruct (H1' (fun _ => 0)) as (V1 & [] & E1). destruct (H2' (fun _ => 0)) as (V2 & [] & E2).
  rewrite E1 in E2. simplify_eq. split_and!; congruence.
Qed.

Lemma files_of_inj es1 es2 : ledger_ok es1 -> ledger_ok es2 -> files_of es1 = files_of es2 -> es1 = es2.
Proof.
  intros Ho1 Ho2 E. rewrite <- (read_entries_all es1 Ho1), <- (read_entries_all es2 Ho2).
  apply (f_equal lf_data) in E. cbn [lf_data files_of] in E. by rewrite E.
Qed.
End States.

(** ** A leader's slot *)

Section LeaderSlot.
Context `{Profile} `{Libloading} `{!Games} `{Sha256} `{Bincode Entry} `{Bincode Transaction}
  `{Bincode SystemInstruction} `{Bincode Instruction} `{Bincode FinPlanState} `{Bincode U64}
  `{Bincode StorageInstruction}.

(** What reaches the transaction stage has valid plans ([verified_transactions])
    and, here, loads no native program. *)
Definition admitted (o : leader_op) : Prop :=
  match o with
  | LTick _ _ => True
  | LTxs txs _ => Forall (fun tx => is_load tx = false) txs /\ Forall (fun tx => verify_plan tx = Ret true) txs
  end.

(** An upper bound for the calls of the recorder. *)
Definition work (o : leader_op) : nat := match o with LTick num _ => S num | LTxs txs _ => length txs end.
Definition total_work (ops : list leader_op) : nat := sum_list (work <$> ops).

(** The chain so far, in at most [n] calls of the recorder. *)
Definition recorded (start : Hash) (n : nat) (pr : PodRecorder) : Prop :=
  (exists m, (m <= n)%nat /\ recording start m pr) /\ loads_no_program (concat (pr_sent pr)).

Lemma recorded_mono start n m pr : recorded start n pr -> (n <= m)%nat -> recorded start m pr.
Proof. intros [(k & Hk & Hr) Hl] Hm. split; [|done]. exists k. split; [lia|done]. Qed.

Lemma recorder_sends pr o pr' : recorder_step pr o = Ret pr' ->
  pr_sent pr' = pr_sent pr \/ exists e, pr_sent pr' = pr_sent pr ++ [[e]] /\
    e_transactions e = match o with RRecord txs _ => txs | _ => [] end.
Proof.
  destruct o as [|now|txs now]; simpl; intros Hs.
  - unfold pr_hash in Hs. apply bind_Ret_inv in Hs as (pod & _ & Hs). simplify_eq. by left.
  - unfold pr_tick in Hs. apply bind_Ret_inv in Hs as ([b p1] & Hs & [= <-]).
    apply bind_Ret_inv in Hs as ([tick pod] & _ & [= Hs]). unfold pr_send in Hs.
    destruct (pr_open pr); simplify_eq/=; [right; by eexists|by left].
  - unfold pr_record in Hs. apply bind_Ret_inv in Hs as ([b p1] & Hs & [= <-]).
    apply bind_Ret_inv in Hs as ([tick pod] & _ & [= Hs]). unfold pr_send in Hs.
    destruct (pr_open pr); simplify_eq/=; [right; by eexists|by left].
Qed.

Lemma recorded_step start n pr o pr' : recorded start n pr -> Z.of_nat n < u64_max -> recordable o ->
  match o with RRecord txs _ => Forall (fun tx => is_load tx = false) txs | _ => True end ->
  recorder_step pr o = Ret pr' -> recorded start (S n) pr'.
Proof.
  intros [(m & Hm & Hr) Hl] Hn Ho Hload Hs.
  destruct (recorder_step_recording _ _ _ _ _ Hr ltac:(lia) Ho Hs) as (k & Hk & Hr').
  split; [exists k; split; [lia|done]|].
  destruct (recorder_sends _ _ _ Hs) as [->|(e & -> & He)]; [done|]. rewrite concat_app. apply Forall_app. split; [done|].
  repeat constructor. rewrite He. by destruct o.
Qed.

(** Executing transactions does not touch the chain. *)
Lemma recorded_tp start n pr tp : recorded start n pr -> tp_last_ids tp = tp_last_ids (pr_tp pr) ->
  recorded start n (mk_recorder (pr_pod pr) tp (pr_sent pr) (pr_open pr)).
Proof.
  intros [(m & Hm & Ho & Hv & Hid & Hp) Hl] Hi. split; [|done]. exists m. split; [done|].
  unfold recording, last_id in *. cbn [pr_open pr_sent pr_tp pr_pod]. by rewrite Hi.
Qed.

Lemma plans_all txs : Forall (fun tx => verify_plan tx = Ret true) txs -> all_plans_verify txs = Ret true.
Proof. induction 1 as [|tx txs Htx _ IH]; cbn [all_plans_verify]; [done|]. by rewrite Htx. Qed.

Lemma sel_Forall {A} (P : A -> Prop) keep (l : list A) : Forall P l -> Forall P (sel keep l).
Proof.
  intros Hl. revert keep. induction Hl as [|x l Hx Hl IH]; intros [|[] keep]; cbn [sel]; try constructor; auto.
Qed.

Lemma chunk_recorded start n pr txs now r pr' : recorded start n pr -> Z.of_nat n < u64_max ->
  Forall (fun tx => is_load tx = false) txs -> Forall (fun tx => verify_plan tx = Ret true) txs ->
  process_chunk pr txs now = Ret (r, pr') -> recorded start (S n) pr'.
Proof.
  intros Hr Hn Hload Hplan Hp. unfold process_chunk in Hp. apply bind_Ret_inv in Hp as ([res tp] & Ht & Hp).
  apply process_transactions_spec in Ht as (outs & Hc & -> & _ & Hids).
  rewrite accepted_sel, bind_Ret in Hp by (rewrite length_fmap; symmetry; by eapply Forall2_length).
  apply (recorded_tp _ _ _ _ Hr) in Hids. case_bool_decide as He.
  { simplify_eq/=. eapply recorded_mono; [done|lia]. }
  apply bind_Ret_inv in Hp as ([b p1] & Hp & [= _ <-]).
  apply (recorded_step _ _ _ (RRecord (sel (is_ok <$> (status <$> outs)) txs) now) _ Hids Hn).
  - split; [done|]. apply plans_all. by apply sel_Forall.
  - by apply sel_Forall.
  - cbn [recorder_step]. by rewrite Hp.
Qed.

Lemma stage_recorded fuel clock start n pr txs r pr' : recorded start n pr ->
  Z.of_nat n + Z.of_nat (length txs) < u64_max ->
  Forall (fun tx => is_load tx = false) txs -> Forall (fun tx => verify_plan tx = Ret true) txs ->
  stage_transactions fuel clock pr txs = Some (Ret (r, pr')) -> recorded start (n + length txs) pr'.
Proof.
  revert clock n pr txs. induction fuel as [|fuel IH]; intros clock n pr txs Hr Hn Hload Hplan Hs; [done|].
  cbn [stage_transactions] in Hs. case_bool_decide as He.
  { simplify_eq/=. eapply recorded_mono; [done|lia]. }
  destruct (num_will_fit_range txs He) as (k & Hk & Hrange). rewrite Hk in Hs.
  destruct (process_chunk pr (take k txs) (clock O)) as [[rc p1]|] eqn:Hc; [|done].
  apply (chunk_recorded start n) in Hc; [|done|lia|by apply Forall_take..].
  destruct rc; [|simplify_eq; eapply recorded_mono; [done|lia]].
  apply (IH _ (S n)) in Hs; [|done|rewrite length_drop; lia|by apply Forall_drop..].
  rewrite length_drop in Hs. eapply recorded_mono; [done|lia].
Qed.

Lemma hashes_recorded num start n pr pr' : recorded start n pr -> Z.of_nat n + Z.of_nat num < u64_max ->
  pod_hashes num pr = Ret pr' -> recorded start (n + num) pr'.
Proof.
  revert n pr. induction num as [|num IH]; intros n pr Hr Hn Hp; cbn [pod_hashes] in Hp.
  { simplify_eq. by rewrite Nat.add_0_r. }
  apply bind_Ret_inv in Hp as (p1 & Hh & Hp). rewrite <- Nat.add_succ_comm. apply (IH (S n)) in Hp; [done| |lia].
  apply (recorded_step _ n pr RHash _ Hr); [lia|done..].
Qed.

Lemma leader_step_recorded start n pr o pr' : recorded start n pr -> Z.of_nat n + Z.of_nat (work o) < u64_max ->
  admitted o -> leader_step pr o = Some (Ret pr') -> recorded start (n + work o) pr'.
Proof.
  intros Hr Hn Ho Hs. destruct o as [num now|txs clock]; cbn [leader_step work] in *.
  - destruct (tick_turn num pr now) as [[b p]|] eqn:Ht; [|done]. simplify_eq/=. unfold tick_turn in Ht.
    apply bind_Ret_inv in Ht as (p1 & Hh & Ht). apply (hashes_recorded _ start n) in Hh; [|done|lia].
    rewrite Nat.add_succ_r. apply (recorded_step _ _ _ (RTick now) _ Hh); [lia|done|done|].
    cbn [recorder_step]. by rewrite Ht.
  - destruct (stage_transactions (S (length txs)) clock pr txs) as [[[r p]|]|] eqn:Ht; [|done|done].
    cbn [mbind outcome_bind] in Hs. injection Hs as <-. destruct Ho. by eapply stage_recorded.
Qed.

Lemma leader_run_recorded ops start n pr pr' : recorded start n pr -> Z.of_nat n + Z.of_nat (total_work ops) < u64_max ->
  Forall admitted ops -> leader_run pr ops = Some (Ret pr') -> recorded start (n + total_work ops) pr'.
Proof.
  intros Hr Hn Ho. revert n pr Hr Hn. induction Ho as [|o ops Ho _ IH]; intros n pr Hr Hn Hl; cbn [leader_run] in Hl.
  { simplify_eq/=. eapply recorded_mono; [done|lia]. }
  unfold total_work in *. cbn [fmap list_fmap sum_list] in *. unfold id in *.
  destruct (leader_step pr o) as [[p1|]|] eqn:Hs; [|done|done].
  apply (leader_step_recorded start n) in Hs; [|done|lia|done]. apply (IH _ _ Hs) in Hl; [|lia].
  eapply recorded_mono; [done|lia].
Qed.

(** The entries of a slot chain from the id it started at. *)
Lemma slot_recorded tp start pr ops pr' : last_id tp = Ret start -> PodRecorder_new tp true = Ret pr ->
  Z.of_nat (total_work ops) < u64_max -> Forall admitted ops -> leader_run pr ops = Some (Ret pr') ->
  block_verify (concat (pr_sent pr')) start = Ret true /\ loads_no_program (concat (pr_sent pr')).
Proof.
  intros Hid Hnew Hw Ho Hr. unfold PodRecorder_new in Hnew. rewrite Hid in Hnew. injection Hnew as <-.
  apply (leader_run_recorded ops start 0) in Hr as [(m & _ & _ & Hv & _) Hl]; [done| |lia|done].
  split; [|constructor]. exists O. split; [done|]. by split_and!.
Qed.
End LeaderSlot.

(** ** Changing roles *)

Section Roles.
Context `{Profile} `{Libloading} `{!Games} `{Sha256} `{Ed25519} `{ByteOrder} `{Bincode Entry} `{!BincodeFrom Entry} `{!BincodeFromOk Entry}
  `{Bincode U64} `{!BincodeU64Ok} `{!BincodeFrom U64} `{!BincodeFromOk U64}
  `{Bincode Transaction} `{Bincode (list Pubkey)} `{Bincode Pubkey} `{Bincode Hash} `{Bincode I64} `{Bincode bytes}
  `{Bincode SystemInstruction} `{Bincode Instruction} `{Bincode FinPlanState} `{Bincode StorageInstruction}.

Lemma recover_complete es : ledger_ok es -> es <> [] -> recover_ledger (files_of es) = Ret (Ok tt, files_of es).
Proof.
  intros Hok Hne. destruct (recover_loop_torn es (length es) (length (data_file es)) (S (length (index_from 0 es))))
    as (k & Hs & Hr); [done|lia|rewrite length_index by done; lia|].
  rewrite !firstn_all in Hr. destruct Hs as (Hk & _ & Hmax).
  assert (k = length es) as ->.
  { pose proof (Hmax (length es) ltac:(done)) as Hle. unfold offset in Hle. rewrite firstn_all in Hle.
    specialize (Hle ltac:(done)). lia. }
  unfold recovered in Hr. rewrite decide_False, firstn_all in Hr by (by destruct es). rewrite <- Hr.
  unfold recover_ledger. cbn [lf_index lf_data files_of]. rewrite length_index by done.
  unfold SIZEOF_U64. rewrite Nat2Z.inj_mul, Z.mul_comm, Z.mod_mul by lia. done.
Qed.

Lemma ledger_fits es : ledger_ok es -> fits es.
Proof.
  intros [Hs Hu]. apply data_covers_index in Hs. unfold fits. rewrite in_u64_iff in *. lia.
Qed.

(** The processor a node builds from its ledger. *)
Lemma rebuilt clock es : ledger_ok es -> es <> [] ->
  new_transaction_processor_from_ledger clock (files_of es) =
    ('(res, tp) ← process_ledger clock (new_default false) es;
     '(height, tail) ← unwrap (ok res); Ret (tp, height, tail, files_of es)).
Proof.
  intros Hok Hne. unfold new_transaction_processor_from_ledger, read_ledger. rewrite recover_complete by done.
  cbn [mbind outcome_bind ok unwrap lf_data files_of]. by rewrite read_entries_all.
Qed.

(** The processor the node holds is the state of its ledger, and the services
    of its role and its request server use that processor. *)
Record node_ok (fn : Fullnode) (es : list Entry) : Prop := {
  no_ledger : fn_ledger fn = files_of es;
  no_stored : ledger_ok es;
  no_state : exists tp, deref fn (fn_processor fn) = Ret tp /\ state_of es tp;
  no_role : match node_role fn with
            | Some (Leader s) => tc_processor (ls_tx_creator s) = fn_processor fn
            | Some (Validator s) => tg_processor (va_tx_signer s) = fn_processor fn
            | None => True
            end;
  no_rpu : match fn_rpu fn with Some r => rpu_processor r = fn_processor fn | None => True end }.

(** What the stages of a role change in the node: the processor they share, the
    gossip table and the ledger. *)
Definition with_state (fn : Fullnode) (r : tp_ref) (tp : TransactionProcessor) (bt : BlockThread) (lf : LedgerFiles) : Fullnode :=
  mk_fullnode (node_role fn) (fn_keypair fn) (fn_exit fn) (fn_rpu fn) (fn_rpc_service fn) (<[r := tp]> (fn_store fn))
    (fn_processor fn) bt lf (fn_sigverify_disabled fn) (fn_shared_window fn).

(** A slot of a node, with the entries it adds to the ledger, up to and with
    the change of role.  A leader records what its transaction stage makes of
    its input, and writes what belongs to its slot; a validator replays and
    writes what it receives. *)
Inductive slot (fn : Fullnode) : list Entry -> Fullnode -> Prop :=
  | slot_leader s tp pr ops pr' new rest lf bt clock now rpu_end lend vend fn' :
      node_role fn = Some (Leader s) -> deref fn (tc_processor (ls_tx_creator s)) = Ret tp ->
      PodRecorder_new tp true = Ret pr -> Forall admitted ops -> Z.of_nat (total_work ops) < u64_max ->
      leader_run pr ops = Some (Ret pr') -> concat (pr_sent pr') = new ++ rest ->
      write_entries (fn_ledger fn) new = Ret lf ->
      handle_role_transition clock now rpu_end lend vend
        (with_state fn (tc_processor (ls_tx_creator s)) (pr_tp pr') bt lf) = Ret (Ok (Some FullnodeLeaderRotation), fn') ->
      slot fn new fn'
  | slot_validator s tp start new rp lf clock now rpu_end lend vend fn' :
      node_role fn = Some (Validator s) -> deref fn (tg_processor (va_tx_signer s)) = Ret tp ->
      replicated (mk_replica tp (fn_blockthread fn) (Some (fn_ledger fn))) new rp -> rp_ledger rp = Some lf ->
      last_id tp = Ret start -> block_verify new start = Ret true ->
      handle_role_transition clock now rpu_end lend vend
        (with_state fn (tg_processor (va_tx_signer s)) (rp_tp rp) (rp_bt rp) lf) = Ret (Ok (Some FullnodeLeaderRotation), fn') ->
      slot fn new fn'.

Inductive lifetime : Fullnode -> list Entry -> Fullnode -> Prop :=
  | lifetime_nil fn : lifetime fn [] fn
  | lifetime_cons fn new1 fn1 new2 fn2 : slot fn new1 fn1 -> lifetime fn1 new2 fn2 -> lifetime fn (new1 ++ new2) fn2.

Lemma state_follows es tp : state_of es tp -> follows tp tp.
Proof. intros (_ & _ & Hst). destruct (Hst (fun _ => 0)) as (V & [] & _). by split. Qed.

Lemma state_nonempty es tp : state_of es tp -> es <> [].
Proof. intros (_ & _ & Hst) ->. by destruct (Hst (fun _ => 0)) as (V & _ & ?). Qed.

(** Whatever prefix of its entries a leader writes, a replay goes through it. *)
Lemma leader_slot es tp pr ops pr' new rest : state_of es tp -> PodRecorder_new tp true = Ret pr ->
  Forall admitted ops -> Z.of_nat (total_work ops) < u64_max -> leader_run pr ops = Some (Ret pr') ->
  concat (pr_sent pr') = new ++ rest -> fits (es ++ new) -> exists tp', state_of (es ++ new) tp'.
Proof.
  intros Hst Hnew Ho Hw Hr Hsent Hfit. pose proof (proj1 (proj2 Hst)) as Hid.
  destruct (slot_recorded _ _ _ _ _ Hid Hnew Hw Ho Hr) as [Hv Hl]. rewrite Hsent in Hv, Hl.
  rewrite block_verify_app in Hv. apply bind_Ret_inv in Hv as ([] & Hv & Hv'); [clear Hv'|done]. apply Forall_app in Hl as [Hl _].
  assert (Hload : Forall loads_nothing ops).
  { eapply Forall_impl; [exact Ho|]. intros [] Ha; [done|]. by destruct Ha. }
  unfold PodRecorder_new in Hnew. rewrite Hid in Hnew. injection Hnew as <-.
  destruct (leader_run_mirrored _ _ _ Hload Hr eq_refl) as (_ & sent & Hs & Hf). simpl in Hs, Hf. rewrite Hs in Hsent.
  destruct (Hf (fun _ => 0) O tp (state_follows _ _ Hst)) as (V & HV & _). rewrite Hsent in HV.
  apply process_entries_prefix in HV as (tp1 & HV & _). exists tp1. eapply state_grows; [done..|].
  intros V' clock t HV'. by eapply process_entries_follows.
Qed.

(** Stepping down when the ledger has a state. *)
Lemma step_down_ok clock now rpu_end fn es L r fn' : fn_ledger fn = files_of es -> ledger_ok es -> state_of es L ->
  node_role fn = None -> leader_to_validator clock now rpu_end fn = Ret (r, fn') ->
  match r with Ok _ => node_ok fn' es | Err _ => True end.
Proof.
  intros Hlf Hok Hst Hrole Hs. pose proof (state_nonempty _ _ Hst) as Hne. unfold leader_to_validator in Hs.
  rewrite Hlf, rebuilt in Hs by done. destruct Hst as (Hl & _ & Hst). destruct (Hst clock) as (V & _ & HV).
  rewrite HV in Hs. cbn [mbind outcome_bind ok unwrap] in Hs. apply bind_Ret_inv in Hs as (sl & _ & Hs).
  apply bind_Ret_inv in Hs as (bt & _ & Hs).
  assert (Hstate : forall fn', fn_store fn' = fn_store fn ++ [V] -> fn_processor fn' = length (fn_store fn) ->
    exists tp, deref fn' (fn_processor fn') = Ret tp /\ state_of es tp).
  { intros f Hf Hp. exists V. split; [|by eapply replay_state; [|apply ledger_fits|]].
    unfold deref. by rewrite Hf, Hp, lookup_app_r, Nat.sub_diag by done. }
  destruct (fn_rpu fn); [destruct (Rpu_join rpu_end); [|by simplify_eq]|]; injection Hs as <- <-;
    (split; [done|done|by apply Hstate|done|done]).
Qed.

Lemma take_over_ok now fn es h fn' : node_ok fn es -> validator_to_leader now fn h = Ret fn' -> node_ok fn' es.
Proof.
  intros [Hlf Hok Hst Hrole Hrpu] Ht. unfold validator_to_leader in Ht. apply bind_Ret_inv in Ht as (bt & _ & [= <-]).
  by split.
Qed.

(** A slot keeps the node in step with its ledger. *)
Lemma slot_in_step fn new fn' es : slot fn new fn' -> node_ok fn es -> ledger_ok (es ++ new) -> loads_no_program new ->
  node_ok fn' (es ++ new).
Proof.
  intros Hslot [Hlf Hok (tp0 & Hd0 & Hst) Hrole Hrpu] Hok' Hload. destruct Hslot as
    [s tp pr ops pr' new rest lf bt clock now rpu_end lend vend fn' Er Hd Hnew Ho Hw Hr Hs Hwr Ht|
     s tp start new rp lf clock now rpu_end lend vend fn' Er Hd Hrep Hl Hid Hv Ht];
    rewrite Er in Hrole; rewrite Hrole, Hd0 in Hd; injection Hd as <-;
    unfold handle_role_transition in Ht; cbn [node_role with_state] in Ht; rewrite Er in Ht.
  - rewrite Hlf, write_entries_files in Hwr by done. injection Hwr as <-.
    destruct (leader_slot es tp0 pr ops pr' new rest) as [L HL]; [done..|by apply ledger_fits|].
    destruct (LeaderServices_join lend) as [[[]|]|]; [|done|done].
    apply bind_Ret_inv in Ht as ([[[]|] fn2] & Ht & [= <-]).
    by eapply (step_down_ok _ _ _ _ _ L _ _) in Ht; [..|done|done|done].
  - rewrite Hlf in Hrep. destruct (replicated_follows _ _ _ es Hrep eq_refl Hok' Hload) as [Hrl Hp].
    rewrite Hl in Hrl. injection Hrl as ->. cbn [rp_tp] in Hp. rewrite (proj1 (proj2 Hst)) in Hid. injection Hid as <-.
    destruct (ValidatorServices_join vend) as [[[h]|]|]; [|done|done]. apply bind_Ret_inv in Ht as (fn2 & Ht & [= <-]).
    eapply take_over_ok; [|exact Ht]. split; [done|done| |done|done]. exists (rp_tp rp). split.
    + unfold deref in *. cbn [fn_store fn_processor with_state without_role]. rewrite Hrole, list_lookup_insert_eq; [done|].
      destruct (fn_store fn !! fn_processor fn) eqn:E; [|done]. by apply lookup_lt_Some in E.
    + by eapply state_grows; [..|apply ledger_fits| |].
Qed.

Lemma lifetime_in_step fn new fn' es : lifetime fn new fn' -> node_ok fn es -> ledger_ok (es ++ new) -> loads_no_program new ->
  node_ok fn' (es ++ new).
Proof.
  intros Hs. revert es. induction Hs as [fn|fn new1 fn1 new2 fn2 Hslot _ IH]; intros es Hn Hok Hl; [by rewrite app_nil_r|].
  apply Forall_app in Hl as [Hl1 Hl2]. rewrite app_assoc in *. apply IH; [|done|done].
  eapply slot_in_step; [done..|by eapply ledger_ok_app|done].
Qed.

(** C2: one ledger, one state.  Two nodes that are in step with the same ledger
    and then go through any slots, as leader or as validator, each recording
    or receiving its own entries, have the same accounts, programs, recent ids
    and transaction count whenever their ledgers are the same.  A validator
    receives entries that chain; no entry loads a native program. *)
Theorem nodes_agree : forall es a a' new_a b b' new_b tpa tpb,
  node_ok a es -> lifetime a new_a a' -> ledger_ok (es ++ new_a) -> loads_no_program new_a ->
  node_ok b es -> lifetime b new_b b' -> ledger_ok (es ++ new_b) -> loads_no_program new_b ->
  fn_ledger a' = fn_ledger b' -> deref a' (fn_processor a') = Ret tpa -> deref b' (fn_processor b') = Ret tpb ->
  tp_accounts tpa = tp_accounts tpb /\ tp_loaded_contracts tpa = tp_loaded_contracts tpb /\
  tp_last_ids tpa = tp_last_ids tpb /\ tp_transaction_count tpa = tp_transaction_count tpb.
Proof.
  intros es a a' new_a b b' new_b tpa tpb Ha Hsa Hoka Hla Hb Hsb Hokb Hlb Heq Hda Hdb.
  pose proof (lifetime_in_step _ _ _ _ Hsa Ha Hoka Hla) as [Hfa _ (ta & Hta & Hsta) _ _].
  pose proof (lifetime_in_step _ _ _ _ Hsb Hb Hokb Hlb) as [Hfb _ (tb & Htb & Hstb) _ _].
  rewrite Hda in Hta. rewrite Hdb in Htb. injection Hta as <-. injection Htb as <-. rewrite Hfa, Hfb in Heq.
  apply files_of_inj in Heq; [|done..]. rewrite <- Heq in Hstb. by eapply state_unique.
Qed.

(** Naming a leader in the node's own record. *)
Lemma set_leader_returns bt k now : bt_ok bt -> 0 <= bt_update_index bt < u64_max ->
  (forall me, bt_table bt !! bt_id bt = Some me -> 0 <= ni_version me < u64_max) ->
  exists bt' me, set_leader bt k now = Ret bt' /\ bt_table bt' !! bt_id bt = Some me /\ ni_leader_id me = k.
Proof.
  intros Hok Hu Hv. destruct (ok_self _ Hok) as [me Hme]. specialize (Hv me Hme). unfold set_leader, my_data. rewrite Hme.
  cbn [unwrap mbind outcome_bind]. rewrite u64_add_exact, bind_Ret by (apply in_u64_iff; lia). unfold insert.
  cbn [ni_id ni_version set_version set_leader_id]. rewrite (ok_ids _ Hok _ _ Hme), Hme.
  rewrite (proj2 (Z.ltb_lt _ _)) by lia. rewrite u64_add_exact, bind_Ret by (apply in_u64_iff; lia).
  cbn [mbind outcome_bind]. eexists _, _. split; [done|]. cbn [bt_table update_liveness set_alive].
  by rewrite lookup_insert_eq.
Qed.


(** The RPC service is not told: after a leader has stepped down it answers
    from the processor the node had before, which nothing updates any more. *)
Lemma rpc_left_behind clock now rpu_end fn fn' r tp bt lf :
  leader_to_validator clock now rpu_end fn = Ret (Ok tt, fn') -> (fn_rpc_service fn < length (fn_store fn))%nat ->
  node_role fn' = Some (Validator r) ->
  deref (with_state fn' (tg_processor (va_tx_signer r)) tp bt lf) (fn_rpc_service fn') = deref fn (fn_rpc_service fn).
Proof.
  intros Hs Hlt Hr. unfold leader_to_validator in Hs. apply bind_Ret_inv in Hs as ([[[tp1 h] tail] lf1] & _ & Hs).
  apply bind_Ret_inv in Hs as (sl & _ & Hs). apply bind_Ret_inv in Hs as (bt1 & _ & Hs).
  destruct (fn_rpu fn); [destruct (Rpu_join rpu_end); [|done]|]; injection Hs as <-; injection Hr as <-; unfold deref;
    cbn [with_state fn_store fn_rpc_service start_validator va_tx_signer tg_processor];
    rewrite list_lookup_insert_ne by lia; by rewrite lookup_app_l.
Qed.
End Roles.

(** ** Starting from a ledger *)

Section Start.
Context `{Profile} `{Libloading} `{!Games} `{Sha256} `{Ed25519} `{ByteOrder} `{!ByteOrderOk} `{Bincode Entry} `{!BincodeOk Entry}
  `{!BincodeFrom Entry} `{!BincodeFromOk Entry} `{Bincode U64} `{!BincodeU64Ok} `{!BincodeFrom U64} `{!BincodeFromOk U64}
  `{Bincode Pubkey} `{!PubkeyWire} `{Bincode SystemInstruction} `{Bincode Instruction} `{Bincode FinPlanState}
  `{Bincode StorageInstruction}.

Lemma length_last_window {A} (l : list A) : length (last_window l) = Nat.min (length l) WINDOW_SIZE.
Proof. unfold last_window. rewrite length_drop. lia. Qed.

(** The window a node starts with holds the last entries of its ledger. *)
Lemma start_window es id : block_ok (last_window es) -> wf id -> fits es ->
  exists w, new_window_from_entries (last_window es) (Z.of_nat (length es)) id = Ret w /\
    forall j e, last_window es !! j = Some e ->
      exists b, holds_at w (Z.of_nat (length es - length (last_window es) + j)) b /\
        carries (Z.of_nat (length es - length (last_window es))) id j e b.
Proof.
  intros Hb Hid Hf. pose proof (length_last_window es) as Hlen. apply in_u64_iff in Hf.
  set (start := Z.of_nat (length es - length (last_window es))).
  destruct (block_to_blobs_raw (last_window es) Hb) as (bs & E & Hr); [lia|].
  unfold new_window_from_entries. rewrite E, bind_Ret. unfold initialized_window.
  pose proof (Forall2_length _ _ _ Hr) as Hl. rewrite <- Hl. unfold u64_sub, arith.
  assert (Hs : Z.of_nat (length es) - Z.of_nat (length (last_window es)) = start) by (unfold start; lia).
  rewrite Hs. rewrite (proj2 (in_u64_iff start)) by (unfold start; lia). rewrite bind_Ret.
  destruct (index_blobs_leads id start 0 _ _ Hr Hid) as (bs' & E' & Hlead); [unfold start; lia|unfold start; lia|].
  rewrite Z.add_0_r in Hlead. unfold index_blobs. rewrite E', bind_Ret. destruct (leads_numbered _ _ _ _ Hlead) as [Hn _].
  destruct Hlead as [Hl' Hlk].
  assert (Hd : length default_window = WINDOW_SIZE) by apply length_replicate.
  rewrite Hd. replace (length bs' - WINDOW_SIZE)%nat with O by lia. rewrite drop_0.
  destruct (cache_blobs_spec bs' start default_window) as (w & Ew & _ & Hh & _); [done|lia|unfold start; lia|done| |].
  { intros ix _. exists WindowSlot_default. split; [|done]. apply lookup_replicate_2, slot_of_lt. }
  exists w. split; [done|]. intros j e Hj. destruct (lookup_lt_is_Some_2 bs' j) as [b Hbj].
  { rewrite Hl'. by eapply lookup_lt_Some. }
  exists b. destruct (Hlk j b Hbj) as (e' & He' & Hc). assert (e' = e) as -> by congruence.
  split; [|done]. rewrite Nat2Z.inj_add. by apply Hh.
Qed.

(** C18: a node starts.  From a ledger that has a state, whatever the clock, the
    node comes up in step with the ledger, as a leader when it is given none
    to follow and as a validator otherwise, at the height of the ledger; and
    its window holds each of the last [WINDOW_SIZE] entries under its height,
    so that it can answer the repair requests of others. *)
Theorem node_starts : forall clock info es L keypair leader_addr sigverify_disabled interval now,
  ledger_ok es -> state_of es L -> block_ok (last_window es) -> wf (ni_id info) -> ni_version info = 0 ->
  exists fn, Fullnode_new clock info (files_of es) keypair leader_addr sigverify_disabled interval now = Ret fn /\
    node_ok fn es /\
    match leader_addr, node_role fn with
    | None, Some (Leader s) => tc_entry_height (ls_tx_creator s) = Z.of_nat (length es)
    | Some _, Some (Validator s) => sv_consumed (tg_service (va_tx_signer s)) = Z.of_nat (length es)
    | _, _ => False
    end /\
    forall i e, (length es - WINDOW_SIZE <= i)%nat -> es !! i = Some e ->
      exists b, holds_at (fn_shared_window fn) (Z.of_nat i) b /\ get_index b = Ret (Z.of_nat i) /\
        payload_starts b (serialize e).
Proof.
  intros clock info es L keypair la sv iv now Hok (Hl & Hid & Hst) Hb Hw Hv. pose proof (ledger_fits es Hok) as Hfit.
  destruct (Hst clock) as (V & HV & Hp). assert (es <> []) as Hne by (by intros ->).
  assert (Hstate : state_of es V) by (by eapply replay_state).
  unfold Fullnode_new. rewrite rebuilt, Hp by done. cbn [mbind outcome_bind ok unwrap].
  assert (Hi : ni_id (match new_entry_point <$> la with None => set_leader_id (ni_id info) info | Some _ => info end) = ni_id info)
    by (by destruct la).
  destruct (start_window es (ni_id info) Hb Hw Hfit) as (w & Ew & Hwin).
  assert (Hholds : forall i e, (length es - WINDOW_SIZE <= i)%nat -> es !! i = Some e ->
    exists b, holds_at w (Z.of_nat i) b /\ get_index b = Ret (Z.of_nat i) /\ payload_starts b (serialize e)).
  { intros i e Hi' He. pose proof (length_last_window es) as Hll. pose proof (lookup_lt_Some _ _ _ He).
    destruct (Hwin (i - (length es - length (last_window es)))%nat e) as (b & Hh & _ & (Hgi & _) & Hpl & _).
    { unfold last_window in *. rewrite lookup_drop. rewrite <- He. f_equal. lia. }
    exists b. rewrite Nat.add_comm, Nat.sub_add in Hh by lia. split_and!; [done| |done].
    rewrite Hgi. cbn [h_index]. f_equal. lia. }
  unfold new_with_transaction_processor. rewrite Hi, Ew, bind_Ret.
  destruct la as [addr|]; cbn [fmap option_fmap option_map].
  - unfold bt_new. rewrite Hv. cbn [Z.eqb negb ok unwrap mbind outcome_bind].
    match goal with |- context [insert ?bt ?n now] => destruct (insert_returns bt n now) as (k & bt' & ->) end.
    { unfold u64_max. by destruct iv. }
    rewrite bind_Ret. eexists. split; [done|]. split_and!; [|done|done]. split; [done|done| |done|done]. by exists V.
  - unfold bt_new. cbn [ni_version set_leader_id]. rewrite Hv. cbn [Z.eqb negb ok unwrap mbind outcome_bind].
    eexists. split; [done|]. split_and!; [|done|done]. split; [done|done| |done|done]. by exists V.
Qed.
End Start.

(** ** The hypotheses can hold *)

Module FullnodeWitness.
Import Toy SystemCodec EntryCodec Runs.
#[local] Existing Instances ed keys_bincode pubkey_bincode hash_bincode bytes_bincode tx_bincode SystemCodec.i64_bincode
  u64_bincode_ok LedgerWitness.entry_from LedgerWitness.entry_from_ok LedgerWitness.u64_from LedgerWitness.u64_from_ok
  PacketWitness.le PacketWitness.le_ok entry_ok.
#[local] Instance key_wire : @PubkeyWire pubkey_bincode := PacketWitness.pk_ok.

Definition genesis : list Entry := [e0; e1; e2; e3].

Lemma genesis_ok : ledger_ok genesis.
Proof. split; [|vm_compute; reflexivity]. repeat constructor; try (vm_compute; reflexivity); done. Qed.

Lemma genesis_state : state_of genesis replayed.
Proof.
  apply (replay_state clock); [repeat constructor|by vm_compute|vm_compute; reflexivity].
Qed.

Definition own : NodeInfo := BlockThreadWitness.node Byte.x01.
Definition own_key : @Keypair ed := VoteWitness.voting_key.

Lemma node_starts_witness : exists fn,
  Fullnode_new clock own (files_of genesis) own_key None false None 7 = Ret fn /\ node_ok fn genesis /\
  match @None SocketAddr, node_role fn with
  | None, Some (Leader s) => tc_entry_height (ls_tx_creator s) = Z.of_nat (length genesis)
  | Some _, Some (Validator s) => sv_consumed (tg_service (va_tx_signer s)) = Z.of_nat (length genesis)
  | _, _ => False
  end /\
  forall i e, (length genesis - WINDOW_SIZE <= i)%nat -> genesis !! i = Some e ->
    exists b, holds_at (fn_shared_window fn) (Z.of_nat i) b /\ get_index b = Ret (Z.of_nat i) /\
      payload_starts b (serialize e).
Proof.
  apply (node_starts clock own genesis replayed own_key None false None 7);
    [apply genesis_ok|apply genesis_state| |done|done].
  split; (apply Forall_drop; repeat constructor; try (vm_compute; (reflexivity || discriminate)); done).
Defined.

(** A leader at height 4 whose slot ends at height 5, and a validator. *)
Definition next_leader : Pubkey := BlockThreadWitness.key_of Byte.x02.
Definition table : BlockThread := set_scheduled_leader BlockThreadWitness.led 5 next_leader.
Definition node_in (role : NodeRole) : Fullnode :=
  mk_fullnode (Some role) own_key false (Some (mk_rpu O false)) O [replayed] O table (files_of genesis) false [].
Definition leading : Fullnode := node_in (Leader (start_leader O false [] 4)).
Definition following : Fullnode := node_in (Validator (start_validator O [] 4)).

Lemma leading_ok : node_ok leading genesis.
Proof. split; [done|apply genesis_ok| |done|done]. exists replayed. split; [done|apply genesis_state]. Qed.
Lemma following_ok : node_ok following genesis.
Proof. split; [done|apply genesis_ok| |done|done]. exists replayed. split; [done|apply genesis_state]. Qed.

Lemma table_ok : bt_ok table.
Proof.
  assert (bt_ok BlockThreadWitness.led) as [? ? ? ?]; [|by split].
  eapply proj1, (set_leader_ok BlockThreadWitness.a0 (BlockThreadWitness.key_of Byte.x01) 5); [|by vm_compute].
  by apply (bt_new_ok (BlockThreadWitness.node Byte.x01)).
Qed.

Lemma table_self : bt_table table !! bt_id table = Some BlockThreadWitness.led_me.
Proof. vm_compute. reflexivity. Qed.

(** A payment, and a tick after the end of the slot. *)
Definition payment : Transaction :=
  mk_tx (sig_of Byte.x0b) [key 1; key 2] System_id (e_id e3) 0 (serialize (Move 5)).
Definition ops : list leader_op := [LTxs [payment] (fun _ => 102); LTick 1 103].
Definition recorder0 : PodRecorder := mk_recorder (Pod_new (e_id e3)) replayed [] true.
Definition recorder1 : PodRecorder := StageWitness.end_of (leader_run recorder0 ops).
Definition written : list Entry := take 1 (concat (pr_sent recorder1)).

Lemma ops_run : leader_run recorder0 ops = Some (Ret recorder1).
Proof. apply StageWitness.ran_end. vm_compute. reflexivity. Qed.

Lemma ops_admitted : Forall admitted ops.
Proof. repeat constructor. Qed.

Lemma written_ok : ledger_ok (genesis ++ written).
Proof. split; [|vm_compute; reflexivity]. repeat constructor; try (vm_compute; reflexivity); done. Qed.

Definition lends : leader_threads :=
  mk_lthreads (Ok BroadcastChannelDisconnected) [Ok tt] [Ok tt] [Ok tt; Ok tt] [] (Ok WriteLeaderRotation).
Definition vends : validator_threads := mk_vthreads [Ok tt] [Ok tt] (Ok tt) (Ok (Some (LeaderRotation 5))).
Definition rends : rpu_threads := mk_rthreads [Ok tt; Ok tt] (Ok tt).


(** The node after a change of role. *)
Definition rotated (r : outcome (thread_result (option FullnodeReturnType) * Fullnode)) : bool :=
  match r with Ret (Ok (Some FullnodeLeaderRotation), _) => true | _ => false end.
Definition node_of (r : outcome (thread_result (option FullnodeReturnType) * Fullnode)) : Fullnode :=
  match r with Ret (_, fn) => fn | Panic => leading end.
Lemma rotated_node r : rotated r = true -> r = Ret (Ok (Some FullnodeLeaderRotation), node_of r).
Proof. by destruct r as [[[[[]|]|] fn]|]. Qed.

(** The leader stops at the end of its slot; the validator has received its
    entry and leads from then on. *)
Definition stepped_down : Fullnode := node_of (handle_role_transition clock 9 rends lends vends
  (with_state leading O (pr_tp recorder1) table (files_of (genesis ++ written)))).
Definition rep0 : replica := mk_replica replayed table (Some (files_of genesis)).
Definition rep1 : replica :=
  match replicate_requests rep0 own_key None (Ok written) [] ReplicateWitness.tm0 with Ret (_, _, rp) => rp | Panic => rep0 end.
Definition took_over : Fullnode := node_of (handle_role_transition clock 9 rends lends vends
  (with_state following O (rp_tp rep1) (rp_bt rep1) (files_of (genesis ++ written)))).
Definition state_in (fn : Fullnode) : TransactionProcessor :=
  match deref fn (fn_processor fn) with Ret tp => tp | Panic => replayed end.

Lemma leader_life : lifetime leading (written ++ []) stepped_down.
Proof.
  eapply lifetime_cons; [|apply lifetime_nil].
  eapply (slot_leader leading (start_leader O false [] 4) replayed recorder0 ops recorder1 written
    (drop 1 (concat (pr_sent recorder1)))); [done|done|vm_compute; reflexivity|apply ops_admitted|done|apply ops_run
    |symmetry; apply take_drop|apply (write_entries_files genesis); apply written_ok|].
  apply rotated_node. vm_compute. reflexivity.
Qed.

Lemma validator_life : lifetime following (written ++ []) took_over.
Proof.
  eapply lifetime_cons; [|apply lifetime_nil]. rewrite <- (app_nil_r written).
  eapply (slot_validator following (start_validator O [] 4) replayed (e_id e3) (written ++ []) rep1
    (files_of (genesis ++ written))); [done|done| |vm_compute; reflexivity..|].
  - rewrite <- (app_nil_r (written ++ [])). change (written ++ []) with (written ++ concat []).
    apply (replicated_cons rep0 own_key None written [] ReplicateWitness.tm0 None rep1); [vm_compute; reflexivity|].
    apply replicated_nil.
  - apply rotated_node. vm_compute. reflexivity.
Qed.

Lemma written_ok' : ledger_ok (genesis ++ written ++ []).
Proof. rewrite app_nil_r. apply written_ok. Qed.
Lemma loads_check es : forallb (fun e => forallb (fun tx => negb (is_load tx)) (e_transactions e)) es = true -> loads_no_program es.
Proof.
  intros Hb. apply Forall_forall. intros e He. apply Forall_forall. intros tx Htx.
  rewrite forallb_forall in Hb. specialize (Hb e). rewrite forallb_forall in Hb.
  rewrite <- list_elem_of_In in Hb. specialize (Hb He tx). rewrite <- list_elem_of_In in Hb. by apply negb_true_iff, Hb.
Qed.
Lemma written_loads : loads_no_program (written ++ []).
Proof. apply loads_check. vm_compute. reflexivity. Qed.
Lemma same_ledger : fn_ledger stepped_down = fn_ledger took_over.
Proof. vm_compute. reflexivity. Qed.
Lemma held fn : (match deref fn (fn_processor fn) with Ret _ => true | Panic => false end) = true ->
  deref fn (fn_processor fn) = Ret (state_in fn).
Proof. unfold state_in. by destruct (deref fn (fn_processor fn)). Qed.

Lemma nodes_agree_witness : tp_accounts (state_in stepped_down) = tp_accounts (state_in took_over) /\
  tp_loaded_contracts (state_in stepped_down) = tp_loaded_contracts (state_in took_over) /\
  tp_last_ids (state_in stepped_down) = tp_last_ids (state_in took_over) /\
  tp_transaction_count (state_in stepped_down) = tp_transaction_count (state_in took_over).
Proof.
  apply (nodes_agree genesis leading stepped_down (written ++ []) following took_over (written ++ [])
    (state_in stepped_down) (state_in took_over) leading_ok leader_life written_ok' written_loads
    following_ok validator_life written_ok' written_loads same_ledger).
  - apply held. vm_compute. reflexivity.
  - apply held. vm_compute. reflexivity.
Defined.
End FullnodeWitness.
