(* ===== verification/Rpc.v ===== *)
(** * The JSON-RPC service

    [src/rpc.rs]: the methods a node answers over HTTP.  Base58 (the [bs58]
    crate) and the HTTP and JSON machinery ([jsonrpc]) are not in the
    repository: the first is a parameter with its round trip, the second the
    law in [Wallet.v] that a client sees the result of the method it calls. *)

From S2P Require Import Prelude.
From S2P Require Import Types.
From S2P Require Import Codec.
From S2P Require Import Packet.
From S2P Require Import FinPlan.
From S2P Require Import FinPlanProgram.
From S2P Require Import SystemProgram.
From S2P Require Import Transactions.
From S2P Require Import Entry.
From S2P Require Import Block.
From S2P Require Import Processor.
From S2P Require Import BlockThread.
From S2P Require Import Broadcast.

(** The [bs58] crate. *)
Class Base58 := {
  bs58_encode : bytes -> string;
  bs58_decode : string -> option bytes }.
Class Base58Ok `{Base58} : Prop := {
  bs58_decode_encode : forall b, bs58_decode (bs58_encode b) = Some b }.

(** [Display] of keys, signatures and hashes. *)
Definition show_pubkey `{Base58} (k : Pubkey) : string := bs58_encode (pubkey_bytes k).
Definition show_signature `{Base58} (s : Signature) : string := bs58_encode (signature_bytes s).
Definition show_hash `{Base58} (h : Hash) : string := bs58_encode (hash_bytes h).

(** The errors of [jsonrpc_core] that the methods return. *)
Inductive RpcError := InvalidRequest | InternalError.

Inductive RpcSignatureStatus := Confirmed | StatusSignatureNotFound | StatusProgramRuntimeError | GenericFailure.
#[export] Instance RpcSignatureStatus_eq_dec : EqDecision RpcSignatureStatus.
Proof. solve_decision. Defined.

Section RpcMethods.
Context `{Libloading} `{Base58} `{Bincode FinPlanState} `{Bincode Transaction}.

(** [Meta]: the request processor holds the node's processor. *)
Record RpcMeta := mk_rpc_meta {
  rm_processor : TransactionProcessor;
  rm_transactions_addr : SocketAddr;
  rm_faucet_addr : SocketAddr }.

(** Decoding an argument of the methods. *)
Definition rpc_pubkey (id : string) : outcome (result Pubkey RpcError) :=
  match bs58_decode id with
  | None => Ret (Err InvalidRequest)
  | Some v => if negb (length v =? 32)%nat then Ret (Err InvalidRequest) else p ← Pubkey_new v; Ret (Ok p)
  end.
Definition rpc_signature (id : string) : outcome (result Signature RpcError) :=
  match bs58_decode id with
  | None => Ret (Err InvalidRequest)
  | Some v => if negb (length v =? 64)%nat then Ret (Err InvalidRequest) else s ← Signature_new v; Ret (Ok s)
  end.

Definition rpc_get_account_info (meta : RpcMeta) (id : string) : outcome (result Account RpcError) :=
  pubkey <-? rpc_pubkey id;
  Ret (match get_account (rm_processor meta) pubkey with Some a => Ok a | None => Err InvalidRequest end).

Definition rpc_get_balance (meta : RpcMeta) (id : string) : outcome (result Z RpcError) :=
  pubkey <-? rpc_pubkey id; Ret (Ok (get_balance (rm_processor meta) pubkey)).

Definition rpc_get_finality (meta : RpcMeta) : outcome (result Z RpcError) := Ret (Ok (finality (rm_processor meta))).

Definition rpc_get_last_id (meta : RpcMeta) : outcome (result string RpcError) :=
  id ← last_id (rm_processor meta); Ret (Ok (show_hash id)).

(** [order]: how the map of signatures is walked. *)
Definition rpc_get_signature_status (meta : RpcMeta) (order : list Hash) (id : string)
    : outcome (result RpcSignatureStatus RpcError) :=
  signature <-? rpc_signature id;
  Ret (Ok (match get_signature_status (rm_processor meta) order signature with
           | Ok _ => Confirmed
           | Err ProgramRuntimeError => StatusProgramRuntimeError
           | Err SignatureNotFound => StatusSignatureNotFound
           | Err _ => GenericFailure
           end)).

Definition rpc_confirm_transaction (meta : RpcMeta) (order : list Hash) (id : string) : outcome (result bool RpcError) :=
  status <-? rpc_get_signature_status meta order id; Ret (Ok (bool_decide (status = Confirmed))).

Definition rpc_get_transaction_count (meta : RpcMeta) : outcome (result Z RpcError) :=
  Ret (Ok (tp_transaction_count (rm_processor meta))).

(** The loop of [request_airdrop]: each turn sees the processor as it is then
    and the seconds that have passed; [None] when it goes on. *)
Fixpoint await_airdrop (signature : Signature) (turns : list (TransactionProcessor * list Hash * Z))
    : option (result string RpcError) :=
  match turns with
  | [] => None
  | (tp, order, elapsed) :: rest =>
      if is_ok (get_signature_status tp order signature) then Some (Ok (show_signature signature))
      else if 5 <? elapsed then Some (Err InternalError)
      else await_airdrop signature rest
  end.

(** [faucet]: what [qtc::request_airdrop] returned. *)
Definition rpc_request_airdrop (id : string) (faucet : Pubkey -> result Signature unit)
    (turns : list (TransactionProcessor * list Hash * Z)) : outcome (option (result string RpcError)) :=
  r ← rpc_pubkey id;
  match r with
  | Err e => Ret (Some (Err e))
  | Ok pubkey =>
      match faucet pubkey with
      | Err _ => Ret (Some (Err InternalError))
      | Ok signature => Ret (await_airdrop signature turns)
      end
  end.

(** [sent]: whether the socket took the datagram; it is the data as received. *)
Definition rpc_send_transaction (meta : RpcMeta) (data : bytes) (sent : bool)
    : result string RpcError * list datagram :=
  match deserialize (A := Transaction) data with
  | None => (Err InvalidRequest, [])
  | Some tx =>
      if sent then (Ok (show_signature (tx_signature tx)), [(data, rm_transactions_addr meta)])
      else (Err InternalError, [])
  end.
End RpcMethods.

(** ** What the methods promise *)

Section RpcLaws.
Context `{Libloading} `{Base58} `{!Base58Ok} `{Bincode FinPlanState} `{Bincode Transaction}.

Lemma rpc_pubkey_show k : wf k -> rpc_pubkey (show_pubkey k) = Ret (Ok k).
Proof.
  intros Hk. unfold rpc_pubkey, show_pubkey. rewrite bs58_decode_encode. unfold wf, Pubkey_wf in Hk. rewrite Hk.
  cbn [Nat.eqb negb]. unfold Pubkey_new. rewrite Hk. cbn. by destruct k.
Qed.

Lemma rpc_signature_show s : wf s -> rpc_signature (show_signature s) = Ret (Ok s).
Proof.
  intros Hs. unfold rpc_signature, show_signature. rewrite bs58_decode_encode. unfold wf, Signature_wf in Hs. rewrite Hs.
  cbn [Nat.eqb negb]. unfold Signature_new. rewrite bool_decide_true by done. cbn. by destruct s.
Qed.

(** A malformed argument is refused, and nothing panics. *)
Lemma rpc_pubkey_total id : exists r, rpc_pubkey id = Ret r /\
  match r with Ok k => wf k /\ bs58_decode id = Some (pubkey_bytes k) | Err e => e = InvalidRequest end.
Proof.
  unfold rpc_pubkey. destruct (bs58_decode id) as [v|]; [|by eexists].
  destruct (length v =? 32)%nat eqn:E; cbn [negb]; [|by eexists]. apply Nat.eqb_eq in E.
  unfold Pubkey_new. rewrite bool_decide_true by done. cbn [mbind outcome_bind]. eexists. split; [done|]. done.
Qed.

Lemma confirm_iff meta order s : wf s ->
  rpc_confirm_transaction meta order (show_signature s) =
    Ret (Ok (is_ok (get_signature_status (rm_processor meta) order s))).
Proof.
  intros Hs. unfold rpc_confirm_transaction, rpc_get_signature_status. rewrite rpc_signature_show by done.
  cbn [try_bind]. destruct (get_signature_status _ _ _) as [|[]]; done.
Qed.
End RpcLaws.
