(* ===== verification/Wallet.v ===== *)
(** * The wallet

    [src/qtc.rs]: the commands of the wallet, from their arguments to the
    requests it makes.  The argument parser ([clap]), the HTTP client, JSON
    text and dates are not in the repository: parsed arguments are a lookup
    from names to values, a request is a JSON value posted to the node, and
    reading a date is a parameter. *)

From S2P Require Import Prelude.
From S2P Require Import Types.
From S2P Require Import Codec.
From S2P Require Import Packet.
From S2P Require Import FinPlan.
From S2P Require Import FinPlanProgram.
From S2P Require Import SystemProgram.
From S2P Require Import Transactions.
From S2P Require Import Entry.
From S2P Require Import Block.
From S2P Require Import Processor.
From S2P Require Import ProcessorRuns.
From S2P Require Import BlockThread.
From S2P Require Import Broadcast.
From S2P Require Import VoteStage.
From S2P Require Import Faucet.
From S2P Require Import Rpc.

From stdpp Require Import pretty.

Local Open Scope string_scope.
Local Open Scope list_scope.
Local Open Scope Z_scope.

(** [serde_json::Value]; a number that is no integer has no value here. *)
Inductive Value :=
  | VNull
  | VBool (b : bool)
  | VNumber (n : Z)
  | VFloat
  | VString (s : string)
  | VArray (l : list Value)
  | VObject (l : list (string * Value)).

Definition as_i64 (v : Value) : option Z := match v with VNumber n => if in_i64 n then Some n else None | _ => None end.
Definition as_bool (v : Value) : option bool := match v with VBool b => Some b | _ => None end.
Definition as_str (v : Value) : option string := match v with VString s => Some s | _ => None end.
Definition is_object (v : Value) : bool := match v with VObject _ => true | _ => false end.

(** [json["name"]]: [Null] when there is no such member. *)
Fixpoint member (name : string) (l : list (string * Value)) : Value :=
  match l with
  | [] => VNull
  | (n, v) :: rest => if bool_decide (n = name) then v else member name rest
  end.
Definition get (v : Value) (name : string) : Value := match v with VObject l => member name l | _ => VNull end.

(** A [Vec<u8>] as JSON: an array of numbers. *)
Definition json_bytes (b : bytes) : Value := VArray (VNumber ∘ byte_to_Z <$> b).

Inductive QtcCommand :=
  | Address
  | AirDrop (tokens : Z)
  | Balance
  | Cancel (process_id : Pubkey)
  | Confirm (signature : Signature)
  | PayTo (tokens : Z) (to : Pubkey) (timestamp : option DateTime) (timestamp_pubkey : option Pubkey)
      (witnesses : option (list Pubkey)) (cancelable : option Pubkey)
  | TimeElapsed (to process_id : Pubkey) (dt : DateTime)
  | WitnessFor (to process_id : Pubkey).

(** The errors of [QtcError], and those of the libraries that are passed on. *)
Inductive QtcError :=
  | CommandNotRecognized (s : string)
  | BadParameter (s : string)
  | RpcRequestError (s : string)
  | ParseIntError
  | DateError
  | HttpError
  | FaucetIo
  | AirdropFailed.

Inductive QtcRpcRequest :=
  | ConfirmTransaction | GetAccountInfo | GetBalance | GetFinality | GetLastId
  | GetTransactionCount | RequestAirdrop | SendTransaction.

Definition rpc_method (r : QtcRpcRequest) : string :=
  match r with
  | ConfirmTransaction => "confirmTransaction"
  | GetAccountInfo => "getAccountInfo"
  | GetBalance => "getBalance"
  | GetFinality => "getFinality"
  | GetLastId => "getLastId"
  | GetTransactionCount => "getTransactionCount"
  | RequestAirdrop => "requestAirdrop"
  | SendTransaction => "sendTransaction"
  end.

(** ** Parsing the command line *)

(** The characters looked for. *)
Definition minus : Ascii.ascii := Ascii.ascii_of_nat 45.
Definition plus : Ascii.ascii := Ascii.ascii_of_nat 43.
Definition zulu : Ascii.ascii := Ascii.ascii_of_nat 90.
Definition quotation : Ascii.ascii := Ascii.ascii_of_nat 34.

(** [str::parse::<i64>]: an optional sign and digits, in range. *)
Definition digit (c : Ascii.ascii) : option Z :=
  let n := Z.of_nat (Ascii.nat_of_ascii c) - 48 in if (0 <=? n) && (n <=? 9) then Some n else None.
Fixpoint digits (s : string) (acc : Z) : option Z :=
  match s with
  | EmptyString => Some acc
  | String c rest => d ← digit c; digits rest (10 * acc + d)
  end.
Definition number (s : string) : option Z := match s with EmptyString => None | String _ _ => digits s 0 end.
Definition parse_i64 (s : string) : option Z :=
  n ← (match s with
       | String c rest =>
           if bool_decide (c = minus) then Z.opp <$> number rest
           else if bool_decide (c = plus) then number rest
           else number s
       | EmptyString => None
       end);
  if in_i64 n then Some n else None.

Fixpoint has_char (c : Ascii.ascii) (s : string) : bool :=
  match s with EmptyString => false | String d rest => bool_decide (c = d) || has_char c rest end.

(** [ArgMatches]: the values given for each argument of a subcommand. *)
Record ArgMatches := mk_matches { am_subcommand : option (string * (string -> option (list string))) }.
Definition value_of (args : string -> option (list string)) (name : string) : option string := args name ≫= head.
Definition is_present (args : string -> option (list string)) (name : string) : bool :=
  match args name with Some _ => true | None => false end.

(** Reading a date with [serde_json] and [chrono]. *)
Class DateText := parse_date : string -> option DateTime.

Section Parse.
Context `{Base58} `{DateText}.

(** [bs58::decode(value_of(..).unwrap()).expect(..)], and the length. *)
Definition arg_bytes (arg : option string) : outcome bytes := s ← unwrap arg; unwrap (bs58_decode s).
Definition arg_pubkey (arg : option string) (msg : string) : outcome (result Pubkey QtcError) :=
  v ← arg_bytes arg;
  if negb (length v =? 32)%nat then Ret (Err (BadParameter msg)) else k ← Pubkey_new v; Ret (Ok k).
Fixpoint arg_pubkeys (args : list string) (msg : string) : outcome (result (list Pubkey) QtcError) :=
  match args with
  | [] => Ret (Ok [])
  | a :: rest => k <-? arg_pubkey (Some a) msg; ks <-? arg_pubkeys rest msg; Ret (Ok (k :: ks))
  end.

(** The date in quotes, in UTC when it names no zone. *)
Definition arg_date (s : string) : result DateTime QtcError :=
  let quote := String quotation EmptyString in
  let text := if negb (has_char zulu s) then quote +:+ s +:+ "Z" +:+ quote else quote +:+ s +:+ quote in
  match parse_date text with Some dt => Ok dt | None => Err DateError end.

Definition arg_i64 (arg : option string) : outcome (result Z QtcError) :=
  s ← unwrap arg; Ret (match parse_i64 s with Some n => Ok n | None => Err ParseIntError end).

Definition parse_pay (pubkey : Pubkey) (args : string -> option (list string)) : outcome (result QtcCommand QtcError) :=
  tokens <-? arg_i64 (value_of args "tokens");
  to <-? (if is_present args "to" then arg_pubkey (value_of args "to") "Invalid to public key" else Ret (Ok pubkey));
  timestamp <-? (if is_present args "timestamp" then
                   s ← unwrap (value_of args "timestamp");
                   Ret (match arg_date s with Ok dt => Ok (Some dt) | Err e => Err e end)
                 else Ret (Ok None));
  timestamp_pubkey <-? (if is_present args "timestamp-pubkey" then
                          k <-? arg_pubkey (value_of args "timestamp-pubkey") "Invalid timestamp public key"; Ret (Ok (Some k))
                        else Ret (Ok None));
  witness_vec <-? (if is_present args "witness" then
                     ws ← unwrap (args "witness");
                     ks <-? arg_pubkeys ws "Invalid witness public key"; Ret (Ok (Some ks))
                   else Ret (Ok None));
  let cancelable := if is_present args "cancelable" then Some pubkey else None in
  Ret (Ok (PayTo tokens to timestamp timestamp_pubkey witness_vec cancelable)).

(** [now] is [Utc::now()]. *)
Definition parse_command (pubkey : Pubkey) (matches : ArgMatches) (now : DateTime) : outcome (result QtcCommand QtcError) :=
  match am_subcommand matches with
  | None => Ret (Err (CommandNotRecognized "no subcommand given"))
  | Some (name, args) =>
      if bool_decide (name = "address") then Ret (Ok Address)
      else if bool_decide (name = "airdrop") then tokens <-? arg_i64 (value_of args "tokens"); Ret (Ok (AirDrop tokens))
      else if bool_decide (name = "balance") then Ret (Ok Balance)
      else if bool_decide (name = "cancel") then
        k <-? arg_pubkey (value_of args "process-id") "Invalid public key"; Ret (Ok (Cancel k))
      else if bool_decide (name = "confirm") then
        v ← arg_bytes (value_of args "signature");
        if (length v =? 64)%nat then s ← Signature_new v; Ret (Ok (Confirm s))
        else Ret (Err (BadParameter "Invalid signature"))
      else if bool_decide (name = "pay") then parse_pay pubkey args
      else if bool_decide (name = "send-signature") then
        to <-? arg_pubkey (value_of args "to") "Invalid public key";
        process_id <-? arg_pubkey (value_of args "process-id") "Invalid public key";
        Ret (Ok (WitnessFor to process_id))
      else if bool_decide (name = "send-timestamp") then
        to <-? arg_pubkey (value_of args "to") "Invalid public key";
        process_id <-? arg_pubkey (value_of args "process-id") "Invalid public key";
        dt <-? (if is_present args "datetime" then s ← unwrap (value_of args "datetime"); Ret (arg_date s)
                else Ret (Ok now));
        Ret (Ok (TimeElapsed to process_id dt))
      else Panic
  end.
End Parse.

(** ** The network *)

(** What the wallet reaches: the RPC address of a node over HTTP, with the
    response read as JSON; the faucet over TCP, with the bytes it answers; and
    time that passes.  [W] is the state of the rest of the world. *)
Class Outside (W : Type) := {
  http_post : W -> string -> Value -> result Value unit * W;
  tcp_exchange : W -> SocketAddr -> bytes -> result bytes unit * W;
  sleep_500ms : W -> W }.

(** Printing a JSON object. *)
Class JsonText := json_to_string : Value -> string.

Section Commands.
Context `{Profile} `{Base58} `{JsonText} `{Ed25519} `{Bincode Transaction} `{Bincode Signature} `{Bincode DroneRequest}
  `{Bincode (list Pubkey)} `{Bincode Pubkey} `{Bincode Hash} `{Bincode I64} `{Bincode bytes} `{Bincode SystemInstruction}
  `{Bincode Instruction} `{Outside W}.

(** A computation in the world that may fail or panic. *)
Definition Q (A : Type) : Type := W -> outcome (result A QtcError * W).
Definition q_ret {A} (a : A) : Q A := fun w => Ret (Ok a, w).
Definition q_err {A} (e : QtcError) : Q A := fun w => Ret (Err e, w).
Definition q_bind {A B} (m : Q A) (k : A -> Q B) : Q B := fun w =>
  match m w with
  | Ret (Ok a, w') => k a w'
  | Ret (Err e, w') => Ret (Err e, w')
  | Panic => Panic
  end.
Definition q_pure {A} (m : outcome A) : Q A := fun w => a ← m; Ret (Ok a, w).
Notation "x '<~' m ; k" := (q_bind m (fun x => k)) (at level 20, m at level 100, k at level 200, only parsing).

Record QtcConfig := mk_config {
  cf_leader : NodeInfo; cf_id : Keypair; cf_faucet_addr : SocketAddr; cf_rpc_addr : string; cf_command : QtcCommand }.

(** The JSON-RPC request. *)
Definition rpc_body (req : QtcRpcRequest) (id : Z) (params : option Value) : Value :=
  VObject ([("jsonrpc", VString "2.0"); ("id", VNumber id); ("method", VString (rpc_method req))] ++
           match params with Some p => [("params", VArray [p])] | None => [] end).

Definition make_rpc_request (req : QtcRpcRequest) (rpc_addr : string) (id : Z) (params : option Value) : Q Value := fun w =>
  let '(r, w') := http_post w rpc_addr (rpc_body req id params) in
  match r with
  | Err _ => Ret (Err HttpError, w')
  | Ok json =>
      if is_object (get json "error") then Ret (Err (RpcRequestError "RPC Error response"), w')
      else Ret (Ok (get json "result"), w')
  end.

Definition wallet_last_id (config : QtcConfig) : Q Hash :=
  result <~ make_rpc_request GetLastId (cf_rpc_addr config) 1 None;
  match as_str result with
  | None => q_err (RpcRequestError "Received bad last_id")
  | Some s =>
      match bs58_decode s with
      | None => q_err (RpcRequestError "Received bad last_id")
      | Some v => q_pure (Hash_new v)
      end
  end.

Definition serialize_and_send_tx (config : QtcConfig) (tx : Transaction) : Q string :=
  signature <~ make_rpc_request SendTransaction (cf_rpc_addr config) 2 (Some (json_bytes (serialize tx)));
  match as_str signature with
  | None => q_err (RpcRequestError "Received result of an unexpected type")
  | Some s => q_ret s
  end.

(** [request_airdrop]: the answer must fill a signature. *)
Definition request_airdrop (faucet_addr : SocketAddr) (id : Pubkey) (tokens : Z) : Q Signature := fun w =>
  let '(r, w') := tcp_exchange w faucet_addr (serialize (GetAirdrop tokens id)) in
  match r with
  | Err _ => Ret (Err FaucetIo, w')
  | Ok answer =>
      if (length answer <? 64)%nat then Ret (Err FaucetIo, w')
      else match deserialize (A := Signature) (take 64 answer) with
           | Some s => Ret (Ok s, w')
           | None => Ret (Err FaucetIo, w')
           end
  end.

Definition wallet_balance (config : QtcConfig) : Q (option Z) :=
  v <~ make_rpc_request GetBalance (cf_rpc_addr config) 1 (Some (VString (show_pubkey (keypair_pubkey (cf_id config)))));
  q_ret (as_i64 v).

(** The loop that waits for the airdrop: [n] turns left. *)
Fixpoint await_balance (config : QtcConfig) (previous current : Z) (n : nat) : Q Z :=
  match n with
  | O => q_ret current
  | S n' =>
      _ <~ (fun w => Ret (Ok tt, sleep_500ms w));
      b <~ wallet_balance config;
      let current := default previous b in
      if negb (previous =? current) then q_ret current else await_balance config previous current n'
  end.

(** The three transactions of a conditional payment; [plan_tx] is the last. *)
Definition send_contract (config : QtcConfig) (funds state : Keypair) (tokens : Z) (last_id : Hash)
    (plan_tx : outcome Transaction) : Q string :=
  tx1 <~ q_pure (system_create (cf_id config) (keypair_pubkey funds) last_id tokens 0 FinPlan_id 0);
  _ <~ serialize_and_send_tx config tx1;
  tx2 <~ q_pure (system_create (cf_id config) (keypair_pubkey state) last_id 1 196 FinPlan_id 0);
  _ <~ serialize_and_send_tx config tx2;
  tx3 <~ q_pure plan_tx;
  signature <~ serialize_and_send_tx config tx3;
  q_ret (json_to_string (VObject [("signature", VString signature); ("processId", VString (show_pubkey (keypair_pubkey state)))])).

(** [funds] and [state]: the key pairs [Keypair::new] makes. *)
Definition process_pay (config : QtcConfig) (funds state : Keypair) (tokens : Z) (to : Pubkey) (timestamp : option DateTime)
    (timestamp_pubkey : option Pubkey) (witnesses : option (list Pubkey)) (cancelable : option Pubkey) : Q string :=
  last_id <~ wallet_last_id config;
  match timestamp, witnesses with
  | None, None =>
      tx <~ q_pure (system_new (cf_id config) to tokens last_id); serialize_and_send_tx config tx
  | Some dt, None =>
      let dt_pubkey := default (keypair_pubkey (cf_id config)) timestamp_pubkey in
      send_contract config funds state tokens last_id
        (fin_plan_new_on_date funds to (keypair_pubkey state) dt dt_pubkey cancelable tokens last_id)
  | None, Some witness_vec =>
      last_id <~ wallet_last_id config;
      witness <~ q_pure (index witness_vec 0);
      send_contract config funds state tokens last_id
        (fin_plan_new_when_signed funds to (keypair_pubkey state) witness cancelable tokens last_id)
  | Some _, Some _ => q_ret "Combo transactions not yet handled"
  end.

(** One token for the fee, when the wallet has none. *)
Definition fund_if_empty (config : QtcConfig) : Q unit :=
  balance <~ wallet_balance config;
  match balance with
  | Some 0 => _ <~ request_airdrop (cf_faucet_addr config) (keypair_pubkey (cf_id config)) 1; q_ret tt
  | _ => q_ret tt
  end.

Definition process_command (config : QtcConfig) (funds state : Keypair) : Q string :=
  let me := keypair_pubkey (cf_id config) in
  match cf_command config with
  | Address => q_ret (show_pubkey me)
  | AirDrop tokens =>
      b <~ wallet_balance config;
      match b with
      | None => q_err (RpcRequestError "Received result of an unexpected type")
      | Some previous_balance =>
          _ <~ request_airdrop (cf_faucet_addr config) me (wrap_u64 tokens);
          current_balance <~ await_balance config previous_balance previous_balance 20;
          d <~ q_pure (i64_sub current_balance previous_balance);
          if negb (d =? tokens) then q_err AirdropFailed
          else q_ret ("Your balance is: " +:+ pretty current_balance)
      end
  | Balance =>
      b <~ wallet_balance config;
      match b with
      | Some 0 => q_ret "No account found! Request an airdrop to get started."
      | Some tokens => q_ret ("Your balance is: " +:+ pretty tokens)
      | None => q_err (RpcRequestError "Received result of an unexpected type")
      end
  | Cancel pubkey =>
      last_id <~ wallet_last_id config;
      tx <~ q_pure (fin_plan_new_signature (cf_id config) pubkey me last_id);
      serialize_and_send_tx config tx
  | Confirm signature =>
      v <~ make_rpc_request ConfirmTransaction (cf_rpc_addr config) 1 (Some (VString (show_signature signature)));
      match as_bool v with
      | Some true => q_ret "Confirmed"
      | Some false => q_ret "Not found"
      | None => q_err (RpcRequestError "Received result of an unexpected type")
      end
  | PayTo tokens to timestamp timestamp_pubkey witnesses cancelable =>
      process_pay config funds state tokens to timestamp timestamp_pubkey witnesses cancelable
  | TimeElapsed to pubkey dt =>
      _ <~ fund_if_empty config;
      last_id <~ wallet_last_id config;
      tx <~ q_pure (fin_plan_new_timestamp (cf_id config) pubkey to dt last_id);
      serialize_and_send_tx config tx
  | WitnessFor to pubkey =>
      last_id <~ wallet_last_id config;
      _ <~ fund_if_empty config;
      tx <~ q_pure (fin_plan_new_signature (cf_id config) pubkey to last_id);
      serialize_and_send_tx config tx
  end.
End Commands.

(** ** A wallet and its node *)

(** The JSON-RPC response to a call: the result of the method, or an error
    object. *)
Definition answered (json : Value) (r : result Value RpcError) : Prop :=
  match r with
  | Ok v => is_object (get json "error") = false /\ get json "result" = v
  | Err _ => is_object (get json "error") = true
  end.
Definition on_ok {A B E} (f : A -> B) (r : result A E) : result B E := match r with Ok a => Ok (f a) | Err e => Err e end.

(** A node serves RPC: [jsonrpc] over HTTP passes the arguments to the method
    and returns its result, and the node's socket takes what it forwards.
    [node_at] is the node behind an address, [datagrams] what was sent. *)
Class RpcServed (W : Type) `{Outside W} `{Libloading} `{Base58} `{Bincode FinPlanState} `{Bincode Transaction} := {
  node_at : W -> string -> RpcMeta;
  map_order : W -> string -> list Hash;
  datagrams : W -> list datagram;
  transactions_at : string -> SocketAddr;
  node_address : forall w addr, rm_transactions_addr (node_at w addr) = transactions_at addr;
  serves_last_id : forall w addr id r, rpc_get_last_id (node_at w addr) = Ret r ->
    exists json w', http_post w addr (rpc_body GetLastId id None) = (Ok json, w') /\
      answered json (on_ok VString r) /\ datagrams w' = datagrams w;
  serves_confirm : forall w addr id s r, rpc_confirm_transaction (node_at w addr) (map_order w addr) s = Ret r ->
    exists json w', http_post w addr (rpc_body ConfirmTransaction id (Some (VString s))) = (Ok json, w') /\
      answered json (on_ok VBool r) /\ datagrams w' = datagrams w;
  serves_send : forall w addr id data,
    exists json w', http_post w addr (rpc_body SendTransaction id (Some (json_bytes data))) = (Ok json, w') /\
      answered json (on_ok VString (rpc_send_transaction (node_at w addr) data true).1) /\
      datagrams w' = datagrams w ++ (rpc_send_transaction (node_at w addr) data true).2 }.

Section WalletLaws.
Context `{Profile} `{Base58} `{!Base58Ok} `{JsonText} `{DateText} `{Ed25519} `{!Ed25519Ok} `{Bincode Transaction} `{!BincodeOk Transaction}
  `{Bincode Signature} `{Bincode DroneRequest} `{Bincode (list Pubkey)} `{Bincode Pubkey} `{Bincode Hash} `{Bincode I64}
  `{Bincode bytes} `{Bincode SystemInstruction} `{Bincode Instruction} `{Bincode FinPlanState} `{Libloading}
  `{Outside W} `{!RpcServed W}.

Lemma wallet_last_id_ok config w h : last_id (rm_processor (node_at w (cf_rpc_addr config))) = Ret h -> wf h ->
  exists w', wallet_last_id config w = Ret (Ok h, w') /\ datagrams w' = datagrams w.
Proof.
  intros Hid Hh. destruct (serves_last_id w (cf_rpc_addr config) 1 (Ok (show_hash h))) as (json & w' & Hp & [He Hr] & Hd).
  { unfold rpc_get_last_id. by rewrite Hid. }
  exists w'. split; [|done]. unfold wallet_last_id, q_bind, make_rpc_request. rewrite Hp, He. cbn [on_ok] in Hr. rewrite Hr.
  cbn [as_str]. unfold show_hash. rewrite bs58_decode_encode. unfold q_pure, Hash_new.
  rewrite bool_decide_true by done. cbn. by destruct h.
Qed.

Lemma send_tx_ok config tx w : wf tx ->
  exists w', serialize_and_send_tx config tx w = Ret (Ok (show_signature (tx_signature tx)), w') /\
    datagrams w' = datagrams w ++ [(serialize tx, transactions_at (cf_rpc_addr config))].
Proof.
  intros Htx. destruct (serves_send w (cf_rpc_addr config) 2 (serialize tx)) as (json & w' & Hp & Ha & Hd).
  unfold rpc_send_transaction in *. rewrite deserialize_serialize in * by done. cbn in Ha, Hd. destruct Ha as [He Hr].
  exists w'. split; [|by rewrite Hd, node_address]. unfold serialize_and_send_tx, q_bind, make_rpc_request.
  by rewrite Hp, He, Hr.
Qed.

Lemma confirm_ok config w s : wf s ->
  exists w', process_command (mk_config (cf_leader config) (cf_id config) (cf_faucet_addr config) (cf_rpc_addr config) (Confirm s))
      (cf_id config) (cf_id config) w =
    Ret (Ok (if is_ok (get_signature_status (rm_processor (node_at w (cf_rpc_addr config))) (map_order w (cf_rpc_addr config)) s)
             then "Confirmed" else "Not found"), w').
Proof.
  intros Hs. destruct (serves_confirm w (cf_rpc_addr config) 1 (show_signature s) _ (confirm_iff _ _ _ Hs))
    as (json & w' & Hp & [He Hr] & _).
  exists w'. cbn [process_command cf_command cf_rpc_addr]. unfold q_bind, make_rpc_request. rewrite Hp, He, Hr.
  cbn [on_ok as_bool]. by destruct (is_ok _).
Qed.

(** The transactions the wallet builds can be sent. *)
Lemma built_wf k keys pid data lid fee tx : Transaction_new k keys pid data lid fee = Ret tx ->
  Forall wf keys -> (length keys <= 2)%nat -> wf pid -> wf lid -> in_i64 fee = true -> vec_wf data ->
  wf tx /\ verify_signature tx = Ret true.
Proof.
  intros Hn Hk Hl Hp Hi Hf Hd. destruct (Transaction_new_Ret k keys pid data lid fee) as (sg & Hnew & Hsg & _).
  destruct (Transaction_new_verifies k keys pid data lid fee) as (tx' & Hnew' & Hv & _). split; [|congruence].
  rewrite Hn in Hnew. injection Hnew as ->. unfold wf, Transaction_wf. cbn [tx_signature tx_keys tx_program_id tx_last_id tx_fee tx_userdata].
  split_and!; [done| | |done..].
  - constructor; [apply public_key_length|done].
  - unfold vec_wf. apply in_u64_iff. cbn [length]. unfold u64_max. lia.
Qed.

(** The argument of [confirm]. *)
Definition confirm_args (s : string) (name : string) : option (list string) :=
  if bool_decide (name = "signature") then Some [s] else None.


(** Only the first witness of a payment counts; the others are dropped without
    a word. *)
Lemma other_witnesses_dropped config funds state n to k ks cancelable w :
  process_pay config funds state n to None None (Some (k :: ks)) cancelable w =
  process_pay config funds state n to None None (Some [k]) cancelable w.
Proof. done. Qed.

(** A payment with a date and a witness is not made, and that is reported as a
    success. *)
Lemma combination_not_paid config funds state n to dt dk ks cancelable w h :
  last_id (rm_processor (node_at w (cf_rpc_addr config))) = Ret h -> wf h ->
  exists w', process_pay config funds state n to (Some dt) dk (Some ks) cancelable w =
      Ret (Ok "Combo transactions not yet handled", w') /\ datagrams w' = datagrams w.
Proof.
  intros Hid Hh. destruct (wallet_last_id_ok config w h Hid Hh) as (w' & Hw & Hd). exists w'. split; [|done].
  unfold process_pay, q_bind. by rewrite Hw.
Qed.

(** A key that is not base58 ends the wallet with a panic. *)
Lemma bad_key_panics s msg : bs58_decode s = None -> arg_pubkey (Some s) msg = Panic.
Proof. intros Hs. unfold arg_pubkey, arg_bytes. cbn. by rewrite Hs. Qed.
End WalletLaws.

(** ** A payment on a date, from the wallet to the payout *)

(** The accounts of the contract's programs. *)
Section Contracts.
Context `{Profile} `{Libloading} `{Bincode SystemInstruction} `{!BincodeOk SystemInstruction} `{Bincode Instruction} `{!BincodeOk Instruction}
  `{Bincode FinPlanState} `{!BincodeOk FinPlanState} `{Bincode U64} `{!BincodeU64Ok}.

Lemma create_runs tx a0 n space pid lp : tx_userdata tx = serialize (CreateAccount n space pid) ->
  wf (CreateAccount n space pid) -> program_id a0 = System_id -> in_i64 (tokens a0 - n) = true -> 0 <= space <= i64_max ->
  system_process tx [a0; Account_default] lp =
    Ret ([set_tokens (tokens a0 - n) a0; mk_account n (replicate (Z.to_nat space) Byte.x00) pid], lp).
Proof.
  intros Hu Hw Hp Hs Hr. unfold system_process. rewrite Hu, deserialize_serialize by done. cbn [index lookup list_lookup unwrap mbind outcome_bind].
  rewrite (proj2 (System_check_id_eq _) Hp). cbn [negb].
  match goal with |- context [if 0 <? space then ?x else ?y] => assert ((if 0 <? space then x else y) = y) as -> by (by destruct (0 <? space)) end.
  cbn [mbind outcome_bind]. destruct Hw as [Hn _]. unfold move_tokens. cbn. rewrite i64_sub_exact by done. cbn.
  rewrite i64_add_exact by done. cbn. unfold zeroed. rewrite (proj2 (Z.leb_le _ _)) by lia. cbn. done.
Qed.

(** No state is read from fresh userdata. *)
Lemma fresh_state n : (8 <= n)%nat -> serialize (mk_u64 0) = replicate 8 Byte.x00 ->
  state_deserialize (replicate n Byte.x00) = Ret None.
Proof.
  intros Hn Hz. unfold state_deserialize. rewrite length_replicate, (proj2 (Nat.ltb_ge _ _)) by lia.
  rewrite slice_Ret by (rewrite length_replicate; lia). rewrite drop_0, take_replicate, Nat.min_l by lia.
  change (8 - 0)%nat with 8%nat. cbn [mbind outcome_bind]. rewrite <- Hz, deserialize_serialize by done. done.
Qed.

(** Storing a state that fits. *)
Lemma store_state_fits s a0 a1 rest : (8 + length (serialize s) <= length (userdata a1))%nat -> vec_wf (userdata a1) ->
  store_state s (a0 :: a1 :: rest) = Ret (a0 :: set_userdata (stored s (userdata a1)) a1 :: rest, Ok tt).
Proof. intros Hf Hv. unfold store_state. cbn. by rewrite state_serialize_fits. Qed.

(** A new contract takes the funds and keeps the plan. *)
Lemma contract_runs tx plan t n : tx_userdata tx = serialize (NewContract (mk_contract t plan)) -> wf plan -> in_i64 t = true ->
  0 <= t -> in_i64 (1 + t) = true -> final_payment plan = None -> serialize (mk_u64 0) = replicate 8 Byte.x00 ->
  (8 + length (serialize (mk_state true (Some plan))) <= n)%nat -> in_u64 (Z.of_nat n) = true ->
  finplan_process tx [mk_account t [] FinPlan_id; mk_account 1 (replicate n Byte.x00) FinPlan_id] =
    Ret ([mk_account 0 [] FinPlan_id;
          mk_account (1 + t) (stored (mk_state true (Some plan)) (replicate n Byte.x00)) FinPlan_id], Ok tt).
Proof.
  intros Hu Hw Ht H0t Ht1 Hp Hz Hfit Hn. unfold finplan_process. rewrite Hu, deserialize_serialize by done.
  set (st := mk_account 1 (replicate n Byte.x00) FinPlan_id).
  assert (Hdeb : apply_debits_to_fin_plan_state tx [mk_account t [] FinPlan_id; st] (NewContract (mk_contract t plan)) =
    Ret ([mk_account 0 [] FinPlan_id; st], Ok tt)).
  { unfold apply_debits_to_fin_plan_state. cbn. rewrite (proj2 (Z.ltb_ge _ _)) by done. rewrite Z.ltb_irrefl.
    rewrite i64_sub_exact by (by rewrite Z.sub_diag). rewrite Z.sub_diag. done. }
  rewrite Hdeb, bind_Ret. unfold apply_credits_to_fin_plan_state. cbn [contract_fin_plan contract_tokens]. rewrite Hp.
  change (index [mk_account 0 [] FinPlan_id; st] 1) with (Ret st). rewrite bind_Ret. cbn [userdata st].
  rewrite fresh_state, bind_Ret by (done || lia). rewrite bool_decide_false by done. cbn [tokens].
  change (tokens st) with 1. rewrite i64_add_exact, bind_Ret by done.
  change (update [mk_account 0 [] FinPlan_id; st] 1 (set_tokens (1 + t))) with
    (Ret [mk_account 0 [] FinPlan_id; mk_account (1 + t) (replicate n Byte.x00) FinPlan_id]). rewrite bind_Ret.
  rewrite store_state_fits; [done|by cbn [userdata]; rewrite length_replicate|]. unfold vec_wf. cbn [userdata]. by rewrite length_replicate.
Qed.

(** The witness a plan waits for pays the payment of the plan. *)
Lemma payout_runs tx i w plan p n aw t ato : tx_userdata tx = serialize i -> wf i -> witness_of i = Some w ->
  (exists k0 k1, tx_keys tx = [k0; k1; pay_to p] /\ apply_witness plan w k0 = Pay p) -> wf plan ->
  userdata aw = [] -> in_i64 (1 + t - pay_tokens p) = true -> in_i64 (tokens ato + pay_tokens p) = true ->
  (8 + length (serialize (mk_state true (Some plan))) <= n)%nat -> (8 + length (serialize (mk_state true None)) <= n)%nat ->
  2 <= serialized_size (mk_state true (Some plan)) -> in_u64 (Z.of_nat n) = true ->
  exists u, finplan_process tx
      [aw; mk_account (1 + t) (stored (mk_state true (Some plan)) (replicate n Byte.x00)) FinPlan_id; ato] =
    Ret ([aw; mk_account (1 + t - pay_tokens p) u FinPlan_id; set_tokens (tokens ato + pay_tokens p) ato], Ok tt).
Proof.
  intros Hu Hi Hw (k0 & k1 & Hk & Ha) Hp Haw Hsub Hadd Hfit Hfit' Hmin Hn.
  set (s1 := mk_state true (Some plan)) in *. set (buf := replicate n Byte.x00).
  assert (Hbuf : length (stored s1 buf) = n).
  { unfold stored. rewrite !length_app, length_drop, u64_size; [unfold buf; rewrite length_replicate; lia|].
    unfold wf, U64_wf, serialized_size. cbn. rewrite in_u64_iff in *. lia. }
  set (st := mk_account (1 + t) (stored s1 buf) FinPlan_id).
  assert (Hdeb : apply_debits_to_fin_plan_state tx [aw; st; ato] i = Ret ([aw; st; ato], Ok tt)).
  { unfold apply_debits_to_fin_plan_state. cbn. rewrite Haw. by destruct i. }
  assert (Hread : state_deserialize (userdata st) = Ret (Some s1)).
  { apply state_deserialize_stored; [done|done|]. unfold serialized_size. rewrite in_u64_iff in *. lia. }
  assert (Hfin : apply_final s1 (tx_keys tx) [aw; st; ato] w = Ret (mk_state true None,
    [aw; set_tokens (1 + t - pay_tokens p) st; set_tokens (tokens ato + pay_tokens p) ato], Ok tt)).
  { unfold apply_final. cbn [pending_fin_plan s1]. rewrite Hk. cbn. rewrite Ha. cbn. rewrite bool_decide_false by tauto.
    cbn. rewrite i64_sub_exact by done. cbn. rewrite i64_add_exact by done. done. }
  eexists. unfold finplan_process. rewrite Hu, deserialize_serialize, Hdeb, bind_Ret by done.
  assert (Hstore : forall (x : outcome (list Account * result unit FinPlanError)), x = store_state (mk_state true None)
    [aw; set_tokens (1 + t - pay_tokens p) st; set_tokens (tokens ato + pay_tokens p) ato] -> x =
    Ret ([aw; mk_account (1 + t - pay_tokens p) (stored (mk_state true None) (stored s1 buf)) FinPlan_id;
          set_tokens (tokens ato + pay_tokens p) ato], Ok tt)).
  { intros x ->. rewrite store_state_fits; [done|cbn [userdata set_tokens st]; lia|]. unfold vec_wf. cbn [userdata set_tokens st].
    by rewrite Hbuf. }
  destruct i; try discriminate; injection Hw as <-; unfold apply_credits_to_fin_plan_state; apply Hstore;
    change (index [aw; st; ato] 1) with (Ret st); rewrite bind_Ret, Hread, bind_Ret; cbn [is_pending s1 pending_fin_plan negb];
    unfold is_pending; rewrite bool_decide_true by done; cbn [negb initialized s1]; by rewrite Hfin.
Qed.
End Contracts.

Section DatedPayment.
Context `{Profile} `{Base58} `{!Base58Ok} `{JsonText} `{Ed25519} `{!Ed25519Ok} `{Bincode Transaction} `{!BincodeOk Transaction}
  `{Bincode Signature} `{Bincode DroneRequest} `{Bincode (list Pubkey)} `{Bincode Pubkey} `{Bincode Hash} `{Bincode I64}
  `{Bincode bytes} `{Bincode SystemInstruction} `{!BincodeOk SystemInstruction} `{Bincode Instruction} `{!BincodeOk Instruction}
  `{Bincode FinPlanState} `{!BincodeOk FinPlanState} `{Bincode U64} `{!BincodeU64Ok} `{Libloading} `{Outside W} `{!RpcServed W}.

(** The plan of a payment on a date. *)
Definition dated_plan (tokens : Z) (to : Pubkey) (dt : DateTime) (dk : Pubkey) (cancelable : option Pubkey) : FinPlan :=
  match cancelable with
  | Some from => Or (CTimestamp dt dk, mk_payment tokens to) (CSignature from, mk_payment tokens from)
  | None => After (CTimestamp dt dk) (mk_payment tokens to)
  end.

(** The plan and what it settles to fit the 196 bytes of the state account. *)
Record payable (plan : FinPlan) : Prop := {
  py_wf : wf plan;
  py_fits : (8 + length (serialize (mk_state true (Some plan))) <= 196)%nat;
  py_settled : (8 + length (serialize (mk_state true None)) <= 196)%nat;
  py_size : 2 <= serialized_size (mk_state true (Some plan)) }.

(** The datagram of a transaction at the node's port. *)
Definition to_node (config : QtcConfig) (tx : Transaction) : datagram :=
  (serialize tx, transactions_at (cf_rpc_addr config)).

(** The three transactions of a conditional payment are sent in order. *)
Lemma send_contract_ok config funds state n h tx3 w : wf h -> wf tx3 ->
  vec_wf (serialize (CreateAccount n 0 FinPlan_id)) -> vec_wf (serialize (CreateAccount 1 196 FinPlan_id)) ->
  exists tx1 tx2 w' text, send_contract config funds state n h (Ret tx3) w = Ret (Ok text, w') /\
    datagrams w' = datagrams w ++ (to_node config <$> [tx1; tx2; tx3]) /\
    tx_userdata tx1 = serialize (CreateAccount n 0 FinPlan_id) /\ tx_userdata tx2 = serialize (CreateAccount 1 196 FinPlan_id) /\
    tx_keys tx1 = [keypair_pubkey (cf_id config); keypair_pubkey funds] /\
    tx_keys tx2 = [keypair_pubkey (cf_id config); keypair_pubkey state].
Proof.
  intros Hh Htx3 Hv1 Hv2. unfold send_contract, system_create.
  destruct (Transaction_new_verifies (cf_id config) [keypair_pubkey funds] System_id (serialize (CreateAccount n 0 FinPlan_id)) h 0)
    as (tx1 & Hn1 & _ & _ & Hk1 & _ & _ & _ & Hu1).
  destruct (Transaction_new_verifies (cf_id config) [keypair_pubkey state] System_id (serialize (CreateAccount 1 196 FinPlan_id)) h 0)
    as (tx2 & Hn2 & _ & _ & Hk2 & _ & _ & _ & Hu2).
  destruct (built_wf _ _ _ _ _ _ _ Hn1) as [Hw1 _]; [repeat constructor; apply public_key_length|simpl; lia|done..|].
  destruct (built_wf _ _ _ _ _ _ _ Hn2) as [Hw2 _]; [repeat constructor; apply public_key_length|simpl; lia|done..|].
  destruct (send_tx_ok config tx1 w Hw1) as (w1 & E1 & D1). destruct (send_tx_ok config tx2 w1 Hw2) as (w2 & E2 & D2).
  destruct (send_tx_ok config tx3 w2 Htx3) as (w3 & E3 & D3).
  exists tx1, tx2, w3. eexists. split_and!; [| |done..].
  - unfold q_bind, q_pure. rewrite Hn1. cbn [mbind outcome_bind]. rewrite E1, Hn2. cbn [mbind outcome_bind]. rewrite E2, E3. done.
  - rewrite D3, D2, D1, <- !app_assoc. done.
Qed.

End DatedPayment.

(** ** The hypotheses can hold *)

Module WalletWitness.
Import Toy SystemCodec EntryCodec Runs.
#[local] Existing Instances ed ed_ok keys_bincode pubkey_bincode hash_bincode bytes_bincode tx_bincode SystemCodec.i64_bincode
  u64_bincode_ok instruction_ok FinPlanCodec.state_bincode_ok.
#[local] Instance tx_codec : BincodeOk Transaction := VoteWitness.tx_codec_ok.

#[local] Instance system_ok : BincodeOk SystemInstruction.
Proof.
  apply codec_bincode_ok. intros [t s p|p|t|p n]; unfold wf; simpl; [rewrite u64_range; tauto|tauto|tauto|].
  assert (length (String.list_byte_of_string n) = String.length n) as Hl.
  { unfold String.list_byte_of_string. rewrite List.length_map. by induction n as [|c n IH]; cbn; [|rewrite IH]. }
  unfold vec_wf. rewrite Hl. unfold wf, Pubkey_wf. assert (Forall (fun _ : byte => True) (String.list_byte_of_string n)).
  { by apply Forall_true. }
  tauto.
Qed.

#[local] Instance hex : Base58 := {| bs58_encode := String.string_of_list_byte; bs58_decode s := Some (String.list_byte_of_string s) |}.
#[local] Instance hex_ok : Base58Ok.
Proof. split. intros b. apply (f_equal Some), String.list_byte_of_string_of_list_byte. Qed.
#[local] Instance plain : JsonText := fun _ => "{}".
#[local] Instance no_date : DateText := fun _ => None.
#[local] Instance signature_plain : Bincode Signature := {| serialize := signature_bytes; deserialize b := Some (mk_signature b) |}.
#[local] Instance drone_plain : Bincode DroneRequest := {|
  serialize '(GetAirdrop n k) := pubkey_bytes k; deserialize b := Some (GetAirdrop 0 (mk_pubkey b)) |}.

(** One node behind every address. *)
Record world := mk_world { wd_node : RpcMeta; wd_sent : list datagram }.
Definition port : SocketAddr := BlockThreadWitness.addr 7.
Definition bytes_json (v : Value) : bytes :=
  match v with VArray l => (fun x => match x with VNumber n => byte_of_Z n | _ => Byte.x00 end) <$> l | _ => [] end.
Definition param (body : Value) : Value := match get body "params" with VArray (p :: _) => p | _ => VNull end.
Definition reply (r : result Value RpcError) : Value :=
  match r with Ok v => VObject [("result", v)] | Err _ => VObject [("error", VObject [])] end.
Definition of_outcome {A} (f : A -> Value) (r : outcome (result A RpcError)) : Value :=
  match r with Ret x => reply (on_ok f x) | Panic => VNull end.
Definition serve (w : world) (body : Value) : result Value unit * world :=
  match get body "method" with
  | VString m =>
      if bool_decide (m = "getLastId") then (Ok (of_outcome VString (rpc_get_last_id (wd_node w))), w)
      else if bool_decide (m = "confirmTransaction") then
        (Ok (of_outcome VBool (rpc_confirm_transaction (wd_node w) [id0] (default EmptyString (as_str (param body))))), w)
      else if bool_decide (m = "sendTransaction") then
        let '(r, ds) := rpc_send_transaction (wd_node w) (bytes_json (param body)) true in
        (Ok (reply (on_ok VString r)), mk_world (wd_node w) (wd_sent w ++ ds))
      else (Err tt, w)
  | _ => (Err tt, w)
  end.
Definition node_meta (m : RpcMeta) : RpcMeta := mk_rpc_meta (rm_processor m) port (rm_faucet_addr m).
#[local] Instance outside : Outside world := {|
  http_post w _ body := serve (mk_world (node_meta (wd_node w)) (wd_sent w)) body;
  tcp_exchange w _ _ := (Err tt, w); sleep_500ms w := w |}.

Lemma bytes_json_bytes b : bytes_json (json_bytes b) = b.
Proof.
  unfold bytes_json, json_bytes. rewrite <- list_fmap_compose. rewrite <- (list_fmap_id b) at 2.
  apply list_fmap_ext. intros i x _. apply byte_of_Z_byte_to_Z.
Qed.

Lemma answered_reply r : answered (reply r) r.
Proof. by destruct r. Qed.

Lemma serve_last_id w id : serve w (rpc_body GetLastId id None) = (Ok (of_outcome VString (rpc_get_last_id (wd_node w))), w).
Proof. reflexivity. Qed.
Lemma serve_confirm w id s : serve w (rpc_body ConfirmTransaction id (Some (VString s))) =
  (Ok (of_outcome VBool (rpc_confirm_transaction (wd_node w) [id0] s)), w).
Proof. reflexivity. Qed.
Lemma serve_send w id data : serve w (rpc_body SendTransaction id (Some (json_bytes data))) =
  let '(r, ds) := rpc_send_transaction (wd_node w) data true in
  (Ok (reply (on_ok VString r)), mk_world (wd_node w) (wd_sent w ++ ds)).
Proof. rewrite <- (bytes_json_bytes data) at 2. reflexivity. Qed.

#[local] Instance served : RpcServed world.
Proof.
  refine {| node_at w _ := node_meta (wd_node w); map_order _ _ := [id0]; datagrams := wd_sent; transactions_at _ := port |}.
  - done.
  - intros w addr id r Hr. cbn [http_post outside]. rewrite serve_last_id. eexists _, _. split; [done|].
    cbn [wd_node wd_sent]. rewrite Hr. split; [apply answered_reply|done].
  - intros w addr id s r Hr. cbn [http_post outside]. rewrite serve_confirm. eexists _, _. split; [done|].
    cbn [wd_node wd_sent]. rewrite Hr. split; [apply answered_reply|done].
  - intros w addr id data. cbn [http_post outside]. rewrite serve_send. cbn [wd_node wd_sent].
    destruct (rpc_send_transaction (node_meta (wd_node w)) data true) as [r ds]. eexists _, _. split; [done|].
    split; [apply answered_reply|done].
Defined.

Definition me : @Keypair ed := Byte.x05.
Definition w0 : world := mk_world (mk_rpc_meta tp0 port port) [].
Definition wallet (c : QtcCommand) : QtcConfig :=
  mk_config (BlockThreadWitness.node Byte.x01) me port "http" c.


(** 3 tokens on date 10, and the timestamp 11 of the key of the date. *)
Definition payer : Account := Account_new 10 0 System_id.
Definition payee : Account := Account_new 1 0 System_id.
Definition keeper : @Keypair ed := Byte.x06.
Definition keeper_key : Pubkey := keypair_pubkey keeper.

Lemma dated_payable : payable (dated_plan 3 (key 2) 10 keeper_key (Some (key 1))).
Proof. split; [repeat split; done|by apply Nat.leb_le; vm_compute|by apply Nat.leb_le; vm_compute|by vm_compute]. Qed.

End WalletWitness.
