(* ===== verification/PeerChoice.v ===== *)
(** * The choice of a gossip peer

    [src/choose_gossip_peer_strategy.rs], and [BlockThread::gossip_request] with
    the strategy it uses.  A peer is drawn with a weight that grows with what
    others report of it.  Weights are computed in [f64], which is the binary64
    of [SpecFloat]; the draw is [WeightedChoice] of the [rand] crate, a
    parameter with its documented behaviour. *)

From S2P Require Import Prelude.
From S2P Require Import Types.
From S2P Require Import Packet.
From S2P Require Import BlockThread.

From Stdlib Require Import SpecFloat.

Local Open Scope Z_scope.

(** ** [f64] *)

Definition f64 : Type := spec_float.
Definition f64_add : f64 -> f64 -> f64 := SFadd 53 1024.
Definition f64_sub : f64 -> f64 -> f64 := SFsub 53 1024.
Definition f64_mul : f64 -> f64 -> f64 := SFmul 53 1024.
Definition f64_div : f64 -> f64 -> f64 := SFdiv 53 1024.
Definition f64_lt : f64 -> f64 -> bool := SFltb.
(** [a >= b] *)
Definition f64_ge (a b : f64) : bool := SFleb b a.
(** [as f64], to the nearest. *)
Definition as_f64 (n : Z) : f64 := binary_normalize 53 1024 n 0 false.
Definition F64_MAX : f64 := S754_finite false (2 ^ 53 - 1) 971.
Definition f64_zero : f64 := S754_zero false.
Definition f64_one : f64 := S754_finite false (2 ^ 52) (-52).

(** [f64::max]: the other argument when one is no number. *)
Definition f64_max (a b : f64) : f64 :=
  match a, b with
  | S754_nan, _ => b
  | _, S754_nan => a
  | _, _ => if f64_lt a b then b else a
  end.

Definition u32_max : Z := 2 ^ 32 - 1.

(** [as u32]: towards zero, within the range; 0 when it is no number. *)
Definition as_u32 (x : f64) : Z :=
  match x with
  | S754_finite false m e => Z.min u32_max (Z.shiftl (Zpos m) e)
  | S754_infinity false => u32_max
  | _ => 0
  end.

Definition u32_add `{Profile} (a b : Z) : outcome Z := arith in_u32 (fun z => z mod 2 ^ 32) (a + b).

(** ** The strategies *)

Definition DEFAULT_WEIGHT : Z := 1.

(** [WeightedChoice]: [draw] is the generator. *)
Class WeightedChoice := {
  generator : Type;
  wc_sample : list (Z * NodeInfo) -> generator -> outcome NodeInfo }.

(** The sum of the weights. *)
Definition total_weight {A} (items : list (Z * A)) : Z := foldr (fun p acc => p.1 + acc) 0 items.

(** What its documentation says: [new] panics without items, when the total is
    zero or when it does not fit a [u32]; a draw gives an item that has a
    weight. *)
Class WeightedChoiceOk `{WeightedChoice} : Prop := {
  wc_panics : forall items d, items = [] \/ total_weight items = 0 \/ u32_max < total_weight items -> wc_sample items d = Panic;
  wc_draws : forall items d, Forall (fun p => 0 <= p.1) items -> 0 < total_weight items <= u32_max ->
    exists w v, wc_sample items d = Ret v /\ (w, v) ∈ items /\ 0 < w }.

Section Choice.
Context `{Profile} `{WeightedChoice}.

(** [ChooseRandomPeerStrategy::choose_peer]. *)
Definition choose_random_peer (random : Z) (options : list NodeInfo) : outcome (result NodeInfo BlockThreadError) :=
  if bool_decide (options = []) then Ret (Err NoPeers)
  else v ← index options (Z.to_nat (random mod Z.of_nat (length options))); Ret (Ok v).

(** The fold that adds the stakes up and keeps the votes that count. *)
Definition count_stake (get_stake : Pubkey -> f64) (acc : f64 * list (f64 * Z)) (vote : Pubkey * Z) : f64 * list (f64 * Z) :=
  let '(total_stake, relevant_votes) := acc in
  let stake := get_stake vote.1 in
  if f64_lt (f64_sub F64_MAX total_stake) stake then
    if f64_lt total_stake stake then (stake, [(stake, vote.2)]) else (total_stake, relevant_votes)
  else (f64_add total_stake stake, relevant_votes ++ [(stake, vote.2)]).

(** The fold that weighs the votes. *)
Definition weigh (last_seen_index : Z) (total_stake sum : f64) (v : f64 * Z) : outcome f64 :=
  let '(stake, vote) := v in
  if vote <? last_seen_index then Ret sum
  else
    d ← u64_sub vote last_seen_index;
    let new_weight := f64_mul (as_f64 d) (f64_div stake total_stake) in
    Ret (if f64_lt (f64_sub F64_MAX sum) new_weight then f64_max new_weight sum else f64_add sum new_weight).
Fixpoint weigh_all (last_seen_index : Z) (total_stake sum : f64) (votes : list (f64 * Z)) : outcome f64 :=
  match votes with
  | [] => Ret sum
  | v :: rest => sum' ← weigh last_seen_index total_stake sum v; weigh_all last_seen_index total_stake sum' rest
  end.

(** [ChooseWeightedPeerStrategy]: what it borrows of the table; [walk] is the
    order in which the map of votes is iterated over. *)
Record ChooseWeightedPeerStrategy := mk_strategy {
  cw_remote : gmap Pubkey Z;
  cw_external_liveness : gmap Pubkey (gmap Pubkey Z);
  cw_get_stake : Pubkey -> f64;
  cw_walk : gmap Pubkey Z -> list (Pubkey * Z) }.

Definition calculate_weighted_remote_index (st : ChooseWeightedPeerStrategy) (peer_id : Pubkey) : outcome Z :=
  let last_seen_index := default 0 (cw_remote st !! peer_id) in
  match cw_external_liveness st !! peer_id with
  | None => Ret DEFAULT_WEIGHT
  | Some votes =>
      if bool_decide (votes = ∅) then Ret DEFAULT_WEIGHT
      else
        let '(total_stake, relevant_votes) := fold_left (count_stake (cw_get_stake st)) (cw_walk st votes) (f64_zero, []) in
        weighted_vote ← weigh_all last_seen_index total_stake f64_zero relevant_votes;
        if f64_ge weighted_vote (as_f64 u32_max) then Ret u32_max
        else u32_add (as_u32 weighted_vote) DEFAULT_WEIGHT
  end.

Fixpoint weighted_peers (st : ChooseWeightedPeerStrategy) (options : list NodeInfo) : outcome (list (Z * NodeInfo)) :=
  match options with
  | [] => Ret []
  | peer :: rest =>
      weight ← calculate_weighted_remote_index st (ni_id peer);
      ps ← weighted_peers st rest; Ret ((weight, peer) :: ps)
  end.

Definition choose_peer (st : ChooseWeightedPeerStrategy) (options : list NodeInfo) (draw : generator)
    : outcome (result NodeInfo BlockThreadError) :=
  if bool_decide (options = []) then Ret (Err NoPeers)
  else ps ← weighted_peers st options; v ← wc_sample ps draw; Ret (Ok v).

(** [BlockThread::get_stake] *)
Definition get_stake (id : Pubkey) : f64 := f64_one.

Definition strategy_of (bt : BlockThread) (walk : gmap Pubkey Z -> list (Pubkey * Z)) : ChooseWeightedPeerStrategy :=
  mk_strategy (bt_remote bt) (bt_external_liveness bt) get_stake walk.

(** [gossip_request], the peer drawn by weight. *)
Definition weighted_gossip_request (bt : BlockThread) (walk : gmap Pubkey Z -> list (Pubkey * Z)) (draw : generator)
    : outcome (result (SocketAddr * Protocol) BlockThreadError) :=
  r ← choose_peer (strategy_of bt walk) (gossip_options bt) draw;
  gossip_request bt (fun _ => match r with Ok v => Some v | Err _ => None end).
End Choice.

(** ** Rounding *)

Lemma iter_pos_nat {A} (f : A -> A) p x : iter_pos f p x = Nat.iter (Pos.to_nat p) f x.
Proof.
  revert x. induction p as [p IH|p IH|]; intros x; cbn [iter_pos]; [rewrite !IH, Pos2Nat.inj_xI|rewrite !IH, Pos2Nat.inj_xO|done].
  - rewrite Nat.iter_succ_r, <- Nat.iter_add. f_equal. lia.
  - rewrite <- Nat.iter_add. f_equal. lia.
Qed.

Lemma shr_1_digits r : Zdigits2 (shr_m (shr_1 r)) = Z.max 0 (Zdigits2 (shr_m r) - 1).
Proof. destruct r as [[|[p|p|]|[p|p|]] ? ?]; cbn -[Z.max Z.sub]; lia. Qed.

Lemma Zdigits2_nonneg m : 0 <= Zdigits2 m.
Proof. by destruct m. Qed.

Lemma shr_digits n r : Zdigits2 (shr_m (Nat.iter n shr_1 r)) = Z.max 0 (Zdigits2 (shr_m r) - Z.of_nat n).
Proof.
  induction n as [|n IH]; [pose proof (Zdigits2_nonneg (shr_m r)); simpl Nat.iter; lia|].
  rewrite Nat.iter_succ, shr_1_digits, IH. lia.
Qed.

Lemma shr_record_of_loc_m m l : shr_m (shr_record_of_loc m l) = m.
Proof. by destruct l as [|[]]. Qed.

(** Shifting leaves the bits of the mantissa. *)
Lemma shr_fexp_digits m e l : Zdigits2 (shr_m (shr_fexp 53 1024 m e l).1) <= 53.
Proof.
  unfold shr_fexp, shr. pose proof (Zdigits2_nonneg m).
  assert (Hf : Zdigits2 m - 53 <= fexp 53 1024 (Zdigits2 m + e) - e) by (unfold fexp; lia).
  destruct (fexp 53 1024 (Zdigits2 m + e) - e) as [|p|p]; cbn [fst]; [rewrite shr_record_of_loc_m; lia| |rewrite shr_record_of_loc_m; lia].
  rewrite iter_pos_nat, shr_digits, shr_record_of_loc_m. lia.
Qed.

Lemma digits2_pos_bound m : Zpos m < 2 ^ Zpos (digits2_pos m).
Proof.
  induction m as [m IH|m IH|]; cbn [digits2_pos]; [| |done]; rewrite Pos2Z.inj_succ, Z.pow_succ_r by lia; lia.
Qed.

(** A number that arithmetic returns has 53 bits. *)
Definition narrow (x : f64) : Prop := match x with S754_finite _ m _ => Zpos m < 2 ^ 53 | _ => True end.

Lemma round_narrow s m e l : narrow (binary_round_aux 53 1024 s m e l).
Proof.
  unfold binary_round_aux. destruct (shr_fexp 53 1024 m e l) as [r1 e1].
  set (m2 := round_nearest_even _ _). pose proof (shr_fexp_digits m2 e1 loc_Exact) as Hd.
  destruct (shr_fexp 53 1024 m2 e1 loc_Exact) as [r2 e2]. cbn [fst] in Hd. destruct (shr_m r2) as [|p|p]; [done| |done].
  destruct (e2 <=? _); [|done]. cbn [narrow]. eapply Z.lt_le_trans; [apply digits2_pos_bound|].
  apply Z.pow_le_mono_r; [done|]. done.
Qed.

Lemma normalize_narrow m e : narrow (binary_normalize 53 1024 m e false).
Proof.
  unfold binary_normalize, binary_round. destruct m as [|m|m]; [done|..]; destruct (shl_align _ _ _) as [mz ez]; apply round_narrow.
Qed.

Lemma mul_narrow a b : narrow (f64_mul a b).
Proof. destruct a, b; first [done|apply round_narrow]. Qed.

Lemma add_narrow a b : narrow a -> narrow b -> narrow (f64_add a b).
Proof. intros Ha Hb. destruct a as [[]|[]| |], b as [[]|[]| |]; first [done|apply normalize_narrow]. Qed.

Lemma max_narrow a b : narrow a -> narrow b -> narrow (f64_max a b).
Proof. intros Ha Hb. unfold f64_max. destruct a, b; try done; by destruct (f64_lt _ _). Qed.

(** Below the bound, the conversion is below it too. *)
Lemma as_u32_below x : narrow x -> f64_ge x (as_f64 u32_max) = false -> 0 <= as_u32 x < u32_max.
Proof.
  change (as_f64 u32_max) with (S754_finite false 9007199252643840 (-21)). unfold f64_ge, SFleb, u32_max.
  destruct x as [s|[]| |[] m e]; cbn [SFcompare as_u32 narrow]; try (intros; lia); try done.
  intros Hm Hc. assert (0 <= Z.shiftl (Zpos m) e) by (apply Z.shiftl_nonneg; lia). unfold u32_max.
  enough (Z.shiftl (Zpos m) e < 2 ^ 32 - 1) by lia.
  destruct (Z.compare_spec (-21) e) as [<-|He|He]; [|done|].
  - change (Pos.compare_cont Eq) with Pos.compare in Hc. destruct (Pos.compare_spec 9007199252643840 m) as [|Hlt|Hlt]; try done.
    apply Pos2Z.pos_lt_pos in Hlt. rewrite Z.shiftl_div_pow2 by done. change (2 ^ (- -21)) with 2097152.
    apply Z.div_lt_upper_bound; [done|]. change (2097152 * (2 ^ 32 - 1)) with 9007199252643840. done.
  - rewrite Z.shiftl_div_pow2 by lia. apply Z.div_lt_upper_bound; [apply Z.pow_pos_nonneg; lia|].
    assert (2 ^ 22 <= 2 ^ (- e)) by (apply Z.pow_le_mono_r; lia).
    change (2 ^ 53) with (2 ^ 22 * 2 ^ 31) in Hm. nia.
Qed.

(** ** The weights *)

(** The maps hold [u64]s, and a walk over a map visits each of its members. *)
Record strategy_ok (st : ChooseWeightedPeerStrategy) : Prop := {
  so_remote : forall k n, cw_remote st !! k = Some n -> in_u64 n = true;
  so_votes : forall k vs v n, cw_external_liveness st !! k = Some vs -> vs !! v = Some n -> in_u64 n = true;
  so_walk : forall m, cw_walk st m ≡ₚ map_to_list m }.

Lemma count_stake_votes get_stake votes acc v : v ∈ (fold_left (count_stake get_stake) votes acc).2 ->
  v ∈ acc.2 \/ exists k, (k, v.2) ∈ votes.
Proof.
  revert acc. induction votes as [|[k n] votes IH]; intros [t rs]; cbn [fold_left]; [by left|].
  intros [Hv|(k' & Hk)]%IH; [|right; exists k'; by right]. unfold count_stake in Hv.
  destruct (f64_lt _ _); [destruct (f64_lt _ _)|]; cbn [snd] in *;
    set_unfold; naive_solver.
Qed.

Section WeightLaws.
Context `{Profile}.

Lemma weigh_all_narrow last_seen total votes sum : in_u64 last_seen = true -> Forall (fun v => in_u64 v.2 = true) votes ->
  narrow sum -> exists s, weigh_all last_seen total sum votes = Ret s /\ narrow s.
Proof.
  intros Hl Hv. revert sum. induction Hv as [|[stake vote] votes Hvote _ IH]; intros sum Hs; cbn [weigh_all]; [by exists sum|].
  apply in_u64_iff in Hl. cbn [snd] in Hvote. apply in_u64_iff in Hvote. unfold weigh.
  destruct (vote <? last_seen) eqn:E; [rewrite bind_Ret; by apply IH|]. apply Z.ltb_ge in E.
  rewrite u64_sub_exact, !bind_Ret by (apply in_u64_iff; lia). apply IH.
  destruct (f64_lt _ _); [apply max_narrow|apply add_narrow]; auto using mul_narrow.
Qed.

Lemma weight_returns st id : strategy_ok st ->
  exists w, calculate_weighted_remote_index st id = Ret w /\ DEFAULT_WEIGHT <= w <= u32_max.
Proof.
  intros [Hr Hv Hw]. unfold calculate_weighted_remote_index, DEFAULT_WEIGHT.
  destruct (cw_external_liveness st !! id) as [votes|] eqn:E; [|by exists 1]. case_bool_decide; [by exists 1|].
  pose proof (count_stake_votes (cw_get_stake st) (cw_walk st votes) (f64_zero, [])) as Hin.
  destruct (fold_left _ _ _) as [total rs]. cbn [snd] in Hin.
  destruct (weigh_all_narrow (default 0 (cw_remote st !! id)) total rs f64_zero) as (s & -> & Hs); [|..|done|].
  - destruct (cw_remote st !! id) eqn:Ei; [by eapply Hr|done].
  - apply Forall_forall. intros v [Hn|(k & Hk)]%Hin; [by apply elem_of_nil in Hn|].
    rewrite Hw in Hk. apply elem_of_map_to_list in Hk. by eapply Hv.
  - rewrite bind_Ret. destruct (f64_ge _ _) eqn:Eg; [by exists u32_max|].
    pose proof (as_u32_below s Hs Eg). exists (as_u32 s + 1). unfold u32_add, arith, in_u32. unfold u32_max in *.
    rewrite (proj2 (Z.leb_le _ _)), (proj2 (Z.ltb_lt _ _)) by lia. split; [done|lia].
Qed.

Lemma weighted_peers_returns st options : strategy_ok st ->
  exists ws, weighted_peers st options = Ret (zip ws options) /\ length ws = length options /\
    Forall (fun w => DEFAULT_WEIGHT <= w <= u32_max) ws /\
    Forall2 (fun w v => calculate_weighted_remote_index st (ni_id v) = Ret w) ws options.
Proof.
  intros Hok. induction options as [|v options (ws & E & Hl & Hf & H2)]; [by exists []|].
  destruct (weight_returns st (ni_id v) Hok) as (w & Hw & Hb). exists (w :: ws). cbn [weighted_peers].
  rewrite Hw, bind_Ret, E, bind_Ret. split_and!; [done|by cbn; rewrite Hl|by constructor|by constructor].
Qed.
End WeightLaws.

(** ** The request *)

Lemma total_weight_zip {A} ws (vs : list A) : length ws = length vs -> total_weight (zip ws vs) = foldr Z.add 0 ws.
Proof. revert vs. induction ws as [|w ws IH]; intros [|v vs] Hl; try done. injection Hl as Hl. cbn. by rewrite <- (IH vs Hl). Qed.

Lemma sum_nonneg ws : Forall (fun w => 0 <= w) ws -> 0 <= foldr Z.add 0 ws.
Proof. induction 1; cbn; lia. Qed.

Lemma sum_one {A} (R : Z -> A -> Prop) ws vs v w : Forall2 R ws vs -> Forall (fun w => 0 <= w) ws -> v ∈ vs ->
  (forall w', R w' v -> w' = w) -> w <= foldr Z.add 0 ws.
Proof.
  intros H2 Hn Hv Hw. induction H2 as [|w1 v1 ws vs HR H2 IH]; [by apply elem_of_nil in Hv|].
  apply Forall_cons in Hn as [Hn1 Hn]. pose proof (sum_nonneg ws Hn). cbn [foldr].
  apply elem_of_cons in Hv as [->|Hv]; [rewrite (Hw _ HR); lia|]. specialize (IH Hn Hv). lia.
Qed.

Lemma sum_two {A} (R : Z -> A -> Prop) ws vs v1 v2 w1 w2 : Forall2 R ws vs -> Forall (fun w => 0 <= w) ws ->
  v1 ∈ vs -> v2 ∈ vs -> v1 <> v2 -> (forall w', R w' v1 -> w' = w1) -> (forall w', R w' v2 -> w' = w2) ->
  w1 + w2 <= foldr Z.add 0 ws.
Proof.
  intros H2 Hn Hv1 Hv2 Hne Hw1 Hw2. induction H2 as [|w v ws vs HR H2 IH]; [by apply elem_of_nil in Hv1|].
  apply Forall_cons in Hn as [Hn1 Hn]. cbn [foldr].
  apply elem_of_cons in Hv1 as [->|Hv1]; apply elem_of_cons in Hv2 as [->|Hv2]; [done|..].
  - rewrite (Hw1 _ HR). pose proof (sum_one R ws vs v2 w2 H2 Hn Hv2 Hw2). lia.
  - rewrite (Hw2 _ HR). pose proof (sum_one R ws vs v1 w1 H2 Hn Hv1 Hw1). lia.
  - specialize (IH Hn Hv1 Hv2). lia.
Qed.

Section RequestLaws.
Context `{Profile} `{WeightedChoice} `{!WeightedChoiceOk}.

(** Beyond a [u32], the draw panics. *)
Lemma request_panics bt walk draw ws : weighted_peers (strategy_of bt walk) (gossip_options bt) = Ret (zip ws (gossip_options bt)) ->
  length ws = length (gossip_options bt) -> u32_max < foldr Z.add 0 ws -> weighted_gossip_request bt walk draw = Panic.
Proof.
  intros E Hl Hs. unfold weighted_gossip_request, choose_peer. case_bool_decide as Ho.
  - rewrite Ho in Hl. destruct ws; [by unfold u32_max in Hs|done].
  - by rewrite E, bind_Ret, wc_panics by (right; right; by rewrite total_weight_zip).
Qed.

(** C25: whom a node asks.  The weight of every peer is at least [DEFAULT_WEIGHT]
    and fits a [u32], whatever is reported of it.  While the weights add up to
    at most a [u32], the request goes to a peer the node may ask, for what the
    node has not had from it, and there is none only when there are no peers;
    beyond that, the request panics. *)
Theorem gossip_peer_chosen : forall bt walk draw me,
  bt_table bt !! bt_id bt = Some me -> strategy_ok (strategy_of bt walk) ->
  exists ws, Forall2 (fun w v => calculate_weighted_remote_index (strategy_of bt walk) (ni_id v) = Ret w) ws (gossip_options bt) /\
    Forall (fun w => DEFAULT_WEIGHT <= w <= u32_max) ws /\
    if foldr Z.add 0 ws <=? u32_max then
      match weighted_gossip_request bt walk draw with
      | Ret (Ok (addr, RequestUpdates ix from)) =>
          exists v, v ∈ gossip_options bt /\ addr = ci_ncp (ni_contact_info v) /\
            ix = default 0 (bt_remote bt !! ni_id v) /\ from = me
      | Ret (Err NoPeers) => gossip_options bt = []
      | _ => False
      end
    else weighted_gossip_request bt walk draw = Panic.
Proof.
  intros bt walk draw me Hme Hok. destruct (weighted_peers_returns _ (gossip_options bt) Hok) as (ws & E & Hl & Hf & H2).
  exists ws. split_and!; [done..|].
  pose proof (total_weight_zip ws (gossip_options bt) Hl) as Ht.
  assert (Hf0 : Forall (fun p => 0 <= p.1) (zip ws (gossip_options bt))).
  { apply Forall_forall. intros [w v] Hin. apply elem_of_zip_l in Hin. cbn [fst].
    pose proof (proj1 (Forall_forall _ _) Hf w Hin) as Hw. cbn beta in Hw. unfold DEFAULT_WEIGHT in Hw. lia. }
  destruct (foldr Z.add 0 ws <=? u32_max) eqn:Es; [apply Z.leb_le in Es|apply Z.leb_gt in Es].
  - unfold weighted_gossip_request, choose_peer. case_bool_decide as Ho; [done|]. rewrite E, bind_Ret.
    destruct ws as [|w0 ws0]; [by destruct (gossip_options bt)|].
    assert (0 < foldr Z.add 0 (w0 :: ws0)).
    { apply Forall_cons in Hf as [Hw0 Hf]. cbn [foldr]. unfold DEFAULT_WEIGHT in *.
      enough (0 <= foldr Z.add 0 ws0) by lia. apply sum_nonneg. eapply Forall_impl; [exact Hf|]. cbn. lia. }
    destruct (wc_draws _ draw Hf0) as (w & v & -> & Hin & _); [lia|]. rewrite !bind_Ret. unfold gossip_request, my_data.
    rewrite Hme. cbn [unwrap]. rewrite bind_Ret. exists v. apply elem_of_zip_r in Hin. done.
  - by eapply request_panics.
Qed.
End RequestLaws.

(** ** One report *)

Lemma digits2_log2 m : Zpos (digits2_pos m) = Z.log2 (Zpos m) + 1.
Proof.
  enough (Hl : 2 ^ (Zpos (digits2_pos m) - 1) <= Zpos m).
  { pose proof (digits2_pos_bound m). rewrite (Z.log2_unique (Zpos m) (Zpos (digits2_pos m) - 1)); [lia|lia|].
    by rewrite <- Z.add_1_r, Z.sub_add. }
  induction m as [m IH|m IH|]; cbn [digits2_pos]; [| |done]; rewrite Pos2Z.inj_succ, Z.sub_1_r, Z.pred_succ;
    rewrite Z.sub_1_r in IH; rewrite <- (Z.succ_pred (Zpos (digits2_pos m))), Z.pow_succ_r by lia; lia.
Qed.

Lemma shr_exact n m : 0 < m -> Nat.iter n shr_1 (Build_shr_record (m * 2 ^ Z.of_nat n) false false) = Build_shr_record m false false.
Proof.
  intros Hm. induction n as [|n IH]; [cbn; by rewrite Z.mul_1_r|]. rewrite Nat.iter_succ_r, Nat2Z.inj_succ, Z.pow_succ_r by lia.
  replace (m * (2 * 2 ^ Z.of_nat n)) with (2 * (m * 2 ^ Z.of_nat n)) by ring.
  assert (0 < m * 2 ^ Z.of_nat n) by (apply Z.mul_pos_pos; [done|apply Z.pow_pos_nonneg; lia]).
  by destruct (m * 2 ^ Z.of_nat n).
Qed.

(** Shifting out zeros is exact. *)
Lemma shr_fexp_exact m e n : Z.log2 (Zpos m) = 52 -> -1074 <= e ->
  shr_fexp 53 1024 (Zpos m * 2 ^ Z.of_nat n) (e - Z.of_nat n) loc_Exact = (Build_shr_record (Zpos m) false false, e).
Proof.
  intros Hm He. unfold shr_fexp, fexp, emin. pose proof (Z.pow_pos_nonneg 2 (Z.of_nat n)).
  assert (Hd : Zdigits2 (Zpos m * 2 ^ Z.of_nat n) = 53 + Z.of_nat n).
  { destruct (Zpos m * 2 ^ Z.of_nat n) as [|p|p] eqn:Ep; [lia| |lia]. cbn [Zdigits2]. rewrite digits2_log2, <- Ep, Z.log2_mul_pow2 by lia. lia. }
  rewrite Hd. replace (_ - (e - Z.of_nat n)) with (Z.of_nat n) by lia. cbn [shr_record_of_loc]. unfold shr.
  destruct n as [|n]; [cbn; do 2 f_equal; lia|].
  destruct (Z.of_nat (S n)) as [|p|p] eqn:Ep; [lia| |lia]. rewrite iter_pos_nat, <- Ep.
  replace (Pos.to_nat p) with (S n) by lia. rewrite shr_exact by lia. f_equal. lia.
Qed.

Lemma round_exact m e n : Z.log2 (Zpos m) = 52 -> -1074 <= e <= 971 ->
  binary_round_aux 53 1024 false (Zpos m * 2 ^ Z.of_nat n) (e - Z.of_nat n) loc_Exact = S754_finite false m e.
Proof.
  intros Hm He. unfold binary_round_aux. rewrite shr_fexp_exact by (done || lia). cbn [shr_m loc_of_shr_record round_nearest_even].
  pose proof (shr_fexp_exact m e 0 Hm) as E2. cbn [Z.of_nat Z.pow Z.pow_pos] in E2. rewrite Z.mul_1_r, Z.sub_0_r in E2.
  rewrite E2 by lia. cbn [shr_m]. by rewrite (proj2 (Z.leb_le _ _)) by lia.
Qed.

Lemma iter_xO m n : Zpos (Pos.iter xO m n) = Zpos m * 2 ^ Zpos n.
Proof.
  induction n as [|n IH] using Pos.peano_ind; [cbn; lia|]. rewrite Pos.iter_succ, Pos2Z.inj_xO, IH, Pos2Z.inj_succ, Z.pow_succ_r by lia.
  ring.
Qed.

(** A whole number below [2 ^ 53] as a float: its bits are moved to the top. *)
Lemma as_f64_exact p : Zpos p < 2 ^ 53 -> exists m j, as_f64 (Zpos p) = S754_finite false m (- j) /\
  Zpos m = Zpos p * 2 ^ j /\ Z.log2 (Zpos m) = 52 /\ j = 52 - Z.log2 (Zpos p) /\ 0 <= j.
Proof.
  intros Hp. assert (Hl : 0 <= Z.log2 (Zpos p) < 53) by (split; [apply Z.log2_nonneg|by apply Z.log2_lt_pow2]).
  unfold as_f64, binary_normalize, binary_round. rewrite digits2_log2.
  assert (Hf : fexp 53 1024 (Z.log2 (Zpos p) + 1 + 0) = - (52 - Z.log2 (Zpos p))) by (unfold fexp, emin; lia).
  rewrite Hf. set (j := 52 - Z.log2 (Zpos p)) in *. unfold shl_align. rewrite Z.sub_0_r.
  destruct (Z.eq_dec j 0) as [Ej|Ej].
  - rewrite Ej. exists p, 0. split_and!; [|by rewrite Z.mul_1_r|lia|lia|lia].
    refine (eq_trans _ (round_exact p 0 0 _ _)); [f_equal; cbn; lia|lia|lia].
  - destruct (- j) as [|n|n] eqn:En; [lia|lia|]. exists (Pos.iter xO p n), (Zpos n). pose proof (iter_xO p n) as Hi.
    assert (H52 : Z.log2 (Zpos (Pos.iter xO p n)) = 52) by (rewrite Hi, Z.log2_mul_pow2 by lia; lia).
    split_and!; [|done|done|lia|lia]. refine (eq_trans _ (round_exact (Pos.iter xO p n) (- Zpos n) 0 _ _)); [f_equal; cbn; lia|done|lia].
Qed.

(** A stake of one leaves the difference as it is. *)
Lemma mul_one m e : Z.log2 (Zpos m) = 52 -> -1022 <= e <= 971 ->
  f64_mul (S754_finite false m e) f64_one = S754_finite false m e.
Proof.
  intros Hm He. unfold f64_mul, f64_one. cbn [SFmul xorb]. rewrite <- (round_exact m e 52) by (done || lia). f_equal.
Qed.

(** Comparing with the bound, and converting. *)
Lemma whole_weight `{Profile} p m j : Zpos m = Zpos p * 2 ^ j -> j = 52 - Z.log2 (Zpos p) -> 0 <= j ->
  (if f64_ge (S754_finite false m (- j)) (as_f64 u32_max) then Ret u32_max
   else u32_add (as_u32 (S754_finite false m (- j))) DEFAULT_WEIGHT) = Ret (Z.min (Zpos p + 1) u32_max).
Proof.
  intros Hm Hj Hj0. change (as_f64 u32_max) with (S754_finite false 9007199252643840 (-21)).
  assert (Hs : Z.shiftl (Zpos m) (- j) = Zpos p).
  { rewrite Z.shiftl_div_pow2, Z.opp_involutive, Hm by lia. apply Z.div_mul. pose proof (Z.pow_pos_nonneg 2 j). lia. }
  assert (Hge : f64_ge (S754_finite false m (- j)) (S754_finite false 9007199252643840 (-21)) = (u32_max <=? Zpos p)).
  { pose proof (Z.log2_spec (Zpos p) eq_refl) as [Hlo Hhi]. unfold f64_ge, SFleb, u32_max. cbn [SFcompare].
    destruct (Z.compare_spec (-21) (- j)) as [E|E|E].
    - replace j with 21 in * by lia. change (Pos.compare_cont Eq) with Pos.compare. change (2 ^ 21) with 2097152 in Hm.
      change 9007199252643840%positive with (4294967295 * 2097152)%positive.
      destruct (Z.leb_spec (2 ^ 32 - 1) (Zpos p)) as [Hle|Hlt], (Pos.compare_spec (4294967295 * 2097152) m) as [Hc|Hc|Hc]; try done; lia.
    - symmetry. apply Z.leb_le. assert (2 ^ 32 <= 2 ^ Z.log2 (Zpos p)) by (apply Z.pow_le_mono_r; lia). lia.
    - symmetry. apply Z.leb_gt. assert (2 ^ Z.succ (Z.log2 (Zpos p)) <= 2 ^ 31) by (apply Z.pow_le_mono_r; lia). lia. }
  rewrite Hge. cbn [as_u32]. rewrite Hs. unfold u32_add, arith, in_u32, DEFAULT_WEIGHT, u32_max in *.
  destruct (Z.leb_spec (2 ^ 32 - 1) (Zpos p)); [by rewrite Z.min_r by lia|].
  rewrite (proj2 (Z.leb_le _ _)), (proj2 (Z.ltb_lt _ _)) by lia. cbn [andb]. f_equal. lia.
Qed.

(** The weight of a peer of which one node has reported: one more than what the
    reporter has had from it beyond what this node has had, at most a [u32]. *)
Lemma one_report `{Profile} st id from v : strategy_ok st -> cw_get_stake st = get_stake ->
  cw_external_liveness st !! id = Some {[from := v]} -> 0 <= v - default 0 (cw_remote st !! id) < 2 ^ 53 ->
  calculate_weighted_remote_index st id = Ret (Z.min (v - default 0 (cw_remote st !! id) + 1) u32_max).
Proof.
  intros [Hr Hv Hw] Hg He Hd. unfold calculate_weighted_remote_index. rewrite He, Hg.
  rewrite bool_decide_false by (apply map_non_empty_singleton). specialize (Hw {[from := v]}).
  rewrite map_to_list_singleton in Hw. symmetry in Hw. apply Permutation_length_1_inv in Hw as ->.
  set (la := default 0 (cw_remote st !! id)) in *. change (fold_left _ _ _) with (f64_one, [(f64_one, v)]). cbv beta iota.
  cbn [weigh_all]. unfold weigh. rewrite (proj2 (Z.ltb_ge _ _)) by lia.
  rewrite u64_sub_exact, !bind_Ret by (apply in_u64_iff; unfold u64_max; lia).
  change (f64_sub F64_MAX f64_zero) with F64_MAX. change (f64_div f64_one f64_one) with f64_one.
  destruct (v - la) as [|p|p] eqn:Ed; [done| |lia].
  destruct (as_f64_exact p) as (m & j & -> & Hm & H52 & Hj & Hj0); [lia|]. pose proof (Z.log2_nonneg (Zpos p)).
  rewrite mul_one by (done || lia).
  assert (f64_lt F64_MAX (S754_finite false m (- j)) = false) as ->.
  { unfold f64_lt, SFltb, F64_MAX. cbn [SFcompare]. by rewrite (proj2 (Z.compare_gt_iff _ _)) by lia. }
  change (f64_add f64_zero (S754_finite false m (- j))) with (S754_finite false m (- j)). by apply whole_weight.
Qed.

Section Rumours.
Context `{Profile} `{WeightedChoice} `{!WeightedChoiceOk}.

(** What a table keeps of two reports. *)
Lemma two_reports remote from ext a b va vb : a <> b -> ext !! a = None -> ext !! b = None ->
  default 0 (remote !! a) < va -> default 0 (remote !! b) < vb ->
  fold_left (add_rumour remote from) [(a, va); (b, vb)] ext = <[b := {[from := vb]}]> (<[a := {[from := va]}]> ext).
Proof.
  intros Hab Ha Hb Hva Hvb. cbn [fold_left]. unfold add_rumour. cbn [fst snd].
  rewrite !(proj2 (Z.leb_gt _ _)) by done. rewrite Ha, lookup_insert_ne, Hb by done. cbn [default]. unfold id.
  rewrite !lookup_empty. cbn [default]. unfold id. by rewrite !Z.max_id, !insert_empty.
Qed.

(** C40: reports can stop a node's gossip.  Nothing ties what a message reports to
    what the named peers have sent: a single message that reports large
    enough indices of two peers makes the weights add up to more than a
    [u32], and the node's next request panics. *)
Theorem rumours_stop_gossip : forall bt from ix a b va vb clock walk draw,
  let bt' := set_remote (<[from := ix]> (bt_remote bt))
               (delete from (<[ni_id b := {[from := vb]}]> (<[ni_id a := {[from := va]}]> (bt_external_liveness bt)))) bt in
  let seen v := default 0 (bt_remote bt !! ni_id v) in
  strategy_ok (strategy_of bt walk) -> in_u64 ix = true -> in_u64 va = true -> in_u64 vb = true ->
  a ∈ gossip_options bt -> b ∈ gossip_options bt -> ni_id a <> ni_id b -> from <> ni_id a -> from <> ni_id b ->
  bt_external_liveness bt !! ni_id a = None -> bt_external_liveness bt !! ni_id b = None ->
  0 < va - seen a < 2 ^ 53 -> 0 < vb - seen b < 2 ^ 53 ->
  u32_max < Z.min (va - seen a + 1) u32_max + Z.min (vb - seen b + 1) u32_max ->
  handle_receive_updates bt from ix [] [(ni_id a, va); (ni_id b, vb)] clock = Ret bt' /\
  weighted_gossip_request bt' walk draw = Panic.
Proof.
  intros bt from ix a b va vb clock walk draw bt' seen [Hr Hv Hw] Hix Hva Hvb Ha Hb Hab Hfa Hfb Hea Heb Hda Hdb Hsum.
  split.
  { unfold handle_receive_updates, apply_updates. cbn [insert_all]. rewrite bind_Ret, two_reports; unfold seen in *; (done || lia). }
  assert (Hok : strategy_ok (strategy_of bt' walk)).
  { split; [|..|done]; cbn [strategy_of cw_remote cw_external_liveness bt' set_remote bt_remote bt_external_liveness].
    - intros k n. rewrite lookup_insert_Some. intros [[_ <-]|[_ Hk]]; [done|by eapply Hr].
    - intros k vs v n. rewrite lookup_delete_Some, !lookup_insert_Some. intros [_ [[_ <-]|[_ [[_ <-]|[_ Hk]]]]].
      1, 2: by intros [_ <-]%lookup_singleton_Some. by eapply Hv. }
  assert (Hwa : calculate_weighted_remote_index (strategy_of bt' walk) (ni_id a) = Ret (Z.min (va - seen a + 1) u32_max)).
  { rewrite (one_report _ _ from va); [|done|done|..]; cbn [strategy_of cw_remote cw_external_liveness bt' set_remote bt_remote bt_external_liveness].
    - by rewrite lookup_insert_ne by done.
    - by rewrite lookup_delete_ne, lookup_insert_ne, lookup_insert_eq by done.
    - rewrite lookup_insert_ne by done. unfold seen in *. lia. }
  assert (Hwb : calculate_weighted_remote_index (strategy_of bt' walk) (ni_id b) = Ret (Z.min (vb - seen b + 1) u32_max)).
  { rewrite (one_report _ _ from vb); [|done|done|..]; cbn [strategy_of cw_remote cw_external_liveness bt' set_remote bt_remote bt_external_liveness].
    - by rewrite lookup_insert_ne by done.
    - by rewrite lookup_delete_ne, lookup_insert_eq by done.
    - rewrite lookup_insert_ne by done. unfold seen in *. lia. }
  destruct (weighted_peers_returns _ (gossip_options bt') Hok) as (ws & E & Hl & Hf & H2).
  apply (request_panics bt' walk draw ws); [done..|]. eapply Z.lt_le_trans; [exact Hsum|].
  apply (sum_two _ ws (gossip_options bt') a b _ _ H2); [|done|done|congruence|..].
  - eapply Forall_impl; [exact Hf|]. unfold DEFAULT_WEIGHT. cbn. lia.
  - intros w' Ew. rewrite Hwa in Ew. by injection Ew as <-.
  - intros w' Ew. rewrite Hwb in Ew. by injection Ew as <-.
Qed.
End Rumours.

(** ** Concrete runs *)

Module PeerChoiceWitness.
Import BlockThreadWitness.
#[local] Instance traps : Profile := true.

(** A generator that always draws the first item. *)
#[local] Instance first_item : WeightedChoice := {|
  generator := unit;
  wc_sample items _ :=
    if (total_weight items =? 0) || (u32_max <? total_weight items) then Panic
    else match filter (fun p => 0 < p.1) items with [] => Panic | p :: _ => Ret p.2 end |}.
Lemma weight_some (items : list (Z * NodeInfo)) : Forall (fun p => 0 <= p.1) items -> 0 < total_weight items ->
  filter (fun p => 0 < p.1) items <> [].
Proof.
  intros Hf. induction Hf as [|p items Hp Hf IH]; [done|]. rewrite filter_cons. case_decide; [done|].
  cbn [total_weight foldr]. intros Ht. apply IH. unfold total_weight. lia.
Qed.
#[local] Instance first_item_ok : WeightedChoiceOk.
Proof.
  split; cbn [wc_sample first_item].
  - intros items d [->|[->|Ht]]; [done|done|]. by rewrite (proj2 (Z.ltb_lt _ _) Ht), orb_true_r.
  - intros items d Hf [Ht Hm]. rewrite (proj2 (Z.eqb_neq _ _)), (proj2 (Z.ltb_ge _ _)) by lia. cbn [orb].
    pose proof (weight_some items Hf Ht). destruct (filter _ items) as [|[w v] rest] eqn:E; [done|].
    assert ((w, v) ∈ filter (fun p => 0 < p.1) items) as [Hw Hin]%list_elem_of_filter by (rewrite E; by left). by exists w, v.
Qed.

Definition any_draw : generator (WeightedChoice := first_item) := tt.

(** A node that knows two peers and has heard nothing of them. *)
Definition b2 : BlockThread := after_ret dummy (insert b1 (node Byte.x04) 8).

Lemma b2_maps : bt_remote b2 = ∅ /\ bt_external_liveness b2 = ∅.
Proof. split; vm_compute; reflexivity. Qed.

Lemma b2_strategy : strategy_ok (strategy_of b2 map_to_list).
Proof.
  destruct b2_maps as [Hr He].
  split; [intros k n|intros k vs v n|done]; cbn [strategy_of cw_remote cw_external_liveness]; rewrite ?Hr, ?He; by rewrite lookup_empty.
Qed.

Lemma knows_peer b : b = Byte.x03 \/ b = Byte.x04 -> node b ∈ gossip_options b2.
Proof. intros [->| ->]; apply (bool_decide_unpack _); vm_compute; exact I. Qed.

Lemma gossip_peer_witness : exists ws,
  Forall2 (fun w v => calculate_weighted_remote_index (strategy_of b2 map_to_list) (ni_id v) = Ret w) ws (gossip_options b2) /\
  Forall (fun w => DEFAULT_WEIGHT <= w <= u32_max) ws /\
  if foldr Z.add 0 ws <=? u32_max then
    match weighted_gossip_request b2 map_to_list any_draw with
    | Ret (Ok (addr, RequestUpdates ix from)) =>
        exists v, v ∈ gossip_options b2 /\ addr = ci_ncp (ni_contact_info v) /\
          ix = default 0 (bt_remote b2 !! ni_id v) /\ from = node Byte.x02
    | Ret (Err NoPeers) => gossip_options b2 = []
    | _ => False
    end
  else weighted_gossip_request b2 map_to_list any_draw = Panic.
Proof. apply (gossip_peer_chosen b2 map_to_list any_draw); [vm_compute; reflexivity|apply b2_strategy]. Defined.

(** One message about two peers, from a node this one need not know. *)
Definition liar : Pubkey := key_of Byte.x09.
Lemma rumours_witness : exists bt',
  handle_receive_updates b2 liar 1 [] [(key_of Byte.x03, 2 ^ 40); (key_of Byte.x04, 2 ^ 40)] (fun _ => 9) = Ret bt' /\
  weighted_gossip_request bt' map_to_list any_draw = Panic.
Proof.
  eexists. destruct b2_maps as [Hr He].
  apply (rumours_stop_gossip b2 liar 1 (node Byte.x03) (node Byte.x04) (2 ^ 40) (2 ^ 40));
    rewrite ?Hr, ?He, ?lookup_empty; try apply b2_strategy; try (apply knows_peer; auto); try reflexivity; try discriminate; split; reflexivity.
Defined.
End PeerChoiceWitness.
