(* ===== verification/Replicator.v ===== *)
(** * The replicator

    [src/replicator.rs]: a node that only keeps a copy of a stretch of the
    ledger.  It runs the window service up to a last entry, stores what the
    service delivers ([store_ledger_stage.rs]) and answers repair requests. *)

From S2P Require Import Prelude.
From S2P Require Import Types.
From S2P Require Import Codec.
From S2P Require Import Packet.
From S2P Require Import FinPlan.
From S2P Require Import FinPlanProgram.
From S2P Require Import SystemProgram.
From S2P Require Import Transactions.
From S2P Require Import Entry.
From S2P Require Import Block.
From S2P Require Import Ledger.
From S2P Require Import BlockThread.
From S2P Require Import Window.
From S2P Require Import WindowService.
From S2P Require Import Serving.
From S2P Require Import Replicate.
From S2P Require Import Fullnode.

Local Open Scope Z_scope.

Section ReplicatorOps.
Context `{Profile} `{ByteOrder} `{Bincode Pubkey} `{Bincode Entry} `{Bincode U64}.

(** What the threads share: the table, the state of the window service and
    the ledger, when there is a path for one. *)
Record Replicator := mk_replicator {
  re_blockthread : BlockThread;
  re_service : service;
  re_max_entry_height : Z;
  re_ledger : option LedgerFiles }.

(** [StoreLedgerStage::new]: the ledger is created anew. *)
Definition StoreLedgerStage_new (ledger_path : bool) : option LedgerFiles := if ledger_path then Some empty_ledger else None.

(** [done] is the flag the caller passes in. *)
Definition Replicator_new (entry_height max_entry_height : Z) (ledger_path : bool) (info : NodeInfo)
    (network_addr : option SocketAddr) (done : bool) (now : Z) : outcome Replicator :=
  w ← new_window_from_entries [] entry_height (ni_id info);
  bt ← unwrap (ok (bt_new info));
  match new_entry_point <$> network_addr with
  | Some leader_info =>
      '(_, bt') ← insert bt leader_info now;
      Ret (mk_replicator bt' (service_start w entry_height done) max_entry_height (StoreLedgerStage_new ledger_path))
  | None => Panic
  end.

(** Blobs arrive: the window service takes them, and the store stage what it
    sent.  [None] when the service has not ended within its fuel. *)
Definition Replicator_receives (rp : Replicator) (first : list Blob) (more : list (list Blob)) : option (outcome Replicator) :=
  match recv_window (re_service rp) (re_blockthread rp) (re_max_entry_height rp)
          (get_leader_rotation_interval (re_blockthread rp)) (Ok first) more true true with
  | None => None
  | Some Panic => Some Panic
  | Some (Ret (s, r)) =>
      Some (match r with
            | Ok out =>
                if bool_decide (st_entries out = []) then Ret (mk_replicator (re_blockthread rp) s (re_max_entry_height rp) (re_ledger rp))
                else
                  '(_, ledger) ← store_requests (re_ledger rp) (Ok (st_entries out)) [];
                  Ret (mk_replicator (re_blockthread rp) s (re_max_entry_height rp) ledger)
            | Err _ => Ret (mk_replicator (re_blockthread rp) s (re_max_entry_height rp) (re_ledger rp))
            end)
  end.

(** [Replicator::join]: a thread that panicked makes it panic; [queued] are the
    blobs left in the retransmit channel, which it drains. *)
Definition Replicator_join (ncp fetch_stage t_window store_ledger_stage : thread_result unit) (queued : list (list Blob)) : outcome nat :=
  _ ← unwrap (ok ncp);
  _ ← unwrap (ok fetch_stage);
  _ ← unwrap (ok t_window);
  _ ← unwrap (ok store_ledger_stage);
  Ret (length queued).
End ReplicatorOps.

Section ReplicatorLaws.
Context `{Profile} `{ByteOrder} `{!ByteOrderOk} `{Bincode Pubkey} `{!PubkeyWire}
  `{Bincode Entry} `{!BincodeOk Entry} `{!BincodeFrom Entry} `{!BincodeFromOk Entry}
  `{Bincode U64} `{!BincodeU64Ok} `{!BincodeFrom U64} `{!BincodeFromOk U64}.

(** A replicator that knows its entry point starts with an empty window and
    is not a leader at any height. *)
Lemma Replicator_starts start max_ix path info addr done now : in_u64 start = true -> ni_version info = 0 ->
  ni_leader_id info <> ni_id info ->
  exists bt, Replicator_new start max_ix path info (Some addr) done now =
      Ret (mk_replicator bt (service_start default_window start done) max_ix (StoreLedgerStage_new path)) /\
    bt_ok bt /\ get_leader_rotation_interval bt = 100 /\ forall c, ~ leads_at bt 100 c.
Proof.
  intros Hs Hv Hl. unfold Replicator_new, new_window_from_entries, block_to_blobs, to_blobs_with_id, initialized_window.
  cbn [blobs_from mbind outcome_bind length]. rewrite u64_sub_exact by (by rewrite Z.sub_0_r).
  cbn [mbind outcome_bind]. unfold index_blobs. cbn [index_blobs_from mbind outcome_bind length]. rewrite drop_nil.
  cbn [cache_blobs mbind outcome_bind]. unfold bt_new at 1. rewrite Hv. cbn [Z.eqb negb ok unwrap mbind outcome_bind].
  set (bt0 := mk_bt _ _ _ _ _ _ _ _ _). assert (Hok0 : bt_ok bt0 /\ bt_id bt0 = ni_id info) by (apply (bt_new_ok info); unfold bt_new; by rewrite Hv).
  cbn [fmap option_fmap option_map].
  destruct (insert_returns bt0 (new_entry_point addr) now) as (n & bt' & Ei); [done|]. rewrite Ei, bind_Ret. exists bt'.
  split; [done|]. destruct (insert_ok _ _ _ _ _ (proj1 Hok0) Ei) as [Hok' Hid]. split; [done|].
  assert (Hme : bt_table bt' !! ni_id info = Some info /\ bt_scheduled_leaders bt' = ∅ /\ bt_leader_rotation_interval bt' = 100).
  { apply insert_cases in Ei as [(_ & -> & _)|(_ & Hnew & ups & _ & ->)].
    - cbn. by rewrite lookup_singleton_eq.
    - cbn [bt_table bt_scheduled_leaders bt_leader_rotation_interval inserted bt0]. split; [|done].
      destruct (decide (ni_id (new_entry_point addr) = ni_id info)) as [E|E]; [|by rewrite lookup_insert_ne, lookup_singleton_eq by done].
      exfalso. specialize (Hnew info). rewrite E in Hnew. cbn [bt_table bt0] in Hnew. rewrite lookup_singleton_eq, Hv in Hnew.
      by specialize (Hnew eq_refl). }
  destruct Hme as (Hme & Hsch & Hint). split; [done|]. intros c (_ & _ & me & Hd & Hg). unfold my_data, get_scheduled_leader in *.
  rewrite Hid, (proj2 Hok0), Hme in Hd. injection Hd as <-. rewrite Hsch, lookup_empty in Hg. unfold my_data in Hg.
  rewrite Hid, (proj2 Hok0), Hme in Hg. injection Hg as Hg. done.
Qed.


(** The ledger of a replicator starts at 0 whatever height it starts at, and
    repair requests are answered from it by height: one for height [i] is
    answered with the entry of height [start + i]. *)
Lemma answers_misnumbered es me i e from_addr : ledger_ok es -> es !! i = Some e ->
  answer_from_ledger (Some (files_of es)) me (Z.of_nat i) from_addr =
    (out ← Entry_to_blob e (Some (Z.of_nat i)) (Some (ni_id me)) (Some from_addr); Ret (Some out)).
Proof. intros Hok He. unfold answer_from_ledger. by rewrite (get_entry_files es i e Hok He). Qed.
End ReplicatorLaws.

(** ** A run *)

Module ReplicatorWitness.
Import Toy EntryCodec EntryWitness WindowWitness LedgerWitness.
#[local] Existing Instances sha entry_bincode entry_ok entry_wire FinPlanCodec.instruction_bincode
  PacketWitness.le PacketWitness.le_ok PacketWitness.pk PacketWitness.pk_ok wrapping
  entry_from entry_from_ok u64_from u64_from_ok u64_bincode u64_bincode_ok.

End ReplicatorWitness.
