(* ===== verification/Client.v ===== *)
(** * A client's transfers and its search for the leader

    [src/thin_client.rs]: sending transactions, polling for their signatures and
    for balances, and finding the leader by gossip.  The loops run on the turns
    they take: what the socket delivers in each, and the time passed by then;
    [None] is a loop that goes on. *)

From S2P Require Import Prelude.
From S2P Require Import Types.
From S2P Require Import Codec.
From S2P Require Import Packet.
From S2P Require Import FinPlan.
From S2P Require Import FinPlanProgram.
From S2P Require Import SystemProgram.
From S2P Require Import Transactions.
From S2P Require Import Entry.
From S2P Require Import Block.
From S2P Require Import Processor.
From S2P Require Import BlockThread.
From S2P Require Import Broadcast.
From S2P Require Import Serving.
From S2P Require Import Requests.
From S2P Require Import Fullnode.

Local Open Scope Z_scope.

(** ** Transfers *)

Section Transfers.
Context `{Profile} `{Ed25519} `{Bincode Instruction} `{Bincode FinPlanState} `{Bincode U64} `{Bincode Response}
  `{Bincode Transaction} `{Bincode (list Pubkey)} `{Bincode Pubkey} `{Bincode Hash} `{Bincode I64} `{Bincode bytes}
  `{Bincode SystemInstruction}.

(** [sent]: whether the socket took the datagram. *)
Definition transfer_signed (transactions_addr : SocketAddr) (tx : Transaction) (sent : bool)
    : result Signature ClientError * list datagram :=
  if sent then (Ok (tx_signature tx), [(serialize tx, transactions_addr)]) else (Err ClientIo, []).

Definition client_transfer (transactions_addr : SocketAddr) (n : Z) (keypair : Keypair) (to : Pubkey) (last_id : Hash) (sent : bool)
    : outcome (result Signature ClientError * list datagram) :=
  tx ← system_new keypair to n last_id; Ret (transfer_signed transactions_addr tx sent).

(** A turn of a loop that polls: the datagrams that answer, and the time
    passed, in seconds or milliseconds as the loop reads it. *)
Definition poll_turn : Type := list (result bytes unit) * Z.

Fixpoint poll_for_signature (c : ThinClient) (signature : Signature) (turns : list poll_turn)
    : option (result unit ClientError * ThinClient) :=
  match turns with
  | [] => None
  | (socket, elapsed) :: rest =>
      match check_signature c signature socket with
      | None => None
      | Some (true, c') => Some (Ok tt, c')
      | Some (false, c') => if 1 <? elapsed then Some (Err SignatureMissing, c') else poll_for_signature c' signature rest
      end
  end.

(** [net x]: the [x]-th attempt. *)
Fixpoint retry_from (x : nat) (c : ThinClient) (transactions_addr : SocketAddr) (tx : Transaction) (tries : nat)
    (net : nat -> bool * list poll_turn) : option (result Signature ClientError * list datagram * ThinClient) :=
  match tries with
  | O => Some (Err RetryFailed, [], c)
  | S tries' =>
      let '(sent, turns) := net x in
      if negb sent then Some (Err ClientIo, [], c)
      else
        match poll_for_signature c (tx_signature tx) turns with
        | None => None
        | Some (Ok _, c') => Some (Ok (tx_signature tx), [(serialize tx, transactions_addr)], c')
        | Some (Err _, c') =>
            '(r, ds, c'') ← retry_from (S x) c' transactions_addr tx tries' net;
            Some (r, (serialize tx, transactions_addr) :: ds, c'')
        end
  end.
Definition retry_transfer_signed (c : ThinClient) (transactions_addr : SocketAddr) (tx : Transaction) (tries : nat)
    (net : nat -> bool * list poll_turn) : option (result Signature ClientError * list datagram * ThinClient) :=
  retry_from 0 c transactions_addr tx tries net.

(** In milliseconds; the time is read after the sleep. *)
Fixpoint poll_balance_with_timeout (c : ThinClient) (pubkey : Pubkey) (timeout : Z) (turns : list poll_turn)
    : option (result Z ClientError * ThinClient) :=
  match turns with
  | [] => None
  | (socket, elapsed) :: rest =>
      match client_get_balance c pubkey socket with
      | None => None
      | Some (Ok bal, c') => Some (Ok bal, c')
      | Some (Err e, c') => if timeout <? elapsed then Some (Err e, c') else poll_balance_with_timeout c' pubkey timeout rest
      end
  end.
Definition poll_get_balance (c : ThinClient) (pubkey : Pubkey) (turns : list poll_turn) : option (result Z ClientError * ThinClient) :=
  poll_balance_with_timeout c pubkey 1000 turns.

(** Retrying sends copies of one datagram, at most as many as asked for; it
    gives up only after that many, and what it returns is the signature. *)
Lemma retry_sends x c addr tx tries net r ds c' : retry_from x c addr tx tries net = Some (r, ds, c') ->
  exists n, (n <= tries)%nat /\ ds = replicate n (serialize tx, addr) /\
    match r with
    | Ok s => s = tx_signature tx /\ (0 < n)%nat
    | Err RetryFailed => n = tries
    | Err e => e = ClientIo
    end.
Proof.
  revert x c ds. induction tries as [|tries IH]; intros x c ds; cbn [retry_from]; [intros ?; simplify_eq; by exists O|].
  destruct (net x) as [[] turns]; cbn [negb]; [|intros ?; simplify_eq; exists O; split; [lia|done]].
  destruct (poll_for_signature c (tx_signature tx) turns) as [[[[]|e] c1]|]; [|intros E|done].
  - intros ?; simplify_eq. exists 1%nat. split_and!; [lia|done|done|lia].
  - apply bind_Some in E as ([[r0 ds0] c0] & E & Es). simplify_eq/=.
    destruct (IH _ _ _ E) as (n & Hn & -> & Hr). exists (S n). split_and!; [lia|done|].
    destruct r as [s|[]]; try done; [destruct Hr; split; [done|lia]|lia].
Qed.
End Transfers.

(** ** The leader *)

Inductive SearchError := SearchNoLeader | SearchJoin.

Section Search.
Context `{Profile}.

(** [BlockThread::spy_node]: a node that cannot be reached. *)
Definition spy_node (pubkey : Pubkey) : NodeInfo :=
  let daddr := V4 [Byte.x00; Byte.x00; Byte.x00; Byte.x00] 0 in NodeInfo_new pubkey daddr daddr daddr daddr daddr.

(** [poll_gossip_for_leader] before its loop: the table the gossip threads
    start with. *)
Definition start_search (pubkey : Pubkey) (leader_ncp : SocketAddr) (now : Z) : outcome BlockThread :=
  bt ← unwrap (ok (bt_new (spy_node pubkey)));
  '(_, bt') ← insert bt (new_entry_point leader_ncp) now;
  Ret bt'.

(** Its loop: each turn sees the table as the gossip threads left it, and the
    milliseconds passed; [closed] is what closing them returns. *)
Definition deadline (timeout : option Z) : Z := match timeout with Some s => s * 1000 | None => u64_max * 1000 end.
Fixpoint poll_gossip_for_leader (timeout : option Z) (turns : list (BlockThread * Z)) (closed : thread_result unit)
    : option (outcome (result NodeInfo SearchError)) :=
  match turns with
  | [] => None
  | (bt, elapsed) :: rest =>
      match leader_data bt with
      | Panic => Some Panic
      | Ret (Some l) => Some (Ret (match closed with Ok _ => Ok l | Err _ => Err SearchJoin end))
      | Ret None =>
          if deadline timeout <? elapsed then Some (Ret (Err SearchNoLeader))
          else poll_gossip_for_leader timeout rest closed
      end
  end.

Lemma start_search_table pubkey ncp now : pubkey <> Pubkey_default ->
  exists bt, start_search pubkey ncp now = Ret bt /\ bt_id bt = pubkey /\ bt_update_index bt = 2 /\
    bt_table bt = <[Pubkey_default := new_entry_point ncp]> {[pubkey := spy_node pubkey]} /\ bt_ok bt.
Proof.
  intros Hk. unfold start_search. pose proof (bt_new_ok (spy_node pubkey) _ eq_refl) as [Hok Hid].
  cbn [bt_new spy_node NodeInfo_new ni_version ni_id Z.eqb negb ok unwrap mbind outcome_bind] in *.
  set (bt0 := mk_bt _ _ _ _ _ _ _ _ _) in *. destruct (insert bt0 (new_entry_point ncp) now) as [[n bt]|] eqn:Ei.
  2: { unfold insert in Ei. cbn [bt_table bt0 new_entry_point NodeInfo_new ni_id] in Ei. rewrite lookup_singleton_ne in Ei by done.
       cbn [bt_update_index bt0] in Ei. by rewrite u64_add_exact in Ei by done. }
  exists bt. destruct (insert_ok _ _ _ _ _ Hok Ei) as [Hok' Hid']. split_and!; [done|by rewrite Hid', Hid|..|done].
  all: apply insert_cases in Ei as [(_ & _ & old & Ho & _)|(_ & _ & ups & Hu & ->)];
    [cbn [bt_table bt0 new_entry_point NodeInfo_new ni_id] in Ho; by rewrite lookup_singleton_ne in Ho|].
  - cbn [bt_update_index bt0] in Hu. rewrite u64_add_exact in Hu by done. injection Hu as <-. done.
  - done.
Qed.

(** The only leader that is named. *)
Lemma named_leader bt l order : bt_ok bt -> bt_table bt !! ni_id l = Some l -> ni_leader_id l = ni_id l -> ni_id l <> Pubkey_default ->
  (forall k n, bt_table bt !! k = Some n -> n = l \/ ni_leader_id n = Pubkey_default) ->
  order ≡ₚ elements (named_leaders bt) -> top_leader bt order = Some (ni_id l).
Proof.
  intros Hok Hl Hself Hd Hall Ho. assert (Hn : named_leaders bt = {[ ni_id l ]}).
  { apply set_eq. intros k. unfold named_leaders. rewrite elem_of_list_to_set, list_elem_of_filter, elem_of_singleton, list_elem_of_fmap. split.
    - intros [Hk (n & -> & Hin)]. apply table_values_elem in Hin; [|done]. by destruct (Hall _ _ Hin) as [->|?].
    - intros ->. split; [done|]. exists l. split; [done|]. by apply table_values_elem. }
  rewrite Hn, elements_singleton in Ho. symmetry in Ho. apply Permutation_length_1_inv in Ho as ->. done.
Qed.

End Search.

(** ** A run *)

Module ClientWitness.
Import BlockThreadWitness.
#[local] Instance traps : Profile := true.

Definition leader : NodeInfo := set_leader_id (key_of Byte.x02) (node Byte.x02).
Definition spy : Pubkey := key_of Byte.x07.
Definition asked : BlockThread := match start_search spy (addr 1) 3 with Ret bt => bt | Panic => dummy end.
Definition told : BlockThread :=
  match handle_receive_updates asked (key_of Byte.x02) 9 [leader] [] (fun _ => 4) with Ret bt => bt | Panic => dummy end.

Lemma told_run : start_search spy (addr 1) 3 = Ret asked /\
  handle_receive_updates asked (key_of Byte.x02) 9 [leader] [] (fun _ => 4) = Ret told /\
  [key_of Byte.x02] = elements (named_leaders told).
Proof. split_and!; vm_compute; reflexivity. Qed.

End ClientWitness.
